(* ===== verification/_CoqProject ===== *)
-Q . S2P
Prelude.v
Bytes.v
Json.v
Platform.v
Base64.v
Errors.v
Secrets.v
Config.v
Frame.v
Canonical.v
ReplayStore.v
Auth.v
StateMachine.v
DeploymentDb.v
ControllerContract.v
Controller.v
Receipts.v
Operations.v
Server.v
Connection.v
ArchiveContract.v
Tar.v
Extractor.v
Release.v
Artifacts.v
Jobs.v
Files.v
Pointers.v
DeliveryPlan.v
DeliveryDb.v
DeliveryLedger.v
DeliveryService.v
DeploymentService.v
