(* ===== verification/Prelude.v ===== *)
(** * Baby Quirt: a verification development

    Baby Quirt is a supervisor that runs on one host.  A gateway sends it signed requests over a
    Unix socket; it authenticates each one, executes it at most once, and answers with a signed
    receipt.  Beside it live the machinery that replaces the supervisor itself: a release archive
    that is written and extracted deterministically, a ledger of deployments and one of automated
    deliveries, and a rollback controller that restores the host when nobody commits a success
    before a deadline.  This development translates that code, under [src/src], into executable Rocq
    definitions, and proves what makes it correct.

    ** How the parts interact, and where they are

    A chunk of bytes travels as follows:

    - [Connection.v] ([handleConnection] of [server.ts]): the handler of a [data] event gives the
      chunk to the frame reader, requires the handshake first, and stops at each request until its
      operation has ended; [Frame.v] ([protocol/frame.ts]) is that reader and the frame codec.
    - [Auth.v] ([auth/principal.ts], [auth/authenticator.ts]): [authenticate] checks the envelope
      and the signature over the canonical text ([Canonical.v], [crypto/canonical.ts]) and commits
      the nonce and the request identifier to the replay store ([ReplayStore.v],
      [state/replay-store.ts]), whose file survives a restart.
    - [Server.v] ([handleRequest] of [server.ts], [operations/registry.ts]): what follows the
      authentication, as two steps of a request around its [await]: [arrive] and [finish]; requests
      in flight interleave, and [restart] begins a new process on the same file.  A response carries
      a receipt ([Receipts.v], [receipts/receipt.ts], [receipts/verify.ts]).
    - [Operations.v] ([operations/definitions.ts], [operations/registry.ts]): the catalogue of the
      operations and what each is routed to: the managers and services below.
    - [Artifacts.v] ([artifacts/manager.ts]): uploads in contiguous chunks, finalized into immutable
      objects named by their digest; a kill may come between any two changes of the files.
    - [Jobs.v] ([jobs/manager.ts], [state/store.ts], [process/identity.ts]): child processes, as a
      history of events on the records, the stream files and the signals; restarts recover the
      records.  The environment of a child is resolved by [Secrets.v] ([secrets/provider.ts]).
    - [Files.v] ([files/manager.ts]): reading, writing and listing files over a file system with
      directories and symbolic links, and the confined atomic replacement.
    - [DeploymentDb.v] ([deployment/database.ts]): the ledger of deployments, guarded by
      [StateMachine.v] ([deployment/state-machine.ts], [deployment/types.ts]);
      [DeploymentService.v] ([deployment/service.ts]) drives it, one operation after the other.
    - [DeliveryPlan.v], [DeliveryDb.v], [DeliveryService.v] ([delivery/plan.ts],
      [delivery/persistence.ts], [delivery/service.ts]): plans, ledger and operations of the
      automated deliveries; [DeliveryLedger.v] holds what the ledger guarantees, as the refinement of
      an abstract step relation.
    - [ControllerContract.v] ([controller/contract.ts], [controller/types.ts]) and [Controller.v]
      ([controller/storage.ts], [controller/controller.ts]): the signed records of the rollback
      controller, its create-once files and lock, and its actions on a host.
    - [ArchiveContract.v], [Tar.v], [Extractor.v] ([release/archive-contract.ts],
      [release/deterministic-archive.ts], [release/strict-extractor.ts]): the manifest, the writer
      and the extractor; [Release.v] composes the last two.

    Underneath: this file (results, strict equality, lists, the state monad and its rules),
    [Bytes.v] (buffers and strings), [Json.v] (values, order of properties, [JSON.stringify]),
    [Platform.v] (hashes, signatures, dates and directories as type classes), [Base64.v]
    (what [Buffer] does of base64), [Errors.v] ([auth/errors.ts], [operations/errors.ts]) and [Config.v]
    ([config.ts]).

    ** Conventions

    A definition has the name of the function it translates; its doc comment begins with the file
    and the lines.  A buffer is a list of bytes as [Z]; a string is a [String.string] whose
    characters are UTF-16 code units below 256; an integer is a [Z], with the checks of
    [Number.isSafeInteger] where the code makes them.  A JSON value of unknown origin is a
    [Json.json], the result of [JSON.parse], and is checked by the code's own checks.  A function
    that throws returns a [result]; one that also changes a state is in a state monad whose state
    survives an exception, so a change made before a [throw] remains; a database transaction is a
    function whose error leaves the tables as they were, which is what the [ROLLBACK] in the code
    does.  A handler that suspends at an [await] is two steps.  Randomness, clocks, process
    identifiers and the answers of the host are arguments.

    Code that is not under [src] is an argument or a type class: SHA-256, Ed25519 and the key
    operations ([Platform.Crypto]), gzip ([Tar.Gzip]), the parser of dates, the host adapter of the
    controller.  A law that a theorem needs (collisions do not occur, a signature verifies, a
    decompressed archive is what was compressed) is a field of a class or a named hypothesis, and
    every theorem with a hypothesis has a witness that instantiates it.

    ** What the theorems show

    - Requests: a signed request is accepted at most once and an operation starts at most once, in
      every interleaving and over restarts ([Auth], [Server]); what is accepted, exactly
      ([Auth.authenticate_iff]); an answered request is answered again with the stored response;
      the frames of a connection are served once each, however the stream is cut
      ([Connection], [Frame]); signatures bind what they should ([Canonical], [Receipts]), with the
      one field they miss.
    - Artifacts: what is finalized has its digest and never changes; what is uploaded is downloaded
      ([Artifacts]).
    - Jobs: what [completed] means, over restarts and failures of the store; what a restart does to
      every record, with its limit, the recycled process number; the output of a child is kept whole
      and read back in pages; no secret reaches the records; waiting ends ([Jobs]).
    - Files: a replacement changes nothing outside its root, leaves the old file or the whole new one
      wherever it is killed, and demands what it was asked to demand; a listing that is not truncated
      is complete ([Files]).
    - Deployments: every recorded history is a run of the state machine, hash-chained, and a
      transition is recorded once ([DeploymentDb]); an active product changes only under an armed
      guard, and no state is a dead end ([StateMachine]); a request runs once and follows the path of
      its operation, and one that fails stays pending ([DeploymentService]).
    - Deliveries: a run is the projection of its chain of events, whatever operations are called
      ([DeliveryLedger]); leases fence their holders; a plan reads back as it was authorized; each
      operation makes one step of the ledger or none ([DeliveryService]).
    - Rollback: files are created once, at most one guard is active, a committed success is never
      rolled back, a missed deadline restores exactly the snapshot ([Controller]).
    - Releases: a tree that is archived and extracted is the same tree; the archive does not depend
      on directory order; the extractor accepts only the manifest, within its bounds, whatever the
      chunks ([Tar], [Extractor], [Release]).

    ** Fuel and bounds

    [Frame.feedFrames] loops with fuel: one more than the number of buffered bytes, which is enough
    because a turn removes a header of 32 bytes ([Frame.feedFrames_fuel]).  The loop of the
    extractor over a chunk has the same kind of fuel and [Extractor.v] proves that it suffices;
    splitting a path counts down its length.  Waiting for a job looks at it as often as its timeout
    has milliseconds, and three times more, which is enough when the clock advances
    ([Jobs.waiting_ends]); the walk of a directory has as much fuel as the tree is deep, and one more;
    a name goes through forty symbolic links at most, which is the limit of the kernel.  Everything
    else is structural recursion.  The limits
    of the source (frame length, member counts, archive bytes, page sizes, events per run) appear as
    the constants of the source, and exceeding them is an error of the model as of the code.

    ** What is not modelled, and why

    Listening on a socket, terminals, durability ([fsync]) and permissions are effects with no logic
    to check; of a process there is what the manager of jobs sees of it.  Rows of the databases are typed as the STRICT tables declare them, so
    the conversions of a row to a record are identities; integrity checks over a file that another
    program changed are outside the model.  Characters above 255, fractional numbers and numbers
    above 10^21 do not occur in the documents of the protocol and are not values of the model.  The
    manager of terminals, the operations against GitHub, the installers and the rehearsal in a
    container mostly drive other programs; the manifest of the development lists them one by one. *)

From Stdlib Require Export ZArith Lia Ascii String List.
From stdpp Require Export base gmap sets list strings option.

#[global] Open Scope Z_scope.
#[global] Open Scope list_scope.

(** ** Strict equality, written the way the source writes it *)

Declare Scope js_scope.
Delimit Scope js_scope with js.
Notation "a === b" := (bool_decide (a = b)) (at level 70, no associativity) : js_scope.
Notation "a !== b" := (negb (bool_decide (a = b))) (at level 70, no associativity) : js_scope.
#[global] Open Scope js_scope.

(** ** Results: a value, or the exception the code throws *)

Inductive result (E A : Type) : Type :=
| Ok (a : A)
| Err (e : E).
Arguments Ok {E A} a.
Arguments Err {E A} e.

#[global] Instance result_ret E : MRet (result E) := fun A a => Ok a.
#[global] Instance result_bind E : MBind (result E) :=
  fun A B f m => match m with Ok a => f a | Err e => Err e end.
#[global] Instance result_eq_dec E A `{EqDecision E, EqDecision A} : EqDecision (result E A).
Proof. solve_decision. Defined.

(** [require b e]: the guard [if (!b) throw e]. *)
Definition require {E : Type} (b : bool) (e : E) : result E unit :=
  if b then Ok tt else Err e.

Definition is_ok {E A} (r : result E A) : bool :=
  match r with Ok _ => true | Err _ => false end.

Fixpoint result_mapM {E A B} (f : A -> result E B) (l : list A) : result E (list B) :=
  match l with
  | [] => Ok []
  | x :: l => y ← f x; ys ← result_mapM f l; Ok (y :: ys)
  end.

Fixpoint result_forM {E A} (f : A -> result E unit) (l : list A) : result E unit :=
  match l with
  | [] => Ok tt
  | x :: l => _ ← f x; result_forM f l
  end.

Lemma bind_Ok {E A B} (m : result E A) (f : A -> result E B) b :
  (m ≫= f) = Ok b <-> exists a, m = Ok a /\ f a = Ok b.
Proof. destruct m; cbn; naive_solver. Qed.

Lemma bind_Err {E A B} (m : result E A) (f : A -> result E B) e :
  (m ≫= f) = Err e <-> m = Err e \/ exists a, m = Ok a /\ f a = Err e.
Proof. destruct m; cbn; naive_solver. Qed.

Lemma require_Ok {E} (b : bool) (e : E) u : require b e = Ok u <-> b = true.
Proof. destruct b, u; cbn; naive_solver. Qed.

Lemma require_Err {E} (b : bool) (e e' : E) : require b e = Err e' <-> b = false /\ e = e'.
Proof. destruct b; cbn; naive_solver. Qed.

Lemma require_bind {E A} (b : bool) (e : E) (f : unit -> result E A) a :
  (require b e ≫= f) = Ok a <-> b = true /\ f tt = Ok a.
Proof. destruct b; cbn; naive_solver. Qed.

Lemma result_mapM_Ok {E A B} (f : A -> result E B) l l' :
  result_mapM f l = Ok l' <-> Forall2 (fun x y => f x = Ok y) l l'.
Proof.
  revert l'. induction l as [|x l IH]; intros l'; cbn; split.
  - intros [= <-]. constructor.
  - inversion 1; subst; done.
  - intros (y & Hy & (ys & Hys & [= <-])%bind_Ok)%bind_Ok. constructor; [done|]. by apply IH.
  - inversion 1 as [|? y ? ys Hy Hys]; subst. rewrite Hy. cbn.
    apply IH in Hys. by rewrite Hys.
Qed.

Lemma result_forM_Ok {E A} (f : A -> result E unit) l u :
  result_forM f l = Ok u <-> Forall (fun x => f x = Ok tt) l.
Proof.
  destruct u. induction l as [|x l IH]; cbn; split; try done.
  - intros ([] & Hx & Hl)%bind_Ok. constructor; [done|]. by apply IH.
  - inversion 1 as [|? ? Hx Hl]; subst. rewrite Hx. cbn. by apply IH.
Qed.

(** Splits every hypothesis [m ≫= f = Ok b] and every satisfied guard. *)
Ltac result_inv :=
  repeat match goal with
  | H : mbind _ _ = Ok _ |- _ =>
      let a := fresh "a" in let H1 := fresh "H" in let H2 := fresh "H" in
      apply bind_Ok in H; destruct H as (a & H1 & H2); cbn beta in H2
  | H : require _ _ = Ok _ |- _ => apply require_Ok in H
  | H : Ok _ = Ok _ |- _ => injection H as H; try subst
  | H : Err _ = Ok _ |- _ => discriminate H
  | H : Ok _ = Err _ |- _ => discriminate H
  | H : mret _ = Ok _ |- _ => injection H as H; try subst
  | u : unit |- _ => destruct u
  end.

(** Turns boolean guards into propositions. *)
Ltac bool_inv :=
  repeat match goal with
  | H : _ && _ = true |- _ => apply andb_true_iff in H; destruct H
  | H : _ || _ = false |- _ => apply orb_false_iff in H; destruct H
  | H : negb _ = true |- _ => apply negb_true_iff in H
  | H : negb _ = false |- _ => apply negb_false_iff in H
  | H : bool_decide _ = true |- _ => apply bool_decide_eq_true in H
  | H : bool_decide _ = false |- _ => apply bool_decide_eq_false in H
  | H : (_ <? _) = true |- _ => apply Z.ltb_lt in H
  | H : (_ <? _) = false |- _ => apply Z.ltb_ge in H
  | H : (_ <=? _) = true |- _ => apply Z.leb_le in H
  | H : (_ <=? _) = false |- _ => apply Z.leb_gt in H
  end.

(** A decidable goal is replaced by its boolean test. *)
Ltac decided := refine (bool_decide_eq_true_1 _ _).

(** Case analysis on the innermost condition of a hypothesis or the goal. *)
Ltac split_if :=
  match goal with
  | |- context [if ?b then _ else _] =>
      lazymatch b with context [if _ then _ else _] => fail | _ => destruct b eqn:? end
  | H : context [if ?b then _ else _] |- _ =>
      lazymatch b with context [if _ then _ else _] => fail | _ => destruct b eqn:? end
  end.

(** A boolean property of the integers below [n] is checked by computation. *)
Lemma range_check (n : Z) (p : Z -> bool) :
  forallb p (seqZ 0 n) = true -> forall z, 0 <= z < n -> p z = true.
Proof.
  intros H z Hz. rewrite forallb_forall in H. apply H.
  apply list_elem_of_In, elem_of_seqZ. lia.
Qed.

(** ** State and exceptions *)

(** [M S E A]: code that reads and writes a state [S], and returns an [A] or throws an [E];
    the writes made before a throw stay, as they do in the source. *)
Definition M (S E A : Type) : Type := S -> result E A * S.

#[global] Instance M_ret S E : MRet (M S E) := fun A a s => (Ok a, s).
#[global] Instance M_bind S E : MBind (M S E) :=
  fun A B f m s => match m s with
                   | (Ok a, s') => f a s'
                   | (Err e, s') => (Err e, s')
                   end.

Section Monad.
Context {S E : Type}.

Definition throw {A} (e : E) : M S E A := fun s => (Err e, s).
Definition gets {A} (f : S -> A) : M S E A := fun s => (Ok (f s), s).
Definition get_state : M S E S := fun s => (Ok s, s).
Definition modify (f : S -> S) : M S E unit := fun s => (Ok tt, f s).
Definition lift {A} (r : result E A) : M S E A := fun s => (r, s).
Definition guardM (b : bool) (e : E) : M S E unit := lift (require b e).

(** [BEGIN IMMEDIATE] ... [COMMIT], with [ROLLBACK] when the body throws. *)
Definition transaction {A} (m : M S E A) : M S E A :=
  fun s => match m s with
           | (Ok a, s') => (Ok a, s')
           | (Err e, _) => (Err e, s)
           end.

Lemma bindM_Ok {A B} (m : M S E A) (f : A -> M S E B) s b s' :
  (m ≫= f) s = (Ok b, s') <-> exists a s1, m s = (Ok a, s1) /\ f a s1 = (Ok b, s').
Proof. unfold mbind, M_bind. destruct (m s) as [[a|e] s1]; naive_solver. Qed.

Lemma bindM_eq {A B} (m : M S E A) (f : A -> M S E B) s :
  (m ≫= f) s = match m s with (Ok a, s1) => f a s1 | (Err e, s1) => (Err e, s1) end.
Proof. reflexivity. Qed.

Lemma transaction_Ok {A} (m : M S E A) s a s' :
  transaction m s = (Ok a, s') <-> m s = (Ok a, s').
Proof. unfold transaction. destruct (m s) as [[?|?] ?]; naive_solver. Qed.

Lemma transaction_Ok_inv {A} (m : M S E A) s a s' :
  transaction m s = (Ok a, s') -> m s = (Ok a, s').
Proof. apply transaction_Ok. Qed.

Lemma transaction_Err {A} (m : M S E A) s e s' :
  transaction m s = (Err e, s') -> s' = s.
Proof. unfold transaction. destruct (m s) as [[?|?] ?]; naive_solver. Qed.

Lemma guardM_Ok (b : bool) e s u s' :
  guardM b e s = (Ok u, s') <-> b = true /\ s' = s.
Proof. unfold guardM, lift. destruct b, u; cbn; naive_solver. Qed.
End Monad.

(** The counterpart of [result_inv] for [M]. *)
Ltac m_inv :=
  repeat match goal with
  | H : (mbind _ _) _ = (Ok _, _) |- _ =>
      let a := fresh "a" in let s := fresh "s" in
      let H1 := fresh "H" in let H2 := fresh "H" in
      apply bindM_Ok in H; destruct H as (a & s & H1 & H2); cbn beta in H2
  | H : transaction _ _ = (Ok _, _) |- _ => apply transaction_Ok_inv in H
  | H : guardM _ _ _ = (Ok _, _) |- _ => apply guardM_Ok in H; destruct H; subst
  | H : gets _ _ = (Ok _, _) |- _ => unfold gets in H; injection H as H; subst
  | H : get_state _ = (Ok _, _) |- _ => unfold get_state in H; injection H as H; subst
  | H : modify _ _ = (Ok _, _) |- _ => unfold modify in H; injection H as H; subst
  | H : lift _ _ = (Ok _, _) |- _ => unfold lift in H; injection H as H; subst
  | H : throw _ _ = (Ok _, _) |- _ => discriminate H
  | H : (mret _) _ = (Ok _, _) |- _ => unfold mret, M_ret in H; injection H as H; subst
  | H : (Ok _, _) = (Ok _, _) |- _ => injection H as H; subst
  | u : unit |- _ => destruct u
  end.

(** [m_inv], with the case analyses of the code on the way; the cases that throw are discharged. *)
Ltac m_split :=
  repeat (m_inv; try discriminate;
    match goal with
    | H : (match ?x with _ => _ end) _ = (Ok _, _) |- _ => destruct x eqn:?; try discriminate
    end); m_inv; try discriminate.

(** *** Weakest preconditions

    [wp m Q s]: run in [s], [m] ends with an outcome and a state that satisfy [Q].  The rules
    follow the code; [wp_steps] applies them until an operation of a component is met. *)

Definition wp {S E A} (m : M S E A) (Q : result E A -> S -> Prop) (s : S) : Prop := Q (fst (m s)) (snd (m s)).

Section Wp.
Context {S E : Type}.

Lemma wp_use {A} (m : M S E A) Q s : wp m Q s -> Q (fst (m s)) (snd (m s)).
Proof using. done. Qed.

Lemma wp_mono {A} (m : M S E A) (Q R : result E A -> S -> Prop) s :
  wp m R s -> (forall r s', R r s' -> Q r s') -> wp m Q s.
Proof using. unfold wp. auto. Qed.

Lemma wp_run {A} (m : M S E A) (Q : result E A -> S -> Prop) s r s' : m s = (r, s') -> Q r s' -> wp m Q s.
Proof using. unfold wp. by intros ->. Qed.

Lemma wp_bind {A B} (m : M S E A) (f : A -> M S E B) Q s :
  wp m (fun r s' => match r with Ok a => wp (f a) Q s' | Err e => Q (Err e) s' end) s -> wp (m ≫= f) Q s.
Proof using. unfold wp. rewrite bindM_eq. by destruct (m s) as [[a|e] s']. Qed.

Lemma wp_ret {A} (a : A) Q s : Q (Ok a) s -> wp (mret a : M S E A) Q s.
Proof using. done. Qed.

Lemma wp_throw {A} e Q s : Q (Err e) s -> wp (throw e : M S E A) Q s.
Proof using. done. Qed.

Lemma wp_gets {A} (f : S -> A) Q s : Q (Ok (f s)) s -> wp (gets f : M S E A) Q s.
Proof using. done. Qed.

Lemma wp_get_state Q s : Q (Ok s) s -> wp (get_state : M S E S) Q s.
Proof using. done. Qed.

Lemma wp_modify (f : S -> S) Q s : Q (Ok tt) (f s) -> wp (modify f : M S E unit) Q s.
Proof using. done. Qed.

Lemma wp_lift {A} (r : result E A) Q s :
  (forall a, r = Ok a -> Q (Ok a) s) -> (forall e, r = Err e -> Q (Err e) s) -> wp (lift r : M S E A) Q s.
Proof using. unfold wp, lift. cbn. destruct r; auto. Qed.

Lemma wp_guardM (b : bool) e Q s :
  (b = true -> Q (Ok tt) s) -> (b = false -> Q (Err e) s) -> wp (guardM b e : M S E unit) Q s.
Proof using. unfold wp, guardM, lift. destruct b; cbn; auto. Qed.
End Wp.

(** One rule of [wp] per construct of the code; a [match] is split, with its equation. *)
Ltac wp_step :=
  lazymatch goal with
  | |- wp (mbind _ _) _ _ => apply wp_bind
  | |- wp (mret _) _ _ => apply wp_ret
  | |- wp (throw _) _ _ => apply wp_throw
  | |- wp (gets _) _ _ => apply wp_gets
  | |- wp get_state _ _ => apply wp_get_state
  | |- wp (modify _) _ _ => apply wp_modify
  | |- wp (lift _) _ _ => apply wp_lift; intros ? ?
  | |- wp (guardM _ _) _ _ => apply wp_guardM; intros ?
  | |- wp (match ?x with _ => _ end) _ _ => destruct x eqn:?
  end; cbv beta iota.
Ltac wp_steps := repeat wp_step.

(** *** Code that respects a preorder on states

    [respects R m]: however [m] ends, the state it leaves is related to the one it found. *)

Definition respects {S E A} (R : S -> S -> Prop) (m : M S E A) : Prop := forall s, R s (snd (m s)).

Section Respects.
Context {S E : Type} (R : S -> S -> Prop) `{!PreOrder R}.

Lemma respects_bind {A B} (m : M S E A) (f : A -> M S E B) :
  respects R m -> (forall a, respects R (f a)) -> respects R (m ≫= f).
Proof using PreOrder0.
  intros Hm Hf s. rewrite bindM_eq. specialize (Hm s). destruct (m s) as [[a|e] s1]; [|done].
  etransitivity; [exact Hm|apply Hf].
Qed.

Lemma respects_ret {A} (a : A) : respects R (mret a : M S E A).
Proof using PreOrder0. intros s. reflexivity. Qed.

Lemma respects_throw {A} e : respects R (throw e : M S E A).
Proof using PreOrder0. intros s. reflexivity. Qed.

Lemma respects_gets {A} (f : S -> A) : respects R (gets f : M S E A).
Proof using PreOrder0. intros s. reflexivity. Qed.

Lemma respects_get_state : respects R (get_state : M S E S).
Proof using PreOrder0. intros s. reflexivity. Qed.

Lemma respects_lift {A} (r : result E A) : respects R (lift r : M S E A).
Proof using PreOrder0. intros s. reflexivity. Qed.

Lemma respects_guardM (b : bool) e : respects R (guardM b e : M S E unit).
Proof using PreOrder0. apply respects_lift. Qed.

Lemma respects_modify (f : S -> S) : (forall s, R s (f s)) -> respects R (modify f : M S E unit).
Proof using. intros H s. apply H. Qed.

(** Code that leaves the state as it is respects every preorder. *)
Lemma respects_reads {A} (m : M S E A) : respects eq m -> respects R m.
Proof using PreOrder0. intros Hm s. by rewrite <- (Hm s). Qed.
End Respects.

(** What code that only reads returns. *)
Lemma wp_reads {S E A} (m : M S E A) Q s : respects eq m -> Q (fst (m s)) s -> wp m Q s.
Proof. unfold wp. intros Hm. by rewrite <- (Hm s). Qed.

Create HintDb respects.
#[export] Hint Extern 1 (respects _ _) =>
  lazymatch goal with
  | |- respects _ (mret _) => apply respects_ret
  | |- respects _ (throw _) => apply respects_throw
  | |- respects _ (gets _) => apply respects_gets
  | |- respects _ get_state => apply respects_get_state
  | |- respects _ (lift _) => apply respects_lift
  | |- respects _ (guardM _ _) => apply respects_guardM
  end; typeclasses eauto : respects.

(** Follows the code down to the operations that the hint database knows. *)
Ltac respects_steps :=
  repeat (cbv beta zeta;
    lazymatch goal with
    | |- respects _ (mbind _ _) => apply respects_bind; [typeclasses eauto| |intros ?]
    | |- respects _ (match ?x with _ => _ end) => destruct x eqn:?
    | |- _ => solve [eauto 2 with respects]
    end).

(** ** Lists *)

(** [ORDER BY]: a stable insertion sort. *)
Fixpoint order_insert {A} (ltb : A -> A -> bool) (x : A) (l : list A) : list A :=
  match l with
  | [] => [x]
  | y :: l => if ltb y x then y :: order_insert ltb x l else x :: y :: l
  end.
Definition order_by {A} (ltb : A -> A -> bool) (l : list A) : list A := foldr (order_insert ltb) [] l.

Lemma NoDup_map_filter {A B} (f : A -> B) (p : A -> bool) l :
  NoDup (List.map f l) -> NoDup (List.map f (List.filter p l)).
Proof.
  induction l as [|x l IH]; cbn; [done|]. intros [Hx Hl]%list.NoDup_cons.
  destruct (p x); cbn; [|by apply IH]. constructor; [|by apply IH].
  rewrite list_elem_of_In, in_map_iff in *. intros (y & Hy & Hin%filter_In). naive_solver.
Qed.

Lemma find_app_None {A} (p : A -> bool) l k :
  List.find p l = None -> List.find p (l ++ k) = List.find p k.
Proof. induction l as [|y l IH]; cbn; [done|]. destruct (p y); [done|]. apply IH. Qed.

Lemma find_app_Some {A} (p : A -> bool) l k x : List.find p l = Some x -> List.find p (l ++ k) = Some x.
Proof. induction l as [|y l IH]; cbn; [done|]. by destruct (p y). Qed.

Lemma find_None_filter {A} (p q : A -> bool) l :
  List.find p l = None -> List.find p (List.filter q l) = None.
Proof.
  induction l as [|y l IH]; cbn; [done|]. destruct (p y) eqn:Hy; [done|]. intros H.
  destruct (q y); cbn; rewrite ?Hy; auto.
Qed.

(** The element found survives a filter that keeps it. *)
Lemma find_filter {A} (p q : A -> bool) l x :
  List.find p l = Some x -> q x = true -> List.find p (List.filter q l) = Some x.
Proof.
  intros Hf Hq. revert Hf. induction l as [|y l IH]; cbn; [done|]. destruct (p y) eqn:Hy.
  - intros [= ->]. rewrite Hq. cbn. by rewrite Hy.
  - intros Hf. destruct (q y); cbn; rewrite ?Hy; auto.
Qed.

Lemma filter_filter {A} (p : A -> bool) l : List.filter p (List.filter p l) = List.filter p l.
Proof. induction l as [|x l IH]; cbn; [done|]. destruct (p x) eqn:H; cbn; rewrite ?H; congruence. Qed.

Lemma length_filter_le {A} (p : A -> bool) l : (length (List.filter p l) <= length l)%nat.
Proof. induction l as [|x l IH]; cbn; [lia|]. destruct (p x); cbn; lia. Qed.

Lemma filter_full {A} (p : A -> bool) l : length l = length (List.filter p l) -> List.filter p l = l.
Proof.
  induction l as [|x l IH]; cbn; [done|]. pose proof (length_filter_le p l).
  destruct (p x); cbn; intros Hl; [f_equal; apply IH; lia|lia].
Qed.

Lemma find_id_unique {A} (f : A -> string) (l : list A) x :
  NoDup (List.map f l) -> x ∈ l -> List.find (fun y => f y === f x) l = Some x.
Proof.
  induction l as [|y l IH]; cbn; [by intros _ ?%not_elem_of_nil|].
  intros [Hy Hn]%list.NoDup_cons Hx. apply elem_of_cons in Hx as [->|Hx]; [by rewrite bool_decide_eq_true_2|].
  rewrite bool_decide_eq_false_2; [by apply IH|]. intros E. apply Hy. rewrite E.
  apply list_elem_of_In, in_map, list_elem_of_In. done.
Qed.

Lemma find_Some_elem {A} (p : A -> bool) l x : List.find p l = Some x -> x ∈ l /\ p x = true.
Proof. intros [H ?]%find_some. split; [by apply list_elem_of_In|done]. Qed.

Lemma existsb_false {A} (p : A -> bool) l : existsb p l = false <-> forall x, x ∈ l -> p x = false.
Proof.
  rewrite <- not_true_iff_false, existsb_exists. setoid_rewrite <- list_elem_of_In.
  setoid_rewrite <- not_true_iff_false. naive_solver.
Qed.

Lemma find_none_iff_all {A} (p : A -> bool) l :
  List.find p l = None <-> forall x, x ∈ l -> p x = false.
Proof.
  split; [intros H x Hx; by eapply find_none; [exact H|apply list_elem_of_In]|].
  intros H. destruct (List.find p l) as [x|] eqn:E; [|done].
  apply find_Some_elem in E as [Hin Hp]. by rewrite H in Hp.
Qed.

Lemma NoDup_map_snoc {A B} (f : A -> B) l x :
  NoDup (List.map f l) -> (forall y, y ∈ l -> f y <> f x) -> NoDup (List.map f (l ++ [x])).
Proof.
  intros Hn Hx. rewrite List.map_app. apply list.NoDup_app. split_and!; [done| |apply list.NoDup_singleton].
  intros y Hy [->|[]%not_elem_of_nil]%elem_of_cons.
  apply list_elem_of_In, in_map_iff in Hy as (z & Hz & Hin%list_elem_of_In). by apply (Hx z).
Qed.
