(* ===== verification/Bytes.v ===== *)
(** * Bytes and strings

    What the source uses of Node's [Buffer] and of JavaScript strings.  A buffer is a list of
    byte values ([is_byte]); a string is a [String.string] whose characters are its UTF-16 code
    units, restricted to the units below 256.  Operations clamp and truncate the way
    [Buffer.prototype.copy], [subarray] and [String.prototype.slice] do. *)

From S2P Require Import Prelude.

(** ** Strings as lists of characters *)

Fixpoint chars (s : string) : list ascii :=
  match s with
  | EmptyString => []
  | String c s => c :: chars s
  end.

Fixpoint of_chars (l : list ascii) : string :=
  match l with
  | [] => EmptyString
  | c :: l => String c (of_chars l)
  end.

Lemma chars_of_chars l : chars (of_chars l) = l.
Proof. induction l; cbn; congruence. Qed.

Lemma of_chars_chars s : of_chars (chars s) = s.
Proof. induction s; cbn; congruence. Qed.

Lemma chars_inj s t : chars s = chars t -> s = t.
Proof. intros H. by rewrite <- (of_chars_chars s), H, of_chars_chars. Qed.

Lemma chars_app s t : chars (s ++ t)%string = chars s ++ chars t.
Proof.
  induction s as [|c s IH]; [done|].
  change (c :: chars (s ++ t)%string = c :: (chars s ++ chars t)). by rewrite IH.
Qed.

Lemma of_chars_app l k : of_chars (l ++ k) = (of_chars l ++ of_chars k)%string.
Proof. apply chars_inj. by rewrite chars_app, !chars_of_chars. Qed.

Lemma length_chars s : length (chars s) = String.length s.
Proof. induction s; cbn; congruence. Qed.

(** [s.slice(i, j)] for [0 <= i], and [s.slice(i)]. *)
Definition slice (s : string) (i j : nat) : string := of_chars (take (j - i) (drop i (chars s))).
Definition slice_from (s : string) (i : nat) : string := of_chars (drop i (chars s)).

(** [s.replace(/c/g, '')] for a character class. *)
Definition remove_chars (p : ascii -> bool) (s : string) : string :=
  of_chars (List.filter (fun c => negb (p c)) (chars s)).

(** [/^[class]*$/.test(s)]. *)
Definition all_chars (p : ascii -> bool) (s : string) : bool := forallb p (chars s).

(** [s.includes(t)], [s.startsWith(t)], [s.endsWith(t)]. *)
Definition startsWith (s t : string) : bool := String.prefix t s.

Fixpoint includes (s t : string) : bool :=
  String.prefix t s || match s with EmptyString => false | String _ s => includes s t end.

Definition endsWith (s t : string) : bool :=
  bool_decide (drop (length (chars s) - length (chars t)) (chars s) = chars t).

(** [l.join(c)] and [s.split(c)] for a one-character separator. *)
Fixpoint split_at (c : ascii) (acc : list ascii) (l : list ascii) : list (list ascii) :=
  match l with
  | [] => [rev acc]
  | x :: l => if bool_decide (x = c) then rev acc :: split_at c [] l else split_at c (x :: acc) l
  end.

Definition split (c : ascii) (s : string) : list string :=
  List.map of_chars (split_at c [] (chars s)).

(** ** Code units and bytes *)

Definition code (c : ascii) : Z := Z.of_N (N_of_ascii c).
Definition char_of_code (z : Z) : ascii := ascii_of_N (Z.to_N z).

Definition is_byte (b : Z) : Prop := 0 <= b < 256.

Lemma code_byte c : is_byte (code c).
Proof. unfold code, is_byte. pose proof (N_ascii_bounded c). lia. Qed.

Lemma char_of_code_code c : char_of_code (code c) = c.
Proof. unfold char_of_code, code. by rewrite N2Z.id, ascii_N_embedding. Qed.

Lemma code_char_of_code z : is_byte z -> code (char_of_code z) = z.
Proof.
  intros Hz. unfold char_of_code, code. rewrite N_ascii_embedding; unfold is_byte in Hz; lia.
Qed.

Definition in_range (lo hi : ascii) (c : ascii) : bool := (code lo <=? code c) && (code c <=? code hi).
Definition is_digit : ascii -> bool := in_range "0" "9".
Definition is_lower : ascii -> bool := in_range "a" "z".
Definition is_upper : ascii -> bool := in_range "A" "Z".
Definition is_alnum (c : ascii) : bool := is_digit c || is_lower c || is_upper c.
Definition one_of (s : string) (c : ascii) : bool := existsb (fun d => bool_decide (d = c)) (chars s).

(** ** Buffers *)

Abbreviation buffer := (list Z).

(** [Buffer.alloc(n)] *)
Definition alloc (n : nat) : buffer := replicate n 0.

(** [src.copy(target, off)]: writes what fits. *)
Definition copy (src target : buffer) (off : nat) : buffer :=
  take off target ++ take (length target - off) src ++ drop (off + length src) target.

(** [buf.subarray(i, j)] *)
Definition subarray (b : buffer) (i j : nat) : buffer := take (j - i) (drop i b).

(** [Buffer.from(s, 'ascii')] and [buf.toString('ascii')]; the latter clears the high bit. *)
Definition ascii_bytes (s : string) : buffer := List.map code (chars s).
Definition to_ascii (b : buffer) : string :=
  of_chars (List.map (fun z => char_of_code (z mod 128)) b).

(** [Buffer.from(s, 'utf8')] for code units below 256. *)
Definition utf8_bytes (s : string) : buffer :=
  List.flat_map (fun c => if code c <? 128 then [code c] else [192 + code c / 64; 128 + code c mod 64])
    (chars s).

(** A buffer as a string of byte characters. *)
Definition byte_string (b : buffer) : string := of_chars (List.map char_of_code b).

(** Big-endian integers of [n] bytes: [writeUIntBE] and [readUIntBE]. *)
Fixpoint be_bytes (n : nat) (v : Z) : buffer :=
  match n with
  | O => []
  | S n => be_bytes n (v / 256) ++ [v mod 256]
  end.

Definition be_value (b : buffer) : Z := fold_left (fun acc x => acc * 256 + x) b 0.

Definition read_be (n : nat) (b : buffer) (off : nat) : Z := be_value (subarray b off (off + n)).

Lemma length_be_bytes n v : length (be_bytes n v) = n.
Proof. revert v. induction n; intros v; cbn; [done|]. rewrite length_app, IHn. cbn. lia. Qed.

Lemma be_value_app b c : be_value (b ++ [c]) = be_value b * 256 + c.
Proof. unfold be_value. by rewrite fold_left_app. Qed.

Lemma be_value_bytes n v : 0 <= v < 256 ^ Z.of_nat n -> be_value (be_bytes n v) = v.
Proof.
  revert v. induction n as [|n IH]; intros v Hv; cbn [be_bytes].
  - cbn in Hv. unfold be_value. cbn. lia.
  - rewrite Nat2Z.inj_succ, Z.pow_succ_r in Hv by lia. rewrite be_value_app, IH.
    + pose proof (Z.div_mod v 256). lia.
    + split; [apply Z.div_pos; lia|]. apply Z.div_lt_upper_bound; lia.
Qed.

Lemma be_bytes_byte n v : Forall is_byte (be_bytes n v).
Proof.
  revert v. induction n; intros v; cbn; [constructor|]. apply Forall_app. split; [done|].
  constructor; [|constructor]. unfold is_byte. apply Z.mod_pos_bound. lia.
Qed.

Lemma subarray_app_l b c i j : (j <= length b)%nat -> subarray (b ++ c) i j = subarray b i j.
Proof.
  intros. unfold subarray. destruct (decide (i <= length b)%nat).
  - rewrite drop_app_le by lia. rewrite take_app_le; [done|]. rewrite length_drop. lia.
  - by replace (j - i)%nat with 0%nat by lia.
Qed.

Lemma length_subarray b i j : (i <= j)%nat -> (j <= length b)%nat -> length (subarray b i j) = (j - i)%nat.
Proof. intros. unfold subarray. rewrite length_take, length_drop. lia. Qed.

(** ** Hexadecimal *)

Definition hex_digit (z : Z) : ascii :=
  if z <? 10 then char_of_code (48 + z) else char_of_code (87 + z).

Definition hex_value (c : ascii) : option Z :=
  if is_digit c then Some (code c - 48)
  else if in_range "a" "f" c then Some (code c - 87)
  else if in_range "A" "F" c then Some (code c - 55)
  else None.

(** [buf.toString('hex')] *)
Definition hex_chars (b : buffer) : list ascii :=
  List.flat_map (fun z => [hex_digit (z / 16); hex_digit (z mod 16)]) b.
Definition to_hex (b : buffer) : string := of_chars (hex_chars b).

(** [Buffer.from(s, 'hex')]: pairs of digits up to the first one that is not. *)
Fixpoint hex_bytes (l : list ascii) : buffer :=
  match l with
  | hi :: lo :: l =>
      match hex_value hi, hex_value lo with
      | Some h, Some v => h * 16 + v :: hex_bytes l
      | _, _ => []
      end
  | _ => []
  end.
Definition from_hex (s : string) : buffer := hex_bytes (chars s).

Lemma hex_value_digit z : 0 <= z < 16 -> hex_value (hex_digit z) = Some z.
Proof.
  intros Hz. pose (p z := bool_decide (hex_value (hex_digit z) = Some z)).
  apply (bool_decide_eq_true (hex_value (hex_digit z) = Some z)).
  by apply (range_check 16 p).
Qed.

Lemma hex_bytes_chars b : Forall is_byte b -> hex_bytes (hex_chars b) = b.
Proof.
  induction 1 as [|z b Hz Hb IH]; [done|]. unfold is_byte in Hz. cbn.
  rewrite !hex_value_digit.
  - f_equal; [|done]. pose proof (Z.div_mod z 16). lia.
  - apply Z.mod_pos_bound. lia.
  - split; [apply Z.div_pos; lia|]. apply Z.div_lt_upper_bound; lia.
Qed.

Lemma length_hex_chars b : length (hex_chars b) = (2 * length b)%nat.
Proof. induction b; cbn; [done|]. unfold hex_chars in IHb. rewrite IHb. lia. Qed.

Lemma from_hex_to_hex b : Forall is_byte b -> from_hex (to_hex b) = b.
Proof. intros. unfold from_hex, to_hex. rewrite chars_of_chars. by apply hex_bytes_chars. Qed.

(** ** ASCII *)

Definition is_ascii (c : ascii) : Prop := code c < 128.

Lemma to_ascii_bytes s : Forall is_ascii (chars s) -> to_ascii (ascii_bytes s) = s.
Proof.
  intros Hs. unfold to_ascii, ascii_bytes. apply chars_inj. rewrite chars_of_chars, List.map_map.
  induction Hs as [|c l Hc Hl IH]; [done|]. cbn. rewrite IH. f_equal.
  pose proof (code_byte c). unfold is_ascii, is_byte in *.
  rewrite Z.mod_small by lia. apply char_of_code_code.
Qed.

Lemma length_ascii_bytes s : length (ascii_bytes s) = String.length s.
Proof. unfold ascii_bytes. by rewrite List.length_map, length_chars. Qed.

Lemma ascii_bytes_byte s : Forall is_byte (ascii_bytes s).
Proof. unfold ascii_bytes. induction (chars s); cbn; constructor; auto using code_byte. Qed.

(** ** Fields written into a buffer *)

Lemma length_copy src t off : (off + length src <= length t)%nat -> length (copy src t off) = length t.
Proof.
  intros H. unfold copy. rewrite !length_app, !length_take, length_drop. lia.
Qed.

Lemma lookup_copy src t off k :
  (off + length src <= length t)%nat ->
  copy src t off !! k = if decide (off <= k < off + length src)%nat then src !! (k - off)%nat else t !! k.
Proof.
  intros H. unfold copy. rewrite take_ge with (l := src) by lia.
  assert (Ht : length (take off t) = off) by (rewrite length_take; lia). destruct (decide _) as [Hk|Hk].
  - rewrite lookup_app_r by lia. rewrite Ht. rewrite lookup_app_l by lia. done.
  - destruct (decide (k < off)%nat).
    + rewrite lookup_app_l by lia. by rewrite lookup_take_lt by lia.
    + rewrite lookup_app_r by lia. rewrite Ht, lookup_app_r by lia. rewrite lookup_drop. f_equal. lia.
Qed.

Lemma lookup_subarray b i j k :
  subarray b i j !! k = if decide (k < j - i)%nat then b !! (i + k)%nat else None.
Proof.
  unfold subarray. destruct (decide _).
  - by rewrite lookup_take_lt, lookup_drop by lia.
  - apply lookup_take_ge. lia.
Qed.

(** A field elsewhere is as it was. *)
Lemma subarray_copy_other src t off i j :
  (off + length src <= length t)%nat -> (j <= off \/ off + length src <= i)%nat ->
  subarray (copy src t off) i j = subarray t i j.
Proof.
  intros H Hd. apply list_eq. intros k. rewrite !lookup_subarray. destruct (decide _); [|done].
  rewrite lookup_copy by done. destruct (decide _); [lia|done].
Qed.

(** The field itself: what was written, and what followed it. *)
Lemma subarray_copy_same src t off j :
  (off + length src <= length t)%nat -> (off + length src <= j)%nat ->
  subarray (copy src t off) off j = src ++ subarray t (off + length src) j.
Proof.
  intros H Hj. apply list_eq. intros k. rewrite lookup_subarray.
  destruct (decide (k < length src)%nat) as [Hk|Hk].
  - rewrite decide_True by lia. rewrite lookup_copy, decide_True by lia.
    rewrite lookup_app_l by lia. f_equal. lia.
  - rewrite lookup_app_r by lia. rewrite lookup_subarray.
    destruct (decide (k < j - off)%nat); [|by rewrite decide_False by lia].
    rewrite decide_True by lia. rewrite lookup_copy, decide_False by lia. f_equal. lia.
Qed.

Lemma nth_copy_same x t off d : (off < length t)%nat -> List.nth off (copy [x] t off) d = x.
Proof.
  intros H. apply nth_lookup_Some. rewrite lookup_copy, decide_True by (cbn; lia). by rewrite Nat.sub_diag.
Qed.

Lemma nth_copy_other src t off k d :
  (off + length src <= length t)%nat -> (k < off \/ off + length src <= k)%nat ->
  List.nth k (copy src t off) d = List.nth k t d.
Proof.
  intros H Hk. rewrite !nth_lookup. f_equal. rewrite lookup_copy by done. by rewrite decide_False by lia.
Qed.

(** Writing back what was there. *)
Lemma copy_restore src t off :
  (off + length src <= length t)%nat ->
  copy (subarray t off (off + length src)) (copy src t off) off = t.
Proof.
  intros H. apply list_eq. intros k.
  assert (Hl : length (subarray t off (off + length src)) = length src) by (rewrite length_subarray; lia).
  rewrite lookup_copy by (rewrite Hl, length_copy; lia). rewrite Hl. destruct (decide _).
  - rewrite lookup_subarray, decide_True by lia. f_equal. lia.
  - rewrite lookup_copy by done. by rewrite decide_False by lia.
Qed.

Lemma copy_byte src t off : Forall is_byte src -> Forall is_byte t -> Forall is_byte (copy src t off).
Proof.
  intros Hs Ht. unfold copy. rewrite !Forall_app. split_and!; [by apply Forall_take..|by apply Forall_drop].
Qed.

Lemma alloc_byte n : Forall is_byte (alloc n).
Proof. apply Forall_replicate. unfold is_byte. lia. Qed.

Lemma subarray_alloc n i j : (j <= n)%nat -> subarray (alloc n) i j = alloc (j - i).
Proof.
  intros H. unfold subarray, alloc. rewrite drop_replicate, take_replicate. f_equal. lia.
Qed.

(** ** Substrings and components *)

Lemma prefix_chars t s : String.prefix t s = true <-> exists r, chars s = chars t ++ r.
Proof.
  revert s. induction t as [|c t IH]; intros s; cbn.
  - split; [intros _; by exists (chars s)|by destruct s].
  - destruct s as [|d s]; cbn; [split; [done|by intros [r Hr]]|].
    destruct (ascii_dec c d) as [->|Hne].
    + rewrite IH. split; intros [r Hr]; exists r; [by rewrite Hr|by injection Hr].
    + split; [done|]. intros [r [= Hc _]]. congruence.
Qed.

Lemma includes_chars s t : includes s t = true -> exists a b, chars s = a ++ chars t ++ b.
Proof.
  induction s as [|c s IH]; cbn [includes]; intros H; apply orb_true_iff in H as [H|H]; try done.
  - apply prefix_chars in H as [r Hr]. by exists [], r.
  - apply prefix_chars in H as [r Hr]. by exists [], r.
  - destruct (IH H) as (a & b & Hs). exists (c :: a), b. cbn. by rewrite Hs.
Qed.

Lemma endsWith_slash s : endsWith s "/" = true <-> exists l, chars s = l ++ ["/"%char].
Proof.
  unfold endsWith. rewrite bool_decide_eq_true. cbn [chars length]. split.
  - intros H. exists (take (length (chars s) - 1) (chars s)). rewrite <- H. by rewrite take_drop.
  - intros [l ->]. rewrite length_app. cbn [length]. by rewrite drop_app_length' by lia.
Qed.

Lemma split_at_app c acc l k : split_at c acc (l ++ c :: k) = split_at c acc l ++ split_at c [] k.
Proof.
  revert acc. induction l as [|x l IH]; intros acc; cbn; [by rewrite bool_decide_eq_true_2|].
  destruct (bool_decide (x = c)); [|apply IH]. cbn. by rewrite IH.
Qed.

Lemma split_at_nonempty c acc l : split_at c acc l <> [].
Proof. revert acc. induction l; intros acc; cbn; [done|]. destruct (bool_decide _); [done|]. auto. Qed.

(** A list without the separator is one component. *)
Lemma split_at_none c acc l : (c ∉ l) -> split_at c acc l = [rev acc ++ l].
Proof.
  revert acc. induction l as [|x l IH]; intros acc; cbn; [by rewrite app_nil_r|].
  rewrite not_elem_of_cons. intros [Hx Hl]. rewrite bool_decide_eq_false_2 by congruence.
  rewrite IH by done. cbn. by rewrite <- app_assoc.
Qed.

(** Every character is a separator or in a component. *)
Lemma split_at_cover c acc l x : x ∈ rev acc ++ l -> x = c \/ exists p, p ∈ split_at c acc l /\ x ∈ p.
Proof.
  revert acc. induction l as [|y l IH]; intros acc; cbn.
  - rewrite app_nil_r. intros Hx. right. exists (rev acc). split; [by left|done].
  - intros Hx. destruct (bool_decide (y = c)) eqn:Hy.
    + bool_inv. subst y. apply elem_of_app in Hx as [Hx|[->|Hx]%elem_of_cons].
      * right. exists (rev acc). split; [by left|done].
      * by left.
      * destruct (IH [] Hx) as [->|(p & Hp & Hxp)]; [by left|]. right. exists p. split; [by right|done].
    + apply (IH (y :: acc)). cbn. by rewrite <- app_assoc.
Qed.
