(* ===== verification/Json.v ===== *)
(** * JavaScript values as data: objects, property order and [JSON.stringify]

    What the source uses of the language: plain objects as property lists in insertion order,
    the enumeration order of [Object.keys], assignment of a property (with the setter that the
    name ["__proto__"] reaches), [String(x)] and [JSON.stringify].  Numbers are the integers below
    [10^21] in magnitude, which print in decimal. *)

From S2P Require Import Prelude Bytes.
From stdpp Require Export pretty.

#[global] Open Scope Z_scope.

(** ** Values *)

Inductive json :=
| JUndefined
| JNull
| JBool (b : bool)
| JNum (z : Z)
| JStr (s : string)
| JArr (l : list json)
| JObj (kvs : list (string * json)).

(** Induction with hypotheses for the elements and the property values. *)
Section JsonInd.
Context (P : json -> Prop).
Context (HU : P JUndefined) (HN : P JNull) (HB : forall b, P (JBool b)) (HZ : forall z, P (JNum z))
  (HS : forall s, P (JStr s)) (HA : forall l, Forall P l -> P (JArr l))
  (HO : forall kvs, Forall (fun kv => P (snd kv)) kvs -> P (JObj kvs)).

Fixpoint json_nested_ind (v : json) : P v :=
  match v with
  | JUndefined => HU
  | JNull => HN
  | JBool b => HB b
  | JNum z => HZ z
  | JStr s => HS s
  | JArr l =>
      HA l ((fix go l : Forall P l :=
               match l with
               | [] => Forall_nil_2 _
               | x :: l => Forall_cons_2 _ x l (json_nested_ind x) (go l)
               end) l)
  | JObj kvs =>
      HO kvs ((fix go kvs : Forall (fun kv => P (snd kv)) kvs :=
                 match kvs with
                 | [] => Forall_nil_2 _
                 | (k, x) :: kvs => Forall_cons_2 _ (k, x) kvs (json_nested_ind x) (go kvs)
                 end) kvs)
  end.
End JsonInd.

#[global] Instance json_eq_dec : EqDecision json.
Proof.
  refine (fix go (v w : json) : Decision (v = w) :=
    match v, w with
    | JUndefined, JUndefined => left eq_refl
    | JNull, JNull => left eq_refl
    | JBool b, JBool c => cast_if (decide (b = c))
    | JNum b, JNum c => cast_if (decide (b = c))
    | JStr b, JStr c => cast_if (decide (b = c))
    | JArr l, JArr k => cast_if (@list_eq_dec _ go l k)
    | JObj l, JObj k => cast_if (@list_eq_dec _ (@prod_eq_dec _ _ _ go) l k)
    | _, _ => right _
    end); abstract congruence.
Defined.

Abbreviation props A := (list (string * A)).

Definition keys {A} (kvs : props A) : list string := List.map fst kvs.
Definition map_values {A B} (f : A -> B) (kvs : props A) : props B :=
  List.map (fun kv => (fst kv, f (snd kv))) kvs.

(** [obj[k]] for an own property. *)
Fixpoint prop (k : string) (kvs : props json) : json :=
  match kvs with
  | [] => JUndefined
  | (k', v) :: kvs => if bool_decide (k = k') then v else prop k kvs
  end.

Definition field (k : string) (v : json) : json :=
  match v with JObj kvs => prop k kvs | _ => JUndefined end.

(** [obj[k] = v]: replaces in place or appends; ["__proto__"] names the prototype, not a property. *)
Fixpoint put {A} (k : string) (v : A) (kvs : props A) : props A :=
  match kvs with
  | [] => [(k, v)]
  | (k', v') :: kvs => if bool_decide (k = k') then (k', v) :: kvs else (k', v') :: put k v kvs
  end.

Definition assign {A} (kvs : props A) (kv : string * A) : props A :=
  if bool_decide (fst kv = "__proto__"%string) then kvs else put (fst kv) (snd kv) kvs.

(** ** The order of strings: by code unit *)

Fixpoint chars_ltb (a b : list ascii) : bool :=
  match a, b with
  | _, [] => false
  | [], _ :: _ => true
  | x :: a, y :: b => (code x <? code y) || ((code x =? code y) && chars_ltb a b)
  end.

Definition str_ltb (a b : string) : bool := chars_ltb (chars a) (chars b).

Lemma code_inj c d : code c = code d -> c = d.
Proof. intros H. by rewrite <- (char_of_code_code c), H, char_of_code_code. Qed.

Lemma chars_ltb_trans a b c : chars_ltb a b = true -> chars_ltb b c = true -> chars_ltb a c = true.
Proof.
  revert b c. induction a as [|x a IH]; intros [|y b] [|z c]; cbn; try done.
  rewrite !orb_true_iff, !andb_true_iff, !Z.ltb_lt, !Z.eqb_eq.
  intros [?|[? H1]] [?|[? H2]]; [left; lia|left; lia|left; lia|right; split; [lia|eauto]].
Qed.

Lemma chars_ltb_total a b : chars_ltb a b = false -> chars_ltb b a = false -> a = b.
Proof.
  revert b. induction a as [|x a IH]; intros [|y b]; cbn; try done.
  rewrite !orb_false_iff, !Z.ltb_ge. intros [? H1] [? H2].
  assert (x = y) as <- by (apply code_inj; lia). rewrite Z.eqb_refl in *. cbn in *.
  f_equal. auto.
Qed.

Lemma chars_ltb_irrefl a : chars_ltb a a = false.
Proof. induction a; cbn; [done|]. by rewrite Z.ltb_irrefl, Z.eqb_refl. Qed.

Lemma str_ltb_trans a b c : str_ltb a b = true -> str_ltb b c = true -> str_ltb a c = true.
Proof. apply chars_ltb_trans. Qed.

Lemma str_ltb_total a b : str_ltb a b = false -> str_ltb b a = false -> a = b.
Proof. intros. apply chars_inj. by apply chars_ltb_total. Qed.

Lemma str_ltb_irrefl a : str_ltb a a = false.
Proof. apply chars_ltb_irrefl. Qed.

Lemma str_ltb_asym a b : str_ltb a b = true -> str_ltb b a = false.
Proof.
  intros H. destruct (str_ltb b a) eqn:H'; [|done].
  by rewrite <- (str_ltb_irrefl a), (str_ltb_trans a b a).
Qed.

(** ** Sorting properties by name *)

Section Sort.
Context {A : Type} (ltb : string -> string -> bool).

Fixpoint insert_by (kv : string * A) (l : props A) : props A :=
  match l with
  | [] => [kv]
  | kv' :: l => if ltb (fst kv) (fst kv') then kv :: kv' :: l else kv' :: insert_by kv l
  end.

Definition sort_by (l : props A) : props A := foldr insert_by [] l.

Lemma insert_by_perm kv l : Permutation (insert_by kv l) (kv :: l).
Proof using.
  induction l as [|kv' l IH]; cbn; [done|]. destruct (ltb _ _); [done|].
  rewrite IH. apply perm_swap.
Qed.

Lemma sort_by_perm l : Permutation (sort_by l) l.
Proof using. induction l as [|kv l IH]; cbn; [done|]. rewrite insert_by_perm. by constructor. Qed.

Context (ltb_asym : forall a b, ltb a b = true -> ltb b a = false)
  (ltb_trans : forall a b c, ltb a b = true -> ltb b c = true -> ltb a c = true)
  (ltb_total : forall a b, ltb a b = false -> ltb b a = false -> a = b).

Lemma insert_by_comm x y l :
  fst x <> fst y -> insert_by x (insert_by y l) = insert_by y (insert_by x l).
Proof using All.
  intros Hne. induction l as [|z l IH]; cbn [insert_by].
  - destruct (ltb (fst x) (fst y)) eqn:H1, (ltb (fst y) (fst x)) eqn:H2; try done;
      exfalso; [apply ltb_asym in H1; congruence | eauto].
  - destruct (ltb (fst x) (fst z)) eqn:Hx, (ltb (fst y) (fst z)) eqn:Hy; cbn [insert_by];
      rewrite ?Hx, ?Hy; try done.
    + destruct (ltb (fst x) (fst y)) eqn:H1, (ltb (fst y) (fst x)) eqn:H2; rewrite ?Hx, ?Hy; try done;
        exfalso; [apply ltb_asym in H1; congruence | eauto].
    + destruct (ltb (fst y) (fst x)) eqn:H2; rewrite ?Hy; [|done].
      exfalso. rewrite (ltb_trans _ _ _ H2 Hx) in Hy. discriminate.
    + destruct (ltb (fst x) (fst y)) eqn:H2; rewrite ?Hx; [|done].
      exfalso. rewrite (ltb_trans _ _ _ H2 Hy) in Hx. discriminate.
    + by rewrite IH.
Qed.

(** The sorted list depends only on the set of properties. *)
Lemma sort_by_unique l k :
  NoDup (keys l) -> Permutation l k -> sort_by l = sort_by k.
Proof using All.
  unfold sort_by. intros Hnd Hp. induction Hp as [|x l k Hp IH|x y l|l k m H1 IH1 H2 IH2]; cbn in *.
  - done.
  - inversion Hnd; subst. by rewrite IH.
  - inversion Hnd as [|? ? Hy Hnd']; subst. apply insert_by_comm.
    intros Heq. apply Hy. rewrite Heq. left.
  - rewrite IH1, IH2; [done| |done]. unfold keys. by rewrite <- H1.
Qed.
End Sort.

(** ** Enumeration order: array indices ascending, then the other names as inserted *)

Definition index_of (k : string) : option Z :=
  let z := fold_left (fun acc c => acc * 10 + (code c - 48)) (chars k) 0 in
  if all_chars is_digit k && bool_decide (pretty z = k) && (z <? 2 ^ 32 - 1) then Some z else None.

Definition is_index (k : string) : bool := match index_of k with Some _ => true | None => false end.

Definition index_ltb (a b : string) : bool :=
  match index_of a, index_of b with Some x, Some y => x <? y | _, _ => false end.

Definition ordered {A} (kvs : props A) : props A :=
  sort_by index_ltb (List.filter (fun kv => is_index (fst kv)) kvs) ++
  List.filter (fun kv => negb (is_index (fst kv))) kvs.

Lemma filter_partition_perm {A} (p : A -> bool) l :
  Permutation (List.filter p l ++ List.filter (fun x => negb (p x)) l) l.
Proof.
  induction l as [|x l IH]; cbn; [done|]. destruct (p x); cbn.
  - by constructor.
  - rewrite <- Permutation_middle. by constructor.
Qed.

Lemma ordered_perm {A} (kvs : props A) : Permutation (ordered kvs) kvs.
Proof. unfold ordered. rewrite sort_by_perm. apply filter_partition_perm. Qed.

(** ** [JSON.stringify] *)

Definition dquote : ascii := char_of_code 34.
Definition backslash : ascii := char_of_code 92.

Definition escape (c : ascii) : list ascii :=
  let z := code c in
  if z =? 34 then [backslash; dquote]
  else if z =? 92 then [backslash; backslash]
  else if z =? 8 then [backslash; "b"%char]
  else if z =? 9 then [backslash; "t"%char]
  else if z =? 10 then [backslash; "n"%char]
  else if z =? 12 then [backslash; "f"%char]
  else if z =? 13 then [backslash; "r"%char]
  else if z <? 32 then [backslash; "u"%char; "0"%char; "0"%char; hex_digit (z / 16); hex_digit (z mod 16)]
  else [c].

Definition quote (s : string) : list ascii := dquote :: List.flat_map escape (chars s) ++ [dquote].

Fixpoint join (sep : list ascii) (l : list (list ascii)) : list ascii :=
  match l with
  | [] => []
  | [x] => x
  | x :: l => x ++ sep ++ join sep l
  end.

Definition member (kv : string * option (list ascii)) : option (list ascii) :=
  match snd kv with
  | Some v => Some (quote (fst kv) ++ ":"%char :: v)
  | None => None
  end.

(** [JSON.stringify(v)]; [None] is [undefined]. *)
Fixpoint stringify (v : json) : option (list ascii) :=
  match v with
  | JUndefined => None
  | JNull => Some (chars "null")
  | JBool b => Some (chars (if b then "true" else "false"))
  | JNum z => Some (chars (pretty z))
  | JStr s => Some (quote s)
  | JArr l =>
      Some ("["%char :: join [","%char] (List.map (fun v => default (chars "null") (stringify v)) l)
            ++ ["]"%char])
  | JObj kvs =>
      Some ("{"%char :: join [","%char]
              (omap member (ordered (List.map (fun kv => (fst kv, stringify (snd kv))) kvs)))
            ++ ["}"%char])
  end.

(** ** [String(v)] *)

Fixpoint js_String (v : json) : string :=
  match v with
  | JUndefined => "undefined"
  | JNull => "null"
  | JBool b => if b then "true" else "false"
  | JNum z => pretty z
  | JStr s => s
  | JArr l =>
      of_chars (join [","%char] (List.map
        (fun v => match v with JUndefined | JNull => [] | _ => chars (js_String v) end) l))
  | JObj _ => "[object Object]"
  end.

(** [v ?? d] and the truth value of [v]. *)
Definition nullish (v d : json) : json := match v with JUndefined | JNull => d | _ => v end.
Definition truthy_str (s : string) : bool := negb (bool_decide (s = "")).

(** An optional property of an object literal, [...(x === undefined ? {} : { k: x })]. *)
Definition opt_str (o : option string) : json := match o with Some s => JStr s | None => JUndefined end.
Definition null_str (o : option string) : json := match o with Some s => JStr s | None => JNull end.

(** A rendering for examples, with single quotes. *)
Definition show (o : option (list ascii)) : string :=
  of_chars (List.map (fun c => if bool_decide (c = dquote) then "'"%char else c) (default [] o)).

Example stringify_1 :
  show (stringify (JObj [("b"%string, JNum (-12)); ("7"%string, JArr [JNull; JUndefined]);
                         ("a"%string, JUndefined); ("c"%string, JStr "x/y")]))
  = "{'7':[null,null],'b':-12,'c':'x/y'}"%string.
Proof. vm_compute. reflexivity. Qed.

(** ** Members by name *)

(** The members of the given names, in that order. *)
Definition select (ks : list string) (v : props json) : props json := List.map (fun k => (k, prop k v)) ks.

Lemma prop_app_l k (v w : props json) : k ∈ keys v -> prop k (v ++ w) = prop k v.
Proof.
  induction v as [|[k' x] v IH]; cbn; [by intros ?%not_elem_of_nil|]. intros Hk.
  destruct (decide (k = k')) as [->|Hne]; [by rewrite bool_decide_eq_true_2|].
  rewrite bool_decide_eq_false_2 by done. apply IH. by apply elem_of_cons in Hk as [|].
Qed.

Lemma prop_app_r k (v w : props json) : k ∉ keys v -> prop k (v ++ w) = prop k w.
Proof.
  induction v as [|[k' x] v IH]; cbn; [done|]. rewrite not_elem_of_cons. intros [Hk Hn].
  rewrite bool_decide_eq_false_2 by done. by apply IH.
Qed.

Lemma prop_none k (v : props json) : k ∉ keys v -> prop k v = JUndefined.
Proof. intros H. rewrite <- (app_nil_r v), prop_app_r by done. done. Qed.

Lemma prop_elem k x (v : props json) : NoDup (keys v) -> (k, x) ∈ v -> prop k v = x.
Proof.
  induction v as [|[k' y] v IH]; cbn; [by intros _ ?%not_elem_of_nil|]. intros [Hk Hn]%NoDup_cons Hin.
  apply elem_of_cons in Hin as [[= -> ->]|Hin]; [by rewrite bool_decide_eq_true_2|].
  rewrite bool_decide_eq_false_2; [by apply IH|]. intros ->. apply Hk.
  apply list_elem_of_In, in_map_iff. exists (k', x). split; [done|by apply list_elem_of_In].
Qed.

Lemma select_perm ks (v : props json) : NoDup (keys v) -> Permutation (keys v) ks -> Permutation (select ks v) v.
Proof.
  intros Hn Hp. unfold select. rewrite <- Hp. unfold keys. rewrite List.map_map.
  assert (List.map (fun x : string * json => (fst x, prop (fst x) v)) v = v) as ->; [|done].
  assert (Hall : forall x, x ∈ v -> (fst x, prop (fst x) v) = x).
  { intros [k x] Hx. cbn. by rewrite (prop_elem k x v Hn Hx). }
  transitivity (List.map (fun x => x) v); [|apply List.map_id].
  apply List.map_ext_in. intros x Hx. by apply Hall, list_elem_of_In.
Qed.

Lemma prop_select k ks (v : props json) : k ∈ ks -> prop k (select ks v) = prop k v.
Proof.
  unfold select. induction ks as [|k' ks IH]; cbn; [by intros ?%not_elem_of_nil|]. intros Hk.
  destruct (decide (k = k')) as [->|Hne]; [by rewrite bool_decide_eq_true_2|].
  rewrite bool_decide_eq_false_2 by done. apply IH. by apply elem_of_cons in Hk as [|].
Qed.

Lemma keys_select ks v : keys (select ks v) = ks.
Proof. unfold keys, select. rewrite List.map_map. cbn. apply List.map_id. Qed.

Lemma prop_put_eq k v (kvs : props json) : prop k (put k v kvs) = v.
Proof.
  induction kvs as [|[k' x] kvs IH]; cbn; [by rewrite bool_decide_eq_true_2|].
  destruct (bool_decide (k = k')) eqn:E; cbn; by rewrite E.
Qed.

Lemma prop_put_ne k k' v (kvs : props json) : k <> k' -> prop k (put k' v kvs) = prop k kvs.
Proof.
  intros Hne. induction kvs as [|[k0 x] kvs IH]; cbn; [by rewrite bool_decide_eq_false_2|].
  destruct (bool_decide (k' = k0)) eqn:E; cbn.
  - apply bool_decide_eq_true in E as <-. by rewrite bool_decide_eq_false_2.
  - by rewrite IH.
Qed.
