(* ===== verification/Platform.v ===== *)
(** * The platform the source runs on

    Interfaces of the code that is not under [src/]: the digests and signatures of [node:crypto]
    and the clock arithmetic of [Date], as type classes with the laws some theorems rely on, and
    the regular expressions shared by the components.  Each class has an executable instance used
    by the witnesses. *)

From S2P Require Import Prelude Bytes.
From stdpp Require Import pretty.

#[global] Open Scope Z_scope.

(** ** Regular expressions *)

Definition lower_hex (c : ascii) : bool := is_digit c || in_range "a" "f" c.

(** [/^[a-f0-9]{64}$/]
    Source: src/deployment/database.ts:38-38 (DIGEST_PATTERN) *)
Definition DIGEST_PATTERN (s : string) : bool :=
  (String.length s =? 64)%nat && all_chars lower_hex s.

(** [/^(?:[a-f0-9]{40}|[a-f0-9]{64})$/]
    Source: src/deployment/database.ts:39-39 (GIT_OBJECT_PATTERN) *)
Definition GIT_OBJECT_PATTERN (s : string) : bool :=
  ((String.length s =? 40)%nat || (String.length s =? 64)%nat) && all_chars lower_hex s.

Definition identifier_char (c : ascii) : bool := is_alnum c || one_of "._:-" c.

(** [/^[A-Za-z0-9][A-Za-z0-9._:-]{0,255}$/]
    Source: src/deployment/database.ts:40-40 (IDENTIFIER_PATTERN) *)
Definition IDENTIFIER_PATTERN (s : string) : bool :=
  match s with
  | EmptyString => false
  | String c s => is_alnum c && (String.length s <=? 255)%nat && all_chars identifier_char s
  end.

(** [/^[A-Za-z0-9._:-]{8,256}$/]
    Source: src/deployment/database.ts:41-41 (IDEMPOTENCY_PATTERN) *)
Definition IDEMPOTENCY_PATTERN (s : string) : bool :=
  (8 <=? String.length s)%nat && (String.length s <=? 256)%nat && all_chars identifier_char s.

Fixpoint take_while (p : ascii -> bool) (l : list ascii) : list ascii :=
  match l with
  | [] => []
  | c :: l => if p c then c :: take_while p l else []
  end.

(** [/^[A-Za-z0-9+/]{32,}={0,2}$/] *)
Definition SIGNATURE_PATTERN (s : string) : bool :=
  let body := take_while (fun c => is_alnum c || one_of "+/" c) (chars s) in
  let rest := drop (length body) (chars s) in
  (32 <=? length body)%nat && (length rest <=? 2)%nat && forallb (fun c => bool_decide (c = "="%char)) rest.

(** [Number.isSafeInteger(z)] for an integer [z]. *)
Definition isSafeInteger (z : Z) : bool := (-(2 ^ 53) <? z) && (z <? 2 ^ 53).

(** ** [node:crypto] *)

Class Crypto := {
  PublicKey : Type;
  PrivateKey : Type;
  sha256Hex : string -> string;
  signEd25519 : string -> PrivateKey -> string;
  verifyEd25519 : string -> string -> PublicKey -> bool
}.

(** What is documented: a digest is 64 lowercase hexadecimal digits, a signature verifies
    under the public half of its key, and its base64 text has 88 characters. *)
Class CryptoLaws (C : Crypto) := {
  public_half : PrivateKey -> PublicKey;
  sha256Hex_digest : forall s, DIGEST_PATTERN (sha256Hex s) = true;
  verify_sign : forall doc k, verifyEd25519 doc (signEd25519 doc k) (public_half k) = true;
  sign_length : forall doc k, (32 <= String.length (signEd25519 doc k))%nat
}.

(** ** [Date] *)

(** [date_value s] is [new Date(s).valueOf()], [None] for [NaN]; [to_iso] is [toISOString]. *)
Class Dates := {
  date_value : string -> option Z;
  to_iso : Z -> string
}.

(** The tests [!Number.isFinite(parsed.valueOf()) || parsed.toISOString() !== value].
    Source: src/deployment/database.ts:285-290 (assertTimestamp) *)
Definition canonical_timestamp {D : Dates} (s : string) : bool :=
  match date_value s with
  | Some t => bool_decide (to_iso t = s)
  | None => false
  end.

(** [new Date(a) < new Date(b)] and the other comparisons are false on [NaN]. *)
Definition date_ltb {D : Dates} (a b : string) : bool :=
  match date_value a, date_value b with Some x, Some y => x <? y | _, _ => false end.
Definition date_leb {D : Dates} (a b : string) : bool :=
  match date_value a, date_value b with Some x, Some y => x <=? y | _, _ => false end.

(** ** Executable instances *)

(** A polynomial checksum in place of SHA-256, and the keyed checksum as signature. *)
Definition checksum (s : string) : Z :=
  fold_left (fun acc c => (acc * 31 + code c + 1) mod 2 ^ 16) (chars s) 7.

Definition toy_sha (s : string) : string := to_hex (be_bytes 32 (checksum s)).

Lemma toy_sha_digest s : DIGEST_PATTERN (toy_sha s) = true.
Proof.
  unfold DIGEST_PATTERN, toy_sha. apply andb_true_iff. split.
  - apply Nat.eqb_eq. rewrite <- length_chars. unfold to_hex.
    rewrite chars_of_chars, length_hex_chars, length_be_bytes. reflexivity.
  - unfold all_chars, to_hex. rewrite chars_of_chars. apply forallb_forall.
    intros c (z & Hz & Hc)%in_flat_map. pose proof (be_bytes_byte 32 (checksum s)) as Hb.
    rewrite List.Forall_forall in Hb. apply Hb in Hz. unfold is_byte in Hz.
    assert (Hd : forall d, 0 <= d < 16 -> lower_hex (hex_digit d) = true)
      by (intros d; apply (range_check 16 (fun d => lower_hex (hex_digit d))); reflexivity).
    assert (0 <= z / 16 < 16) by (split; [apply Z.div_pos; lia|apply Z.div_lt_upper_bound; lia]).
    pose proof (Z.mod_pos_bound z 16). destruct Hc as [<-|[<-|[]]]; apply Hd; lia.
Qed.

Definition toy_crypto : Crypto := {|
  PublicKey := string;
  PrivateKey := string;
  sha256Hex := toy_sha;
  signEd25519 := fun doc k => toy_sha (k ++ doc);
  verifyEd25519 := fun doc sig k => bool_decide (sig = toy_sha (k ++ doc))
|}.

Definition toy_laws : CryptoLaws toy_crypto.
Proof.
  refine {| public_half := fun k : @PrivateKey toy_crypto => (k : @PublicKey toy_crypto) |}.
  - exact toy_sha_digest.
  - intros doc k. cbn. by apply bool_decide_eq_true_2.
  - intros doc k. pose proof (toy_sha_digest (k ++ doc)) as H. unfold DIGEST_PATTERN in H.
    apply andb_true_iff in H as [H _]. apply Nat.eqb_eq in H.
    change (32 <= String.length (toy_sha (k ++ doc)))%nat. rewrite H. lia.
Defined.

(** ** Strings in the order of the locale *)

(** [String.prototype.localeCompare], whose order is the locale's. *)
Class Locale := { localeCompare : string -> string -> Z }.

(** [l.sort((a, b) => key(a).localeCompare(key(b)))], a stable sort. *)
Fixpoint locale_insert {A} {Lo : Locale} (key : A -> string) (x : A) (l : list A) : list A :=
  match l with
  | [] => [x]
  | y :: l => if localeCompare (key x) (key y) <=? 0 then x :: y :: l else y :: locale_insert key x l
  end.
Definition locale_sort {A} {Lo : Locale} (key : A -> string) (l : list A) : list A :=
  foldr (locale_insert key) [] l.

(** [localeCompare] is a comparison: one of two strings is not after the other. *)
Class LocaleLaws (Lo : Locale) := {
  locale_total : forall a b, localeCompare a b <= 0 \/ localeCompare b a <= 0
}.

(** A sorted list stays as it is, and sorting sorts. *)
Inductive locale_sorted {A} {Lo : Locale} (key : A -> string) : list A -> Prop :=
| locale_sorted_nil : locale_sorted key []
| locale_sorted_one x : locale_sorted key [x]
| locale_sorted_cons x y l :
    localeCompare (key x) (key y) <= 0 -> locale_sorted key (y :: l) -> locale_sorted key (x :: y :: l).

Lemma locale_insert_sorted {A} {Lo : Locale} `{!LocaleLaws Lo} (key : A -> string) x l :
  locale_sorted key l -> locale_sorted key (locale_insert key x l).
Proof.
  induction 1 as [|y|y z l Hyz Hl IH]; cbn [locale_insert] in *; [constructor| |].
  - destruct (localeCompare (key x) (key y) <=? 0) eqn:E; bool_inv; constructor; try constructor; [lia|].
    destruct (locale_total (key x) (key y)); lia.
  - destruct (localeCompare (key x) (key y) <=? 0) eqn:E; bool_inv; [by repeat constructor|].
    destruct (localeCompare (key x) (key z) <=? 0) eqn:E'; bool_inv; constructor; try done.
    destruct (locale_total (key x) (key y)); lia.
Qed.

Lemma locale_sort_sorted {A} {Lo : Locale} `{!LocaleLaws Lo} (key : A -> string) l :
  locale_sorted key (locale_sort key l).
Proof. induction l as [|x l IH]; cbn; [constructor|]. by apply locale_insert_sorted. Qed.

Lemma locale_sort_id {A} {Lo : Locale} (key : A -> string) l : locale_sorted key l -> locale_sort key l = l.
Proof.
  induction 1 as [|x|x y l Hxy Hl IH]; [done|done|].
  change (locale_sort key (x :: y :: l)) with (locale_insert key x (locale_sort key (y :: l))). rewrite IH.
  cbn [locale_insert]. by apply Z.leb_le in Hxy as ->.
Qed.

Lemma locale_insert_perm {A} {Lo : Locale} (key : A -> string) x l : Permutation (locale_insert key x l) (x :: l).
Proof.
  induction l as [|y l IH]; cbn; [done|]. destruct (_ <=? _); [done|]. rewrite IH. constructor.
Qed.

Lemma locale_sort_perm {A} {Lo : Locale} (key : A -> string) l : Permutation (locale_sort key l) l.
Proof. induction l as [|x l IH]; cbn; [done|]. by rewrite locale_insert_perm, IH. Qed.

(** ** Directories *)

(** [readdirSync]: the entries of a directory, in no particular order. *)
Class Directory := {
  readdir : forall {V : Type}, gmap string V -> list (string * V);
  readdir_entries : forall {V : Type} (m : gmap string V), Permutation (readdir m) (map_to_list m)
}.

(** Instants written as decimal milliseconds, so that every date of the witnesses is readable. *)
Definition parse_decimal (s : string) : option Z :=
  if all_chars is_digit s && negb (bool_decide (s = ""))
  then Some (fold_left (fun acc c => acc * 10 + (code c - 48)) (chars s) 0) else None.

Definition toy_dates : Dates := {| date_value := parse_decimal; to_iso := pretty.pretty |}.
