(* ===== verification/Base64.v ===== *)
(** * Base64, as [Buffer] reads and writes it

    [buf.toString('base64')] and [Buffer.from(s, 'base64')]: three bytes are four characters; the
    reader takes the alphabet of URLs too, skips what is in neither alphabet and ends at the first
    padding character.  Reading what was written gives the bytes back. *)

From S2P Require Import Prelude Bytes.

#[global] Open Scope Z_scope.

(** The digit of a sextet. *)
Definition digit64 (z : Z) : ascii :=
  if z <? 26 then char_of_code (65 + z)
  else if z <? 52 then char_of_code (97 + (z - 26))
  else if z <? 62 then char_of_code (48 + (z - 52))
  else if z =? 62 then "+"%char else "/"%char.

Definition value64 (c : ascii) : option Z :=
  if is_upper c then Some (code c - 65)
  else if is_lower c then Some (code c - 97 + 26)
  else if is_digit c then Some (code c - 48 + 52)
  else if one_of "+-" c then Some 62
  else if one_of "/_" c then Some 63
  else None.

(** [buf.toString('base64')] *)
Fixpoint encode (b : buffer) : list ascii :=
  match b with
  | [] => []
  | [x] => [digit64 (x / 4); digit64 (x mod 4 * 16); "="%char; "="%char]
  | [x; y] => [digit64 (x / 4); digit64 (x mod 4 * 16 + y / 16); digit64 (y mod 16 * 4); "="%char]
  | x :: y :: z :: b =>
      digit64 (x / 4) :: digit64 (x mod 4 * 16 + y / 16) ::
      digit64 (y mod 16 * 4 + z / 64) :: digit64 (z mod 64) :: encode b
  end.

Definition toBase64 (b : buffer) : string := of_chars (encode b).

(** The sextets of a text: up to the padding, without the characters of no alphabet. *)
Fixpoint sextets (l : list ascii) : list Z :=
  match l with
  | [] => []
  | c :: l =>
      if bool_decide (c = "="%char) then []
      else match value64 c with Some v => v :: sextets l | None => sextets l end
  end.

(** A last group of two or three sextets has one byte or two. *)
Fixpoint bytes_of (l : list Z) : buffer :=
  match l with
  | a :: b :: c :: d :: l => (a * 4 + b / 16) :: (b mod 16 * 16 + c / 4) :: (c mod 4 * 64 + d) :: bytes_of l
  | [a; b; c] => [a * 4 + b / 16; b mod 16 * 16 + c / 4]
  | [a; b] => [a * 4 + b / 16]
  | _ => []
  end.

(** [Buffer.from(s, 'base64')] *)
Definition fromBase64 (s : string) : buffer := bytes_of (sextets (chars s)).

Lemma digit64_spec z : 0 <= z < 64 -> value64 (digit64 z) = Some z /\ digit64 z <> "="%char.
Proof.
  intros Hz. pose (p z := bool_decide (value64 (digit64 z) = Some z /\ digit64 z <> "="%char)).
  apply (bool_decide_eq_true_1 (_ /\ _)). by apply (range_check 64 p).
Qed.

Lemma sextets_digit z l : 0 <= z < 64 -> sextets (digit64 z :: l) = z :: sextets l.
Proof.
  intros [Hv Hp]%digit64_spec. cbn [sextets]. by rewrite bool_decide_eq_false_2, Hv.
Qed.

(** The quotients and remainders of a byte that is cut in two. *)
Lemma split_byte x k : is_byte x -> 0 < k -> x / k * k + x mod k = x.
Proof. intros _ Hk. pose proof (Z.div_mod x k). lia. Qed.

Lemma is_byte_div x k m : is_byte x -> 0 < k -> k * m = 256 -> 0 <= x / k < m.
Proof. intros Hx Hk Hm. unfold is_byte in Hx. split; [apply Z.div_pos; lia|apply Z.div_lt_upper_bound; lia]. Qed.

(** Everything that is known of the quotients and remainders of the bytes in the context. *)
Ltac parts x k m Hx :=
  pose proof (is_byte_div x k m Hx ltac:(lia) ltac:(lia));
  pose proof (Z.mod_pos_bound x k ltac:(lia)); pose proof (split_byte x k Hx ltac:(lia)).
Ltac sextet :=
  repeat match goal with
  | Hx : is_byte ?x |- _ => parts x 4 64 Hx; parts x 16 16 Hx; parts x 64 4 Hx; clear Hx
  end.

(** Taking apart [high * k + low]. *)
Lemma join_div h l k : 0 <= l < k -> (h * k + l) / k = h.
Proof. intros Hl. rewrite Z.div_add_l by lia. rewrite Z.div_small; lia. Qed.
Lemma join_mod h l k : 0 <= l < k -> (h * k + l) mod k = l.
Proof. intros Hl. rewrite Z.add_comm, Z.mod_add by lia. apply Z.mod_small. lia. Qed.

(** Reading what was written. *)
Lemma base64_roundtrip b : Forall is_byte b -> fromBase64 (toBase64 b) = b.
Proof.
  unfold fromBase64, toBase64. rewrite chars_of_chars.
  enough (forall n b, (length b <= n)%nat -> Forall is_byte b -> bytes_of (sextets (encode b)) = b) as H
    by (by apply (H (length b))).
  induction n as [|n IH]; intros [|x [|y [|z r]]] Hn Hb; cbn [length] in Hn; try done; try lia;
    repeat (apply list.Forall_cons in Hb as [? Hb]); cbn [encode].
  - rewrite !sextets_digit by (sextet; lia). cbn [sextets bytes_of]. rewrite Z.div_mul by lia.
    sextet. f_equal. lia.
  - assert (0 <= y / 16 < 16) by (sextet; lia).
    rewrite !sextets_digit by (sextet; lia). cbn [sextets bytes_of].
    rewrite join_div, join_mod by lia. rewrite Z.div_mul by lia. sextet. f_equal; [lia|f_equal; lia].
  - assert (0 <= y / 16 < 16 /\ 0 <= z / 64 < 4) as [? ?] by (sextet; lia).
    rewrite !sextets_digit by (sextet; lia). cbn [bytes_of].
    rewrite !join_div, !join_mod by lia. rewrite IH by (done || lia).
    sextet. f_equal; [lia|f_equal; [lia|f_equal; lia]].
Qed.

Example base64_abc : toBase64 [97; 98; 99; 100] = "YWJjZA=="%string.
Proof. reflexivity. Qed.
Example base64_url : fromBase64 "-_ 8=AAAA" = [251; 255].
Proof. reflexivity. Qed.
