(* ===== verification/Errors.v ===== *)
(** * Exceptions ([src/auth/errors.ts], [src/operations/errors.ts])

    The exceptions the supervisor throws as one type, and the shape an operation error takes inside
    a signed response. *)

From S2P Require Import Prelude Bytes Json.

#[global] Open Scope Z_scope.

(** [TypeError] and the other errors of the language are [PlainError]; [NotAnError] is a thrown
    value that is no [Error].
    Source: src/auth/errors.ts:3-19 (AuthError, IdempotentReplay) *)
Inductive exn :=
| AuthError (code message : string) (retryable : bool) (details : json)
| IdempotentReplay (cachedResponse : json)
| OperationError (code message : string) (retryable : bool) (details : json) (partial : bool)
| PlainError (message : string)
| NotAnError (v : json).

#[global] Instance exn_eq_dec : EqDecision exn.
Proof. solve_decision. Defined.

(** [new AuthError(code, message)]. *)
Abbreviation auth_error code message := (AuthError code message false JUndefined).

(** [error.message]; [None] for a thrown value that is no [Error]. *)
Definition message_of (e : exn) : option string :=
  match e with
  | AuthError _ m _ _ | OperationError _ m _ _ _ | PlainError m => Some m
  | IdempotentReplay v => Some (match stringify v with Some l => of_chars l | None => ""%string end)
  | NotAnError _ => None
  end.

Definition lower (c : ascii) : ascii := if is_upper c then char_of_code (code c + 32) else c.

Definition toLowerCase (s : string) : string := of_chars (List.map lower (chars s)).

(** Source: src/operations/errors.ts:26-36 (inferCode) *)
Definition inferCode (message : string) : string :=
  let normalized := toLowerCase message in
  if includes normalized "not found" then "not_found"
  else if includes normalized "destination exists" then "destination_exists"
  else if includes normalized "required" then "invalid_request"
  else if includes normalized "invalid" then "invalid_request"
  else if includes normalized "permission denied" then "permission_denied"
  else if includes normalized "not active" || includes normalized "lost" then "not_active"
  else if includes normalized "timeout" then "timeout"
  else "operation_failed".

(** The members of an [OperationErrorShape].
    Source: src/operations/errors.ts:3-11 (OperationErrorShape) *)
Definition error_shape (code message : string) (retryable : bool) (operation requestId : string)
    (partial : bool) (details : props json) : json :=
  JObj ([("code", JStr code); ("message", JStr message); ("retryable", JBool retryable);
         ("operation", JStr operation); ("requestId", JStr requestId);
         ("partial", JBool partial)]%string ++ details).

(** The truth value of a JSON value. *)
Definition truthy (v : json) : bool :=
  match v with
  | JUndefined | JNull | JBool false => false
  | JNum z => negb (z =? 0)
  | JStr s => truthy_str s
  | _ => true
  end.

(** Source: src/operations/errors.ts:38-68 (normalizeOperationError) *)
Definition normalizeOperationError (error : exn) (operation requestId : string) : json :=
  JObj [("error"%string,
    match error with
    | OperationError code message retryable details partial =>
        error_shape code message retryable operation requestId partial
          (if truthy details then [("details"%string, details)] else [])
    | _ =>
        let message := default "Operation failed"%string (message_of error) in
        error_shape (inferCode message) message false operation requestId false []
    end)].

(** [v.k] on a value of unknown type: reading a member of [undefined] or [null] throws. *)
Definition get (k : string) (v : json) : result exn json :=
  match v with
  | JUndefined | JNull => Err (PlainError ("Cannot read properties of " +:+ js_String v))
  | _ => Ok (field k v)
  end.
