(* ===== verification/Secrets.v ===== *)
(** * Secret references ([src/secrets/provider.ts])

    How the environment of a job is resolved: a secret is named by a reference, its value goes to the
    child process and the reference to the record of the job.  The provider is a function from
    references to values.  The lemmas: what is recorded does not depend on the values of the secrets,
    and a literal whose name looks like a secret is refused. *)

From S2P Require Import Prelude Bytes Json.

#[global] Open Scope Z_scope.

(** ** Names that look like secrets *)

Definition SECRET_WORDS : list (list ascii) :=
  List.map chars ["TOKEN"; "SECRET"; "PASSWORD"; "PASSWD"; "API_KEY"; "PRIVATE_KEY"; "CREDENTIAL"; "AUTH"]%string.

Definition to_upper (c : ascii) : ascii := if is_lower c then char_of_code (code c - 32) else c.

(** [W(?:_|$)] at the start of a text. *)
Fixpoint word_at (w l : list ascii) : bool :=
  match w, l with
  | [], [] => true
  | [], c :: _ => bool_decide (c = "_"%char)
  | d :: w, c :: l => bool_decide (d = c) && word_at w l
  | _ :: _, [] => false
  end.

(** [(?:^|_)(?:A|B)(?:_|$)] anywhere in a text; [start] where the text or an underscore has just ended. *)
Fixpoint secret_in (start : bool) (l : list ascii) : bool :=
  (start && existsb (fun w => word_at w l) SECRET_WORDS) ||
  match l with
  | [] => false
  | c :: l => secret_in (bool_decide (c = "_"%char)) l
  end.

(** The expression ignores the case.
    Source: src/secrets/provider.ts:18-22 (isSecretLikeEnvironmentName) *)
Definition isSecretLikeEnvironmentName (name : string) : bool := secret_in true (List.map to_upper (chars name)).

Example secret_like : List.map isSecretLikeEnvironmentName
    ["TOKEN"; "GITHUB_token"; "API_KEY_2"; "TOKENS"; "AUTHOR"; "MY_AUTH_"; "PATH"; "XTOKEN"]%string =
  [true; true; true; false; false; true; false; false].
Proof. reflexivity. Qed.

(** ** Resolving an environment *)

(** The messages of the exceptions. *)
Inductive secret_error := must_use_reference (name : string) | not_resolved (reference : string).

#[global] Instance secret_error_eq_dec : EqDecision secret_error.
Proof. solve_decision. Defined.

(** What the record of a job keeps of a variable; a reference is marked as redacted.
    Source: src/secrets/provider.ts:3-7 (SecretReference) *)
Inductive persisted_entry :=
| SecretReference (name secretReference : string)
| Literal (name value : string).

(** Source: src/secrets/provider.ts:24-28 (rejectSecretLikeLiteral) *)
Definition rejectSecretLikeLiteral (name : string) : result secret_error unit :=
  require (negb (isSecretLikeEnvironmentName name)) (must_use_reference name).

(** Source: src/secrets/provider.ts:54-56 (toPersistedSecretReference) *)
Definition toPersistedSecretReference (name secretReference : string) : persisted_entry :=
  SecretReference name secretReference.

(** Source: src/secrets/provider.ts:30-36 (MapSecretProvider) *)
Definition MapSecretProvider (secrets : gmap string string) (reference : string) : option string := secrets !! reference.

(** [/^github:(.+)$/]: the dot is no line terminator.
    Source: src/secrets/provider.ts:38-44 (ProcessEnvSecretProvider) *)
Definition ProcessEnvSecretProvider (process_env : string -> option string) (reference : string) : option string :=
  let name := slice_from reference 7 in
  if startsWith reference "github:" && truthy_str name && all_chars (fun c => negb ((code c =? 10) || (code c =? 13))) name
  then process_env name else None.

(** Source: src/secrets/provider.ts:46-52 (isSecretReferenceEntry) *)
Definition isSecretReferenceEntry (entry : json) : bool :=
  match field "name" entry, field "secretReference" entry with JStr _, JStr _ => true | _, _ => false end.

(** Source: src/secrets/provider.ts:92-94 (containsSecretValue) *)
Definition containsSecretValue (value needle : string) : bool := includes value needle.

Section Resolve.
(** [provider.resolve] *)
Variable resolve : string -> option string.

(** The variables so far, and what is recorded of them. *)
Abbreviation resolved := (props string * list persisted_entry)%type.

(** A variable that is no reference.
    Source: src/secrets/provider.ts:82-86 (resolveEnvironment) *)
Definition resolve_literal (acc : resolved) (name : string) (value : json) : result secret_error resolved :=
  match value with
  | JStr value =>
      _ ← rejectSecretLikeLiteral name;
      Ok (assign (fst acc) (name, value), snd acc ++ [Literal name value])
  | _ => Ok acc
  end.

(** One entry; what is not an object with a name is skipped.
    Source: src/secrets/provider.ts:70-81 (resolveEnvironment) *)
Definition resolve_entry (acc : resolved) (entry : json) : result secret_error resolved :=
  match entry with
  | JObj obj =>
      let name := js_String (nullish (prop "name" obj) (JStr "")) in
      if negb (truthy_str name) then Ok acc
      else match prop "secretReference" obj with
           | JStr reference =>
               match resolve reference with
               | None => Err (not_resolved reference)
               | Some value => Ok (assign (fst acc) (name, value), snd acc ++ [toPersistedSecretReference name reference])
               end
           | _ => resolve_literal acc name (prop "value" obj)
           end
  | _ => Ok acc
  end.

Fixpoint resolve_entries (acc : resolved) (entries : list json) : result secret_error resolved :=
  match entries with
  | [] => Ok acc
  | entry :: entries => acc ← resolve_entry acc entry; resolve_entries acc entries
  end.

(** Source: src/secrets/provider.ts:58-90 (resolveEnvironment) *)
Definition resolveEnvironment (environment : json) : result secret_error resolved :=
  match environment with
  | JArr entries => resolve_entries ([], []) entries
  | _ => Ok ([], [])
  end.

(** The variable of the child and the entry of the record are of the same variable. *)
Definition literal_safe (e : persisted_entry) : Prop :=
  match e with Literal name _ => isSecretLikeEnvironmentName name = false | SecretReference _ _ => True end.

Lemma resolve_literal_safe acc name value acc' :
  Forall literal_safe (snd acc) -> resolve_literal acc name value = Ok acc' -> Forall literal_safe (snd acc').
Proof using.
  intros Hacc. unfold resolve_literal. destruct value; try congruence. intros H. result_inv. cbn [snd].
  apply Forall_app. split; [done|]. repeat constructor. cbn. unfold rejectSecretLikeLiteral in *. result_inv. by bool_inv.
Qed.

Lemma resolve_entry_safe acc entry acc' :
  Forall literal_safe (snd acc) -> resolve_entry acc entry = Ok acc' -> Forall literal_safe (snd acc').
Proof using.
  intros Hacc. unfold resolve_entry. destruct entry as [| | | | | |obj]; try congruence.
  destruct (negb _); [congruence|].
  destruct (prop "secretReference" obj) as [| | | |reference| |]; try by apply resolve_literal_safe.
  destruct (resolve reference); [|done]. intros [= <-]. cbn [snd]. apply Forall_app. split; [done|]. by repeat constructor.
Qed.

Lemma resolve_entries_safe entries : forall acc env persisted,
  Forall literal_safe (snd acc) -> resolve_entries acc entries = Ok (env, persisted) -> Forall literal_safe persisted.
Proof using.
  induction entries as [|entry entries IH]; intros acc env persisted Hacc; cbn [resolve_entries].
  - intros [= ->]. done.
  - intros H. result_inv. eapply IH, H1. by eapply resolve_entry_safe.
Qed.

(** No literal of the record has a name that looks like a secret. *)
Lemma recorded_literals_safe environment env persisted :
  resolveEnvironment environment = Ok (env, persisted) -> Forall literal_safe persisted.
Proof using.
  unfold resolveEnvironment. destruct environment; try (intros [= <- <-]; constructor).
  apply resolve_entries_safe. constructor.
Qed.
End Resolve.

(** ** What is recorded does not depend on the secrets *)

(** The part of an outcome that is recorded. *)
Definition recorded {X Y : Type} (r : result secret_error (X * Y)) : result secret_error Y :=
  match r with Ok (_, p) => Ok p | Err e => Err e end.

Section Noninterference.
Context (resolve1 resolve2 : string -> option string).

(** The providers know the same references. *)
Hypothesis same_references : forall reference, is_Some (resolve1 reference) <-> is_Some (resolve2 reference).

Lemma resolve_entry_recorded acc1 acc2 entry : snd acc1 = snd acc2 ->
  recorded (resolve_entry resolve1 acc1 entry) = recorded (resolve_entry resolve2 acc2 entry).
Proof using same_references.
  destruct acc1 as [e1 p], acc2 as [e2 p2]. cbn [snd]. intros <-. unfold resolve_entry. destruct entry; try done.
  destruct (negb _); [done|].
  destruct (prop "secretReference" kvs) as [| | | |reference| |]; try (by unfold resolve_literal; destruct (prop "value" kvs);
    try done; unfold rejectSecretLikeLiteral, require, mbind, result_bind; destruct (negb _)).
  specialize (same_references reference).
  destruct (resolve1 reference), (resolve2 reference); try done; exfalso.
  - destruct same_references as [[? ?] _]; [by eexists|done].
  - destruct same_references as [_ [? ?]]; [by eexists|done].
Qed.

Lemma resolve_entries_recorded entries : forall acc1 acc2, snd acc1 = snd acc2 ->
  recorded (resolve_entries resolve1 acc1 entries) = recorded (resolve_entries resolve2 acc2 entries).
Proof using same_references.
  induction entries as [|entry entries IH]; intros acc1 acc2 Hacc; cbn [resolve_entries].
  - destruct acc1, acc2. cbn in *. by subst.
  - pose proof (resolve_entry_recorded acc1 acc2 entry Hacc) as H. unfold mbind, result_bind.
    destruct (resolve_entry resolve1 acc1 entry) as [[? ?]|], (resolve_entry resolve2 acc2 entry) as [[? ?]|]; try done.
    injection H as ->. by apply IH.
Qed.

Lemma resolveEnvironment_recorded environment :
  recorded (resolveEnvironment resolve1 environment) = recorded (resolveEnvironment resolve2 environment).
Proof using same_references. destruct environment; try done. by apply resolve_entries_recorded. Qed.
End Noninterference.
