(* ===== verification/Config.v ===== *)
(** * Runtime configuration ([src/config.ts])

    The configuration record every component reads, its defaults, and the identity of the machine. *)

From S2P Require Import Prelude Bytes Json Platform.

#[global] Open Scope Z_scope.

(** Source: src/config.ts:7-7 (PROTOCOL_VERSION) *)
Definition PROTOCOL_VERSION : string := "1.0.0".

(** Source: src/config.ts:57-89 (RuntimeConfig) *)
Record RuntimeConfig := {
  socketPath : string;
  socketGroup : string;
  socketMode : Z;
  stateRoot : string;
  configRoot : string;
  gatewayId : string;
  supervisorId : string;
  expectedSubject : string;
  authorityClass : string;
  expectedHostname : string;
  expectedMachineIdSha256 : string;
  oauthIssuer : string;
  oauthResource : string;
  oauthJwksUri : string;
  gatewayAuthorityPublicKeyPath : string;
  gatewayAuthorityPrivateKeyPath : string;
  gatewayAuthorityKeyId : string;
  supervisorReceiptPrivateKeyPath : string;
  supervisorReceiptPublicKeyPath : string;
  supervisorReceiptKeyId : string;
  ownerPrincipalFingerprint : string;
  previousGatewayAuthorityPublicKeyPath : option string;
  gatewayUid : Z;
  skipPeerCredCheck : bool;
  maxFrameSize : Z;
  maxOutputBytes : Z;
  maxJobQueue : Z;
  maxRetentionJobs : Z;
  requestMaxAgeMs : Z;
  nonceRetentionMs : Z;
  idempotencyRetentionMs : Z
}.

(** What [loadRuntimeConfig] returns with no overrides and an empty environment.
    Source: src/config.ts:91-138 (loadRuntimeConfig) *)
Definition default_config : RuntimeConfig := {|
  socketPath := "/run/horsey/baby-quirt.sock";
  socketGroup := "horsey";
  socketMode := 6 * 64 + 6 * 8;
  stateRoot := "/var/lib/baby-quirt";
  configRoot := "/etc/baby-quirt";
  gatewayId := "stealtheye-horsey-gateway";
  supervisorId := "baby-quirt-supervisor";
  expectedSubject := "stealtheye-owner";
  authorityClass := "unrestricted-owner";
  expectedHostname := "vps-c9f04f5e";
  expectedMachineIdSha256 := "cd189817b39fea60d338b73878240a6fe7db71374c7a0f35ad60f8eb641e8817";
  oauthIssuer := "https://baby-quirt.stealtheye.io";
  oauthResource := "https://baby-quirt.stealtheye.io/mcp";
  oauthJwksUri := "https://baby-quirt.stealtheye.io/oauth/jwks.json";
  gatewayAuthorityPublicKeyPath := "/etc/baby-quirt/gateway-authority-public.pem";
  gatewayAuthorityPrivateKeyPath := "/etc/baby-quirt/gateway-authority-private.pem";
  gatewayAuthorityKeyId := "gateway-authority-v1";
  supervisorReceiptPrivateKeyPath := "/etc/baby-quirt/supervisor-receipt-private.pem";
  supervisorReceiptPublicKeyPath := "/etc/baby-quirt/supervisor-receipt-public.pem";
  supervisorReceiptKeyId := "supervisor-receipt-v1";
  ownerPrincipalFingerprint := "";
  previousGatewayAuthorityPublicKeyPath := None;
  gatewayUid := 997;
  skipPeerCredCheck := false;
  maxFrameSize := 16 * 1024 * 1024;
  maxOutputBytes := 64 * 1024 * 1024;
  maxJobQueue := 256;
  maxRetentionJobs := 1024;
  requestMaxAgeMs := 5 * 60 * 1000;
  nonceRetentionMs := 24 * 60 * 60 * 1000;
  idempotencyRetentionMs := 24 * 60 * 60 * 1000
|}.

(** Source: src/config.ts:140-143 (normalizeMachineId) *)
Definition normalizeMachineId (text : string) : string :=
  remove_chars (fun c => (code c =? 13) || (code c =? 10)) text.

(** Source: src/config.ts:145-149 (machineIdSha256) *)
Definition machineIdSha256 `{Crypto} (raw : string) : string :=
  let normalized := normalizeMachineId raw in
  if truthy_str normalized then sha256Hex normalized else ""%string.

(** [machine_id] is the content of [/etc/machine-id], [None] when it cannot be read.
    Source: src/config.ts:151-157 (getMachineIdSha256) *)
Definition getMachineIdSha256 `{Crypto} (machine_id : option string) : string :=
  match machine_id with Some raw => machineIdSha256 raw | None => ""%string end.

(** What the supervisor reads from the machine it runs on. *)
Record Host := { hostname : string; machine_id : option string }.
