(* ===== verification/Frame.v ===== *)
(** * QRT1 frames ([src/protocol/frame.ts])

    The 32-byte header codec ([encodeFrame], [decodeHeader]) and the incremental reader
    ([feedFrames]), with the round trip of a frame, the conservation of bytes and the
    independence of the reader from the way the stream is cut into chunks. *)

From S2P Require Import Prelude Bytes.

(** ** Data *)

(** Source: src/protocol/frame.ts:5-5 (FRAME_MAGIC_BYTES) *)
Definition FRAME_MAGIC_BYTES : buffer := ascii_bytes "QRT1".

(** Source: src/protocol/frame.ts:6-6 (HEADER_SIZE) *)
Definition HEADER_SIZE : nat := 32.

(** Source: src/protocol/frame.ts:8-18 (FrameType) *)
Inductive FrameType :=
| Hello | Welcome | Request | Response | Error | Event | Cancel | Ping | Pong.

#[global] Instance FrameType_eq_dec : EqDecision FrameType.
Proof. solve_decision. Defined.

(** Source: src/protocol/frame.ts:8-18 (FrameType) *)
Definition FrameType_code (t : FrameType) : Z :=
  match t with
  | Hello => 1 | Welcome => 2 | Request => 3 | Response => 4 | Error => 5
  | Event => 6 | Cancel => 7 | Ping => 8 | Pong => 9
  end.

(** The number read from the wire is cast to [FrameType] unchecked, so the field is a number.
    Source: src/protocol/frame.ts:20-27 (FrameHeader) *)
Record FrameHeader := {
  magic : string;
  protocolVersion : Z;
  frameType : Z;
  requestId : string;
  payloadLength : Z;
  flags : Z
}.

(** Source: src/protocol/frame.ts:29-32 (DecodedFrame) *)
Record DecodedFrame := { header : FrameHeader; payload : buffer }.

#[global] Instance FrameHeader_eq_dec : EqDecision FrameHeader.
Proof. solve_decision. Defined.
#[global] Instance DecodedFrame_eq_dec : EqDecision DecodedFrame.
Proof. solve_decision. Defined.

(** [RangeError] is what [writeUInt16BE] and [writeUInt32BE] throw on a value out of range;
    [OutOfFuel] is no exception of the code ([feedFrames_fuel]).
    Source: src/protocol/frame.ts:34-43 (ProtocolError) *)
Inductive ProtocolError := truncated_frame | invalid_magic | frame_too_large | RangeError | OutOfFuel.

#[global] Instance ProtocolError_eq_dec : EqDecision ProtocolError.
Proof. solve_decision. Defined.

(** ** Encoding *)

Definition write_be (n : nat) (v : Z) (b : buffer) (off : nat) : result ProtocolError buffer :=
  _ ← require ((0 <=? v) && (v <? 256 ^ Z.of_nat n)) RangeError;
  Ok (copy (be_bytes n v) b off).

(** [uuid] is the value of [randomUUID()], used when no identifier is given.
    Source: src/protocol/frame.ts:45-64 (encodeFrame) *)
Definition encodeFrame (frameType : FrameType) (payload : buffer) (requestId : option string)
    (flags protocolVersion : Z) (uuid : string) : result ProtocolError buffer :=
  let header := alloc HEADER_SIZE in
  let header := copy FRAME_MAGIC_BYTES header 0 in
  header ← write_be 2 protocolVersion header 4;
  header ← write_be 2 (FrameType_code frameType) header 6;
  let id := default uuid requestId in
  let idBuf := from_hex (remove_chars (fun c => bool_decide (c = "-"%char)) id) in
  let header := if bool_decide (length idBuf = 16%nat) then copy idBuf header 8 else header in
  header ← write_be 4 (Z.of_nat (length payload)) header 24;
  header ← write_be 4 flags header 28;
  Ok (header ++ payload).

(** ** Decoding *)

(** Source: src/protocol/frame.ts:81-84 (formatUuid) *)
Definition formatUuid (buf : buffer) : string :=
  let hex := to_hex buf in
  (slice hex 0 8 ++ "-" ++ slice hex 8 12 ++ "-" ++ slice hex 12 16 ++ "-" ++
   slice hex 16 20 ++ "-" ++ slice_from hex 20)%string.

(** Source: src/protocol/frame.ts:66-79 (decodeHeader) *)
Definition decodeHeader (buf : buffer) : result ProtocolError FrameHeader :=
  _ ← require (negb (length buf <? HEADER_SIZE)%nat) truncated_frame;
  let magic := to_ascii (subarray buf 0 4) in
  _ ← require (magic === "QRT1"%string) invalid_magic;
  Ok {| magic := magic;
        protocolVersion := read_be 2 buf 4;
        frameType := read_be 2 buf 6;
        requestId := formatUuid (subarray buf 8 24);
        payloadLength := read_be 4 buf 24;
        flags := read_be 4 buf 28 |}.

(** The loop of [feedFrames]: frames are pushed until the buffer holds no complete one; an
    exception leaves the undecoded rest in [state.buffer] and drops the frames of this call.
    Source: src/protocol/frame.ts:102-114 (feedFrames) *)
Fixpoint feed_loop (fuel : nat) (maxFrameSize : Z) (buf : buffer)
    : result ProtocolError (list DecodedFrame) * buffer :=
  if (length buf <? HEADER_SIZE)%nat then (Ok [], buf) else
  match decodeHeader buf with
  | Err e => (Err e, buf)
  | Ok h =>
      let totalSize := (HEADER_SIZE + Z.to_nat (payloadLength h))%nat in
      if maxFrameSize <? payloadLength h then (Err frame_too_large, buf) else
      if (length buf <? totalSize)%nat then (Ok [], buf) else
      let payload := subarray buf HEADER_SIZE totalSize in
      match fuel with
      | O => (Err OutOfFuel, buf)
      | S fuel =>
          match feed_loop fuel maxFrameSize (drop totalSize buf) with
          | (Ok frames, rest) => (Ok ({| header := h; payload := payload |} :: frames), rest)
          | (Err e, rest) => (Err e, rest)
          end
      end
  end.

(** Source: src/protocol/frame.ts:86-92 (FrameReaderState) *)
Record FrameReaderState := { buffer_ : buffer }.

(** Source: src/protocol/frame.ts:90-92 (createFrameReader) *)
Definition createFrameReader : FrameReaderState := {| buffer_ := [] |}.

(** Source: src/protocol/frame.ts:94-117 (feedFrames) *)
Definition feedFrames (state : FrameReaderState) (chunk : buffer) (maxFrameSize : Z)
    : result ProtocolError (list DecodedFrame) * FrameReaderState :=
  let buf := buffer_ state ++ chunk in
  let '(r, rest) := feed_loop (length buf) maxFrameSize buf in
  (r, {| buffer_ := rest |}).

(** ** The layout of a frame *)

(** A frame as it appears on the wire. *)
Definition wire (pv ft : Z) (id : buffer) (fl : Z) (p : buffer) : buffer :=
  FRAME_MAGIC_BYTES ++ be_bytes 2 pv ++ be_bytes 2 ft ++ id ++
  be_bytes 4 (Z.of_nat (length p)) ++ be_bytes 4 fl ++ p.

Lemma write_be_Ok n v b off r :
  write_be n v b off = Ok r -> 0 <= v < 256 ^ Z.of_nat n /\ r = copy (be_bytes n v) b off.
Proof. unfold write_be. intros. result_inv. bool_inv. split; [lia|done]. Qed.

Lemma length_16 {A} (l : list A) :
  length l = 16%nat -> exists a b c d e f g h i j k m n o p q,
    l = [a; b; c; d; e; f; g; h; i; j; k; m; n; o; p; q].
Proof.
  intros H. do 16 (destruct l as [|? l]; [discriminate H|]).
  destruct l; [|discriminate H]. by repeat eexists.
Qed.

Lemma write_be_run n v b off :
  0 <= v < 256 ^ Z.of_nat n -> write_be n v b off = Ok (copy (be_bytes n v) b off).
Proof.
  intros. unfold write_be, require.
  by rewrite (proj2 (Z.leb_le 0 v)), (proj2 (Z.ltb_lt v _)) by lia.
Qed.

Lemma FrameType_code_range t : 0 <= FrameType_code t < 256 ^ Z.of_nat 2.
Proof. destruct t; cbn; lia. Qed.

Definition id_bytes (id : string) : buffer := from_hex (remove_chars (fun c => bool_decide (c = "-"%char)) id).

Lemma encodeFrame_wire ft p id fl pv uuid :
  length (id_bytes id) = 16%nat ->
  0 <= pv < 256 ^ 2 -> 0 <= fl < 256 ^ 4 -> Z.of_nat (length p) < 256 ^ 4 ->
  encodeFrame ft p (Some id) fl pv uuid = Ok (wire pv (FrameType_code ft) (id_bytes id) fl p).
Proof.
  intros Hid Hpv Hfl Hp. unfold encodeFrame. cbn zeta. change (default uuid (Some id)) with id.
  fold (id_bytes id). rewrite (bool_decide_eq_true_2 _ Hid).
  rewrite !write_be_run by (first [apply FrameType_code_range | cbn; lia]). cbn [mbind result_bind].
  rewrite write_be_run by apply FrameType_code_range. cbn [mbind result_bind].
  rewrite write_be_run by (cbn; lia). cbn [mbind result_bind].
  rewrite write_be_run by (cbn; lia). cbn [mbind result_bind].
  unfold wire. f_equal.
  apply length_16 in Hid as (a & b & c & d & e & f & g & h & i & j & k & m & n & o & q & r & ->).
  reflexivity.
Qed.

Lemma length_wire pv ft id fl p :
  length id = 16%nat -> length (wire pv ft id fl p) = (32 + length p)%nat.
Proof.
  intros Hid. unfold wire. rewrite !length_app, !length_be_bytes, Hid. cbn. lia.
Qed.

(** ** Reading a frame back *)

Section Wire.
Context (pv ft fl : Z) (id p rest : buffer).
Context (Hid : length id = 16%nat) (Hpv : 0 <= pv < 256 ^ 2) (Hft : 0 <= ft < 256 ^ 2)
  (Hfl : 0 <= fl < 256 ^ 4) (Hp : Z.of_nat (length p) < 256 ^ 4).

Definition wire_header : FrameHeader :=
  {| magic := "QRT1"; protocolVersion := pv; frameType := ft; requestId := formatUuid id;
     payloadLength := Z.of_nat (length p); flags := fl |}.

Lemma decodeHeader_wire : decodeHeader (wire pv ft id fl p ++ rest) = Ok wire_header.
Proof using All.
  unfold decodeHeader, wire_header. rewrite length_app, length_wire by done.
  destruct (Nat.ltb_spec (32 + length p + length rest) HEADER_SIZE) as [H|_];
    [unfold HEADER_SIZE in H; lia|].
  destruct (length_16 _ Hid) as (a & b & c & d & e & f & g & h & i & j & k & m & n & o & q & r & Heq).
  assert (Hw : forall x, wire pv ft id fl p ++ x = FRAME_MAGIC_BYTES ++ be_bytes 2 pv ++
    be_bytes 2 ft ++ [a; b; c; d; e; f; g; h; i; j; k; m; n; o; q; r] ++
    be_bytes 4 (Z.of_nat (length p)) ++ be_bytes 4 fl ++ p ++ x)
    by (intros x; unfold wire; rewrite Heq, <- !app_assoc; reflexivity).
  rewrite Hw. change (require (negb false) truncated_frame) with (Ok (E:=ProtocolError) tt).
  cbn [mbind result_bind].
  change (subarray (FRAME_MAGIC_BYTES ++ _) 0 4) with FRAME_MAGIC_BYTES.
  change (read_be 2 (FRAME_MAGIC_BYTES ++ _) 4) with (be_value (be_bytes 2 pv)).
  change (read_be 2 (FRAME_MAGIC_BYTES ++ _) 6) with (be_value (be_bytes 2 ft)).
  change (read_be 4 (FRAME_MAGIC_BYTES ++ _) 24) with (be_value (be_bytes 4 (Z.of_nat (length p)))).
  change (read_be 4 (FRAME_MAGIC_BYTES ++ _) 28) with (be_value (be_bytes 4 fl)).
  change (subarray (FRAME_MAGIC_BYTES ++ _) 8 24) with [a; b; c; d; e; f; g; h; i; j; k; m; n; o; q; r].
  rewrite !be_value_bytes by (cbn; lia). rewrite <- Heq. reflexivity.
Qed.
End Wire.

Lemma feed_loop_short fuel max buf :
  (length buf < HEADER_SIZE)%nat -> feed_loop fuel max buf = (Ok [], buf).
Proof. intros H. apply Nat.ltb_lt in H. destruct fuel; cbn [feed_loop]; by rewrite H. Qed.

(** ** The reader terminates, and its fuel is enough *)

Lemma feed_loop_fuel n max buf :
  (length buf <= n)%nat -> feed_loop n max buf = feed_loop (length buf) max buf.
Proof.
  revert buf. induction (Nat.lt_wf_0 n) as [n _ IH]. intros buf Hn.
  destruct (decide (length buf < HEADER_SIZE)%nat) as [Hs|Hs]; [by rewrite !feed_loop_short|].
  destruct (length buf) as [|m] eqn:Hlen; [unfold HEADER_SIZE in Hs; lia|].
  destruct n as [|n]; [lia|]. cbn [feed_loop]. rewrite Hlen.
  destruct (S m <? HEADER_SIZE)%nat; [done|].
  destruct (decodeHeader buf) as [h|]; [|done].
  destruct (max <? payloadLength h); [done|].
  destruct (S m <? HEADER_SIZE + Z.to_nat (payloadLength h))%nat eqn:Ht; [done|].
  apply Nat.ltb_ge in Ht.
  set (k := drop _ buf). assert (Hk : (length k <= m)%nat)
    by (unfold k; rewrite length_drop; unfold HEADER_SIZE in *; lia).
  rewrite (IH n), (IH m) by lia. done.
Qed.

(** The reader without fuel: one unfolding of the [while] loop. *)
Definition feed (max : Z) (buf : buffer) := feed_loop (length buf) max buf.

Lemma feed_eq max buf :
  feed max buf =
    if (length buf <? HEADER_SIZE)%nat then (Ok [], buf) else
    match decodeHeader buf with
    | Err e => (Err e, buf)
    | Ok h =>
        let total := (HEADER_SIZE + Z.to_nat (payloadLength h))%nat in
        if max <? payloadLength h then (Err frame_too_large, buf) else
        if (length buf <? total)%nat then (Ok [], buf) else
        match feed max (drop total buf) with
        | (Ok frames, rest) =>
            (Ok ({| header := h; payload := subarray buf HEADER_SIZE total |} :: frames), rest)
        | (Err e, rest) => (Err e, rest)
        end
    end.
Proof.
  unfold feed at 1. destruct (length buf) as [|m] eqn:Hlen; [by rewrite feed_loop_short; [|rewrite Hlen; unfold HEADER_SIZE; lia]|].
  cbn [feed_loop]. rewrite Hlen.
  destruct (S m <? HEADER_SIZE)%nat; [done|].
  destruct (decodeHeader buf) as [h|]; [|done]. cbn zeta.
  destruct (max <? payloadLength h); [done|].
  destruct (S m <? HEADER_SIZE + Z.to_nat (payloadLength h))%nat eqn:Ht; [done|].
  apply Nat.ltb_ge in Ht. unfold feed.
  rewrite (feed_loop_fuel m); [done|]. rewrite length_drop. unfold HEADER_SIZE in *. lia.
Qed.

Lemma decodeHeader_not_fuel buf : decodeHeader buf <> Err OutOfFuel.
Proof.
  unfold decodeHeader. intros [H|(? & _ & [H|(? & _ & ?)]%bind_Err)]%bind_Err;
    [apply require_Err in H as [_ ?]|apply require_Err in H as [_ ?]|]; discriminate.
Qed.

(** Induction on the buffer the loop still has to read. *)
Lemma buffer_ind (P : buffer -> Prop) :
  (forall b, (forall c, (length c < length b)%nat -> P c) -> P b) -> forall b, P b.
Proof. intros H b. by induction (well_founded_ltof buffer length b) as [b _ IH]; apply H. Qed.

Lemma drop_total_lt h (buf : buffer) :
  (length buf <? HEADER_SIZE)%nat = false ->
  (length (drop (HEADER_SIZE + h) buf) < length buf)%nat.
Proof. intros ?%Nat.ltb_ge. rewrite length_drop. unfold HEADER_SIZE in *. lia. Qed.

Lemma feed_not_fuel max buf : fst (feed max buf) <> Err OutOfFuel.
Proof.
  induction buf as [buf IH] using buffer_ind. rewrite feed_eq.
  destruct (length buf <? HEADER_SIZE)%nat eqn:Hs; [done|].
  pose proof (decodeHeader_not_fuel buf). destruct (decodeHeader buf) as [h|e]; [|naive_solver].
  cbn zeta. do 2 (split_if; [done|]).
  specialize (IH _ (drop_total_lt (Z.to_nat (payloadLength h)) _ Hs)).
  by destruct (feed max (drop _ buf)) as [[] ?].
Qed.

(** ** Cutting the stream *)

Lemma decodeHeader_app buf c :
  (length buf <? HEADER_SIZE)%nat = false -> decodeHeader (buf ++ c) = decodeHeader buf.
Proof.
  intros Hs. unfold decodeHeader, read_be. rewrite length_app.
  apply Nat.ltb_ge in Hs. unfold HEADER_SIZE in *.
  rewrite !subarray_app_l by lia.
  by rewrite (proj2 (Nat.ltb_ge (length buf) 32)), (proj2 (Nat.ltb_ge (length buf + length c) 32)) by lia.
Qed.

Definition add_frames (fs : list DecodedFrame) (o : result ProtocolError (list DecodedFrame) * buffer)
    : result ProtocolError (list DecodedFrame) * buffer :=
  match o with (Ok gs, r) => (Ok (fs ++ gs), r) | (Err e, r) => (Err e, r) end.

Lemma feed_app max buf c fs r :
  feed max buf = (Ok fs, r) -> feed max (buf ++ c) = add_frames fs (feed max (r ++ c)).
Proof.
  revert fs r. induction buf as [buf IH] using buffer_ind. intros fs r H.
  assert (Hnil : forall o, add_frames [] o = o) by (intros [[] ?]; done).
  rewrite feed_eq in H. destruct (length buf <? HEADER_SIZE)%nat eqn:Hs.
  { injection H as <- <-. by rewrite Hnil. }
  destruct (decodeHeader buf) as [h|] eqn:Hh; [|discriminate].
  destruct (max <? payloadLength h) eqn:Hm; [discriminate|]. cbn zeta in H.
  set (total := (HEADER_SIZE + Z.to_nat (payloadLength h))%nat) in *.
  destruct (length buf <? total)%nat eqn:Ht.
  { injection H as <- <-. by rewrite Hnil. }
  destruct (feed max (drop total buf)) as [[gs|] r'] eqn:Hf; [|discriminate].
  injection H as <- <-.
  rewrite feed_eq, decodeHeader_app, Hh, Hm by done. apply Nat.ltb_ge in Hs, Ht.
  rewrite (proj2 (Nat.ltb_ge (length (buf ++ c)) HEADER_SIZE)) by (rewrite length_app; lia).
  cbn zeta. fold total. rewrite (proj2 (Nat.ltb_ge (length (buf ++ c)) total)) by (rewrite length_app; lia).
  rewrite drop_app_le, subarray_app_l by lia.
  pose proof (IH _ (drop_total_lt _ buf (proj2 (Nat.ltb_ge _ _) Hs)) _ _ Hf) as HI.
  fold total in HI. rewrite HI. by destruct (feed max (r' ++ c)) as [[] ?].
Qed.

(** An exception is not undone by more input. *)
Lemma feed_app_err max buf c e r :
  feed max buf = (Err e, r) -> exists r', feed max (buf ++ c) = (Err e, r').
Proof.
  revert r. induction buf as [buf IH] using buffer_ind. intros r H.
  rewrite feed_eq in H. destruct (length buf <? HEADER_SIZE)%nat eqn:Hs; [discriminate|].
  rewrite feed_eq, decodeHeader_app by done.
  pose proof Hs as Hlt. apply Nat.ltb_ge in Hs.
  rewrite (proj2 (Nat.ltb_ge (length (buf ++ c)) HEADER_SIZE)) by (rewrite length_app; lia).
  destruct (decodeHeader buf) as [h|]; [|injection H as <- _; by eexists].
  destruct (max <? payloadLength h); [injection H as <- _; by eexists|]. cbn zeta in *.
  set (total := (HEADER_SIZE + Z.to_nat (payloadLength h))%nat) in *.
  destruct (length buf <? total)%nat eqn:Ht; [discriminate|]. apply Nat.ltb_ge in Ht.
  rewrite (proj2 (Nat.ltb_ge (length (buf ++ c)) total)) by (rewrite length_app; lia).
  rewrite drop_app_le by lia.
  destruct (feed max (drop total buf)) as [[|e'] r2] eqn:Hg; [discriminate|].
  injection H as -> _. destruct (IH _ (drop_total_lt _ _ Hlt) _ Hg) as [r' Hr].
  fold total in Hr. rewrite Hr. by eexists.
Qed.

(** A connection: the chunks of the socket fed one after the other, stopping at the first
    exception ([socket.destroy()]). *)
Fixpoint feed_chunks (max : Z) (state : FrameReaderState) (chunks : list buffer)
    : result ProtocolError (list DecodedFrame) * FrameReaderState :=
  match chunks with
  | [] => (Ok [], state)
  | c :: chunks =>
      match feedFrames state c max with
      | (Err e, state) => (Err e, state)
      | (Ok fs, state) =>
          match feed_chunks max state chunks with
          | (Ok gs, state) => (Ok (fs ++ gs), state)
          | (Err e, state) => (Err e, state)
          end
      end
  end.

Lemma feedFrames_feed state c max :
  feedFrames state c max =
    (fst (feed max (buffer_ state ++ c)), {| buffer_ := snd (feed max (buffer_ state ++ c)) |}).
Proof. unfold feedFrames. cbn zeta. fold (feed max (buffer_ state ++ c)). by destruct (feed _ _). Qed.

Lemma feed_rest_stable max buf fs r : feed max buf = (Ok fs, r) -> feed max r = (Ok [], r).
Proof.
  revert fs r. induction buf as [buf IH] using buffer_ind. intros fs r H.
  pose proof H as H'. rewrite feed_eq in H.
  destruct (length buf <? HEADER_SIZE)%nat eqn:Hs; [injection H as <- <-; done|].
  destruct (decodeHeader buf) as [h|] eqn:Hh; [|discriminate].
  destruct (max <? payloadLength h) eqn:Hm; [discriminate|]. cbn zeta in H.
  set (total := (HEADER_SIZE + Z.to_nat (payloadLength h))%nat) in *.
  destruct (length buf <? total)%nat eqn:Ht; [injection H as <- <-; done|].
  destruct (feed max (drop total buf)) as [[gs|] r'] eqn:Hf; [|discriminate].
  injection H as <- <-. apply (IH _ (drop_total_lt _ _ Hs) _ _ Hf).
Qed.

Lemma feed_chunks_concat max state chunks fs r :
  feed max (buffer_ state) = (Ok [], buffer_ state) ->
  feed max (buffer_ state ++ concat chunks) = (Ok fs, r) ->
  feed_chunks max state chunks = (Ok fs, {| buffer_ := r |}).
Proof.
  revert state fs r. induction chunks as [|c chunks IH]; intros state fs r Hst H.
  { cbn in H. rewrite app_nil_r, Hst in H. injection H as <- <-. by destruct state. }
  cbn [concat] in H. rewrite app_assoc in H.
  cbn [feed_chunks]. rewrite feedFrames_feed.
  destruct (feed max (buffer_ state ++ c)) as [[gs|e] r'] eqn:Hf; cbn.
  - rewrite (feed_app _ _ _ _ _ Hf) in H.
    destruct (feed max (r' ++ concat chunks)) as [[hs|] r''] eqn:Hg; [|discriminate].
    injection H as <- <-. rewrite (IH {| buffer_ := r' |} hs r''); [done| |done].
    by apply (feed_rest_stable _ _ _ _ Hf).
  - destruct (feed_app_err _ _ (concat chunks) _ _ Hf) as [r'' Hr]. rewrite Hr in H. discriminate.
Qed.

(** ** What is returned is what was sent *)

(** Source-level frames, with the side conditions under which [encodeFrame] writes them. *)
Record sent := { s_type : FrameType; s_id : buffer; s_flags : Z; s_version : Z; s_payload : buffer }.

Definition sent_ok (max : Z) (f : sent) : Prop :=
  length (s_id f) = 16%nat /\ Forall is_byte (s_id f) /\ 0 <= s_version f < 256 ^ 2 /\
  0 <= s_flags f < 256 ^ 4 /\ Z.of_nat (length (s_payload f)) < 256 ^ 4 /\
  Z.of_nat (length (s_payload f)) <= max.

Definition sent_frame (f : sent) : DecodedFrame :=
  {| header := wire_header (s_version f) (FrameType_code (s_type f)) (s_flags f) (s_id f) (s_payload f);
     payload := s_payload f |}.

Definition encode_sent (f : sent) : result ProtocolError buffer :=
  encodeFrame (s_type f) (s_payload f) (Some (formatUuid (s_id f))) (s_flags f) (s_version f) "".

Lemma strip_formatUuid b :
  length b = 16%nat -> Forall is_byte b -> id_bytes (formatUuid b) = b.
Proof.
  intros Hb Hbytes. unfold id_bytes, formatUuid, remove_chars, from_hex.
  rewrite chars_of_chars, !chars_app. unfold slice, slice_from, to_hex. rewrite !chars_of_chars.
  rewrite !List.filter_app.
  set (p := fun c => negb _).
  assert (Hhex : List.filter p (hex_chars b) = hex_chars b).
  { apply List.forallb_filter_id, forallb_forall. intros c (z & Hz & Hc)%in_flat_map.
    rewrite List.Forall_forall in Hbytes. apply Hbytes in Hz. unfold is_byte in Hz.
    assert (Hd : forall d, 0 <= d < 16 -> p (hex_digit d) = true)
      by (intros d; apply (range_check 16 (fun d => p (hex_digit d))); reflexivity).
    assert (0 <= z / 16 < 16) by (split; [apply Z.div_pos; lia|apply Z.div_lt_upper_bound; lia]).
    pose proof (Z.mod_pos_bound z 16). destruct Hc as [<-|[<-|[]]]; apply Hd; lia. }
  assert (Hlen : length (hex_chars b) = 32%nat) by (rewrite length_hex_chars; lia).
  transitivity (hex_bytes (List.filter p (hex_chars b)));
    [|by rewrite Hhex, hex_bytes_chars].
  f_equal. clear Hhex. revert Hlen. generalize (hex_chars b) as l. intros l Hlen.
  do 32 (destruct l as [|? l]; [discriminate Hlen|]). destruct l; [|discriminate Hlen].
  cbn [take drop Nat.sub chars]. change (List.filter p ["-"%char]) with (@nil ascii).
  repeat first [rewrite app_nil_l | rewrite <- List.filter_app]. reflexivity.
Qed.

Lemma encode_sent_wire max f :
  sent_ok max f ->
  encode_sent f = Ok (wire (s_version f) (FrameType_code (s_type f)) (s_id f) (s_flags f) (s_payload f)).
Proof.
  intros (Hid & Hb & Hv & Hf & Hp & _). unfold encode_sent.
  rewrite encodeFrame_wire; rewrite ?strip_formatUuid; done.
Qed.

Lemma feed_wire max f rest :
  sent_ok max f ->
  feed max (wire (s_version f) (FrameType_code (s_type f)) (s_id f) (s_flags f) (s_payload f) ++ rest)
  = add_frames [sent_frame f] (feed max rest).
Proof.
  intros (Hid & Hb & Hv & Hf & Hp & Hmax). set (w := wire _ _ _ _ _).
  assert (Hw : length w = (HEADER_SIZE + length (s_payload f))%nat) by (by apply length_wire).
  rewrite feed_eq. rewrite length_app, Hw.
  rewrite (proj2 (Nat.ltb_ge (_ + _ + _) HEADER_SIZE)) by lia.
  unfold w at 1. rewrite decodeHeader_wire; try done; [|apply FrameType_code_range].
  cbn [payloadLength wire_header]. cbn zeta. rewrite (proj2 (Z.ltb_ge _ _)) by lia.
  rewrite Nat2Z.id. rewrite (proj2 (Nat.ltb_ge (_ + _ + _) _)) by lia.
  rewrite (drop_app_length' w rest), (subarray_app_l w rest) by lia.
  replace (subarray w HEADER_SIZE (HEADER_SIZE + length (s_payload f))) with (s_payload f).
  - unfold add_frames. by destruct (feed max rest) as [[] ?].
  - unfold subarray. rewrite take_ge by (rewrite length_drop; lia). unfold w, wire.
    rewrite !app_assoc. symmetry. apply drop_app_length'.
    rewrite !length_app, !length_be_bytes, Hid. reflexivity.
Qed.

Lemma feed_stream max fs :
  Forall (sent_ok max) fs ->
  exists stream, result_mapM encode_sent fs = Ok stream /\
    feed max (concat stream) = (Ok (List.map sent_frame fs), []).
Proof.
  induction 1 as [|f fs Hf _ (stream & Hs & Hfeed)]; [by exists []|].
  eexists. cbn [result_mapM]. rewrite (encode_sent_wire max f Hf), Hs. split; [reflexivity|].
  cbn [concat]. rewrite (feed_wire max f _ Hf), Hfeed. reflexivity.
Qed.

(** ** No byte is lost or invented *)

(** [raw] is the wire form of [f]. *)
Definition raw_frame (max : Z) (f : DecodedFrame) (raw : buffer) : Prop :=
  decodeHeader raw = Ok (header f) /\ payloadLength (header f) <= max /\
  length raw = (HEADER_SIZE + Z.to_nat (payloadLength (header f)))%nat /\
  payload f = drop HEADER_SIZE raw.

(** [rest] does not hold a complete frame. *)
Definition incomplete (rest : buffer) : Prop :=
  (length rest < HEADER_SIZE)%nat \/
  exists h, decodeHeader rest = Ok h /\ (length rest < HEADER_SIZE + Z.to_nat (payloadLength h))%nat.

Lemma feed_conserves max buf fs rest :
  feed max buf = (Ok fs, rest) ->
  exists raws, buf = concat raws ++ rest /\ Forall2 (raw_frame max) fs raws /\ incomplete rest.
Proof.
  revert fs rest. induction buf as [buf IH] using buffer_ind. intros fs rest H.
  rewrite feed_eq in H. destruct (length buf <? HEADER_SIZE)%nat eqn:Hs.
  { injection H as <- <-. exists []. repeat split; [constructor|]. left. by apply Nat.ltb_lt. }
  destruct (decodeHeader buf) as [h|] eqn:Hh; [|discriminate].
  destruct (max <? payloadLength h) eqn:Hm; [discriminate|]. cbn zeta in H.
  set (total := (HEADER_SIZE + Z.to_nat (payloadLength h))%nat) in *.
  destruct (length buf <? total)%nat eqn:Ht.
  { injection H as <- <-. exists []. repeat split; [constructor|]. right. exists h.
    by apply Nat.ltb_lt in Ht. }
  destruct (feed max (drop total buf)) as [[gs|] r'] eqn:Hf; [|discriminate].
  injection H as <- <-.
  destruct (IH _ (drop_total_lt _ _ Hs) _ _ Hf) as (raws & Hbuf & Hraws & Hinc).
  fold total in Hbuf. apply Nat.ltb_ge in Ht.
  assert (Htl : length (take total buf) = total) by (rewrite length_take; lia).
  exists (take total buf :: raws). split_and!; [|constructor; [|done]|done].
  - cbn [concat]. by rewrite <- app_assoc, <- Hbuf, take_drop.
  - split_and!; cbn [header payload]; [|by apply Z.ltb_ge in Hm|done|].
    + rewrite <- Hh. rewrite <- (take_drop total buf) at 2. symmetry. apply decodeHeader_app.
      apply Nat.ltb_ge. rewrite Htl. unfold total. lia.
    + unfold subarray. symmetry. apply List.skipn_firstn_comm.
Qed.

(** ** The properties *)

(** C34: a connection on which any list of valid frames is written, each by [encodeFrame], and
    whose bytes then arrive cut into any chunks, yields through [feedFrames] exactly those frames
    in order (type, version, flags, request identifier, payload), and leaves the reader empty. *)
Theorem stream_roundtrip (max : Z) (fs : list sent) (stream chunks : list buffer) :
  Forall (sent_ok max) fs ->
  result_mapM encode_sent fs = Ok stream ->
  concat chunks = concat stream ->
  feed_chunks max createFrameReader chunks = (Ok (List.map sent_frame fs), createFrameReader).
Proof.
  intros Hfs Hs Hc. destruct (feed_stream max fs Hfs) as (stream' & Hs' & Hf).
  rewrite Hs in Hs'. injection Hs' as <-.
  apply feed_chunks_concat; [done|]. cbn [buffer_ createFrameReader app]. by rewrite Hc.
Qed.

(** whatever bytes arrive, when [feedFrames] returns, the bytes buffered before and the chunk
    are exactly the wire forms of the returned frames, in order, followed by what stays buffered;
    every payload is within [maxFrameSize], and what stays is no complete frame. *)
Theorem feedFrames_conserves (state state' : FrameReaderState) (chunk : buffer) (max : Z)
    (fs : list DecodedFrame) :
  feedFrames state chunk max = (Ok fs, state') ->
  exists raws, buffer_ state ++ chunk = concat raws ++ buffer_ state' /\
    Forall2 (raw_frame max) fs raws /\ incomplete (buffer_ state').
Proof.
  rewrite feedFrames_feed. destruct (feed max _) as [r rest] eqn:Hf. cbn [fst snd].
  intros [= -> <-]. by apply feed_conserves.
Qed.

(** the loop of [feedFrames] terminates on every input: a fuel of one unit per buffered byte
    is never exhausted, whatever the state, the chunk and the limit. *)
Theorem feedFrames_fuel (state : FrameReaderState) (chunk : buffer) (max : Z) :
  fst (feedFrames state chunk max) <> Err OutOfFuel.
Proof. rewrite feedFrames_feed. apply feed_not_fuel. Qed.

(** A header that announces more than [maxFrameSize] bytes of payload makes [feedFrames] throw
    [frame_too_large] as soon as its 32 bytes are buffered, whether or not the payload follows. *)
Theorem feedFrames_too_large (state : FrameReaderState) (chunk : buffer) (max : Z) (h : FrameHeader) :
  (HEADER_SIZE <= length (buffer_ state ++ chunk))%nat ->
  decodeHeader (buffer_ state ++ chunk) = Ok h ->
  max < payloadLength h ->
  feedFrames state chunk max = (Err frame_too_large, {| buffer_ := buffer_ state ++ chunk |}).
Proof.
  intros Hl Hh Hm. rewrite feedFrames_feed, feed_eq, Hh, (proj2 (Nat.ltb_ge _ _) Hl).
  cbn zeta. by rewrite (proj2 (Z.ltb_lt _ _) Hm).
Qed.

(** ** Witnesses *)

Definition ping : sent :=
  {| s_type := Ping; s_id := List.map Z.of_nat (seq 0 16); s_flags := 7; s_version := 1; s_payload := [] |}.
Definition request : sent :=
  {| s_type := Request; s_id := List.map Z.of_nat (seq 240 16); s_flags := 0; s_version := 1;
     s_payload := [123; 125] |}.

Definition two_frames : list buffer :=
  match result_mapM encode_sent [ping; request] with Ok l => l | Err _ => [] end.

Lemma sent_ok_examples : Forall (sent_ok 16) [ping; request].
Proof. repeat constructor; unfold is_byte; cbn; lia. Qed.

Lemma stream_roundtrip_witness :
  feed_chunks 16 createFrameReader
    [take 5 (concat two_frames); take 40 (drop 5 (concat two_frames)); drop 45 (concat two_frames)]
  = (Ok [sent_frame ping; sent_frame request], createFrameReader).
Proof.
  apply (stream_roundtrip 16 [ping; request] two_frames); [apply sent_ok_examples| |]; reflexivity.
Defined.

Lemma feedFrames_conserves_witness :
  exists raws, concat two_frames ++ [81; 82] = concat raws ++ [81; 82] /\
    Forall2 (raw_frame 16) [sent_frame ping; sent_frame request] raws /\ incomplete [81; 82].
Proof.
  apply (feedFrames_conserves createFrameReader {| buffer_ := [81; 82] |} (concat two_frames ++ [81; 82]) 16).
  vm_compute. reflexivity.
Defined.

Lemma feedFrames_too_large_witness :
  feedFrames createFrameReader (concat two_frames) (-1) =
    (Err frame_too_large, {| buffer_ := concat two_frames |}).
Proof.
  apply (feedFrames_too_large createFrameReader (concat two_frames) (-1) (header (sent_frame ping)));
    [vm_compute; lia | vm_compute; reflexivity | vm_compute; reflexivity].
Defined.
