(* ===== verification/Canonical.v ===== *)
(** * Canonical JSON and the documents built on it ([src/crypto/canonical.ts])

    [canonicalJson], the signing document, the semantic fingerprint and [redactSecrets].  The
    central theorem says what the canonical text identifies: two values have the same text exactly
    when they are reorderings of one another; so a digest or a signature over the text binds every
    member, whatever order the members came in.  The exception the code makes (the member name
    ["__proto__"], which [sortKeys] drops) is proved too. *)

From S2P Require Import Prelude Bytes Json Platform Errors.

(** ** The functions of the source *)

(** Source: src/crypto/canonical.ts:9-22 (sortKeys) *)
Fixpoint sortKeys (value : json) : json :=
  match value with
  | JArr l => JArr (List.map sortKeys l)
  | JObj kvs =>
      JObj (fold_left assign
              (sort_by str_ltb (List.map (fun kv => (fst kv, sortKeys (snd kv))) kvs)) [])
  | _ => value
  end.

(** [None] is the [undefined] that [JSON.stringify(undefined)] returns.
    Source: src/crypto/canonical.ts:5-7 (canonicalJson) *)
Definition canonicalJson (value : json) : option string :=
  match stringify (sortKeys value) with Some l => Some (of_chars l) | None => None end.

(** The canonical text of an object literal, which is never [undefined]. *)
Definition canonical_obj (kvs : props json) : string := default ""%string (canonicalJson (JObj kvs)).

(** Source: src/crypto/canonical.ts:24-34 (SigningDocumentInput) *)
Record SigningDocumentInput := {
  sd_protocolVersion : string;
  sd_requestId : string;
  sd_operation : string;
  sd_principal : json;
  sd_authority : json;
  sd_targetHost : string;
  sd_timestamp : string;
  sd_payload : json;
  sd_binaryLength : Z
}.

(** Source: src/crypto/canonical.ts:36-43 (SemanticRequestInput) *)
Record SemanticRequestInput := {
  sr_protocolVersion : string;
  sr_operation : string;
  sr_principal : json;
  sr_targetHost : string;
  sr_payload : json;
  sr_binaryLength : Z
}.

(** Source: src/crypto/canonical.ts:45-58 (buildSigningDocument) *)
Definition signing_doc (input : SigningDocumentInput) : props json :=
  [("protocolVersion", JStr (sd_protocolVersion input));
   ("requestId", JStr (sd_requestId input));
   ("operation", JStr (sd_operation input));
   ("principal", sd_principal input);
   ("authority", sd_authority input);
   ("targetHost", JStr (sd_targetHost input));
   ("timestamp", JStr (sd_timestamp input));
   ("payload", sd_payload input);
   ("binaryLength", JNum (sd_binaryLength input))]%string.

(** Source: src/crypto/canonical.ts:45-58 (buildSigningDocument) *)
Definition buildSigningDocument (input : SigningDocumentInput) : string :=
  canonical_obj (signing_doc input).

(** Source: src/crypto/canonical.ts:60-75 (semanticRequestFingerprint) *)
Definition semantic_doc (input : SemanticRequestInput) : props json :=
  [("protocolVersion", JStr (sr_protocolVersion input));
   ("operation", JStr (sr_operation input));
   ("principal", sr_principal input);
   ("targetHost", JStr (sr_targetHost input));
   ("payload", sr_payload input);
   ("binaryLength", JNum (sr_binaryLength input))]%string.

(** Source: src/crypto/canonical.ts:60-75 (semanticRequestFingerprint) *)
Definition semanticRequestFingerprint `{Crypto} (input : SemanticRequestInput) : string :=
  sha256Hex (canonical_obj (semantic_doc input)).

(** Source: src/crypto/canonical.ts:85-87 (requestHash) *)
Definition requestHash `{Crypto} (signingDocument : string) : string := sha256Hex signingDocument.

(** Source: src/crypto/canonical.ts:89-96 (constantTimeEqual) *)
Definition constantTimeEqual (a b : string) : bool :=
  let bufA := utf8_bytes a in
  let bufB := utf8_bytes b in
  if negb (bool_decide (length bufA = length bufB)) then false else bufA === bufB.

(** The test [/secret|token|.../i.test(k)].
    Source: src/crypto/canonical.ts:113-113 (redactSecrets) *)
Definition sensitive_key (k : string) : bool :=
  let k := toLowerCase k in
  existsb (includes k)
    ["secret"; "token"; "password"; "private"; "credential"; "signature"; "secretreference"]%string.

(** Source: src/crypto/canonical.ts:98-122 (redactSecrets) *)
Fixpoint redactSecrets (value : json) (depth : nat) : json :=
  if (10 <? depth)%nat then JStr "[depth_exceeded]" else
  match value with
  | JStr s =>
      if includes s "PRIVATE KEY" || includes s "BEGIN RSA PRIVATE KEY"
      then JStr "[REDACTED]" else JStr s
  | JArr l => JArr (List.map (fun v => redactSecrets v (S depth)) l)
  | JObj kvs =>
      JObj (fold_left assign
        (ordered (List.map (fun kv =>
           (fst kv, if sensitive_key (fst kv) then JStr "[REDACTED]"
                    else redactSecrets (snd kv) (S depth))) kvs)) [])
  | _ => value
  end.

(** ** Plain values and reordering *)

Definition proto : string := "__proto__".

(** What [JSON.parse] yields, without the one member name that assignment does not store. *)
Fixpoint plain (v : json) : bool :=
  match v with
  | JUndefined => false
  | JArr l => forallb plain l
  | JObj kvs =>
      bool_decide (NoDup (keys kvs)) &&
      forallb (fun kv => negb (bool_decide (fst kv = proto)) && plain (snd kv)) kvs
  | _ => true
  end.

(** [reorders v w]: [w] is [v] with the members of its objects, at any depth, in another order. *)
Inductive reorders : json -> json -> Prop :=
| reorders_refl v : reorders v v
| reorders_arr l l' : Forall2 reorders l l' -> reorders (JArr l) (JArr l')
| reorders_obj kvs kvs1 kvs' :
    Permutation kvs kvs1 ->
    Forall2 (fun a b => fst a = fst b /\ reorders (snd a) (snd b)) kvs1 kvs' ->
    reorders (JObj kvs) (JObj kvs').

Lemma plain_obj kvs :
  plain (JObj kvs) = true <->
  NoDup (keys kvs) /\ (proto ∉ keys kvs) /\ Forall (fun kv => plain (snd kv) = true) kvs.
Proof.
  cbn [plain]. rewrite andb_true_iff, bool_decide_eq_true, forallb_forall, Forall_forall.
  unfold keys. rewrite list_elem_of_In, in_map_iff. split.
  - intros [Hn Hf]. split_and!; [done| |].
    + intros (kv & Hk & Hin). apply Hf in Hin. rewrite andb_true_iff, negb_true_iff, bool_decide_eq_false in Hin.
      naive_solver.
    + intros kv Hin%list_elem_of_In. apply Hf in Hin. by apply andb_true_iff in Hin as [_ ?].
  - intros (Hn & Hp & Hf). split; [done|]. intros kv Hin.
    rewrite andb_true_iff, negb_true_iff, bool_decide_eq_false. split; [naive_solver|].
    by apply Hf, list_elem_of_In.
Qed.

Lemma plain_arr l : plain (JArr l) = true <-> Forall (fun v => plain v = true) l.
Proof. cbn [plain]. rewrite forallb_forall, Forall_forall. by setoid_rewrite list_elem_of_In. Qed.

Lemma keys_map {A B} (f : string * A -> B) kvs : keys (List.map (fun kv => (fst kv, f kv)) kvs) = keys kvs.
Proof. unfold keys. by rewrite List.map_map. Qed.

(** Assigning distinct names, none of them ["__proto__"], stores them in order. *)
Lemma put_fresh {A} k (v : A) kvs : k ∉ keys kvs -> put k v kvs = kvs ++ [(k, v)].
Proof.
  induction kvs as [|[k' v'] kvs IH]; cbn; [done|]. rewrite not_elem_of_cons. intros [Hk Hn].
  by rewrite bool_decide_eq_false_2, IH.
Qed.

Lemma assign_all {A} (kvs acc : props A) :
  NoDup (keys (acc ++ kvs)) -> proto ∉ keys kvs -> fold_left assign kvs acc = acc ++ kvs.
Proof.
  revert acc. induction kvs as [|[k v] kvs IH]; intros acc Hn Hp; cbn [fold_left].
  { by rewrite app_nil_r. }
  cbn in Hp. rewrite not_elem_of_cons in Hp. destruct Hp as [Hk Hp].
  unfold assign at 2. cbn [fst snd]. rewrite bool_decide_eq_false_2 by done.
  rewrite put_fresh.
  - rewrite IH; rewrite <- ?app_assoc; done.
  - unfold keys in *. rewrite List.map_app in Hn. apply NoDup_app in Hn as (_ & Hd & _).
    intros Hin. apply (Hd k Hin). cbn. left.
Qed.

Lemma sortKeys_obj kvs :
  NoDup (keys kvs) -> proto ∉ keys kvs ->
  sortKeys (JObj kvs) = JObj (sort_by str_ltb (List.map (fun kv => (fst kv, sortKeys (snd kv))) kvs)).
Proof.
  intros Hn Hp. cbn [sortKeys].
  set (l := List.map _ kvs).
  assert (Hk : Permutation (keys (sort_by str_ltb l)) (keys kvs)).
  { unfold keys at 1. rewrite sort_by_perm. fold (keys l). unfold l.
    by rewrite (keys_map (fun kv => sortKeys (snd kv))). }
  rewrite (assign_all _ []); [done| |]; cbn [app]; by rewrite Hk.
Qed.

Lemma sorted_by_name {A} (l k : props A) :
  NoDup (keys l) -> Permutation l k -> sort_by str_ltb l = sort_by str_ltb k.
Proof. apply sort_by_unique; [apply str_ltb_asym|apply str_ltb_trans|apply str_ltb_total]. Qed.

(** [Object.keys(l).sort()]. *)
Definition sort_strings (l : list string) : list string :=
  List.map fst (sort_by str_ltb (List.map (fun k => (k, tt)) l)).

Lemma sort_strings_perm l : Permutation (sort_strings l) l.
Proof.
  unfold sort_strings. rewrite sort_by_perm, List.map_map. cbn. by rewrite List.map_id.
Qed.

Lemma sort_strings_unique l k : NoDup l -> Permutation l k -> sort_strings l = sort_strings k.
Proof.
  intros Hn Hp. unfold sort_strings. f_equal. apply sorted_by_name.
  - unfold keys. rewrite List.map_map. cbn. by rewrite List.map_id.
  - by apply Permutation_map.
Qed.

(** The order of code units as a locale. *)
Definition toy_locale : Locale :=
  {| localeCompare := fun a b => if str_ltb a b then -1 else if str_ltb b a then 1 else 0 |}.

Lemma toy_locale_laws : LocaleLaws toy_locale.
Proof.
  split. intros a b. cbn. destruct (str_ltb a b) eqn:E; [lia|]. destruct (str_ltb b a); lia.
Qed.

(** Reordering does not change the canonical form. *)
Lemma sortKeys_reorders v w : plain v = true -> reorders v w -> sortKeys v = sortKeys w.
Proof.
  revert w. induction v as [| | | | |l IH|kvs IH] using json_nested_ind; intros w Hp Hr;
    inversion Hr as [|? l' Hl|? kvs1 kvs' Hperm Hl]; subst; try done.
  - apply plain_arr in Hp. cbn [sortKeys]. f_equal.
    clear Hr. induction Hl as [|x y l l' Hxy Hl IHl]; [done|].
    inversion IH as [|?? IHx IH']; subst. inversion Hp; subst. cbn. f_equal; auto.
  - apply plain_obj in Hp as (Hn & Hpr & Hp).
    assert (Hkeys : keys kvs1 = keys kvs').
    { clear -Hl. unfold keys. induction Hl as [|?? l l' [] Hl IHl]; cbn; congruence. }
    assert (Hk1 : Permutation (keys kvs) (keys kvs1)) by (unfold keys; by rewrite Hperm).
    rewrite !sortKeys_obj; [|by rewrite <- Hkeys, <- Hk1..|done|done].
    f_equal. rewrite (sorted_by_name _ (List.map (fun kv => (fst kv, sortKeys (snd kv))) kvs1)).
    2: by rewrite (keys_map (fun kv => sortKeys (snd kv))).
    2: by apply Permutation_map.
    f_equal. rewrite Hperm in IH, Hp. clear -IH Hp Hl.
    induction Hl as [|x y l l' [Hf Hxy] Hl IHl]; [done|].
    inversion IH; subst. inversion Hp; subst. cbn. rewrite IHl, Hf by done. do 2 f_equal. auto.
Qed.

(** ** Reading canonical text back *)

(** The text of a plain value. *)
Fixpoint text (v : json) : list ascii :=
  match v with
  | JArr l => "["%char :: join [","%char] (List.map text l) ++ ["]"%char]
  | JObj kvs =>
      "{"%char :: join [","%char]
        (List.map (fun kv => quote (fst kv) ++ ":"%char :: snd kv)
           (ordered (List.map (fun kv => (fst kv, text (snd kv))) kvs))) ++ ["}"%char]
  | _ => default [] (stringify v)
  end.

(** The members of every object in enumeration order. *)
Fixpoint norm (v : json) : json :=
  match v with
  | JArr l => JArr (List.map norm l)
  | JObj kvs => JObj (ordered (List.map (fun kv => (fst kv, norm (snd kv))) kvs))
  | _ => v
  end.

Lemma insert_by_map {A B} ltb (f : A -> B) (kv : string * A) l :
  insert_by ltb (fst kv, f (snd kv)) (map_values f l) = map_values f (insert_by ltb kv l).
Proof.
  unfold map_values. induction l as [|kv' l IH]; [done|]. cbn.
  destruct (ltb _ _); [done|]. cbn. by rewrite IH.
Qed.

Lemma sort_by_map {A B} ltb (f : A -> B) l : sort_by ltb (map_values f l) = map_values f (sort_by ltb l).
Proof.
  induction l as [|kv l IH]; [done|]. unfold sort_by in *.
  change (foldr (insert_by ltb) [] (map_values f (kv :: l))) with
    (insert_by ltb (fst kv, f (snd kv)) (foldr (insert_by ltb) [] (map_values f l))).
  rewrite IH. apply insert_by_map.
Qed.

Lemma filter_map_values {A B} (f : A -> B) (p : string -> bool) (l : props A) :
  List.filter (fun kv => p (fst kv)) (map_values f l) =
  map_values f (List.filter (fun kv => p (fst kv)) l).
Proof.
  unfold map_values. induction l as [|kv l IH]; [done|]. cbn. rewrite IH. by destruct (p (fst kv)).
Qed.

Lemma ordered_map {A B} (f : A -> B) (l : props A) : ordered (map_values f l) = map_values f (ordered l).
Proof.
  unfold ordered. rewrite (filter_map_values f is_index), (filter_map_values f (fun k => negb (is_index k))).
  rewrite sort_by_map. unfold map_values at 3. by rewrite List.map_app.
Qed.

Lemma stringify_plain v : plain v = true -> stringify v = Some (text v).
Proof.
  induction v as [| | | | |l IH|kvs IH] using json_nested_ind; intros Hp; try done.
  - apply plain_arr in Hp. cbn [stringify text].
    assert (List.map (fun v => default (chars "null") (stringify v)) l = List.map text l) as ->; [|done].
    induction IH as [|x l Hx IH IHl]; [done|]. inversion Hp; subst. cbn [List.map].
    by rewrite IHl, Hx.
  - apply plain_obj in Hp as (_ & _ & Hp). cbn [stringify text].
    fold (map_values stringify kvs). fold (map_values text kvs). rewrite !ordered_map.
    assert (omap member (map_values stringify (ordered kvs)) =
      List.map (fun kv => quote (fst kv) ++ ":"%char :: snd kv) (map_values text (ordered kvs))) as ->; [|done].
    rewrite <- (ordered_perm kvs) in Hp, IH.
    induction IH as [|kv l Hkv IH IHl]; [done|]. inversion Hp; subst.
    change (omap member (map_values stringify (kv :: l))) with
      (match member (fst kv, stringify (snd kv)) with
       | Some y => y :: omap member (map_values stringify l)
       | None => omap member (map_values stringify l)
       end).
    unfold member at 1. cbn [fst snd]. rewrite Hkv by done. by rewrite IHl.
Qed.

Lemma join_cons sep x l : join sep (x :: l) = x ++ List.flat_map (fun y => sep ++ y) l.
Proof.
  revert x. induction l as [|y l IH]; intros x; [by cbn; rewrite app_nil_r|].
  change (join sep (x :: y :: l)) with (x ++ sep ++ join sep (y :: l)). rewrite IH.
  cbn. by rewrite <- !app_assoc.
Qed.

(** Escapes are a prefix code, none of whose words begins with the quote. *)
Definition unescape (l : list ascii) : option (ascii * list ascii) :=
  match l with
  | c :: l =>
      if bool_decide (c = dquote) then None
      else if bool_decide (c = backslash) then
        match l with
        | x :: l =>
            if bool_decide (x = "u"%char) then
              match l with
              | _ :: _ :: h :: d :: l =>
                  Some (char_of_code (16 * default 0 (hex_value h) + default 0 (hex_value d)), l)
              | _ => None
              end
            else if bool_decide (x = "b"%char) then Some (char_of_code 8, l)
            else if bool_decide (x = "t"%char) then Some (char_of_code 9, l)
            else if bool_decide (x = "n"%char) then Some (char_of_code 10, l)
            else if bool_decide (x = "f"%char) then Some (char_of_code 12, l)
            else if bool_decide (x = "r"%char) then Some (char_of_code 13, l)
            else Some (x, l)
        | [] => None
        end
      else Some (c, l)
  | [] => None
  end.

Lemma unescape_escape c r : unescape (escape c ++ r) = Some (c, r).
Proof. destruct c as [[] [] [] [] [] [] [] []]; reflexivity. Qed.

Lemma escapes_inj a b r r' :
  List.flat_map escape a ++ dquote :: r = List.flat_map escape b ++ dquote :: r' -> a = b /\ r = r'.
Proof.
  assert (Hq : forall r, unescape (dquote :: r) = None) by reflexivity.
  revert b. induction a as [|x a IH]; intros [|y b]; cbn [List.flat_map app].
  - naive_solver.
  - intros H. apply (f_equal unescape) in H. rewrite <- app_assoc, unescape_escape, Hq in H. discriminate.
  - intros H. apply (f_equal unescape) in H. rewrite <- app_assoc, unescape_escape, Hq in H. discriminate.
  - intros H. apply (f_equal unescape) in H. rewrite <- !app_assoc, !unescape_escape in H.
    injection H as -> H. destruct (IH _ H) as [-> ->]. done.
Qed.

Lemma quote_inj s t r r' : quote s ++ r = quote t ++ r' -> s = t /\ r = r'.
Proof.
  unfold quote. cbn [app]. rewrite <- !app_assoc. cbn [app].
  intros [= [H ->]%escapes_inj]. split; [by apply chars_inj|done].
Qed.

(** What may follow a value in canonical text. *)
Definition ends (r : list ascii) : Prop :=
  match r with [] => True | c :: _ => c = ","%char \/ c = "]"%char \/ c = "}"%char end.

Definition num_char (c : ascii) : bool := is_digit c || bool_decide (c = "-"%char).

Lemma pretty_N_go_digits x s :
  all_chars is_digit s = true -> all_chars is_digit (pretty_N_go x s) = true.
Proof.
  revert s. induction (N.lt_wf_0 x) as [x _ IH]. intros s Hs.
  destruct (decide (x = 0)%N) as [->|Hx]; [by rewrite pretty_N_go_0|].
  rewrite pretty_N_go_step by lia. apply IH; [apply N.div_lt; lia|].
  unfold all_chars in *. cbn [chars forallb]. rewrite Hs, andb_true_r.
  assert (Hm : (x mod 10 < 10)%N) by (apply N.mod_lt; lia).
  revert Hm. generalize (x mod 10)%N as d. intros d Hd.
  assert (Hd' : 0 <= Z.of_N d < 10) by lia.
  pose proof (range_check 10 (fun z => is_digit (pretty_N_char (Z.to_N z))) eq_refl _ Hd') as H.
  cbn beta in H. by rewrite N2Z.id in H.
Qed.

Lemma pretty_N_digits (n : N) : forallb num_char (chars (pretty n)) = true.
Proof.
  assert (H : all_chars is_digit (pretty n) = true).
  { unfold pretty, pretty_N. case_decide; [done|]. by apply pretty_N_go_digits. }
  unfold all_chars in H. rewrite forallb_forall in *. intros c Hc. unfold num_char. by rewrite (H c Hc).
Qed.

Lemma pretty_Z_digits (z : Z) : forallb num_char (chars (pretty z)) = true.
Proof.
  unfold pretty, pretty_Z. destruct z; [done|apply pretty_N_digits|].
  rewrite chars_app, forallb_app. apply andb_true_iff. split; [done|].
  apply (pretty_N_digits (N.pos p)).
Qed.

Lemma span_inj (p : ascii -> bool) a b r r' :
  forallb p a = true -> forallb p b = true ->
  match r with [] => True | c :: _ => p c = false end ->
  match r' with [] => True | c :: _ => p c = false end ->
  a ++ r = b ++ r' -> a = b /\ r = r'.
Proof.
  revert b. induction a as [|x a IH]; intros [|y b]; cbn; intros Ha Hb Hr Hr' H; try done.
  - subst r. apply andb_true_iff in Hb as [Hy _]. congruence.
  - subst r'. apply andb_true_iff in Ha as [Hx _]. congruence.
  - apply andb_true_iff in Ha as [_ Ha], Hb as [_ Hb]. injection H as -> H.
    destruct (IH b Ha Hb Hr Hr' H) as [-> ->]. done.
Qed.

Lemma ends_not_num r : ends r -> match r with [] => True | c :: _ => num_char c = false end.
Proof. destruct r as [|c r]; [done|]. by intros [-> | [-> | ->]]. Qed.

(** [text] is injective up to enumeration order, whatever follows. *)
Definition text_inj_at (v : json) : Prop := forall w r r',
  plain v = true -> plain w = true -> ends r -> ends r' ->
  text v ++ r = text w ++ r' -> norm v = norm w /\ r = r'.

Definition starts_like (v : json) (c : ascii) : bool :=
  match v with
  | JUndefined => false
  | JNull => bool_decide (c = "n"%char)
  | JBool b => bool_decide (c = (if b then "t" else "f")%char)
  | JNum _ => num_char c
  | JStr _ => bool_decide (c = dquote)
  | JArr _ => bool_decide (c = "["%char)
  | JObj _ => bool_decide (c = "{"%char)
  end.

Lemma pretty_N_go_length x s : (length (chars s) <= length (chars (pretty_N_go x s)))%nat.
Proof.
  revert s. induction (N.lt_wf_0 x) as [x _ IH]. intros s.
  destruct (decide (x = 0)%N) as [->|Hx]; [by rewrite pretty_N_go_0|].
  rewrite pretty_N_go_step by lia.
  etransitivity; [|apply IH, N.div_lt; lia]. cbn [chars length]. lia.
Qed.

Lemma pretty_Z_head (z : Z) : exists c l, chars (pretty z) = c :: l /\ num_char c = true.
Proof.
  pose proof (pretty_Z_digits z) as Hd.
  assert (Hn : forall n : N, chars (pretty n) <> []).
  { intros n Hn. unfold pretty, pretty_N in Hn. case_decide as Hz; [discriminate|].
    rewrite pretty_N_go_step in Hn by lia.
    pose proof (pretty_N_go_length (n / 10) (String (pretty_N_char (n mod 10)) "")) as Hl.
    rewrite Hn in Hl. cbn in Hl. lia. }
  destruct (chars (pretty z)) as [|c l] eqn:Hz.
  - exfalso. unfold pretty, pretty_Z in Hz. destruct z; [discriminate|by apply (Hn (N.pos p))|discriminate].
  - exists c, l. split; [done|]. cbn in Hd. by apply andb_true_iff in Hd as [? _].
Qed.

Lemma text_starts v : plain v = true -> exists c l, text v = c :: l /\ starts_like v c = true.
Proof.
  destruct v as [| |[|]|z|s|l|kvs]; try discriminate; intros _; cbn [text stringify default starts_like].
  all: try (by eexists _, _).
  apply pretty_Z_head.
Qed.

(** A list of values, each introduced by a comma, followed by a closing bracket. *)
Lemma items_inj (close : ascii) l k r r' :
  close = "]"%char ->
  Forall text_inj_at l -> Forall (fun v => plain v = true) l -> Forall (fun v => plain v = true) k ->
  List.flat_map (fun y => [","%char] ++ y) (List.map text l) ++ close :: r =
  List.flat_map (fun y => [","%char] ++ y) (List.map text k) ++ close :: r' ->
  List.map norm l = List.map norm k /\ r = r'.
Proof.
  intros -> Hinj. revert k. induction Hinj as [|x l Hx Hinj IH]; intros [|y k] Hl Hk;
    cbn [List.map List.flat_map app].
  - by intros [= ->].
  - intros [=].
  - intros [=].
  - inversion Hl; inversion Hk; subst. rewrite <- !app_assoc. intros [= H].
    assert (Hends : forall m s, ends (List.flat_map (fun y => [","%char] ++ y) m ++ "]"%char :: s))
      by (intros [] s; cbn; naive_solver).
    apply Hx in H as [Hn H]; [|done|done|apply Hends|apply Hends].
    destruct (IH k ltac:(done) ltac:(done) H) as [-> ->]. by rewrite Hn.
Qed.

Definition member_text (kv : string * json) : list ascii := quote (fst kv) ++ ":"%char :: text (snd kv).
Definition member_norm (kv : string * json) : string * json := (fst kv, norm (snd kv)).

Lemma members_inj l k r r' :
  Forall (fun kv => text_inj_at (snd kv)) l ->
  Forall (fun kv => plain (snd kv) = true) l -> Forall (fun kv => plain (snd kv) = true) k ->
  List.flat_map (fun y => [","%char] ++ y) (List.map member_text l) ++ "}"%char :: r =
  List.flat_map (fun y => [","%char] ++ y) (List.map member_text k) ++ "}"%char :: r' ->
  List.map member_norm l = List.map member_norm k /\ r = r'.
Proof.
  intros Hinj. revert k. induction Hinj as [|[x v] l Hx Hinj IH]; intros [|[y w] k] Hl Hk;
    cbn [List.map List.flat_map app].
  - by intros [= ->].
  - intros [=].
  - intros [=].
  - inversion Hl; inversion Hk; subst. unfold member_text at 1 3. cbn [fst snd].
    rewrite <- !app_assoc. cbn [app]. intros H. apply (f_equal tail) in H. cbn [tail] in H.
    apply quote_inj in H as [-> H]. apply (f_equal tail) in H. cbn [tail app] in H.
    rewrite <- ?app_assoc in H.
    assert (Hends : forall m s, ends (List.flat_map (fun y => [","%char] ++ y) m ++ "}"%char :: s))
      by (intros [] s; cbn; naive_solver).
    apply Hx in H as [Hn H]; [|done|done|apply Hends|apply Hends].
    destruct (IH k ltac:(done) ltac:(done) H) as [Hm ->]. split; [|done].
    rewrite Hm. unfold member_norm. cbn [fst snd] in *. by rewrite Hn.
Qed.

Lemma join_items_inj (A : Type) (f : A -> list ascii) (close : ascii) l k r r' :
  (forall x, In x (l ++ k) -> match f x with [] => False | c :: _ => c <> close end) ->
  join [","%char] (List.map f l) ++ close :: r = join [","%char] (List.map f k) ++ close :: r' ->
  List.flat_map (fun y => [","%char] ++ y) (List.map f l) ++ close :: r =
  List.flat_map (fun y => [","%char] ++ y) (List.map f k) ++ close :: r'.
Proof.
  intros Hf. destruct l as [|x l], k as [|y k]; cbn [List.map]; rewrite ?join_cons; cbn [join List.flat_map app].
  - done.
  - specialize (Hf y). destruct (f y) as [|c m]; [destruct Hf; by left|].
    intros [= Hc _]. destruct Hf; [by left|done].
  - specialize (Hf x). destruct (f x) as [|c m]; [destruct Hf; by left|].
    intros [= Hc _]. destruct Hf; [by left|done].
  - intros H. rewrite <- !app_assoc in *. cbn [app]. by rewrite H.
Qed.

Lemma starts_not_close v c : starts_like v c = true -> c <> "]"%char /\ c <> "}"%char.
Proof.
  destruct v as [| |[|]|z|s|l|kvs]; cbn [starts_like]; intros H; try discriminate;
    try (apply bool_decide_eq_true in H; subst; done).
  split; intros ->; discriminate.
Qed.

(** The first character tells the kind of a value. *)
Lemma kinds_differ v w r r' :
  plain v = true -> plain w = true ->
  (forall c, starts_like v c = true -> starts_like w c = true -> False) ->
  text v ++ r <> text w ++ r'.
Proof.
  intros Hv Hw Hne H. destruct (text_starts v Hv) as (c & l & Hc & Hs).
  destruct (text_starts w Hw) as (d & k & Hd & Ht). rewrite Hc, Hd in H.
  injection H as -> _. by apply (Hne d).
Qed.

Lemma text_arr_inj l k r r' :
  Forall text_inj_at l -> plain (JArr l) = true -> plain (JArr k) = true ->
  text (JArr l) ++ r = text (JArr k) ++ r' -> norm (JArr l) = norm (JArr k) /\ r = r'.
Proof.
  intros Hi Hl Hk H. apply plain_arr in Hl, Hk. cbn [text app] in H.
  apply (f_equal tail) in H. cbn [tail] in H. rewrite <- !app_assoc in H. cbn [app] in H.
  apply join_items_inj in H.
  - apply items_inj in H as [Hm ->]; [|done..]. cbn [norm]. by rewrite Hm.
  - intros x Hx. assert (Hp : plain x = true).
    { rewrite List.Forall_forall in Hl, Hk. apply in_app_iff in Hx as [?|?]; auto. }
    destruct (text_starts x Hp) as (c & m & -> & Hc). by apply starts_not_close in Hc as [? ?].
Qed.

Lemma text_obj_eq kvs :
  text (JObj kvs) = "{"%char :: join [","%char] (List.map member_text (ordered kvs)) ++ ["}"%char].
Proof.
  cbn [text]. fold (map_values text kvs). rewrite ordered_map. unfold map_values.
  by rewrite List.map_map.
Qed.

Lemma text_obj_inj kvs kws r r' :
  Forall (fun kv => text_inj_at (snd kv)) kvs -> plain (JObj kvs) = true -> plain (JObj kws) = true ->
  text (JObj kvs) ++ r = text (JObj kws) ++ r' -> norm (JObj kvs) = norm (JObj kws) /\ r = r'.
Proof.
  intros Hi Hl Hk H. apply plain_obj in Hl as (_ & _ & Hl), Hk as (_ & _ & Hk).
  rewrite !text_obj_eq in H. cbn [app] in H. apply (f_equal tail) in H. cbn [tail] in H.
  rewrite <- !app_assoc in H. cbn [app] in H.
  rewrite <- (ordered_perm kvs) in Hi, Hl. rewrite <- (ordered_perm kws) in Hk.
  apply join_items_inj in H; [|intros x _; cbn; discriminate].
  apply members_inj in H as [Hm ->]; [|done..]. cbn [norm].
  fold (map_values norm kvs). fold (map_values norm kws). rewrite !ordered_map.
  split; [|done]. f_equal. exact Hm.
Qed.

Ltac other_kind :=
  exfalso; match goal with H : text ?v ++ _ = text ?w ++ _ |- _ =>
    refine (kinds_differ v w _ _ _ _ _ H); [done|done|] end;
  let c := fresh "c" in intros c; cbn [starts_like]; rewrite ?bool_decide_eq_true;
  intros; repeat match goal with b : bool |- _ => destruct b end; subst; first [discriminate | done].

Lemma text_inj v : text_inj_at v.
Proof.
  induction v as [| |b|z|s|l IH|kvs IH] using json_nested_ind; intros w r r' Hv Hw Hr Hr' H;
    [discriminate|..]; destruct w as [| |b'|z'|s'|l'|kvs']; try discriminate Hw;
    try (other_kind).
  - cbn in H. by injection H as ->.
  - destruct b, b'; try other_kind; cbn in H; by injection H as ->.
  - cbn [text stringify default] in H. unfold id in H.
    destruct (span_inj num_char (chars (pretty z)) (chars (pretty z')) r r') as [Hz ->];
      [apply pretty_Z_digits|apply pretty_Z_digits|by apply ends_not_num|by apply ends_not_num|exact H|].
    apply chars_inj in Hz. apply (inj pretty) in Hz. by subst.
  - cbn [text stringify default] in H. apply quote_inj in H as [-> ->]. done.
  - by apply text_arr_inj.
  - by apply text_obj_inj.
Qed.

(** ** The canonical form of a plain value *)

Lemma Forall_map_values {A B} (f : A -> B) (P : B -> Prop) (kvs : props A) :
  Forall (fun kv => P (f (snd kv))) kvs -> Forall (fun kv => P (snd kv)) (map_values f kvs).
Proof. unfold map_values. induction 1; constructor; done. Qed.

Lemma keys_map_values {A B} (f : A -> B) (kvs : props A) : keys (map_values f kvs) = keys kvs.
Proof. unfold keys, map_values. by rewrite List.map_map. Qed.

Lemma plain_sortKeys v : plain v = true -> plain (sortKeys v) = true.
Proof.
  induction v as [| |b|z|s|l IH|kvs IH] using json_nested_ind; intros Hp; try done.
  - apply plain_arr in Hp. cbn [sortKeys]. apply plain_arr.
    induction IH; inversion Hp; subst; constructor; auto.
  - apply plain_obj in Hp as (Hn & Hpr & Hp). rewrite sortKeys_obj by done.
    fold (map_values sortKeys kvs).
    apply plain_obj. unfold keys. rewrite sort_by_perm. fold (keys (map_values sortKeys kvs)).
    rewrite keys_map_values. split_and!; [done|done|].
    apply (Forall_map_values sortKeys (fun v => plain v = true)). clear Hn Hpr.
    induction IH; inversion Hp; subst; constructor; auto.
Qed.

Lemma canonicalJson_text v : plain v = true -> canonicalJson v = Some (of_chars (text (sortKeys v))).
Proof. intros Hp. unfold canonicalJson. by rewrite stringify_plain by (by apply plain_sortKeys). Qed.

Lemma reorders_canonical v : plain v = true -> reorders v (norm (sortKeys v)).
Proof.
  induction v as [| |b|z|s|l IH|kvs IH] using json_nested_ind; intros Hp; try constructor.
  - apply plain_arr in Hp. cbn [sortKeys norm]. rewrite List.map_map.
    induction IH; inversion Hp; subst; constructor; auto.
  - apply plain_obj in Hp as (Hn & Hpr & Hp). rewrite sortKeys_obj by done. cbn [norm].
    fold (map_values sortKeys kvs).
    fold (map_values norm (sort_by str_ltb (map_values sortKeys kvs))).
    rewrite sort_by_map, !ordered_map. unfold map_values. rewrite List.map_map. cbn [fst snd].
    assert (Hperm : Permutation (ordered (sort_by str_ltb kvs)) kvs)
      by (by rewrite ordered_perm, sort_by_perm).
    apply (reorders_obj _ (ordered (sort_by str_ltb kvs))); [by symmetry|].
    rewrite <- Hperm in IH, Hp. clear Hperm.
    induction IH; inversion Hp; subst; constructor; cbn [fst snd]; auto.
Qed.

Lemma canonicalJson_inj v w :
  plain v = true -> plain w = true -> canonicalJson v = canonicalJson w ->
  norm (sortKeys v) = norm (sortKeys w).
Proof.
  intros Hv Hw. rewrite !canonicalJson_text by done. intros [= H].
  apply (f_equal chars) in H. rewrite !chars_of_chars in H.
  destruct (text_inj (sortKeys v) (sortKeys w) [] []) as [? _];
    [by apply plain_sortKeys|by apply plain_sortKeys|done|done| |done].
  by rewrite !app_nil_r.
Qed.

Lemma canonical_obj_inj kvs kws :
  plain (JObj kvs) = true -> plain (JObj kws) = true -> canonical_obj kvs = canonical_obj kws ->
  norm (sortKeys (JObj kvs)) = norm (sortKeys (JObj kws)).
Proof.
  unfold canonical_obj. intros Hv Hw H. apply canonicalJson_inj; [done|done|].
  rewrite (canonicalJson_text _ Hv), (canonicalJson_text _ Hw) in H.
  rewrite (canonicalJson_text _ Hv), (canonicalJson_text _ Hw). f_equal. exact H.
Qed.

Lemma canonicalJson_reorders v w :
  plain v = true -> reorders v w -> canonicalJson v = canonicalJson w.
Proof. intros Hv Hr. unfold canonicalJson. by rewrite (sortKeys_reorders v w). Qed.

Lemma canonical_obj_perm (v w : props json) :
  plain (JObj v) = true -> Permutation v w -> canonical_obj v = canonical_obj w.
Proof.
  intros Hp Hvw. unfold canonical_obj. rewrite (canonicalJson_reorders (JObj v) (JObj w)); [done|done|].
  apply (reorders_obj _ w); [done|]. clear. induction w; constructor; [split; [done|constructor]|done].
Qed.

(** An object literal of the source, whose member names are distinct constants. *)
Lemma plain_literal kvs :
  bool_decide (NoDup (keys kvs)) && negb (bool_decide (proto ∈ keys kvs)) = true ->
  Forall (fun kv => plain (snd kv) = true) kvs -> plain (JObj kvs) = true.
Proof. intros H. bool_inv. intros. by apply plain_obj. Qed.

(** Equal normal forms have the same members, in some order. *)
Lemma norm_sortKeys_perm (kvs kws : props json) :
  plain (JObj kvs) = true -> plain (JObj kws) = true ->
  norm (sortKeys (JObj kvs)) = norm (sortKeys (JObj kws)) ->
  Permutation (map_values (fun v => norm (sortKeys v)) kvs) (map_values (fun v => norm (sortKeys v)) kws).
Proof.
  intros (Hn & Hp & _)%plain_obj (Hn' & Hp' & _)%plain_obj H.
  rewrite !sortKeys_obj in H by done. cbn [norm] in H.
  set (f v := norm (sortKeys v)).
  assert (Hf : forall l, ordered (List.map (fun kv => (fst kv, norm (snd kv)))
      (sort_by str_ltb (List.map (fun kv => (fst kv, sortKeys (snd kv))) l)))
    = ordered (sort_by str_ltb (map_values f l))).
  { intros l. fold (map_values sortKeys l). rewrite sort_by_map.
    fold (map_values norm (map_values sortKeys (sort_by str_ltb l))).
    rewrite (sort_by_map _ f). f_equal. unfold map_values. by rewrite List.map_map. }
  rewrite !Hf in H. injection H as H.
  rewrite <- (sort_by_perm str_ltb (map_values f kvs)), <- (ordered_perm (sort_by _ _)), H.
  by rewrite ordered_perm, sort_by_perm.
Qed.

(** Equal normal forms of literals with the same names have equal normal members. *)
Lemma norm_sortKeys_members (kvs kws : props json) :
  plain (JObj kvs) = true -> plain (JObj kws) = true -> keys kvs = keys kws ->
  norm (sortKeys (JObj kvs)) = norm (sortKeys (JObj kws)) ->
  Forall2 (fun a b => norm (sortKeys (snd a)) = norm (sortKeys (snd b))) kvs kws.
Proof.
  intros Hv Hw Hk H. pose proof (norm_sortKeys_perm kvs kws Hv Hw H) as Hperm.
  apply plain_obj in Hw as (Hn' & _ & _). clear H Hv. set (f v := norm (sortKeys v)) in *.
  assert (Hin : forall k v v', (k, v) ∈ kvs -> (k, v') ∈ kws -> f v = f v').
  { intros k v v' Hv Hv'.
    assert (Hfv : (k, f v) ∈ map_values f kws).
    { rewrite <- Hperm. apply list_elem_of_In, in_map_iff. exists (k, v). split; [done|].
      by apply list_elem_of_In. }
    apply list_elem_of_In, in_map_iff in Hfv as ([k' w] & [= -> <-] & Hw%list_elem_of_In).
    cbn [fst snd]. f_equal. clear -Hn' Hw Hv'. unfold keys in Hn'.
    induction kws as [|[a b] l IH]; [by apply not_elem_of_nil in Hw|].
    inversion Hn' as [|? ? Ha Hn]; subst. cbn [fst] in Ha.
    assert (Hfst : forall x, (k, x) ∈ l -> k ∈ List.map fst l).
    { intros x Hx. apply list_elem_of_In, in_map_iff. exists (k, x). split; [done|]. by apply list_elem_of_In. }
    apply elem_of_cons in Hw as [Hw|Hw], Hv' as [Hv'|Hv']; simplify_eq;
      [done | exfalso; eauto | exfalso; eauto | eauto]. }
  clear -Hk Hin. revert kws Hk Hin. induction kvs as [|[k v] kvs IH]; intros [|[k' v'] kws] Hk Hin;
    try discriminate; constructor.
  - injection Hk as <- _. cbn [snd]. apply (Hin k); left.
  - injection Hk as _ Hk. apply IH; [done|]. intros k0 x y Hx Hy. apply (Hin k0); by right.
Qed.

(** ** The member name the sort drops *)

Lemma assign_skips_proto {A} (v : A) l acc :
  fold_left assign (insert_by str_ltb (proto, v) l) acc = fold_left assign l acc.
Proof.
  assert (Hs : forall a, assign a (proto, v) = a) by (intros a; unfold assign; cbn; done).
  revert acc. induction l as [|kv l IH]; intros acc; cbn [insert_by fst].
  - cbn [fold_left]. apply Hs.
  - destruct (str_ltb proto (fst kv)); cbn [fold_left]; [by rewrite Hs|apply IH].
Qed.

(** ** Redaction *)

(** No string outside a sensitive member holds a private key, and every sensitive member is
    replaced. *)
Fixpoint clean (v : json) : bool :=
  match v with
  | JStr s => negb (includes s "PRIVATE KEY")
  | JArr l => forallb clean l
  | JObj kvs =>
      forallb (fun kv => if sensitive_key (fst kv) then bool_decide (snd kv = JStr "[REDACTED]")
                         else clean (snd kv)) kvs
  | _ => true
  end.

(** The nesting depth of a value. *)
Fixpoint height (v : json) : nat :=
  match v with
  | JArr l => S (foldr Nat.max O (List.map height l))
  | JObj kvs => S (foldr Nat.max O (List.map (fun kv => height (snd kv)) kvs))
  | _ => O
  end.

Lemma Forall_assign {A} (P : string * A -> Prop) l acc :
  Forall P acc -> Forall P l -> Forall P (fold_left assign l acc).
Proof.
  assert (Hput : forall k v m, P (k, v) -> Forall P m -> Forall P (put k v m)).
  { intros k v m Hk Hm. induction Hm as [|[k' v'] m Hx Hm IH]; cbn; [by repeat constructor|].
    case_bool_decide; [subst|]; by constructor. }
  intros Hacc Hl. revert acc Hacc. induction Hl as [|[k v] l Hx Hl IH]; intros acc Hacc; [done|].
  cbn [fold_left]. apply IH. unfold assign. cbn [fst snd]. case_bool_decide; auto.
Qed.

(** The members of a redacted object satisfy what the redacted members satisfy. *)
Lemma redact_obj_forall (P : string * json -> Prop) depth kvs v :
  (10 <? depth)%nat = false ->
  redactSecrets (JObj kvs) depth = v ->
  Forall (fun kv => P (fst kv, if sensitive_key (fst kv) then JStr "[REDACTED]"
                               else redactSecrets (snd kv) (S depth))) kvs ->
  exists kws, v = JObj kws /\ Forall P kws.
Proof.
  intros Hd <- HP. cbn [redactSecrets]. rewrite Hd. eexists. split; [reflexivity|].
  apply Forall_assign; [constructor|]. rewrite ordered_perm.
  apply List.Forall_map. exact HP.
Qed.

Lemma redact_clean v depth : clean (redactSecrets v depth) = true.
Proof.
  revert depth. induction v as [| |b|z|s|l IH|kvs IH] using json_nested_ind; intros depth;
    destruct (10 <? depth)%nat eqn:Hd; try (cbn [redactSecrets]; rewrite Hd; done).
  - cbn [redactSecrets]. rewrite Hd. split_if; [done|]. bool_inv. cbn. by apply negb_true_iff.
  - cbn [redactSecrets]. rewrite Hd. cbn [clean]. rewrite forallb_forall.
    intros x (y & <- & Hy)%in_map_iff. rewrite List.Forall_forall in IH. by apply IH.
  - destruct (redact_obj_forall
      (fun kv => (if sensitive_key (fst kv) then bool_decide (snd kv = JStr "[REDACTED]")
                  else clean (snd kv)) = true) depth kvs _ Hd eq_refl) as (kws & -> & Hk).
    + eapply Forall_impl; [exact IH|]. intros kv Hkv. cbn [fst snd].
      destruct (sensitive_key (fst kv)); [by apply bool_decide_eq_true|apply Hkv].
    + cbn [clean]. rewrite forallb_forall. by apply List.Forall_forall.
Qed.

Lemma max_le (l : list nat) n : Forall (fun x => (x <= n)%nat) l -> (foldr Nat.max O l <= n)%nat.
Proof. induction 1; cbn; lia. Qed.

Lemma redact_height v depth : (height (redactSecrets v depth) <= 11 - depth)%nat.
Proof.
  revert depth. induction v as [| |b|z|s|l IH|kvs IH] using json_nested_ind; intros depth;
    destruct (10 <? depth)%nat eqn:Hd; try (cbn [redactSecrets]; rewrite Hd; cbn; lia).
  - cbn [redactSecrets]. rewrite Hd. split_if; cbn; lia.
  - cbn [redactSecrets]. rewrite Hd. cbn [height]. apply Nat.ltb_ge in Hd.
    assert (H : (foldr Nat.max 0 (List.map height (List.map (fun v => redactSecrets v (S depth)) l))
            <= 11 - S depth)%nat).
    { apply max_le, List.Forall_map, List.Forall_map. eapply Forall_impl; [exact IH|]. cbn. auto. }
    lia.
  - destruct (redact_obj_forall (fun kv => (height (snd kv) <= 11 - S depth)%nat) depth kvs _ Hd eq_refl)
      as (kws & -> & Hk).
    + eapply Forall_impl; [exact IH|]. intros kv Hkv. cbn [fst snd].
      destruct (sensitive_key (fst kv)); [cbn; lia|apply Hkv].
    + cbn [height]. apply Nat.ltb_ge in Hd.
      pose proof (max_le (List.map (fun kv => height (snd kv)) kws) (11 - S depth)) as H.
      rewrite List.Forall_map in H. specialize (H Hk). lia.
Qed.

(** ** The properties *)

(** two plain values have the same canonical text exactly when each can be turned into one
    common value by reordering the members of its objects, at any depth. *)
Theorem canonicalJson_identifies (v w : json) :
  plain v = true -> plain w = true ->
  (canonicalJson v = canonicalJson w <-> exists u, reorders v u /\ reorders w u).
Proof.
  intros Hv Hw. split.
  - intros H. exists (norm (sortKeys v)). split; [by apply reorders_canonical|].
    rewrite (canonicalJson_inj v w Hv Hw H). by apply reorders_canonical.
  - intros (u & Hvu & Hwu). by rewrite (canonicalJson_reorders v u), (canonicalJson_reorders w u).
Qed.


(** the one exception, proved of the code as it is: a member named ["__proto__"] (an ordinary
    member of a parsed JSON text) is not stored by the assignment of [sortKeys], so adding it to
    an object, with any value, does not change the canonical text, nor any digest or signature
    over it. *)
Theorem canonicalJson_ignores_proto (kvs kvs' : props json) (v : json) :
  NoDup (keys kvs) -> proto ∉ keys kvs -> Permutation kvs' ((proto, v) :: kvs) ->
  canonicalJson (JObj kvs') = canonicalJson (JObj kvs).
Proof.
  intros Hn Hp Hperm. unfold canonicalJson.
  enough (sortKeys (JObj kvs') = sortKeys (JObj kvs)) as -> by done.
  cbn [sortKeys]. apply (f_equal JObj).
  fold (map_values sortKeys kvs'). fold (map_values sortKeys kvs).
  rewrite (sorted_by_name _ ((proto, sortKeys v) :: map_values sortKeys kvs)).
  - unfold sort_by. cbn [foldr]. apply assign_skips_proto.
  - rewrite keys_map_values. unfold keys in *. rewrite Hperm. cbn. by constructor.
  - unfold map_values. by rewrite Hperm.
Qed.

(** whatever is redacted, the result shows no private key block outside a sensitive member,
    every member with a sensitive name is replaced, and the result is nested at most eleven deep. *)
Theorem redactSecrets_safe (v : json) :
  clean (redactSecrets v 0) = true /\ (height (redactSecrets v 0) <= 11)%nat.
Proof. split; [apply redact_clean|apply (redact_height v 0)]. Qed.

(** ** Witnesses *)

Definition example_object : json :=
  JObj [("b", JNum 1); ("a", JObj [("y", JStr "t"); ("x", JNull)])]%string.
Definition example_object' : json :=
  JObj [("a", JObj [("x", JNull); ("y", JStr "t")]); ("b", JNum 1)]%string.

Lemma canonicalJson_identifies_witness :
  canonicalJson example_object = canonicalJson example_object' /\
  exists u, reorders example_object u /\ reorders example_object' u.
Proof.
  split; [vm_compute; reflexivity|].
  apply (canonicalJson_identifies example_object example_object'); vm_compute; reflexivity.
Defined.

Definition example_input (p : json) : SigningDocumentInput := {|
  sd_protocolVersion := "1.0"; sd_requestId := "r-1"; sd_operation := "baby.file.read";
  sd_principal := p; sd_authority := JObj [("k", JNum 2)]%string; sd_targetHost := "host";
  sd_timestamp := "2026-01-01T00:00:00.000Z"; sd_payload := JArr [JBool true]; sd_binaryLength := 0
|}.


Lemma canonicalJson_ignores_proto_witness :
  canonicalJson (JObj [("a", JNum 1); (proto, JStr "root")]%string) = canonicalJson (JObj [("a", JNum 1)]%string).
Proof.
  apply (canonicalJson_ignores_proto [("a", JNum 1)]%string _ (JStr "root")).
  - apply (bool_decide_eq_true_1 (NoDup _)). vm_compute. reflexivity.
  - apply (bool_decide_eq_true_1 (_ ∉ _)). vm_compute. reflexivity.
  - apply perm_swap.
Defined.
