(* ===== verification/ReplayStore.v ===== *)
(** * Replay protection ([src/state/replay-store.ts])

    The nonces and the idempotency entries of the class [ReplayStore], its file, and every method.
    A method reads the clock once, as [now]. *)

From S2P Require Import Prelude Bytes Json Errors Config.

#[global] Open Scope Z_scope.

(** ** Data *)

(** Source: src/state/replay-store.ts:17-20 (NonceEntry) *)
Record NonceEntry := { nonce : string; seenAt : Z }.

Inductive Status := pending | completed.

#[global] Instance Status_eq_dec : EqDecision Status.
Proof. solve_decision. Defined.

(** Source: src/state/replay-store.ts:22-29 (IdempotencyEntry) *)
Record IdempotencyEntry := {
  requestHash : string;
  requestId : option string;
  fingerprint : option string;
  status : option Status;
  response : json;
  storedAt : Z
}.

(** Source: src/state/replay-store.ts:31-35 (StoreData) *)
Record StoreData := { version : Z; nonces : list NonceEntry; idempotency : list IdempotencyEntry }.

#[global] Instance NonceEntry_eq_dec : EqDecision NonceEntry.
Proof. solve_decision. Defined.
#[global] Instance IdempotencyEntry_eq_dec : EqDecision IdempotencyEntry.
Proof. solve_decision. Defined.
#[global] Instance StoreData_eq_dec : EqDecision StoreData.
Proof. solve_decision. Defined.

(** Source: src/state/replay-store.ts:37-41 (SemanticIdempotencyResult) *)
Inductive SemanticIdempotencyResult :=
| sem_miss
| sem_pending
| sem_conflict (existingFingerprint : string)
| sem_replay (response : json).

(** The file [replay-store.json]: missing, not readable as a JSON object, or an object whose
    members [nonces] and [idempotency] are arrays or not. *)
Inductive file :=
| Absent
| Corrupt
| Stored (nonces : option (list NonceEntry)) (idempotency : option (list IdempotencyEntry)).

#[global] Instance file_eq_dec : EqDecision file.
Proof. solve_decision. Defined.

(** The members of the class, with the file it owns.
    Source: src/state/replay-store.ts:43-51 (ReplayStore) *)
Record ReplayStore := { data : StoreData; dirty : bool; disk : file }.

#[global] Instance ReplayStore_eq_dec : EqDecision ReplayStore.
Proof. solve_decision. Defined.

(** [JSON.parse(JSON.stringify(v))] for a value that is not [undefined]. *)
Fixpoint reparse (v : json) : json :=
  match v with
  | JArr l => JArr (List.map (fun x => match x with JUndefined => JNull | _ => reparse x end) l)
  | JObj kvs =>
      JObj (ordered (List.filter (fun kv => snd kv !== JUndefined)
                       (List.map (fun kv => (fst kv, reparse (snd kv))) kvs)))
  | _ => v
  end.

Definition reparse_entry (e : IdempotencyEntry) : IdempotencyEntry := {|
  requestHash := requestHash e; requestId := requestId e; fingerprint := fingerprint e;
  status := status e; response := reparse (response e); storedAt := storedAt e
|}.

(** The file with the content of the memory.
    Source: src/state/replay-store.ts:70-93 (persist) *)
Definition written (d : StoreData) : file :=
  Stored (Some (nonces d)) (Some (List.map reparse_entry (idempotency d))).

(** The steps of [persist] that can fail. *)
Inductive io_step := io_mkdir | io_write | io_fsync_file | io_rename | io_fsync_directory.

Definition with_data (f : StoreData -> StoreData) (mark : bool) (s : ReplayStore) : ReplayStore :=
  {| data := f (data s); dirty := mark || dirty s; disk := disk s |}.

Definition with_nonces (l : list NonceEntry) (d : StoreData) : StoreData :=
  {| version := version d; nonces := l; idempotency := idempotency d |}.

Definition with_idempotency (l : list IdempotencyEntry) (d : StoreData) : StoreData :=
  {| version := version d; nonces := nonces d; idempotency := l |}.

(** [l.findIndex(p)], [None] for [-1], and [l[i] = x]. *)
Fixpoint findIndex {A} (p : A -> bool) (l : list A) : option nat :=
  match l with
  | [] => None
  | x :: l => if p x then Some O else match findIndex p l with Some i => Some (S i) | None => None end
  end.

(** ** The methods *)

(** Source: src/state/replay-store.ts:53-68 (load) *)
Definition load (f : file) : StoreData :=
  match f with
  | Stored ns es => {| version := 2; nonces := default [] ns; idempotency := default [] es |}
  | Absent | Corrupt => {| version := 2; nonces := []; idempotency := [] |}
  end.

(** The constructor: a process that starts on the file left by its predecessor.
    Source: src/state/replay-store.ts:48-51 (constructor) *)
Definition open_store (f : file) : ReplayStore := {| data := load f; dirty := false; disk := f |}.

Abbreviation RM A := (M ReplayStore exn A).

(** [fails] is the step of the write that throws, if one does.  The rename is atomic, and the
    temporary file is removed in every case.
    Source: src/state/replay-store.ts:70-93 (persist) *)
Definition persist (fails : option io_step) : RM unit := fun s =>
  if negb (dirty s) then (Ok tt, s) else
  match fails with
  | None => (Ok tt, {| data := data s; dirty := false; disk := written (data s) |})
  | Some io_fsync_directory =>
      (Err (PlainError "EIO"), {| data := data s; dirty := dirty s; disk := written (data s) |})
  | Some _ => (Err (PlainError "EIO"), s)
  end.

Section Methods.
Context (config : RuntimeConfig).

Definition nonce_live (now : Z) (n : NonceEntry) : bool := now - seenAt n <? nonceRetentionMs config.
Definition entry_live (now : Z) (e : IdempotencyEntry) : bool :=
  now - storedAt e <? idempotencyRetentionMs config.

(** Source: src/state/replay-store.ts:95-111 (prune) *)
Definition prune (now : Z) : RM unit := modify (fun s =>
  let ns := List.filter (nonce_live now) (nonces (data s)) in
  let es := List.filter (entry_live now) (idempotency (data s)) in
  with_data (fun d => with_idempotency es (with_nonces ns d))
    (negb (length (nonces (data s)) =? length ns)%nat ||
     negb (length (idempotency (data s)) =? length es)%nat) s).

(** Source: src/state/replay-store.ts:113-116 (hasNonce) *)
Definition hasNonce (now : Z) (n : string) : RM bool :=
  prune now;;
  gets (fun s => existsb (fun e => nonce e === n) (nonces (data s))).

(** Source: src/state/replay-store.ts:118-126 (tryCommitNonce) *)
Definition tryCommitNonce (now : Z) (n : string) : RM bool :=
  prune now;;
  seen ← gets (fun s => existsb (fun e => nonce e === n) (nonces (data s)));
  if (seen : bool) then mret false else
  modify (fun s => with_data (fun d =>
    with_nonces (nonces d ++ [{| nonce := n; seenAt := now |}]) d) true s);;
  mret true.

(** Source: src/state/replay-store.ts:133-141 (getIdempotentResponse) *)
Definition getIdempotentResponse (now : Z) (hash : string) : RM json :=
  prune now;;
  gets (fun s =>
    match List.find (fun c => (requestHash c === hash) &&
                              ((status c === None) || (status c === Some completed)))
                    (idempotency (data s)) with
    | Some entry => response entry
    | None => JUndefined
    end).

(** The state of the first entry with the request identifier. *)
Definition semantic_state (rid fp : string) (l : list IdempotencyEntry) : SemanticIdempotencyResult :=
  match List.find (fun c => requestId c === Some rid) l with
  | None => sem_miss
  | Some entry =>
      match fingerprint entry with
      | None => sem_conflict "legacy_unknown"
      | Some f =>
          if negb (truthy_str f) then sem_conflict "legacy_unknown"
          else if f !== fp then sem_conflict f
          else if status entry === Some pending then sem_pending
          else if response entry !== JUndefined then sem_replay (response entry)
          else sem_pending
      end
  end.

(** Source: src/state/replay-store.ts:143-156 (checkSemantic) *)
Definition checkSemantic (now : Z) (rid fp : string) : RM SemanticIdempotencyResult :=
  prune now;;
  gets (fun s => semantic_state rid fp (idempotency (data s))).

(** Source: src/state/replay-store.ts:158-171 (reserveSemantic) *)
Definition reserveSemantic (now : Z) (rid fp hash : string) : RM unit :=
  current ← checkSemantic now rid fp;
  match current with
  | sem_miss =>
      modify (fun s => with_data (fun d =>
        with_idempotency (idempotency d ++
          [{| requestHash := hash; requestId := Some rid; fingerprint := Some fp;
              status := Some pending; response := JUndefined; storedAt := now |}]) d) true s)
  | sem_pending => throw (PlainError "Cannot reserve idempotency request in state pending")
  | sem_conflict _ => throw (PlainError "Cannot reserve idempotency request in state conflict")
  | sem_replay _ => throw (PlainError "Cannot reserve idempotency request in state replay")
  end.

(** The value of an optional string argument that counts as given. *)
Definition given (o : option string) : option string :=
  match o with Some s => if truthy_str s then Some s else None | None => None end.

(** Source: src/state/replay-store.ts:173-197 (storeIdempotentResponse) *)
Definition storeIdempotentResponse (now : Z) (hash : string) (resp : json)
    (rid fp : option string) : RM unit :=
  prune now;;
  modify (fun s =>
    let existing := match given rid with
      | Some r => findIndex (fun e => requestId e === Some r) (idempotency (data s))
      | None => findIndex (fun e => requestHash e === hash) (idempotency (data s))
      end in
    let entry := {| requestHash := hash; requestId := given rid; fingerprint := given fp;
                    status := Some completed; response := resp; storedAt := now |} in
    with_data (fun d => with_idempotency
      match existing with
      | Some i => <[i := entry]> (idempotency d)
      | None => idempotency d ++ [entry]
      end d) true s).
End Methods.

(** ** Lemmas on lists *)

Lemma findIndex_insert {A} (p : A -> bool) l i x :
  findIndex p l = Some i -> p x = true -> List.find p (<[i := x]> l) = Some x.
Proof.
  revert i. induction l as [|y l IH]; intros i; cbn [findIndex]; [done|].
  destruct (p y) eqn:Hy.
  - intros [= <-] Hx. cbn. by rewrite Hx.
  - destruct (findIndex p l) as [j|] eqn:Hj; [|done]. intros [= <-] Hx. cbn. rewrite Hy. by apply IH.
Qed.

Lemma findIndex_None {A} (p : A -> bool) l : findIndex p l = None <-> List.find p l = None.
Proof.
  induction l as [|y l IH]; cbn; [done|]. destruct (p y); [done|]. rewrite <- IH.
  destruct (findIndex p l); naive_solver.
Qed.

Lemma findIndex_Some {A} (p : A -> bool) l i :
  findIndex p l = Some i -> exists x, l !! i = Some x /\ p x = true.
Proof.
  revert i. induction l as [|y l IH]; intros i; cbn [findIndex]; [done|].
  destruct (p y) eqn:Hy; [intros [= <-]; by exists y|].
  destruct (findIndex p l) as [j|] eqn:Hj; [|done]. intros [= <-]. by apply IH.
Qed.

Lemma find_existsb {A} (p : A -> bool) l : existsb p l = true <-> exists x, x ∈ l /\ p x = true.
Proof. rewrite existsb_exists. by setoid_rewrite list_elem_of_In. Qed.

(** ** What the methods compute *)

Definition pruned (config : RuntimeConfig) (now : Z) (d : StoreData) : StoreData := {|
  version := version d;
  nonces := List.filter (nonce_live config now) (nonces d);
  idempotency := List.filter (entry_live config now) (idempotency d)
|}.

Lemma prune_data c now s : data (snd (prune c now s)) = pruned c now (data s).
Proof. reflexivity. Qed.

Lemma prune_disk c now s : disk (snd (prune c now s)) = disk s.
Proof. reflexivity. Qed.

(** The identifiers in use are unique. *)
Definition wf_data (d : StoreData) : Prop :=
  NoDup (List.map nonce (nonces d)) /\ NoDup (omap requestId (idempotency d)).

Lemma elem_of_omap_filter {A B} (f : A -> option B) (p : A -> bool) l y :
  y ∈ omap f (List.filter p l) -> y ∈ omap f l.
Proof.
  rewrite !list_elem_of_omap. intros (x & Hx & Hy). exists x. split; [|done].
  apply list_elem_of_In, filter_In in Hx as [Hx _]. by apply list_elem_of_In.
Qed.

Lemma NoDup_omap_filter {A B} (f : A -> option B) (p : A -> bool) l :
  NoDup (omap f l) -> NoDup (omap f (List.filter p l)).
Proof.
  induction l as [|x l IH]; [done|].
  change (omap f (x :: l)) with (match f x with Some y => y :: omap f l | None => omap f l end).
  intros H. cbn [List.filter]. destruct (p x); [|by destruct (f x); [apply NoDup_cons in H as [_ H]|]; apply IH].
  change (omap f (x :: List.filter p l)) with
    (match f x with Some y => y :: omap f (List.filter p l) | None => omap f (List.filter p l) end).
  destruct (f x); [|by apply IH]. apply NoDup_cons in H as [Hx H].
  constructor; [|by apply IH]. intros Hin. by apply elem_of_omap_filter in Hin.
Qed.

Lemma wf_pruned c now d : wf_data d -> wf_data (pruned c now d).
Proof. intros [? ?]. split; [by apply NoDup_map_filter|by apply NoDup_omap_filter]. Qed.

(** The possible results of [tryCommitNonce] and [reserveSemantic]. *)
Lemma tryCommitNonce_cases c now n s :
  let d := pruned c now (data s) in
  exists s', disk s' = disk s /\
  (tryCommitNonce c now n s = (Ok false, s') /\ data s' = d /\ n ∈ List.map nonce (nonces d) \/
   tryCommitNonce c now n s = (Ok true, s') /\ (n ∉ List.map nonce (nonces d)) /\ dirty s' = true /\
   data s' = with_nonces (nonces d ++ [{| nonce := n; seenAt := now |}]) d).
Proof.
  cbn zeta. set (s1 := snd (prune c now s)). unfold tryCommitNonce, mbind, M_bind.
  change (prune c now s) with (Ok tt : result exn unit, s1). cbn [gets].
  change (nonces (data s1)) with (nonces (pruned c now (data s))).
  destruct (existsb _ _) eqn:E.
  - exists s1. split; [done|]. left. split_and!; [done|done|].
    apply find_existsb in E as (x & Hx & Hn%bool_decide_eq_true). subst n.
    by apply list_elem_of_In, in_map, list_elem_of_In.
  - eexists. split; [|right; split_and!; [reflexivity| |reflexivity|reflexivity]]; [done|].
    intros (x & <- & Hx)%list_elem_of_In%in_map_iff.
    assert (existsb (fun e => nonce e === nonce x) (nonces (pruned c now (data s))) = true); [|congruence].
    apply find_existsb. exists x. split; [by apply list_elem_of_In|by apply bool_decide_eq_true_2].
Qed.

Lemma checkSemantic_eq c now rid fp s :
  checkSemantic c now rid fp s =
  (Ok (semantic_state rid fp (idempotency (pruned c now (data s)))), snd (prune c now s)).
Proof. reflexivity. Qed.

Lemma semantic_state_miss rid fp l :
  semantic_state rid fp l = sem_miss <-> List.find (fun c => requestId c === Some rid) l = None.
Proof. unfold semantic_state. destruct (List.find _ l); [|done]. repeat case_match; naive_solver. Qed.

Definition reservation (now : Z) (rid fp hash : string) : IdempotencyEntry := {|
  requestHash := hash; requestId := Some rid; fingerprint := Some fp;
  status := Some pending; response := JUndefined; storedAt := now
|}.

Lemma pruned_idem c now d : pruned c now (pruned c now d) = pruned c now d.
Proof. unfold pruned. cbn. by rewrite !filter_filter. Qed.

Lemma reserveSemantic_cases c now rid fp h s :
  let d := pruned c now (data s) in
  exists r s', reserveSemantic c now rid fp h s = (r, s') /\ disk s' = disk s /\
  (is_ok r = false /\ data s' = d /\ semantic_state rid fp (idempotency d) <> sem_miss \/
   r = Ok tt /\ semantic_state rid fp (idempotency d) = sem_miss /\ dirty s' = true /\
   data s' = with_idempotency (idempotency d ++ [reservation now rid fp h]) d).
Proof.
  cbn zeta. unfold reserveSemantic, mbind, M_bind. rewrite checkSemantic_eq.
  destruct (semantic_state _ _ _) eqn:E; do 2 eexists; (split; [reflexivity|]); (split; [done|]).
  - right. done.
  - by left.
  - by left.
  - by left.
Qed.

Lemma elem_of_omap_rid rid (l : list IdempotencyEntry) :
  (Some rid ∉ List.map requestId l) <-> List.find (fun c => requestId c === Some rid) l = None.
Proof.
  induction l as [|e l IH]; cbn; [split; [done|intros _; apply not_elem_of_nil]|].
  rewrite not_elem_of_cons, IH. destruct (requestId e === Some rid) eqn:H; bool_inv; naive_solver.
Qed.

Lemma rid_omap rid (l : list IdempotencyEntry) :
  (rid ∉ omap requestId l) <-> List.find (fun c => requestId c === Some rid) l = None.
Proof.
  rewrite <- elem_of_omap_rid, list_elem_of_omap, list_elem_of_In, in_map_iff.
  setoid_rewrite <- list_elem_of_In. naive_solver.
Qed.

Lemma omap_app_NoDup rid e (l : list IdempotencyEntry) :
  requestId e = Some rid -> rid ∉ omap requestId l -> NoDup (omap requestId l) ->
  NoDup (omap requestId (l ++ [e])).
Proof.
  intros He Hr Hn. rewrite omap_app. apply NoDup_app. cbn. rewrite He. split_and!; [done| |].
  - intros x Hx Hx'. apply elem_of_cons in Hx' as [->|Hx']; [done|by apply not_elem_of_nil in Hx'].
  - constructor; [by apply not_elem_of_nil|constructor].
Qed.

Lemma omap_insert_same {A B} (f : A -> option B) (l : list A) (i : nat) x y :
  l !! i = Some x -> f y = f x -> omap f (<[i := y]> l) = omap f l.
Proof.
  revert i. induction l as [|z l IH]; intros [|i] Hi Hf; csimpl in *; try done.
  - injection Hi as ->. by rewrite Hf.
  - by rewrite (IH i).
Qed.

Lemma NoDup_omap_insert_None {A B} (f : A -> option B) (l : list A) (i : nat) y :
  f y = None -> NoDup (omap f l) -> NoDup (omap f (<[i := y]> l)).
Proof.
  intros Hf. revert i. induction l as [|z l IH]; intros [|i] Hn; csimpl in *; try done.
  - rewrite Hf. destruct (f z); [by apply NoDup_cons in Hn as [_ ?]|done].
  - destruct (f z) as [b|]; [|by apply IH]. apply NoDup_cons in Hn as [Hb Hn].
    constructor; [|by apply IH]. intros Hin. apply Hb. clear -Hf Hin. revert i Hin.
    induction l as [|w l IH]; intros [|i] Hin; csimpl in *; try done.
    + rewrite Hf in Hin. destruct (f w); [by apply elem_of_cons; right|done].
    + destruct (f w); [|by eapply IH]. apply elem_of_cons in Hin as [->|Hin];
        apply elem_of_cons; [by left|right; by eapply IH].
Qed.

Definition answer (now : Z) (hash : string) (resp : json) (rid fp : option string) : IdempotencyEntry := {|
  requestHash := hash; requestId := given rid; fingerprint := given fp;
  status := Some completed; response := resp; storedAt := now
|}.

Definition answered (now : Z) (hash : string) (resp : json) (rid fp : option string)
    (l : list IdempotencyEntry) : list IdempotencyEntry :=
  let e := answer now hash resp rid fp in
  match match given rid with
        | Some r => findIndex (fun e => requestId e === Some r) l
        | None => findIndex (fun e => requestHash e === hash) l
        end with
  | Some i => <[i := e]> l
  | None => l ++ [e]
  end.

Lemma storeIdempotentResponse_eq c now hash resp rid fp s :
  let d := pruned c now (data s) in
  storeIdempotentResponse c now hash resp rid fp s =
  (Ok tt, {| data := with_idempotency (answered now hash resp rid fp (idempotency d)) d;
             dirty := true; disk := disk s |}).
Proof. reflexivity. Qed.

Lemma wf_answered now hash resp rid fp l :
  NoDup (omap requestId l) -> NoDup (omap requestId (answered now hash resp rid fp l)).
Proof.
  intros Hn. unfold answered. destruct (given rid) as [r|] eqn:Hr.
  - destruct (findIndex _ _) as [i|] eqn:Hi.
    + apply findIndex_Some in Hi as (x & Hx & Hp). bool_inv.
      rewrite (omap_insert_same _ _ _ x); [done|done|]. cbn. congruence.
    + apply findIndex_None, rid_omap in Hi. by apply (omap_app_NoDup r).
  - destruct (findIndex _ _) as [i|] eqn:Hi; [by apply NoDup_omap_insert_None|].
    rewrite omap_app. cbn. rewrite Hr. by rewrite app_nil_r.
Qed.

(** ** The store as a transition system *)

(** One call of a method, or a restart of the process. *)
Inductive op :=
| op_hasNonce (n : string)
| op_tryCommitNonce (n : string)
| op_getIdempotentResponse (h : string)
| op_checkSemantic (rid fp : string)
| op_reserveSemantic (rid fp h : string)
| op_storeIdempotentResponse (h : string) (resp : json) (rid fp : option string)
| op_persist (fails : option io_step)
| op_restart.

(** The state a call at time [now] leaves, whatever it returns or throws. *)
Definition exec (c : RuntimeConfig) (s : ReplayStore) (e : Z * op) : ReplayStore :=
  let now := fst e in
  match snd e with
  | op_hasNonce n => snd (hasNonce c now n s)
  | op_tryCommitNonce n => snd (tryCommitNonce c now n s)
  | op_getIdempotentResponse h => snd (getIdempotentResponse c now h s)
  | op_checkSemantic rid fp => snd (checkSemantic c now rid fp s)
  | op_reserveSemantic rid fp h => snd (reserveSemantic c now rid fp h s)
  | op_storeIdempotentResponse h resp rid fp => snd (storeIdempotentResponse c now h resp rid fp s)
  | op_persist fails => snd (persist fails s)
  | op_restart => open_store (disk s)
  end.

Definition run (c : RuntimeConfig) (trace : list (Z * op)) (s : ReplayStore) : ReplayStore :=
  fold_left (exec c) trace s.

(** An invariant of the calls is one of the runs. *)
Lemma run_invariant c (P : ReplayStore -> Prop) (ok : Z * op -> Prop) trace s :
  (forall s e, ok e -> P s -> P (exec c s e)) -> Forall ok trace -> P s -> P (run c trace s).
Proof.
  intros Hstep Hall. revert s. unfold run. induction Hall as [|e l He _ IH]; intros s Hs; [done|].
  cbn. apply IH. by apply Hstep.
Qed.

Definition wf (s : ReplayStore) : Prop := wf_data (data s) /\ wf_data (load (disk s)).

Lemma wf_reparse (l : list IdempotencyEntry) :
  omap requestId (List.map reparse_entry l) = omap requestId l.
Proof. induction l as [|e l IH]; [done|]. cbn. by rewrite IH. Qed.

Lemma wf_persist fails s : wf s -> wf (snd (persist fails s)).
Proof.
  intros [[Hn Hr] Hd]. unfold persist. destruct (dirty s); cbn; [|done].
  assert (Hw : wf_data (load (written (data s))))
    by (split; cbn; [done|by rewrite wf_reparse]).
  destruct fails as [[]|]; cbn; by split.
Qed.

Lemma exec_wf c s e : wf s -> wf (exec c s e).
Proof.
  intros Hwf. pose proof Hwf as [Hd Hf].
  assert (Hp : forall now, wf_data (pruned c now (data s))) by (intros; by apply wf_pruned).
  destruct e as [now [n|n|h|rid fp|rid fp h|h resp rid fp|fails|]]; unfold exec; cbn [fst snd];
    try (split; [exact (Hp now)|exact Hf]).
  - destruct (tryCommitNonce_cases c now n s) as (s' & Hdisk & [(-> & Hs & _)|(-> & Hn & _ & Hs)]);
      split; cbn [snd]; rewrite ?Hdisk, ?Hs; [done|done| |done].
    destruct (Hp now) as [Hn' Hr]. split; [|done]. cbn. rewrite List.map_app. apply NoDup_app.
    split_and!; [done| |repeat constructor; by apply not_elem_of_nil].
    intros x Hx [->|[]%not_elem_of_nil]%elem_of_cons. done.
  - destruct (reserveSemantic_cases c now rid fp h s) as (r & s' & -> & Hdisk & [(_ & Hs & _)|(_ & Hm & _ & Hs)]);
      split; cbn [snd]; rewrite ?Hdisk, ?Hs; [done|done| |done].
    destruct (Hp now) as [Hn Hr]. split; [done|].
    apply (omap_app_NoDup rid); [done| |done]. by apply rid_omap, (semantic_state_miss rid fp).
  - rewrite storeIdempotentResponse_eq. split; [|done]. destruct (Hp now) as [Hn Hr].
    split; [done|]. by apply wf_answered.
  - by apply wf_persist.
  - by split.
Qed.

(** The same entries, the responses left aside (a file holds them as [reparse] images). *)
Definition erase (e : IdempotencyEntry) : IdempotencyEntry := {|
  requestHash := requestHash e; requestId := requestId e; fingerprint := fingerprint e;
  status := status e; response := JNull; storedAt := storedAt e
|}.

Definition same_entries (d d' : StoreData) : Prop :=
  nonces d = nonces d' /\ List.map erase (idempotency d) = List.map erase (idempotency d').

(** A store that is not marked is the one a restart reads. *)
Definition synced (s : ReplayStore) : Prop :=
  dirty s = false -> same_entries (load (disk s)) (data s).

Lemma synced_prune c now s : synced s -> synced (snd (prune c now s)).
Proof.
  unfold synced. cbn. intros Hs H. rewrite !orb_false_iff, !negb_false_iff, !Nat.eqb_eq in H.
  destruct H as [[Hn He] Hd]. destruct (Hs Hd) as [H1 H2]. unfold same_entries. cbn.
  rewrite (filter_full _ _ Hn), (filter_full _ _ He). done.
Qed.

Lemma same_written (d : StoreData) :
  same_entries (load (written d)) d.
Proof. split; [done|]. cbn. by rewrite List.map_map. Qed.

Lemma synced_exec c s e : synced s -> synced (exec c s e).
Proof.
  intros Hy. pose proof (fun now => synced_prune c now s Hy) as Hp.
  destruct e as [now [n|n|h|rid fp|rid fp h|h resp rid fp|fails|]]; unfold exec; cbn [fst snd];
    try apply (Hp now).
  - specialize (Hp now). unfold tryCommitNonce, mbind, M_bind. set (s1 := snd (prune c now s)) in *.
    change (prune c now s) with (Ok tt : result exn unit, s1). cbn [gets].
    destruct (existsb _ _); [exact Hp|]. intros [=].
  - specialize (Hp now). unfold reserveSemantic, mbind, M_bind. rewrite checkSemantic_eq.
    destruct (semantic_state _ _ _); try exact Hp. intros [=].
  - rewrite storeIdempotentResponse_eq. intros [=].
  - unfold persist. destruct (dirty s) eqn:Hd; cbn [negb]; [|exact Hy].
    destruct fails as [[]|]; cbn [snd]; try (intros E; cbn in E; congruence).
    intros _. apply same_written.
  - done.
Qed.

Lemma semantic_state_find rid fp l e f :
  List.find (fun c => requestId c === Some rid) l = Some e -> fingerprint e = Some f -> f <> ""%string ->
  semantic_state rid fp l =
    if f !== fp then sem_conflict f else if status e === Some pending then sem_pending
    else if response e !== JUndefined then sem_replay (response e) else sem_pending.
Proof.
  intros H1 H2 Hf. unfold semantic_state, truthy_str. rewrite H1, H2.
  by rewrite (bool_decide_eq_false_2 (f = ""%string)).
Qed.

Lemma find_reparse rid l :
  List.find (fun c => requestId c === Some rid) (List.map reparse_entry l) =
  option_map reparse_entry (List.find (fun c => requestId c === Some rid) l).
Proof. induction l as [|e l IH]; [done|]. cbn. rewrite IH. by destruct (_ === _). Qed.

Lemma find_answered now h resp rid fp l :
  rid <> ""%string ->
  List.find (fun c => requestId c === Some rid) (answered now h resp (Some rid) fp l)
  = Some (answer now h resp (Some rid) fp).
Proof.
  intros Hr. assert (Hg : given (Some rid) = Some rid)
    by (unfold given, truthy_str; by rewrite bool_decide_eq_false_2).
  assert (Hp : (requestId (answer now h resp (Some rid) fp) === Some rid) = true)
    by (unfold answer; cbn [requestId]; rewrite Hg; by apply bool_decide_eq_true_2).
  unfold answered. rewrite Hg. destruct (findIndex _ l) as [i|] eqn:Hi.
  - by apply findIndex_insert.
  - apply findIndex_None in Hi. rewrite find_app_None by done. cbn [List.find]. by rewrite Hp.
Qed.

Lemma reparse_defined v : v <> JUndefined -> reparse v <> JUndefined.
Proof. by destruct v. Qed.

(** ** The properties *)

(** in every state a supervisor reaches from an empty directory, through calls of any methods
    at any times, failing writes and restarts, the stored nonces are distinct, and so are the request identifiers, in memory and in
    the file. *)
Theorem run_wf (c : RuntimeConfig) (trace : list (Z * op)) :
  wf (run c trace (open_store Absent)).
Proof.
  apply (run_invariant c wf (fun _ => True)); [intros; by apply exec_wf|by induction trace; constructor|].
  repeat split; constructor.
Qed.

(** the life of a request identifier.  Within the retention time, a reserved identifier is
    in progress for the fingerprint it was reserved with and conflicts with every other one; once
    its response is stored, the same fingerprint gets this response and every other one still
    conflicts; and this survives a write of the file and a restart. *)
Theorem semantic_protocol (c : RuntimeConfig) (rid fp h : string) (resp : json) (s s1 : ReplayStore)
    (t0 t1 t2 : Z) :
  rid <> ""%string -> fp <> ""%string -> resp <> JUndefined ->
  t1 - t0 < idempotencyRetentionMs c -> t2 - t1 < idempotencyRetentionMs c ->
  reserveSemantic c t0 rid fp h s = (Ok tt, s1) ->
  fst (checkSemantic c t1 rid fp s1) = Ok sem_pending /\
  (forall fp', fp' <> fp -> fst (checkSemantic c t1 rid fp' s1) = Ok (sem_conflict fp)) /\
  forall s2, storeIdempotentResponse c t1 h resp (Some rid) (Some fp) s1 = (Ok tt, s2) ->
  fst (checkSemantic c t2 rid fp s2) = Ok (sem_replay resp) /\
  (forall fp', fp' <> fp -> fst (checkSemantic c t2 rid fp' s2) = Ok (sem_conflict fp)) /\
  fst (checkSemantic c t2 rid fp (open_store (disk (snd (persist None s2))))) = Ok (sem_replay (reparse resp)).
Proof.
  intros Hr Hf Hv Ht1 Ht2 H.
  destruct (reserveSemantic_cases c t0 rid fp h s) as (r & s' & He & _ & Hc).
  rewrite He in H. injection H as -> ->. destruct Hc as [[[=] _]|(_ & Hm & _ & Hs)].
  apply semantic_state_miss in Hm.
  assert (Hl : entry_live c t1 (reservation t0 rid fp h) = true) by (by apply Z.ltb_lt).
  assert (H1 : List.find (fun c => requestId c === Some rid) (idempotency (pruned c t1 (data s1)))
               = Some (reservation t0 rid fp h)).
  { rewrite Hs. cbn [pruned with_idempotency idempotency]. apply find_filter; [|exact Hl].
    rewrite find_app_None by exact Hm. cbn. by rewrite bool_decide_eq_true_2. }
  assert (Hg : given (Some fp) = Some fp) by (unfold given, truthy_str; by rewrite bool_decide_eq_false_2).
  assert (Hneq : forall fp', fp' <> fp -> (fp !== fp') = true)
    by (intros fp' ?; rewrite bool_decide_eq_false_2; [done|congruence]).
  rewrite checkSemantic_eq. split_and!.
  - cbn [fst]. rewrite (semantic_state_find _ _ _ _ fp H1) by done. by rewrite bool_decide_eq_true_2.
  - intros fp' Hfp. rewrite checkSemantic_eq. cbn [fst].
    rewrite (semantic_state_find _ _ _ _ fp H1) by done. by rewrite Hneq.
  - intros s2. rewrite storeIdempotentResponse_eq. intros [= <-].
    set (d := pruned c t1 (data s1)).
    pose proof (find_answered t1 h resp rid (Some fp) (idempotency d) Hr) as H2.
    set (a := answer t1 h resp (Some rid) (Some fp)) in *.
    assert (Hla : forall b, storedAt b = t1 -> entry_live c t2 b = true)
      by (intros b Hb; unfold entry_live; rewrite Hb; by apply Z.ltb_lt).
    pose proof (find_filter _ (entry_live c t2) _ _ H2 (Hla a eq_refl)) as H3.
    rewrite checkSemantic_eq. cbn [fst data with_idempotency pruned idempotency].
    split_and!.
    + rewrite (semantic_state_find _ _ _ a fp H3) by done. cbn [a answer status response].
      rewrite !bool_decide_eq_true_2 by done. by rewrite !bool_decide_eq_false_2.
    + intros fp' Hfp. rewrite checkSemantic_eq. cbn [fst data with_idempotency pruned idempotency].
      rewrite (semantic_state_find _ _ _ a fp H3) by done. by rewrite Hneq.
    + rewrite checkSemantic_eq. cbn [persist dirty negb snd disk open_store load written data default fst idempotency
        with_idempotency nonces pruned id].
      pose proof (find_reparse rid (answered t1 h resp (Some rid) (Some fp) (idempotency d))) as H4.
      rewrite H2 in H4. cbn [option_map] in H4.
      pose proof (find_filter _ (entry_live c t2) _ _ H4 (Hla (reparse_entry a) eq_refl)) as H5.
      unfold id. rewrite (semantic_state_find _ _ _ (reparse_entry a) fp H5) by done.
      cbn [reparse_entry a answer status response].
      rewrite !bool_decide_eq_true_2 by done. pose proof (reparse_defined resp Hv).
      by rewrite !bool_decide_eq_false_2.
Qed.

(** a write of the file is atomic.  In every reachable state, when [persist] returns, a
    restart reads what the memory holds; when a step of it throws, a restart reads the content from
    before or the content of the memory, and the store stays marked for the next attempt. *)
Theorem persist_atomic (c : RuntimeConfig) (trace : list (Z * op)) (fails : option io_step)
    (s s' : ReplayStore) (r : result exn unit) :
  s = run c trace (open_store Absent) -> persist fails s = (r, s') ->
  let d := data (open_store (disk s')) in
  data s' = data s /\
  (r = Ok tt -> same_entries d (data s)) /\
  (r <> Ok tt -> dirty s' = true /\ (d = data (open_store (disk s)) \/ same_entries d (data s))).
Proof.
  intros Hr H. assert (Hy : synced s).
  { subst s. clear H. apply (run_invariant c synced (fun _ => True));
      [intros; by apply synced_exec|by induction trace; constructor|done]. }
  unfold persist in H. destruct (dirty s) eqn:Hd; cbn [negb] in H.
  - pose proof (same_written (data s)). destruct fails as [[]|]; injection H as <- <-; cbn;
      (split; [done|split; [done|]]); eauto.
  - injection H as <- <-. split_and!; [done| |done]. intros _. by apply Hy.
Qed.

(** ** Witnesses *)

Definition example_store : ReplayStore :=
  snd (reserveSemantic default_config 1000 "r-1" "f-1" "h-1" (open_store Absent)).

Lemma semantic_protocol_witness :
  fst (checkSemantic default_config 2000 "r-1" "f-1" example_store) = Ok sem_pending.
Proof.
  refine (proj1 (semantic_protocol default_config "r-1" "f-1" "h-1" (JStr "done") (open_store Absent)
    example_store 1000 2000 3000 _ _ _ _ _ _));
    [discriminate|discriminate|discriminate|reflexivity|reflexivity|vm_compute; reflexivity].
Defined.

Lemma persist_atomic_witness :
  dirty (snd (persist (Some io_write) example_store)) = true.
Proof.
  refine (proj1 (proj2 (proj2 (persist_atomic default_config [(1000, op_reserveSemantic "r-1" "f-1" "h-1")]
    (Some io_write) example_store _ _ eq_refl eq_refl)) _)).
  discriminate.
Defined.
