(* ===== verification/Auth.v ===== *)
(** * Authentication ([src/auth/principal.ts], [src/auth/authenticator.ts])

    The validation of the principal, the checks on a signed request in the order of the code, and
    the commitment of its nonce and its identifier to the replay store.  The theorems: what is
    accepted, exactly; a rejected request commits nothing; a signed request is accepted at most
    once, and a request identifier at most once within its retention, whatever the supervisor does
    in between, restarts included. *)

From S2P Require Import Prelude Bytes Json Platform Errors Config Canonical ReplayStore.

#[global] Open Scope Z_scope.

(** ** Data *)

(** Source: src/auth/principal.ts:8-17 (OwnerPrincipal) *)
Record OwnerPrincipal := {
  op_subject : string;
  op_authorityClass : string;
  op_issuer : string;
  op_resource : string;
  op_audience : string;
  op_principalType : string;
  op_workspaceAuthority : json;
  op_principalFingerprint : string
}.

(** Source: src/crypto/signing.ts:82-88 (AuthorityEnvelope) *)
Record AuthorityEnvelope := {
  ae_algorithm : string;
  ae_gatewayId : string;
  ae_nonce : string;
  ae_signature : string;
  ae_keyId : option string
}.

(** Source: src/protocol/frame.ts:135-145 (RequestPayload) *)
Record RequestPayload := {
  rq_protocolVersion : string;
  rq_requestId : string;
  rq_operation : string;
  rq_principal : json;
  rq_authority : AuthorityEnvelope;
  rq_targetHost : string;
  rq_timestamp : string;
  rq_payload : json;
  rq_binaryLength : Z
}.

(** Source: src/auth/authenticator.ts:19-26 (AuthenticatedRequest) *)
Record AuthenticatedRequest := {
  au_payload : RequestPayload;
  au_signingDocument : string;
  au_hash : string;
  au_fingerprint : string;
  au_subject : string;
  au_authorityClass : string
}.

(** ** The principal *)

(** [String(raw.k ?? '')]. *)
Definition string_member (k : string) (raw : json) : string := js_String (nullish (field k raw) (JStr "")).

(** Source: src/auth/principal.ts:35-86 (validatePrincipal) *)
Definition validatePrincipal (raw : json) (config : RuntimeConfig) : result exn OwnerPrincipal :=
  _ ← get "subject" raw;
  let principal := {|
    op_subject := string_member "subject" raw;
    op_authorityClass := string_member "authorityClass" raw;
    op_issuer := string_member "issuer" raw;
    op_resource := string_member "resource" raw;
    op_audience := string_member "audience" raw;
    op_principalType := string_member "principalType" raw;
    op_workspaceAuthority :=
      (let w := field "workspaceAuthority" raw in if w === JUndefined then JNull else w);
    op_principalFingerprint := string_member "principalFingerprint" raw
  |} in
  _ ← require (op_subject principal === expectedSubject config)
    (auth_error "invalid_subject" "Principal subject does not match expected owner");
  _ ← require (op_authorityClass principal === authorityClass config)
    (auth_error "invalid_authority_class" "Authority class does not match");
  _ ← require (op_issuer principal === oauthIssuer config)
    (auth_error "invalid_issuer" "Principal issuer does not match expected OAuth issuer");
  _ ← require (op_resource principal === oauthResource config)
    (auth_error "invalid_resource" "Principal resource does not match expected resource");
  _ ← require (op_audience principal === oauthResource config)
    (auth_error "invalid_audience" "Principal audience does not match expected audience");
  _ ← require (op_principalType principal === "owner"%string)
    (auth_error "invalid_principal_type" "Principal type must be owner");
  _ ← require (op_workspaceAuthority principal === JNull)
    (auth_error "invalid_workspace_authority" "Workspace authority must be null for unrestricted owner");
  if truthy_str (ownerPrincipalFingerprint config) &&
     (ownerPrincipalFingerprint config !== "test"%string) then
    _ ← require (truthy_str (op_principalFingerprint principal))
      (auth_error "invalid_principal_fingerprint" "Owner principal fingerprint is required");
    _ ← require (constantTimeEqual (op_principalFingerprint principal) (ownerPrincipalFingerprint config))
      (auth_error "invalid_principal_fingerprint" "Owner principal fingerprint does not match");
    Ok principal
  else Ok principal.

(** ** The request *)

Section Authenticator.
Context `{Cr : Crypto} `{Dt : Dates}.
Context (config : RuntimeConfig) (host : Host) (publicKey previousPublicKey : option PublicKey).

(** The document the gateway signed, from the members of the request.
    Source: src/auth/authenticator.ts:96-113 (authenticate) *)
Definition signing_input (request : RequestPayload) : SigningDocumentInput :=
  let authority := rq_authority request in {|
  sd_protocolVersion := rq_protocolVersion request;
  sd_requestId := rq_requestId request;
  sd_operation := rq_operation request;
  sd_principal := rq_principal request;
  sd_authority := JObj
    [("algorithm", JStr (ae_algorithm authority)); ("gatewayId", JStr (ae_gatewayId authority));
     ("keyId", opt_str (ae_keyId authority)); ("nonce", JStr (ae_nonce authority))]%string;
  sd_targetHost := rq_targetHost request;
  sd_timestamp := rq_timestamp request;
  sd_payload := rq_payload request;
  sd_binaryLength := rq_binaryLength request
|}.

(** Source: src/auth/authenticator.ts:116-123 (authenticate) *)
Definition semantic_input (request : RequestPayload) : SemanticRequestInput := {|
  sr_protocolVersion := rq_protocolVersion request;
  sr_operation := rq_operation request;
  sr_principal := rq_principal request;
  sr_targetHost := rq_targetHost request;
  sr_payload := rq_payload request;
  sr_binaryLength := rq_binaryLength request
|}.

(** The part of [authenticate] that does not touch the replay store.
    Source: src/auth/authenticator.ts:53-146 (authenticate) *)
Definition verify_request (now : Z) (peerUid : option Z) (request : RequestPayload)
    : result exn AuthenticatedRequest :=
  principal ← validatePrincipal (rq_principal request) config;
  let authority := rq_authority request in
  _ ← require (ae_algorithm authority === "ed25519"%string)
    (auth_error "unsupported_algorithm" ("Algorithm " +:+ ae_algorithm authority +:+ " is not supported"));
  _ ← require (truthy (opt_str (ae_keyId authority)))
    (auth_error "invalid_key_id" "Authority key ID is required");
  _ ← require (ae_keyId authority === Some (gatewayAuthorityKeyId config))
    (auth_error "invalid_key_id" "Authority key ID does not match configured gateway key");
  _ ← require (rq_targetHost request === hostname host)
    (auth_error "invalid_target_host" "Target host does not match this machine");
  let machineId := getMachineIdSha256 (machine_id host) in
  _ ← require (negb (truthy_str machineId && (machineId !== expectedMachineIdSha256 config) &&
                     (expectedMachineIdSha256 config !== "test"%string)))
    (auth_error "invalid_machine_id" "Machine identity does not match");
  requestTime ← match date_value (rq_timestamp request) with
    | Some t => Ok t
    | None => Err (auth_error "invalid_timestamp" "Request timestamp is not valid ISO-8601")
    end;
  let age := Z.abs (now - requestTime) in
  _ ← require (negb (requestMaxAgeMs config <? age))
    (auth_error "request_expired" "Request timestamp outside allowed age window");
  _ ← require (truthy_str (ae_nonce authority))
    (auth_error "missing_nonce" "Authority nonce is required");
  _ ← require (ae_gatewayId authority === gatewayId config)
    (auth_error "invalid_gateway_id" "Authority gateway ID does not match");
  let signingDocument := buildSigningDocument (signing_input request) in
  let hash := Canonical.requestHash signingDocument in
  let fingerprint := semanticRequestFingerprint (semantic_input request) in
  key ← match publicKey with
    | Some k => Ok k
    | None => Err (auth_error "no_signing_key" "Gateway authority public key not configured")
    end;
  let valid := verifyEd25519 signingDocument (ae_signature authority) key ||
    match previousPublicKey with
    | Some previous => verifyEd25519 signingDocument (ae_signature authority) previous
    | None => false
    end in
  _ ← require valid (auth_error "invalid_signature" "Authority signature verification failed");
  _ ← (if skipPeerCredCheck config then Ok tt else
    match peerUid with
    | None => Err (auth_error "invalid_peer" "Unix peer credentials unavailable")
    | Some uid => require (uid === gatewayUid config)
        (auth_error "invalid_peer" "Unix peer credentials do not match gateway")
    end);
  Ok {| au_payload := request; au_signingDocument := signingDocument; au_hash := hash;
        au_fingerprint := fingerprint; au_subject := op_subject principal;
        au_authorityClass := op_authorityClass principal |}.

(** The part of [authenticate] that follows the checks.
    Source: src/auth/authenticator.ts:148-197 (authenticate) *)
Definition commit_request (now : Z) (fails : option io_step) (a : AuthenticatedRequest)
    : RM AuthenticatedRequest :=
  let request := au_payload a in
  exactReplay ← getIdempotentResponse config now (au_hash a);
  if exactReplay !== JUndefined then throw (IdempotentReplay exactReplay) else
  semantic ← checkSemantic config now (rq_requestId request) (au_fingerprint a);
  match semantic with
  | sem_replay resp => throw (IdempotentReplay resp)
  | sem_conflict existing =>
      throw (AuthError "idempotency_conflict"
        "The request ID was already used with a different logical operation or payload" false
        (JObj [("requestId", JStr (rq_requestId request)); ("existingFingerprint", JStr existing);
               ("receivedFingerprint", JStr (au_fingerprint a))]%string))
  | sem_pending =>
      throw (AuthError "idempotency_in_progress"
        "The exact logical request is already in progress" true
        (JObj [("requestId", JStr (rq_requestId request)); ("fingerprint", JStr (au_fingerprint a))]%string))
  | sem_miss =>
      committed ← tryCommitNonce config now (ae_nonce (rq_authority request));
      if negb committed then
        retry ← getIdempotentResponse config now (au_hash a);
        if retry !== JUndefined then throw (IdempotentReplay retry) else
        throw (auth_error "replay_detected" "Nonce has already been used")
      else
      reserveSemantic config now (rq_requestId request) (au_fingerprint a) (au_hash a);;
      persist fails;;
      mret a
  end.

(** Source: src/auth/authenticator.ts:53-197 (authenticate) *)
Definition authenticate (now : Z) (fails : option io_step) (peerUid : option Z)
    (request : RequestPayload) : RM AuthenticatedRequest :=
  a ← lift (verify_request now peerUid request);
  commit_request now fails a.
End Authenticator.

(** ** What is accepted *)

(** The owner principal of the configuration, as the members of a request. *)
Definition is_owner (config : RuntimeConfig) (raw : json) : Prop :=
  raw <> JUndefined /\ raw <> JNull /\
  string_member "subject" raw = expectedSubject config /\
  string_member "authorityClass" raw = authorityClass config /\
  string_member "issuer" raw = oauthIssuer config /\
  string_member "resource" raw = oauthResource config /\
  string_member "audience" raw = oauthResource config /\
  string_member "principalType" raw = "owner"%string /\
  (field "workspaceAuthority" raw = JNull \/ field "workspaceAuthority" raw = JUndefined) /\
  (ownerPrincipalFingerprint config = ""%string \/ ownerPrincipalFingerprint config = "test"%string \/
   string_member "principalFingerprint" raw = ownerPrincipalFingerprint config).

Lemma utf8_bytes_inj s t : utf8_bytes s = utf8_bytes t -> s = t.
Proof.
  intros H. apply chars_inj. unfold utf8_bytes in H. revert H. generalize (chars s) (chars t).
  induction l as [|c l IH]; intros [|d k]; cbn [List.flat_map]; pose proof (code_byte) as Hb; unfold is_byte in Hb.
  - done.
  - destruct (code d <? 128); discriminate.
  - destruct (code c <? 128); discriminate.
  - pose proof (Hb c). pose proof (Hb d).
    destruct (code c <? 128) eqn:Hc, (code d <? 128) eqn:Hd; cbn [app]; bool_inv; intros E.
    + injection E as H1 H2. f_equal; [by apply code_inj|by apply IH].
    + exfalso. injection E as H1 H2. assert (2 <= code d / 64) by (apply Z.div_le_lower_bound; lia). lia.
    + exfalso. injection E as H1 H2. assert (2 <= code c / 64) by (apply Z.div_le_lower_bound; lia). lia.
    + injection E as H1 H2 H3. f_equal; [|by apply IH]. apply code_inj.
      rewrite (Z.div_mod (code c) 64), (Z.div_mod (code d) 64) by done. lia.
Qed.

Lemma constantTimeEqual_spec a b : constantTimeEqual a b = true <-> a = b.
Proof.
  unfold constantTimeEqual. split.
  - split_if; [done|]. intros H. bool_inv. by apply utf8_bytes_inj.
  - intros ->. by rewrite !bool_decide_eq_true_2.
Qed.

Lemma get_Ok k v : is_ok (get k v) = true <-> v <> JUndefined /\ v <> JNull.
Proof. destruct v; cbn; naive_solver. Qed.

Lemma truthy_str_spec s : truthy_str s = true <-> s <> ""%string.
Proof. unfold truthy_str. rewrite negb_true_iff. apply bool_decide_eq_false. Qed.

Lemma validatePrincipal_Ok config raw :
  is_ok (validatePrincipal raw config) = true <-> is_owner config raw.
Proof.
  unfold is_owner. rewrite (and_assoc (raw <> _)), <- (get_Ok "subject").
  unfold validatePrincipal. destruct (get "subject" raw) as [v|e]; cbn [mbind result_bind is_ok]; [|naive_solver].
  cbn [op_subject op_authorityClass op_issuer op_resource op_audience op_principalType
    op_workspaceAuthority op_principalFingerprint].
  set (w := field "workspaceAuthority" raw).
  assert (Hw : (if w === JUndefined then JNull else w) = JNull <-> w = JNull \/ w = JUndefined)
    by (destruct w; naive_solver).
  rewrite <- Hw. clear Hw. generalize (if w === JUndefined then JNull else w). clear w. intros w.
  repeat lazymatch goal with
  | |- context [require (?a === ?b) _ ≫= _] =>
      destruct (decide (a = b)) as [?|?];
      [rewrite (bool_decide_eq_true_2 (a = b)) by done
      |rewrite (bool_decide_eq_false_2 (a = b)) by done; cbn; naive_solver];
      cbn [require mbind result_bind]
  end.
  destruct (truthy_str _ && _) eqn:E; cbn [is_ok].
  - bool_inv. apply truthy_str_spec in H. set (f := string_member "principalFingerprint" raw).
    destruct (truthy_str f) eqn:Hf; cbn [require mbind result_bind].
    + destruct (constantTimeEqual f _) eqn:Hc; cbn; [apply constantTimeEqual_spec in Hc; naive_solver|].
      split; [done|]. intros (_ & _ & _ & _ & _ & _ & _ & _ & [?|[?|?%constantTimeEqual_spec]]); congruence.
    + cbn. split; [done|]. apply not_true_iff_false in Hf. rewrite truthy_str_spec in Hf.
      intros (_ & _ & _ & _ & _ & _ & _ & _ & [?|[?|?]]); [done|done|]. destruct Hf. congruence.
  - split; [|done]. intros _. split_and!; try done.
    apply andb_false_iff in E as [E|E]; [left|right; left].
    + apply not_true_iff_false in E. rewrite truthy_str_spec in E. by apply dec_stable.
    + by bool_inv.
Qed.

Lemma validatePrincipal_owner config raw p :
  validatePrincipal raw config = Ok p ->
  op_subject p = expectedSubject config /\ op_authorityClass p = authorityClass config.
Proof.
  unfold validatePrincipal. intros H. apply bind_Ok in H as (v & _ & H).
  do 7 (apply require_bind in H as [? H]). cbn [op_subject op_authorityClass] in *. bool_inv.
  destruct (truthy_str _ && _); [do 2 (apply require_bind in H as [? H])|]; injection H as <-; by split.
Qed.

Section AuthenticatorProofs.
Context `{Cr : Crypto} `{Dt : Dates}.
Context (config : RuntimeConfig) (host : Host) (publicKey previousPublicKey : option PublicKey).
Context (retains : 0 < nonceRetentionMs config).

(** The conditions on a request that do not involve the store. *)
Definition authentic (now : Z) (peerUid : option Z) (r : RequestPayload) : Prop :=
  is_owner config (rq_principal r) /\
  ae_algorithm (rq_authority r) = "ed25519"%string /\
  (ae_keyId (rq_authority r) = Some (gatewayAuthorityKeyId config) /\
   gatewayAuthorityKeyId config <> ""%string) /\
  rq_targetHost r = hostname host /\
  (let id := getMachineIdSha256 (machine_id host) in
   id = ""%string \/ id = expectedMachineIdSha256 config \/
   expectedMachineIdSha256 config = "test"%string) /\
  (exists t, date_value (rq_timestamp r) = Some t /\ Z.abs (now - t) <= requestMaxAgeMs config) /\
  ae_nonce (rq_authority r) <> ""%string /\
  ae_gatewayId (rq_authority r) = gatewayId config /\
  (exists k, publicKey = Some k /\ exists k', (k' = k \/ previousPublicKey = Some k') /\
    verifyEd25519 (buildSigningDocument (signing_input r)) (ae_signature (rq_authority r)) k' = true) /\
  (skipPeerCredCheck config = true \/ peerUid = Some (gatewayUid config)).

Definition accepted (r : RequestPayload) : AuthenticatedRequest := {|
  au_payload := r;
  au_signingDocument := buildSigningDocument (signing_input r);
  au_hash := Canonical.requestHash (buildSigningDocument (signing_input r));
  au_fingerprint := semanticRequestFingerprint (semantic_input r);
  au_subject := expectedSubject config;
  au_authorityClass := authorityClass config
|}.

Lemma verify_request_Ok now peerUid r a :
  verify_request config host publicKey previousPublicKey now peerUid r = Ok a <->
  authentic now peerUid r /\ a = accepted r.
Proof using.
  unfold verify_request, authentic. rewrite <- validatePrincipal_Ok.
  destruct (validatePrincipal (rq_principal r) config) as [p|e] eqn:Hp;
    cbn [mbind result_bind is_ok]; [|naive_solver].
  apply validatePrincipal_owner in Hp as [Hs Hc].
  rewrite !require_bind, !bool_decide_eq_true.
  set (id := getMachineIdSha256 _).
  assert (Hid : negb (truthy_str id && (id !== expectedMachineIdSha256 config) &&
            (expectedMachineIdSha256 config !== "test"%string)) = true <->
          id = ""%string \/ id = expectedMachineIdSha256 config \/ expectedMachineIdSha256 config = "test"%string).
  { unfold truthy_str. repeat case_bool_decide; cbn; naive_solver. }
  rewrite Hid. clear Hid. generalize id. clear id. intros id.
  destruct (ae_keyId (rq_authority r)) as [kid|]; cbn [opt_str truthy]; [|naive_solver].
  rewrite truthy_str_spec.
  destruct (date_value (rq_timestamp r)) as [t|]; cbn [mbind result_bind]; [|naive_solver].
  rewrite !require_bind, negb_true_iff, Z.ltb_ge, truthy_str_spec, bool_decide_eq_true.
  destruct publicKey as [k|]; cbn [mbind result_bind]; [|naive_solver].
  rewrite require_bind, orb_true_iff.
  set (verified := verifyEd25519 _ _).
  assert (Hv : (verified k = true \/ match previousPublicKey with Some p => verified p | None => false end = true)
     <-> exists k0, Some k = Some k0 /\ exists k', (k' = k0 \/ previousPublicKey = Some k') /\ verified k' = true)
    by (destruct previousPublicKey; naive_solver).
  rewrite Hv. clear Hv. generalize (exists k0, Some k = Some k0 /\ exists k', (k' = k0 \/ previousPublicKey = Some k') /\ verified k' = true).
  intros V. unfold accepted. rewrite Hs, Hc. clear.
  destruct (skipPeerCredCheck config); [|destruct peerUid as [uid|]]; cbn [mbind result_bind].
  3: naive_solver.
  - naive_solver.
  - rewrite require_bind, bool_decide_eq_true. naive_solver.
Qed.

(** ** What is committed *)

(** No live entry of the store knows the request. *)
Definition unused (now : Z) (a : AuthenticatedRequest) (s : ReplayStore) : Prop :=
  let d := pruned config now (data s) in
  fst (getIdempotentResponse config now (au_hash a) s) = Ok JUndefined /\
  (rq_requestId (au_payload a) ∉ omap requestId (idempotency d)) /\
  (ae_nonce (rq_authority (au_payload a)) ∉ List.map nonce (nonces d)).

Definition committed (now : Z) (a : AuthenticatedRequest) (d : StoreData) : StoreData := {|
  version := version d;
  nonces := nonces d ++ [{| nonce := ae_nonce (rq_authority (au_payload a)); seenAt := now |}];
  idempotency := idempotency d ++
    [reservation now (rq_requestId (au_payload a)) (au_fingerprint a) (au_hash a)]
|}.

Lemma pruned_nonce now n d :
  pruned config now (with_nonces (nonces (pruned config now d) ++ [{| nonce := n; seenAt := now |}])
    (pruned config now d)) =
  with_nonces (nonces (pruned config now d) ++ [{| nonce := n; seenAt := now |}]) (pruned config now d).
Proof using retains.
  unfold pruned, with_nonces. cbn. rewrite List.filter_app, !filter_filter. cbn.
  assert (nonce_live config now {| nonce := n; seenAt := now |} = true) as ->; [|done].
  unfold nonce_live. cbn. apply Z.ltb_lt. lia.
Qed.

(** Either nothing is committed, or both the nonce and the identifier are. *)
Lemma commit_request_cases now fails a s :
  let d := pruned config now (data s) in
  exists r s', commit_request config now fails a s = (r, s') /\
  ((is_ok r = false /\ data s' = d /\ disk s' = disk s /\ ~ unused now a s) \/
   (unused now a s /\ data s' = committed now a d /\
    ((fails = None /\ r = Ok a /\ dirty s' = false /\ disk s' = written (data s')) \/
     (fails <> None /\ is_ok r = false)))).
Proof using retains.
  cbn zeta. set (d := pruned config now (data s)). set (s1 := snd (prune config now s)).
  assert (Hs1 : data s1 = d) by reflexivity. assert (Hd1 : disk s1 = disk s) by reflexivity.
  assert (Hd2 : forall s0, data s0 = d -> pruned config now (data s0) = d)
    by (intros s0 ->; apply pruned_idem).
  unfold commit_request, unused. fold d.
  assert (Hget : forall s0, exists v, getIdempotentResponse config now (au_hash a) s0 =
    (Ok v, snd (prune config now s0))) by (intros; eexists; reflexivity).
  destruct (Hget s) as [v Hv]. rewrite Hv. cbn [fst].
  unfold mbind at 1, M_bind at 1. rewrite Hv. fold s1.
  destruct (v !== JUndefined) eqn:Ev; bool_inv.
  { do 2 eexists. split; [reflexivity|]. left. split_and!; [done|done|done|naive_solver]. }
  subst v. unfold mbind at 1, M_bind at 1. rewrite checkSemantic_eq, (Hd2 s1) by done.
  set (s2 := snd (prune config now s1)).
  assert (Hs2 : data s2 = d) by (apply (Hd2 s1); done). assert (Hdk2 : disk s2 = disk s) by reflexivity.
  destruct (semantic_state _ _ (idempotency d)) as [| |e|rp] eqn:Hm.
  2-4: do 2 eexists; (split; [reflexivity|]); left; (split_and!; [done|done|done|]);
    intros (_ & Hr & _); apply rid_omap, (semantic_state_miss _ (au_fingerprint a)) in Hr; congruence.
  assert (Hr : rq_requestId (au_payload a) ∉ omap requestId (idempotency d))
    by (by apply rid_omap, (semantic_state_miss _ (au_fingerprint a))).
  destruct (tryCommitNonce_cases config now (ae_nonce (rq_authority (au_payload a))) s2)
    as (s3 & Hdk3 & [(He & Hs3 & Hin)|(He & Hin & Hdy3 & Hs3)]);
    unfold mbind at 1, M_bind at 1; rewrite He; cbn [negb]; rewrite (Hd2 s2 Hs2) in *.
  - destruct (Hget s3) as [v Hv3]. unfold mbind, M_bind. rewrite Hv3.
    exists (if v !== JUndefined then Err (IdempotentReplay v)
            else Err (auth_error "replay_detected" "Nonce has already been used")), (snd (prune config now s3)).
    split; [by destruct (v !== JUndefined)|]. left. split_and!.
    + by destruct (v !== JUndefined).
    + rewrite prune_data. by apply Hd2.
    + rewrite prune_disk. congruence.
    + naive_solver.
  - destruct (reserveSemantic_cases config now (rq_requestId (au_payload a)) (au_fingerprint a) (au_hash a) s3)
      as (r & s4 & He4 & Hdk4 & Hc).
    assert (Hp3 : pruned config now (data s3) = data s3) by (rewrite Hs3; apply pruned_nonce).
    rewrite Hp3 in Hc. unfold mbind, M_bind. rewrite He4.
    assert (Hi3 : idempotency (data s3) = idempotency d) by (by rewrite Hs3). rewrite Hi3 in Hc.
    destruct Hc as [(_ & _ & Hc)|(-> & _ & Hdy4 & Hs4)]; [done|].
    assert (Hs4' : data s4 = committed now a d) by (rewrite Hs4, Hs3; reflexivity).
    unfold persist. rewrite Hdy4. cbn [negb].
    destruct fails as [f|].
    + destruct f; do 2 eexists; (split; [reflexivity|]); right;
        (split_and!; [done|done|done|done|right; by split]).
    + do 2 eexists. split; [reflexivity|]. right. cbn [data dirty disk].
      split_and!; [done|done|done|done|left; by rewrite Hs4'].
Qed.

Lemma authenticate_cases now fails peerUid r s :
  exists x s', authenticate config host publicKey previousPublicKey now fails peerUid r s = (x, s') /\
  ((is_ok x = false /\ (s' = s \/ data s' = pruned config now (data s) /\ disk s' = disk s) /\
    ~ (authentic now peerUid r /\ unused now (accepted r) s)) \/
   (authentic now peerUid r /\ unused now (accepted r) s /\
    data s' = committed now (accepted r) (pruned config now (data s)) /\
    ((fails = None /\ x = Ok (accepted r) /\ dirty s' = false /\ disk s' = written (data s')) \/
     (fails <> None /\ is_ok x = false)))).
Proof using retains.
  unfold authenticate, mbind, M_bind, lift.
  destruct (verify_request _ _ _ _ _ _ _) as [a|e] eqn:Hv.
  - apply verify_request_Ok in Hv as [Ha ->].
    destruct (commit_request_cases now fails (accepted r) s) as (x & s' & He & Hc).
    exists x, s'. split; [done|]. naive_solver.
  - exists (Err e), s. split; [done|]. left. split_and!; [done|by left|].
    intros [Ha _]. pose proof (verify_request_Ok now peerUid r (accepted r)) as [_ H].
    rewrite H in Hv; done.
Qed.
End AuthenticatorProofs.

(** ** What stays in the store *)

Definition keeps_nonce (n : string) (t : Z) (d : StoreData) : Prop :=
  {| nonce := n; seenAt := t |} ∈ nonces d.

Definition keeps_id (rid : string) (t : Z) (d : StoreData) : Prop :=
  exists e, e ∈ idempotency d /\ requestId e = Some rid /\ t <= storedAt e.

(** In memory, and after a restart. *)
Definition durably (P : StoreData -> Prop) (s : ReplayStore) : Prop := P (data s) /\ P (load (disk s)).

Lemma elem_of_filter_live {A} (p : A -> bool) l x : x ∈ l -> p x = true -> x ∈ List.filter p l.
Proof. rewrite !list_elem_of_In. intros. by apply filter_In. Qed.

Lemma durably_intro (P : StoreData -> Prop) s s' :
  durably P s -> disk s' = disk s -> P (data s') -> durably P s'.
Proof. intros [_ Hd] He Hp. split; [done|by rewrite He]. Qed.

Lemma durably_persist (P : StoreData -> Prop) fails s :
  (forall d, P d -> P (load (written d))) -> durably P s -> durably P (snd (persist fails s)).
Proof.
  intros Hw [Hd Hf]. unfold persist. destruct (dirty s); cbn [negb]; [|by split].
  destruct fails as [[]|]; split; cbn; auto; by apply Hw.
Qed.

Lemma keeps_nonce_pruned c now n t d :
  now - t < nonceRetentionMs c -> keeps_nonce n t d -> keeps_nonce n t (pruned c now d).
Proof. intros Hl H. apply elem_of_filter_live; [done|]. by apply Z.ltb_lt. Qed.

Lemma keeps_id_pruned c now rid t d :
  now - t < idempotencyRetentionMs c -> keeps_id rid t d -> keeps_id rid t (pruned c now d).
Proof.
  intros Hl (e & He & Hr & Ht). exists e. split_and!; [|done|done].
  apply elem_of_filter_live; [done|]. apply Z.ltb_lt. lia.
Qed.

Lemma exec_keeps_nonce c n t s e :
  fst e - t < nonceRetentionMs c -> durably (keeps_nonce n t) s -> durably (keeps_nonce n t) (exec c s e).
Proof.
  intros Hl Hk. destruct e as [now o]. cbn [fst] in Hl. pose proof Hk as [Hd Hf].
  pose proof (keeps_nonce_pruned c now n t _ Hl Hd) as Hp.
  destruct o as [m|m|h|rid fp|rid fp h|h resp rid fp|fails|]; unfold exec; cbn [fst snd];
    try (apply (durably_intro _ s); [exact Hk|reflexivity|exact Hp]).
  - destruct (tryCommitNonce_cases c now m s) as (s' & Hdk & [(-> & Hs & _)|(-> & _ & _ & Hs)]);
      apply (durably_intro _ s); cbn [snd]; rewrite ?Hs; try done.
    apply elem_of_app. by left.
  - destruct (reserveSemantic_cases c now rid fp h s) as (r & s' & -> & Hdk & [(_ & Hs & _)|(_ & _ & _ & Hs)]);
      apply (durably_intro _ s); cbn [snd]; rewrite ?Hs; done.
  - apply durably_persist; [|done]. by intros.
  - by split.
Qed.

Lemma answered_keeps_id now h resp rid fp rid0 t l :
  given rid <> None -> t <= now ->
  (exists e, e ∈ l /\ requestId e = Some rid0 /\ t <= storedAt e) ->
  exists e, e ∈ answered now h resp rid fp l /\ requestId e = Some rid0 /\ t <= storedAt e.
Proof.
  intros Hg Ht (e & He & Hr & Hs). unfold answered. destruct (given rid) as [r|] eqn:Hgr; [|done].
  destruct (findIndex _ l) as [i|] eqn:Hi.
  - apply findIndex_Some in Hi as (x & Hx & Hp). bool_inv.
    apply list_elem_of_lookup in He as [j Hj]. destruct (decide (j = i)) as [->|Hne].
    + exists (answer now h resp rid fp). split_and!; [|cbn; congruence|done].
      apply list_elem_of_lookup. exists i. apply list_lookup_insert_eq. by eapply lookup_lt_Some.
    + exists e. split_and!; [|done|done]. apply list_elem_of_lookup. exists j.
      by rewrite list_lookup_insert_ne.
  - exists e. split_and!; [|done|done]. apply elem_of_app. by left.
Qed.

(** The calls that name a request, as [dispatch] does. *)
Definition named (o : op) : Prop :=
  match o with op_storeIdempotentResponse _ _ rid _ => given rid <> None | _ => True end.

Lemma exec_keeps_id c rid0 t s e :
  t <= fst e /\ fst e - t < idempotencyRetentionMs c /\ named (snd e) ->
  durably (keeps_id rid0 t) s -> durably (keeps_id rid0 t) (exec c s e).
Proof.
  intros (Ht & Hl & Hn) Hk. destruct e as [now o]. cbn [fst snd] in *. pose proof Hk as [Hd Hf].
  pose proof (keeps_id_pruned c now rid0 t _ Hl Hd) as Hp.
  destruct o as [m|m|h|rid fp|rid fp h|h resp rid fp|fails|]; unfold exec; cbn [fst snd];
    try (apply (durably_intro _ s); [exact Hk|reflexivity|exact Hp]).
  - destruct (tryCommitNonce_cases c now m s) as (s' & Hdk & [(-> & Hs & _)|(-> & _ & _ & Hs)]);
      apply (durably_intro _ s); cbn [snd]; rewrite ?Hs; done.
  - destruct (reserveSemantic_cases c now rid fp h s) as (r & s' & -> & Hdk & [(_ & Hs & _)|(_ & _ & _ & Hs)]);
      apply (durably_intro _ s); cbn [snd]; rewrite ?Hs; try done.
    destruct Hp as (e & He & Hr). exists e. split; [|done]. apply elem_of_app. by left.
  - rewrite storeIdempotentResponse_eq. apply (durably_intro _ s); [done|done|].
    by apply answered_keeps_id.
  - apply durably_persist; [|done]. intros d (e & He & Hr & Hs). exists (reparse_entry e).
    split; [|done]. cbn. apply list_elem_of_In, in_map, list_elem_of_In. done.
  - by split.
Qed.

Section AuthenticatorTheorems.
Context `{Cr : Crypto} `{Dt : Dates}.
Context (config : RuntimeConfig) (host : Host) (publicKey previousPublicKey : option PublicKey).
Context (retains : 0 < nonceRetentionMs config).

(** C2: [authenticate] accepts exactly the requests that pass every check (the owner principal,
    algorithm, key, host, machine, age, nonce, gateway, a signature of the signing document under
    the current or the previous gateway key, the peer) and whose nonce and identifier the store
    does not know; it then commits both, on disk, before it returns. *)
Theorem authenticate_iff now fails peerUid r s a s' :
  authenticate config host publicKey previousPublicKey now fails peerUid r s = (Ok a, s') <->
  authentic config host publicKey previousPublicKey now peerUid r /\
  unused config now (accepted config r) s /\ fails = None /\ a = accepted config r /\
  s' = (let d := committed now a (pruned config now (data s)) in
        {| data := d; dirty := false; disk := written d |}).
Proof using retains.
  destruct (authenticate_cases config host publicKey previousPublicKey retains now fails peerUid r s)
    as (x & s0 & -> & [(Hx & _ & Hn)|(Ha & Hu & Hd & [(-> & -> & Hdy & Hdk)|(Hf & Hx)])]).
  - split; [intros [= -> ->]; done|]. naive_solver.
  - split.
    + intros [= <- ->]. split_and!; try done. destruct s'; cbn in *. by subst.
    + intros (_ & _ & _ & -> & ->). f_equal. destruct s0; cbn in *. by subst.
  - split; [intros [= -> ->]; done|]. naive_solver.
Qed.

(** a request that is rejected uses nothing up: when no write fails, a throwing
    [authenticate] leaves the file as it was, and in memory removes expired entries at most; so
    neither a forged request nor a request refused for its age burns a nonce or an identifier. *)
Theorem authenticate_rejected now peerUid r s e s' :
  authenticate config host publicKey previousPublicKey now None peerUid r s = (Err e, s') ->
  disk s' = disk s /\ (data s' = data s \/ data s' = pruned config now (data s)).
Proof using retains.
  destruct (authenticate_cases config host publicKey previousPublicKey retains now None peerUid r s)
    as (x & s0 & -> & [(Hx & [->|[? ?]] & Hn)|(Ha & Hu & Hd & [(_ & -> & _)|(Hf & Hx)])]);
    intros [= ? ?]; subst; eauto. done.
Qed.

(** C1: a signed request is executed at most once: after it was accepted, whatever calls and
    restarts follow, with clocks that do not exceed the time of the second attempt, no request
    with the same nonce and timestamp (as a replay of the signed bytes has) is accepted again;
    the only requirement is that the store retains nonces for more than twice the accepted age,
    as the default configuration does. *)
Theorem signed_request_at_most_once t1 f1 p1 r1 a s s1 trace t2 f2 p2 r2 :
  2 * requestMaxAgeMs config < nonceRetentionMs config ->
  authenticate config host publicKey previousPublicKey t1 f1 p1 r1 s = (Ok a, s1) ->
  Forall (fun e => fst e <= t2) trace ->
  ae_nonce (rq_authority r2) = ae_nonce (rq_authority r1) -> rq_timestamp r2 = rq_timestamp r1 ->
  is_ok (fst (authenticate config host publicKey previousPublicKey t2 f2 p2 r2 (run config trace s1))) = false.
Proof using retains.
  intros Hage H1 Htr Hn Ht.
  destruct (authenticate_cases config host publicKey previousPublicKey retains t1 f1 p1 r1 s)
    as (x & s0 & He & [(Hx & _)|(Ha1 & _ & Hd & [(-> & -> & _ & Hdk)|(_ & Hx)])]);
    rewrite He in H1; injection H1 as ? ?; subst; try done.
  destruct (authenticate_cases config host publicKey previousPublicKey retains t2 f2 p2 r2 (run config trace s1))
    as (y & s2 & -> & [(Hy & _)|(Ha2 & (_ & _ & Hu) & _)]); [done|]. exfalso.
  destruct Ha1 as (_ & _ & _ & _ & _ & (ts & Hts & Hts1) & _).
  destruct Ha2 as (_ & _ & _ & _ & _ & (ts' & Hts' & Hts2) & _).
  rewrite Ht, Hts in Hts'. injection Hts' as <-.
  assert (Hin : keeps_nonce (ae_nonce (rq_authority r1)) t1 (data s1))
    by (rewrite Hd; unfold keeps_nonce; cbn; apply elem_of_app; right; by left).
  assert (Hk : durably (keeps_nonce (ae_nonce (rq_authority r1)) t1) (run config trace s1)).
  { apply (run_invariant config _ (fun e => fst e <= t2)); [|done|by split; [|rewrite Hdk]].
    intros s' e Hle. apply exec_keeps_nonce. lia. }
  destruct Hk as [Hk _]. apply Hu. cbn [accepted au_payload]. rewrite Hn.
  apply (keeps_nonce_pruned config t2) in Hk; [|lia].
  apply list_elem_of_In, in_map_iff. eexists. split; [|by apply list_elem_of_In, Hk]. done.
Qed.

(** a request identifier is executed at most once within its retention: after a request was
    accepted, no request with the same identifier, whatever its nonce, timestamp, signature or
    payload, is accepted until the retention time has passed, through any calls (the responses
    stored being those of named requests, as [dispatch] stores them) and any restarts. *)
Theorem request_id_at_most_once t1 f1 p1 r1 a s s1 trace t2 f2 p2 r2 :
  t2 - t1 < idempotencyRetentionMs config ->
  authenticate config host publicKey previousPublicKey t1 f1 p1 r1 s = (Ok a, s1) ->
  Forall (fun e => t1 <= fst e <= t2 /\ named (snd e)) trace ->
  rq_requestId r2 = rq_requestId r1 ->
  is_ok (fst (authenticate config host publicKey previousPublicKey t2 f2 p2 r2 (run config trace s1))) = false.
Proof using retains.
  intros Hret H1 Htr Hr.
  destruct (authenticate_cases config host publicKey previousPublicKey retains t1 f1 p1 r1 s)
    as (x & s0 & He & [(Hx & _)|(_ & _ & Hd & [(-> & -> & _ & Hdk)|(_ & Hx)])]);
    rewrite He in H1; injection H1 as ? ?; subst; try done.
  destruct (authenticate_cases config host publicKey previousPublicKey retains t2 f2 p2 r2 (run config trace s1))
    as (y & s2 & -> & [(Hy & _)|(_ & (_ & Hu & _) & _)]); [done|]. exfalso.
  assert (Hin : keeps_id (rq_requestId r1) t1 (data s1)).
  { rewrite Hd. exists (reservation t1 (rq_requestId r1) (au_fingerprint (accepted config r1))
      (au_hash (accepted config r1))). split_and!; [|done|cbn; lia].
    apply elem_of_app; right; by left. }
  assert (Hk : durably (keeps_id (rq_requestId r1) t1) (run config trace s1)).
  { apply (run_invariant config _ (fun e => t1 <= fst e <= t2 /\ named (snd e))); [|done|split; [done|]].
    - intros s' e [Hle Hn]. apply exec_keeps_id. split_and!; [lia|lia|done].
    - rewrite Hdk. destruct Hin as (e & Hin & Hr' & Hs). exists (reparse_entry e). split; [|done].
      cbn. apply list_elem_of_In, in_map, list_elem_of_In. done. }
  destruct Hk as [Hk _]. apply Hu. cbn [accepted au_payload]. rewrite Hr.
  apply (keeps_id_pruned config t2) in Hk as (e & Hin' & Hr' & _); [|lia].
  apply list_elem_of_omap. by exists e.
Qed.
End AuthenticatorTheorems.

(** ** Witnesses *)

Section Witnesses.
#[local] Existing Instance toy_crypto.
#[local] Existing Instance toy_dates.

Definition toy_host : Host := {| hostname := "vps"; machine_id := None |}.

Definition toy_request_unsigned (n t rid : string) : RequestPayload := {|
  rq_protocolVersion := "1.0.0"; rq_requestId := rid; rq_operation := "baby.health";
  rq_principal := JObj
    [("subject", JStr (expectedSubject default_config));
     ("authorityClass", JStr (authorityClass default_config));
     ("issuer", JStr (oauthIssuer default_config)); ("resource", JStr (oauthResource default_config));
     ("audience", JStr (oauthResource default_config)); ("principalType", JStr "owner");
     ("workspaceAuthority", JNull)]%string;
  rq_authority := {| ae_algorithm := "ed25519"; ae_gatewayId := gatewayId default_config;
    ae_nonce := n; ae_signature := ""; ae_keyId := Some (gatewayAuthorityKeyId default_config) |};
  rq_targetHost := "vps"; rq_timestamp := t; rq_payload := JObj []; rq_binaryLength := 0
|}.

Definition toy_request (n t rid : string) : RequestPayload :=
  let r := toy_request_unsigned n t rid in {|
  rq_protocolVersion := rq_protocolVersion r; rq_requestId := rid; rq_operation := rq_operation r;
  rq_principal := rq_principal r;
  rq_authority := {| ae_algorithm := "ed25519"; ae_gatewayId := gatewayId default_config;
    ae_nonce := n; ae_signature := signEd25519 (buildSigningDocument (signing_input r)) ("pk"%string : PrivateKey);
    ae_keyId := Some (gatewayAuthorityKeyId default_config) |};
  rq_targetHost := "vps"; rq_timestamp := t; rq_payload := JObj []; rq_binaryLength := 0
|}.

Definition toy_key : option (@PublicKey toy_crypto) := Some "pk"%string.

Abbreviation toy_authenticate now r :=
  (authenticate default_config toy_host toy_key None now None (Some 997) r).

Lemma toy_retains : 0 < nonceRetentionMs default_config.
Proof. reflexivity. Qed.

Definition toy_accepted : AuthenticatedRequest := accepted default_config (toy_request "n-1" "1000" "r-1").
Definition toy_store : ReplayStore := snd (toy_authenticate 2000 (toy_request "n-1" "1000" "r-1") (open_store Absent)).

Lemma toy_success :
  toy_authenticate 2000 (toy_request "n-1" "1000" "r-1") (open_store Absent) = (Ok toy_accepted, toy_store).
Proof. vm_compute. reflexivity. Qed.

Lemma authenticate_iff_witness :
  authentic default_config toy_host toy_key None 2000 (Some 997)
    (toy_request "n-1" "1000" "r-1").
Proof.
  exact (proj1 (proj1 (authenticate_iff default_config toy_host toy_key None toy_retains
    2000 None (Some 997) (toy_request "n-1" "1000" "r-1") (open_store Absent) toy_accepted toy_store)
    toy_success)).
Defined.

Lemma authenticate_rejected_witness :
  disk (snd (toy_authenticate 900000 (toy_request "n-1" "1000" "r-1") (open_store Absent))) = Absent.
Proof.
  refine (proj1 (authenticate_rejected default_config toy_host toy_key None toy_retains
    900000 (Some 997) (toy_request "n-1" "1000" "r-1") (open_store Absent)
    (auth_error "request_expired" "Request timestamp outside allowed age window") _ _)).
  vm_compute. reflexivity.
Defined.

Lemma signed_request_at_most_once_witness :
  is_ok (fst (toy_authenticate 5000 (toy_request "n-1" "1000" "r-2")
    (run default_config [(3000, op_restart)] toy_store))) = false.
Proof.
  apply (signed_request_at_most_once default_config toy_host toy_key None toy_retains
    2000 None (Some 997) (toy_request "n-1" "1000" "r-1") toy_accepted (open_store Absent) toy_store
    [(3000, op_restart)] 5000 None (Some 997) (toy_request "n-1" "1000" "r-2")).
  - reflexivity.
  - exact toy_success.
  - repeat constructor. cbn. lia.
  - vm_compute. reflexivity.
  - vm_compute. reflexivity.
Defined.

Lemma request_id_at_most_once_witness :
  is_ok (fst (toy_authenticate 5000 (toy_request "n-2" "4000" "r-1")
    (run default_config [(3000, op_restart)] toy_store))) = false.
Proof.
  apply (request_id_at_most_once default_config toy_host toy_key None toy_retains
    2000 None (Some 997) (toy_request "n-1" "1000" "r-1") toy_accepted (open_store Absent) toy_store
    [(3000, op_restart)] 5000 None (Some 997) (toy_request "n-2" "4000" "r-1")).
  - reflexivity.
  - exact toy_success.
  - repeat constructor; cbn; lia.
  - vm_compute. reflexivity.
Defined.
End Witnesses.
