(* ===== verification/StateMachine.v ===== *)
(** * The deployment state machine ([src/deployment/types.ts], [src/deployment/state-machine.ts])

    The states, the transition table as the code builds it, and [assertTransitionAllowed], on top of
    which the ledger moves a deployment.  The theorems are about every run of the machine: an active
    product is only touched while the rollback guard is armed, a deployment ends with an armed guard
    only in manual recovery, success is reached only through the guard, terminal states are final,
    and no state is a dead end. *)

From S2P Require Import Prelude Bytes.

#[global] Open Scope Z_scope.

(** ** Data *)

(** Source: src/deployment/types.ts:3-46 (DeploymentState) *)
Inductive DeploymentState :=
| requested | source_resolving | source_verified | building | testing | packaging |
reproducibility_verifying | artifact_verified | compatibility_verifying | preflight | staging |
candidate_verifying | ready_to_activate | snapshotting | guard_arming | guard_armed |
gateway_installing | gateway_activating | gateway_accepting_legacy | baby_installing |
baby_activating | baby_accepting | restart_accepting | chatgpt_accepting | success_marking |
guard_disarming | succeeded | cancel_requested | cancelling | failed | timed_out | partial |
ambiguous | unknown | reconciling | rollback_requested | rolling_back | rolled_back |
rollback_failed | manual_recovery_required.

#[global] Instance DeploymentState_eq_dec : EqDecision DeploymentState.
Proof. unfold EqDecision, Decision. decide equality. Defined.

(** The string literal of each state. *)
Definition state_name (s : DeploymentState) : string :=
  match s with
  | requested => "requested"
  | source_resolving => "source_resolving"
  | source_verified => "source_verified"
  | building => "building"
  | testing => "testing"
  | packaging => "packaging"
  | reproducibility_verifying => "reproducibility_verifying"
  | artifact_verified => "artifact_verified"
  | compatibility_verifying => "compatibility_verifying"
  | preflight => "preflight"
  | staging => "staging"
  | candidate_verifying => "candidate_verifying"
  | ready_to_activate => "ready_to_activate"
  | snapshotting => "snapshotting"
  | guard_arming => "guard_arming"
  | guard_armed => "guard_armed"
  | gateway_installing => "gateway_installing"
  | gateway_activating => "gateway_activating"
  | gateway_accepting_legacy => "gateway_accepting_legacy"
  | baby_installing => "baby_installing"
  | baby_activating => "baby_activating"
  | baby_accepting => "baby_accepting"
  | restart_accepting => "restart_accepting"
  | chatgpt_accepting => "chatgpt_accepting"
  | success_marking => "success_marking"
  | guard_disarming => "guard_disarming"
  | succeeded => "succeeded"
  | cancel_requested => "cancel_requested"
  | cancelling => "cancelling"
  | failed => "failed"
  | timed_out => "timed_out"
  | partial => "partial"
  | ambiguous => "ambiguous"
  | unknown => "unknown"
  | reconciling => "reconciling"
  | rollback_requested => "rollback_requested"
  | rolling_back => "rolling_back"
  | rolled_back => "rolled_back"
  | rollback_failed => "rollback_failed"
  | manual_recovery_required => "manual_recovery_required"
  end.

(** Source: src/deployment/types.ts:3-44 (DEPLOYMENT_STATES) *)
Definition DEPLOYMENT_STATES : list DeploymentState :=
  [requested; source_resolving; source_verified; building; testing; packaging;
  reproducibility_verifying; artifact_verified; compatibility_verifying; preflight; staging;
  candidate_verifying; ready_to_activate; snapshotting; guard_arming; guard_armed;
  gateway_installing; gateway_activating; gateway_accepting_legacy; baby_installing;
  baby_activating; baby_accepting; restart_accepting; chatgpt_accepting; success_marking;
  guard_disarming; succeeded; cancel_requested; cancelling; failed; timed_out; partial;
  ambiguous; unknown; reconciling; rollback_requested; rolling_back; rolled_back;
  rollback_failed; manual_recovery_required].

(** Source: src/deployment/types.ts:48-49 (DeploymentProduct) *)
Inductive DeploymentProduct := baby_quirt | baby_quirt_mcp.

#[global] Instance DeploymentProduct_eq_dec : EqDecision DeploymentProduct.
Proof. solve_decision. Defined.

Definition product_name (p : DeploymentProduct) : string :=
  match p with baby_quirt => "baby-quirt" | baby_quirt_mcp => "baby-quirt-mcp" end.

(** Source: src/deployment/types.ts:51-56 (MutationClass) *)
Inductive MutationClass := mutation_none | inactive_only | guard_control | active_product | rollback.

#[global] Instance MutationClass_eq_dec : EqDecision MutationClass.
Proof. solve_decision. Defined.

Definition mutation_name (m : MutationClass) : string :=
  match m with
  | mutation_none => "none" | inactive_only => "inactive_only" | guard_control => "guard_control"
  | active_product => "active_product" | rollback => "rollback"
  end.

(** Source: src/deployment/types.ts:58-64 (CancellationBehavior) *)
Inductive CancellationBehavior :=
| clean_staging_then_fail | reconcile_guard_then_clean_or_rollback | request_rollback
| continue_rollback | reconcile_first | reject_terminal.

(** Source: src/deployment/types.ts:66-71 (RollbackImplication) *)
Inductive RollbackImplication :=
| no_rollback | required_if_guard_armed | rollback_in_progress | rollback_complete | manual_recovery.

(** Source: src/deployment/types.ts:177-177 (DeploymentTransitionRule.terminalTruth) *)
Inductive TerminalTruth := nonterminal | truth_success | truth_failure | truth_rolled_back | truth_manual_recovery.

Definition truth_name (t : TerminalTruth) : string :=
  match t with
  | nonterminal => "nonterminal" | truth_success => "success" | truth_failure => "failure"
  | truth_rolled_back => "rolled_back" | truth_manual_recovery => "manual_recovery"
  end.

Inductive CrashReconciliation := retry_exact | readback_then_reconcile.

(** Source: src/deployment/types.ts:73-76 (EvidenceReference) *)
Record EvidenceReference := { kind : string; digest : string }.

#[global] Instance EvidenceReference_eq_dec : EqDecision EvidenceReference.
Proof. solve_decision. Defined.

Inductive GuardStatus := armed | disarmed.

#[global] Instance GuardStatus_eq_dec : EqDecision GuardStatus.
Proof. solve_decision. Defined.

(** Source: src/deployment/types.ts:134-150 (DeploymentTransitionInput) *)
Record DeploymentTransitionInput := {
  ti_deploymentId : string;
  ti_generation : Z;
  expectedState : DeploymentState;
  expectedSequence : Z;
  nextState : DeploymentState;
  ti_idempotencyKey : string;
  evidence : list EvidenceReference;
  actor : string;
  occurredAt : string;
  reason : option string;
  guardStatus : option GuardStatus;
  ti_successMarkerDigest : option string;
  signatureAlgorithm : option string;
  signingKeyId : option string;
  signature : option string
}.

(** The members that are the same for every rule ([transactionBoundary], [compareAndSwap],
    [idempotency]) are left out.
    Source: src/deployment/types.ts:160-178 (DeploymentTransitionRule) *)
Record DeploymentTransitionRule := {
  rule_from : DeploymentState;
  rule_to : DeploymentState;
  retryable : bool;
  rule_cancellationBehavior : CancellationBehavior;
  rule_rollbackImplication : RollbackImplication;
  requiredEvidence : list string;
  crashReconciliation : CrashReconciliation;
  mutationClass : MutationClass;
  rule_terminalTruth : TerminalTruth
}.

(** The message and the details of the errors are left out.  The last two are a constraint or a
    trigger of the database, and a [TypeError] of the language.
    Source: src/deployment/types.ts:180-201 (DeploymentErrorCode, DeploymentError) *)
Inductive DeploymentError :=
| deployment_invalid | deployment_not_found | deployment_conflict | deployment_generation_conflict
| deployment_state_conflict | deployment_transition_forbidden | deployment_evidence_missing
| deployment_integrity_failed | deployment_terminal | idempotency_conflict
| sqlite_constraint | type_error.

#[global] Instance DeploymentError_eq_dec : EqDecision DeploymentError.
Proof. solve_decision. Defined.

(** ** The table *)

(** Source: src/deployment/state-machine.ts:14-42 (HAPPY_PATH) *)
Definition HAPPY_PATH : list DeploymentState :=
  [requested; source_resolving; source_verified; building; testing; packaging;
  reproducibility_verifying; artifact_verified; compatibility_verifying; preflight; staging;
  candidate_verifying; ready_to_activate; snapshotting; guard_arming; guard_armed;
  gateway_installing; gateway_activating; gateway_accepting_legacy; baby_installing;
  baby_activating; baby_accepting; restart_accepting; chatgpt_accepting; success_marking;
  guard_disarming; succeeded].

Abbreviation has l s := (bool_decide (s ∈ (l : list DeploymentState))).

(** Source: src/deployment/state-machine.ts:44-50 (TERMINAL_STATES) *)
Definition TERMINAL_STATES : list DeploymentState :=
  [succeeded; failed; timed_out; rolled_back; manual_recovery_required].

(** Source: src/deployment/state-machine.ts:52-61 (ACTIVE_MUTATION_STATES) *)
Definition ACTIVE_MUTATION_STATES : list DeploymentState :=
  [gateway_activating; gateway_accepting_legacy; baby_activating; baby_accepting; restart_accepting;
   chatgpt_accepting; success_marking; guard_disarming].

(** Source: src/deployment/state-machine.ts:63-68 (POST_ARM_STATES) *)
Definition POST_ARM_STATES : list DeploymentState :=
  [guard_armed; gateway_installing; baby_installing] ++ ACTIVE_MUTATION_STATES.

(** Source: src/deployment/state-machine.ts:70-70 (PRE_ARM_WORK_STATES) *)
Definition PRE_ARM_WORK_STATES : list DeploymentState := take 15 HAPPY_PATH.

(** Source: src/deployment/state-machine.ts:71-71 (DIAGNOSTIC_STATES) *)
Definition DIAGNOSTIC_STATES : list DeploymentState := [partial; ambiguous; unknown].

(** Source: src/deployment/state-machine.ts:72-76 (ROLLBACK_STATES) *)
Definition ROLLBACK_STATES : list DeploymentState := [rollback_requested; rolling_back; rollback_failed].

(** Source: src/deployment/state-machine.ts:78-119 (MUTATION_CLASS) *)
Definition MUTATION_CLASS (s : DeploymentState) : MutationClass :=
  match s with
  | requested => mutation_none
  | source_resolving => mutation_none
  | source_verified => mutation_none
  | building => mutation_none
  | testing => mutation_none
  | packaging => mutation_none
  | reproducibility_verifying => mutation_none
  | artifact_verified => mutation_none
  | compatibility_verifying => mutation_none
  | preflight => mutation_none
  | staging => inactive_only
  | candidate_verifying => inactive_only
  | ready_to_activate => mutation_none
  | snapshotting => mutation_none
  | guard_arming => guard_control
  | guard_armed => guard_control
  | gateway_installing => inactive_only
  | gateway_activating => active_product
  | gateway_accepting_legacy => active_product
  | baby_installing => inactive_only
  | baby_activating => active_product
  | baby_accepting => active_product
  | restart_accepting => active_product
  | chatgpt_accepting => active_product
  | success_marking => active_product
  | guard_disarming => guard_control
  | succeeded => mutation_none
  | cancel_requested => mutation_none
  | cancelling => mutation_none
  | failed => mutation_none
  | timed_out => mutation_none
  | partial => mutation_none
  | ambiguous => mutation_none
  | unknown => mutation_none
  | reconciling => mutation_none
  | rollback_requested => rollback
  | rolling_back => rollback
  | rolled_back => rollback
  | rollback_failed => rollback
  | manual_recovery_required => mutation_none
  end.

(** Source: src/deployment/state-machine.ts:121-162 (REQUIRED_EVIDENCE) *)
Definition REQUIRED_EVIDENCE (s : DeploymentState) : list string :=
  match s with
  | requested => ["request.validated"]
  | source_resolving => ["request.validated"]
  | source_verified => ["source.identity"]
  | building => ["source.materialization"]
  | testing => ["build.result"]
  | packaging => ["test.result"]
  | reproducibility_verifying => ["package.first"]
  | artifact_verified => ["reproducibility.match"; "artifact.manifest"]
  | compatibility_verifying => ["artifact.verification"]
  | preflight => ["compatibility.declaration"]
  | staging => ["preflight.report"]
  | candidate_verifying => ["stage.readback"]
  | ready_to_activate => ["candidate.acceptance"]
  | snapshotting => ["activation.intent"]
  | guard_arming => ["snapshot.verified"]
  | guard_armed => ["guard.readback"]
  | gateway_installing => ["guard.readback"]
  | gateway_activating => ["gateway.inactive_install"]
  | gateway_accepting_legacy => ["gateway.activation.readback"]
  | baby_installing => ["gateway.legacy.acceptance"]
  | baby_activating => ["baby.inactive_install"]
  | baby_accepting => ["baby.activation.readback"]
  | restart_accepting => ["baby.acceptance"]
  | chatgpt_accepting => ["restart.acceptance"]
  | success_marking => ["chatgpt.acceptance"]
  | guard_disarming => ["success.marker"]
  | succeeded => ["success.marker"; "guard.disarm.readback"]
  | cancel_requested => ["cancellation.intent"]
  | cancelling => ["cancellation.readback"]
  | failed => ["failure.terminal"]
  | timed_out => ["deadline.readback"]
  | partial => ["partial.readback"]
  | ambiguous => ["mutation.ambiguous"]
  | unknown => ["state.unknown"]
  | reconciling => ["reconciliation.readback"]
  | rollback_requested => ["rollback.intent"]
  | rolling_back => ["rollback.preflight"]
  | rolled_back => ["rollback.acceptance"; "guard.disarm.readback"]
  | rollback_failed => ["rollback.failure"]
  | manual_recovery_required => ["manual_recovery.record"]
  end%string.

(** Source: src/deployment/state-machine.ts:164-171 (cancellationBehavior) *)
Definition cancellationBehavior (s : DeploymentState) : CancellationBehavior :=
  if has TERMINAL_STATES s then reject_terminal
  else if has ROLLBACK_STATES s then continue_rollback
  else if has DIAGNOSTIC_STATES s || (s === reconciling) then reconcile_first
  else if s === guard_arming then reconcile_guard_then_clean_or_rollback
  else if has POST_ARM_STATES s then request_rollback
  else clean_staging_then_fail.

(** Source: src/deployment/state-machine.ts:173-181 (rollbackImplication) *)
Definition rollbackImplication (s : DeploymentState) : RollbackImplication :=
  if s === rolled_back then rollback_complete
  else if (s === rollback_failed) || (s === manual_recovery_required) then manual_recovery
  else if has ROLLBACK_STATES s then rollback_in_progress
  else if has POST_ARM_STATES s then required_if_guard_armed
  else no_rollback.

(** Source: src/deployment/state-machine.ts:183-191 (terminalTruth) *)
Definition terminalTruth (s : DeploymentState) : TerminalTruth :=
  if s === succeeded then truth_success
  else if s === rolled_back then truth_rolled_back
  else if s === manual_recovery_required then truth_manual_recovery
  else if (s === failed) || (s === timed_out) then truth_failure
  else nonterminal.

(** Source: src/deployment/state-machine.ts:193-195 (transitionKey) *)
Definition transitionKey (from to : DeploymentState) : string :=
  state_name from +:+ "->" +:+ state_name to.

(** A [Map]: the entries in the order their keys were first set. *)
Fixpoint map_set {A} (k : string) (v : A) (m : list (string * A)) : list (string * A) :=
  match m with
  | [] => [(k, v)]
  | (k', v') :: m => if bool_decide (k = k') then (k', v) :: m else (k', v') :: map_set k v m
  end.

Fixpoint map_get {A} (k : string) (m : list (string * A)) : option A :=
  match m with
  | [] => None
  | (k', v) :: m => if bool_decide (k = k') then Some v else map_get k m
  end.

Abbreviation pair_map := (list (string * (DeploymentState * DeploymentState))).

(** Source: src/deployment/state-machine.ts:199-202 (add) *)
Definition add (pairs : pair_map) (p : DeploymentState * DeploymentState) : pair_map :=
  let '(from, to) := p in
  if (from === to) || has TERMINAL_STATES from then pairs
  else map_set (transitionKey from to) (from, to) pairs.

(** The calls of [add], in order.
    Source: src/deployment/state-machine.ts:197-253 (buildTransitionPairs) *)
Definition added_pairs : list (DeploymentState * DeploymentState) :=
  zip HAPPY_PATH (drop 1 HAPPY_PATH) ++
  flat_map (fun s => [(s, cancel_requested); (s, failed); (s, timed_out); (s, partial);
                      (s, ambiguous); (s, unknown)]) PRE_ARM_WORK_STATES ++
  flat_map (fun s => [(s, rollback_requested); (s, partial); (s, ambiguous); (s, unknown)])
    POST_ARM_STATES ++
  [(guard_arming, rollback_requested);
   (cancel_requested, cancelling); (cancel_requested, reconciling);
   (cancelling, failed); (cancelling, rollback_requested);
   (partial, reconciling); (partial, rollback_requested);
   (ambiguous, reconciling);
   (unknown, reconciling); (unknown, manual_recovery_required)] ++
  List.map (fun s => (reconciling, s)) (List.filter (fun s => negb (has TERMINAL_STATES s)) HAPPY_PATH) ++
  [(reconciling, rollback_requested); (reconciling, rolling_back); (reconciling, rolled_back);
   (reconciling, rollback_failed); (reconciling, manual_recovery_required);
   (rollback_requested, rolling_back); (rollback_requested, unknown);
   (rolling_back, rolled_back); (rolling_back, rollback_failed); (rolling_back, ambiguous);
   (rolling_back, unknown);
   (rollback_failed, rolling_back); (rollback_failed, manual_recovery_required)].

(** Source: src/deployment/state-machine.ts:197-253 (buildTransitionPairs) *)
Definition buildTransitionPairs : list (DeploymentState * DeploymentState) :=
  List.map snd (fold_left add added_pairs []).

(** Source: src/deployment/state-machine.ts:255-284 (createRule) *)
Definition createRule (from to : DeploymentState) : DeploymentTransitionRule :=
  let mc := MUTATION_CLASS to in {|
  rule_from := from;
  rule_to := to;
  retryable := negb (has TERMINAL_STATES to);
  rule_cancellationBehavior := cancellationBehavior to;
  rule_rollbackImplication := rollbackImplication to;
  requiredEvidence := REQUIRED_EVIDENCE to;
  crashReconciliation :=
    if (mc === active_product) || (mc === guard_control) || (mc === rollback)
    then readback_then_reconcile else retry_exact;
  mutationClass := mc;
  rule_terminalTruth := terminalTruth to
|}.

(** Source: src/deployment/state-machine.ts:286-288 (TRANSITION_RULES) *)
Definition TRANSITION_RULES : list DeploymentTransitionRule :=
  List.map (fun p => createRule (fst p) (snd p)) buildTransitionPairs.

(** Source: src/deployment/state-machine.ts:290-292 (RULE_BY_KEY) *)
Definition RULE_BY_KEY : list (string * DeploymentTransitionRule) :=
  fold_left (fun m rule => map_set (transitionKey (rule_from rule) (rule_to rule)) rule m)
    TRANSITION_RULES [].

(** The state a string names, if one.
    Source: src/deployment/state-machine.ts:294-296 (isDeploymentState) *)
Definition isDeploymentState (value : string) : option DeploymentState :=
  List.find (fun s => state_name s === value) DEPLOYMENT_STATES.

(** Source: src/deployment/state-machine.ts:298-303 (getTransitionRule) *)
Definition getTransitionRule (from to : DeploymentState) : option DeploymentTransitionRule :=
  map_get (transitionKey from to) RULE_BY_KEY.

(** An optional string is given and not empty. *)
Definition given (o : option string) : bool :=
  match o with Some s => negb (bool_decide (s = ""%string)) | None => false end.

(** Source: src/deployment/state-machine.ts:305-434 (assertTransitionAllowed) *)
Definition assertTransitionAllowed (currentGuardArmed : bool) (input : DeploymentTransitionInput)
    : result DeploymentError DeploymentTransitionRule :=
  let next := nextState input in
  rule ← match getTransitionRule (expectedState input) next with
    | Some rule => Ok rule
    | None => Err (if has TERMINAL_STATES (expectedState input) then deployment_terminal
                   else deployment_transition_forbidden)
    end;
  let evidenceKinds := List.map kind (evidence input) in
  let missing := List.filter (fun k => negb (bool_decide (k ∈ evidenceKinds))) (requiredEvidence rule) in
  _ ← require (missing === []) deployment_evidence_missing;
  _ ← require (negb (has ACTIVE_MUTATION_STATES next && negb currentGuardArmed))
    deployment_transition_forbidden;
  _ ← require (negb (has POST_ARM_STATES next && (next !== guard_armed) && negb currentGuardArmed))
    deployment_transition_forbidden;
  _ ← require (negb (currentGuardArmed && has PRE_ARM_WORK_STATES next && (next !== guard_arming)))
    deployment_transition_forbidden;
  _ ← require (negb ((next === guard_armed) && (guardStatus input !== Some armed)))
    deployment_transition_forbidden;
  _ ← require (negb ((guardStatus input === Some armed) && (next !== guard_armed)))
    deployment_transition_forbidden;
  _ ← require (negb ((guardStatus input === Some disarmed) && (next !== succeeded) &&
                     (next !== rolled_back)))
    deployment_transition_forbidden;
  _ ← require (negb (currentGuardArmed &&
                     ((next === failed) || (next === timed_out) || (next === cancelling))))
    deployment_transition_forbidden;
  _ ← require (negb ((next === succeeded) &&
                     ((guardStatus input !== Some disarmed) || negb (given (ti_successMarkerDigest input)))))
    deployment_transition_forbidden;
  _ ← require (negb ((next === rolled_back) && (guardStatus input !== Some disarmed)))
    deployment_transition_forbidden;
  let marker := List.find (fun item => kind item === "success.marker"%string) (evidence input) in
  _ ← require (negb (((next === guard_disarming) || (next === succeeded)) &&
                     (negb (given (ti_successMarkerDigest input)) ||
                      (option_map digest marker !== ti_successMarkerDigest input))))
    deployment_transition_forbidden;
  _ ← require (negb (given (ti_successMarkerDigest input) && (next !== guard_disarming) &&
                     (next !== succeeded)))
    deployment_transition_forbidden;
  Ok rule.

(** ** The table, computed *)

#[global] Instance CancellationBehavior_eq_dec : EqDecision CancellationBehavior.
Proof. solve_decision. Defined.
#[global] Instance RollbackImplication_eq_dec : EqDecision RollbackImplication.
Proof. solve_decision. Defined.
#[global] Instance TerminalTruth_eq_dec : EqDecision TerminalTruth.
Proof. solve_decision. Defined.
#[global] Instance CrashReconciliation_eq_dec : EqDecision CrashReconciliation.
Proof. solve_decision. Defined.
#[global] Instance DeploymentTransitionRule_eq_dec : EqDecision DeploymentTransitionRule.
Proof. solve_decision. Defined.

(** A boolean property of all states is checked by computation. *)
Lemma all_states (p : DeploymentState -> bool) : forallb p DEPLOYMENT_STATES = true -> forall s, p s = true.
Proof. intros H s. rewrite forallb_forall in H. apply H. destruct s; cbn; tauto. Qed.

Lemma isDeploymentState_name s : isDeploymentState (state_name s) = Some s.
Proof.
  decided. revert s.
  apply (all_states (fun s => isDeploymentState (state_name s) === Some s)). vm_compute. reflexivity.
Qed.

Lemma isDeploymentState_Some v s : isDeploymentState v = Some s -> state_name s = v.
Proof. intros H%find_some. destruct H as [_ H]. by bool_inv. Qed.

Definition allowed (from to : DeploymentState) : bool :=
  existsb (fun p => (fst p === from) && (snd p === to)) buildTransitionPairs.

Lemma getTransitionRule_eq from to :
  getTransitionRule from to = if allowed from to then Some (createRule from to) else None.
Proof.
  decided. revert to.
  apply (all_states (fun to => getTransitionRule from to === _)). revert from.
  apply (all_states (fun from => forallb (fun to => getTransitionRule from to ===
    (if allowed from to then Some (createRule from to) else None)) DEPLOYMENT_STATES)).
  vm_compute. reflexivity.
Qed.

(** The conditions of [assertTransitionAllowed] on the guard. *)
Definition guard_check (g : bool) (next : DeploymentState) (status : option GuardStatus) : bool :=
  negb (has ACTIVE_MUTATION_STATES next && negb g) &&
  negb (has POST_ARM_STATES next && (next !== guard_armed) && negb g) &&
  negb (g && has PRE_ARM_WORK_STATES next && (next !== guard_arming)) &&
  negb ((next === guard_armed) && (status !== Some armed)) &&
  negb ((status === Some armed) && (next !== guard_armed)) &&
  negb ((status === Some disarmed) && (next !== succeeded) && (next !== rolled_back)) &&
  negb (g && ((next === failed) || (next === timed_out) || (next === cancelling))) &&
  negb ((next === succeeded) && (status !== Some disarmed)) &&
  negb ((next === rolled_back) && (status !== Some disarmed)).

(** The conditions on the success marker. *)
Definition marker_ok (input : DeploymentTransitionInput) : Prop :=
  if (nextState input === guard_disarming) || (nextState input === succeeded)
  then given (ti_successMarkerDigest input) = true /\
       option_map digest (List.find (fun item => kind item === "success.marker"%string) (evidence input))
       = ti_successMarkerDigest input
  else given (ti_successMarkerDigest input) = false.

Lemma assertTransitionAllowed_Ok g input rule :
  assertTransitionAllowed g input = Ok rule ->
  allowed (expectedState input) (nextState input) = true /\
  rule = createRule (expectedState input) (nextState input) /\
  (forall k, k ∈ REQUIRED_EVIDENCE (nextState input) -> k ∈ List.map kind (evidence input)) /\
  guard_check g (nextState input) (guardStatus input) = true /\ marker_ok input.
Proof.
  unfold assertTransitionAllowed. rewrite getTransitionRule_eq.
  destruct (allowed _ _); [|done]. cbn [mbind result_bind]. rewrite !require_bind.
  intros (He & H1 & H2 & H3 & H4 & H5 & H6 & H7 & H8 & H9 & H10 & H11 & [= <-]).
  split_and!; [done|done| | |].
  - intros k Hk. apply dec_stable. intros Hn.
    apply bool_decide_eq_true in He. cbn [createRule requiredEvidence] in He.
    assert (Hin : In k []); [|done]. rewrite <- He. apply filter_In.
    split; [by apply list_elem_of_In|]. by rewrite bool_decide_eq_false_2.
  - unfold guard_check. rewrite H1, H2, H3, H4, H5, H6, H7, H9. cbn [andb].
    rewrite andb_true_r. rewrite !negb_true_iff in *. destruct (nextState input === succeeded); [|done].
    by destruct (guardStatus input !== Some disarmed).
  - unfold marker_ok. rewrite !negb_true_iff in *.
    destruct ((nextState input === guard_disarming) || (nextState input === succeeded)) eqn:E.
    + cbn [andb] in H10. apply orb_false_iff in H10 as [Hg Hm].
      bool_inv. split; done.
    + apply orb_false_iff in E as [E1 E2]. rewrite E1, E2, !andb_true_r in H11. done.
Qed.

(** ** The machine *)

(** What the ledger keeps of a transition: the state, and whether the guard is armed.
    Source: src/deployment/database.ts:1053-1058 (transition) *)
Definition guard_after (g : bool) (status : option GuardStatus) : bool :=
  match status with Some armed => true | Some disarmed => false | None => g end.

Abbreviation machine := (DeploymentState * bool)%type.

Definition accept (m : machine) (input : DeploymentTransitionInput) : result DeploymentError machine :=
  _ ← require (expectedState input === fst m) deployment_state_conflict;
  _ ← assertTransitionAllowed (snd m) input;
  Ok (nextState input, guard_after (snd m) (guardStatus input)).

Fixpoint accepts (m : machine) (inputs : list DeploymentTransitionInput) : result DeploymentError machine :=
  match inputs with
  | [] => Ok m
  | input :: inputs => m' ← accept m input; accepts m' inputs
  end.

(** [reachable h m]: a deployment gets from its creation to [m], through the states [h], last first. *)
Inductive reachable : list DeploymentState -> machine -> Prop :=
| reachable_requested : reachable [requested] (requested, false)
| reachable_accept h m input m' :
    reachable h m -> accept m input = Ok m' -> reachable (fst m' :: h) m'.

Lemma accept_Ok m input m' :
  accept m input = Ok m' ->
  allowed (fst m) (fst m') = true /\ guard_check (snd m) (fst m') (guardStatus input) = true /\
  snd m' = guard_after (snd m) (guardStatus input) /\ nextState input = fst m'.
Proof.
  unfold accept. rewrite require_bind. intros [He H]. result_inv. bool_inv.
  match goal with H : assertTransitionAllowed _ _ = _ |- _ =>
    apply assertTransitionAllowed_Ok in H as (Ha & _ & _ & Hg & _) end.
  cbn [fst snd]. rewrite <- He. by split_and!.
Qed.

(** All pairs of a state and a guard, and all readbacks. *)
Lemma all_inputs (p : DeploymentState -> bool -> option GuardStatus -> bool) :
  forallb (fun s => forallb (fun g => forallb (p s g) [None; Some armed; Some disarmed]) [true; false])
    DEPLOYMENT_STATES = true ->
  forall s g st, p s g st = true.
Proof.
  intros H s g st. assert (Hs : forallb (fun g => forallb (p s g) [None; Some armed; Some disarmed])
    [true; false] = true) by (revert s; by apply all_states).
  rewrite forallb_forall in Hs. specialize (Hs g). rewrite forallb_forall in Hs.
  apply Hs; [destruct g|destruct st as [[]|]]; cbn; tauto.
Qed.

(** What holds of the guard in each state. *)
Definition guard_ok (s : DeploymentState) (g : bool) : bool :=
  (negb (has POST_ARM_STATES s) || g) &&
  (negb (has PRE_ARM_WORK_STATES s && (s !== guard_arming)) || negb g) &&
  (negb (has [succeeded; rolled_back; failed; timed_out; cancelling] s) || negb g).

Lemma guard_check_ok g s st : guard_check g s st = true -> guard_ok s (guard_after g st) = true.
Proof.
  pose proof (all_inputs (fun s g st => implb (guard_check g s st) (guard_ok s (guard_after g st)))) as H.
  specialize (H ltac:(vm_compute; reflexivity) s g st). cbn beta in H. intros E. by rewrite E in H.
Qed.

Lemma reachable_guard h m : reachable h m -> guard_ok (fst m) (snd m) = true.
Proof.
  destruct 1 as [|h m input m' _ H]; [reflexivity|]. apply accept_Ok in H as (_ & Hg & -> & _).
  by apply guard_check_ok.
Qed.

Lemma reachable_history h m : reachable h m -> (fst m ∈ h) /\ (snd m = true -> guard_armed ∈ h).
Proof.
  induction 1 as [|h m input m' _ [IHs IHg] H]; cbn; [split; [by left|done]|].
  split; [by left|]. apply accept_Ok in H as (_ & Hg & -> & _).
  intros Ha. destruct (guardStatus input) as [[]|]; cbn in Ha; [|done|right; auto].
  assert (fst m' = guard_armed) as ->; [|by left].
  decided.
  pose proof (all_inputs (fun s g st => implb (guard_check g s (Some armed)) (s === guard_armed))) as He.
  specialize (He ltac:(vm_compute; reflexivity) (fst m') (snd m) None). cbn beta in He. by rewrite Hg in He.
Qed.

(** A way out of every state, and the request of each of its steps. *)
Definition exit_plan (s : DeploymentState) : list DeploymentState :=
  if has TERMINAL_STATES s then []
  else if (has PRE_ARM_WORK_STATES s && (s !== guard_arming)) || (s === cancelling) then [failed]
  else if has [cancel_requested; ambiguous; unknown] s
    then [reconciling; rollback_requested; rolling_back; rolled_back]
  else if has [rollback_requested; rollback_failed] s then [rolling_back; rolled_back]
  else if s === rolling_back then [rolled_back]
  else [rollback_requested; rolling_back; rolled_back].

Definition plan_input (from to : DeploymentState) : DeploymentTransitionInput := {|
  ti_deploymentId := "d"; ti_generation := 1; expectedState := from; expectedSequence := 0; nextState := to;
  ti_idempotencyKey := "key-0001";
  evidence := List.map (fun k => {| kind := k; digest := "digest" |}) (REQUIRED_EVIDENCE to);
  actor := "a"; occurredAt := "0"; reason := None;
  guardStatus := if to === guard_armed then Some armed
                 else if has [succeeded; rolled_back] to then Some disarmed else None;
  ti_successMarkerDigest := if has [guard_disarming; succeeded] to then Some "digest"%string else None;
  signatureAlgorithm := Some "ed25519"%string; signingKeyId := Some "k"%string; signature := Some "s"%string
|}.

Fixpoint plan_inputs (from : DeploymentState) (plan : list DeploymentState) : list DeploymentTransitionInput :=
  match plan with
  | [] => []
  | to :: plan => plan_input from to :: plan_inputs to plan
  end.

Lemma exit_plan_accepted s g :
  guard_ok s g = true -> has TERMINAL_STATES s = false ->
  exists t, accepts (s, g) (plan_inputs s (exit_plan s)) = Ok (t, false) /\ has TERMINAL_STATES t = true.
Proof.
  intros Hg Ht.
  assert (H : match accepts (s, g) (plan_inputs s (exit_plan s)) with
              | Ok (t, g') => negb g' && has TERMINAL_STATES t | Err _ => false end = true).
  { pose proof (all_inputs (fun s g _ => implb (guard_ok s g && negb (has TERMINAL_STATES s))
      match accepts (s, g) (plan_inputs s (exit_plan s)) with
      | Ok (t, g') => negb g' && has TERMINAL_STATES t | Err _ => false end)) as He.
    specialize (He ltac:(vm_compute; reflexivity) s g None). cbn beta in He.
    by rewrite Hg, Ht in He. }
  destruct (accepts _ _) as [[t g']|e]; [|done]. exists t. apply andb_true_iff in H as [Hg' Ht'].
  apply negb_true_iff in Hg'. by subst.
Qed.

(** ** The properties *)

(** C21: an active product is touched only under an armed rollback guard.  In every reachable
    state: whenever the state is one that mutates an active product, the guard is armed; an armed
    guard was read back as armed on the way; and a deployment that ends with the guard armed ends
    in [manual_recovery_required]. *)
Theorem active_mutation_guarded (h : list DeploymentState) (s : DeploymentState) (g : bool) :
  reachable h (s, g) ->
  (MUTATION_CLASS s = active_product \/ s ∈ ACTIVE_MUTATION_STATES -> g = true) /\
  (g = true -> guard_armed ∈ h) /\
  (s ∈ TERMINAL_STATES -> g = true -> s = manual_recovery_required).
Proof.
  intros Hr. pose proof (reachable_guard _ _ Hr) as Hg. pose proof (reachable_history _ _ Hr) as [_ Hh].
  cbn [fst snd] in *. split_and!; [|done|].
  - intros Hs. apply dec_stable. intros Hn. destruct g; [done|].
    pose proof (all_states (fun s => implb (guard_ok s false)
      (negb ((MUTATION_CLASS s === active_product) || has ACTIVE_MUTATION_STATES s)))) as H.
    specialize (H ltac:(vm_compute; reflexivity) s). cbn beta in H. rewrite Hg in H. cbn in H.
    apply negb_true_iff, orb_false_iff in H as [H1 H2]. bool_inv. tauto.
  - intros Hs ->. decided.
    pose proof (all_states (fun s => implb (guard_ok s true && has TERMINAL_STATES s)
      (s === manual_recovery_required))) as H.
    specialize (H ltac:(vm_compute; reflexivity) s). cbn beta in H.
    rewrite Hg, bool_decide_eq_true_2 in H by done. exact H.
Qed.

(** success is reached only through the guard.  A deployment that has succeeded came from
    [guard_disarming], where the guard was still armed, its guard is disarmed, and it went through
    [guard_armed]; no reconciliation skips this. *)
Theorem success_through_guard (h : list DeploymentState) (g : bool) :
  reachable h (succeeded, g) ->
  g = false /\ exists h', h = succeeded :: h' /\ reachable h' (guard_disarming, true) /\ guard_armed ∈ h'.
Proof.
  intros Hr. inversion Hr as [|h' m input m' Hr' Ha]; subst.
  pose proof (reachable_guard _ _ Hr) as Hg. cbn [fst snd] in *.
  assert (g = false) as -> by (by destruct g). split; [done|].
  exists h'. apply accept_Ok in Ha as (Ha & _ & _ & _). cbn [fst] in Ha.
  assert (fst m = guard_disarming) as Hm.
  { decided.
    pose proof (all_states (fun s => implb (allowed s succeeded) (s === guard_disarming))) as H.
    specialize (H ltac:(vm_compute; reflexivity) (fst m)). cbn beta in H. by rewrite Ha in H. }
  destruct m as [s g]. cbn [fst] in Hm. subst s.
  assert (g = true) as -> by (pose proof (reachable_guard _ _ Hr'); by destruct g).
  split_and!; [done|done|]. by apply (reachable_history _ _ Hr').
Qed.

(** terminal states are final: from a terminal state every request is refused, with
    [deployment_terminal] if it names that state as the expected one. *)
Theorem terminal_is_final (m : machine) (input : DeploymentTransitionInput) :
  fst m ∈ TERMINAL_STATES ->
  accept m input = Err (if expectedState input === fst m then deployment_terminal
                        else deployment_state_conflict).
Proof.
  intros Ht. unfold accept. destruct (expectedState input === fst m) eqn:E; [|done].
  bool_inv. cbn [require mbind result_bind]. unfold assertTransitionAllowed.
  rewrite getTransitionRule_eq, E. assert (allowed (fst m) (nextState input) = false) as ->.
  { pose proof (all_states (fun s => implb (has TERMINAL_STATES s)
      (forallb (fun t => negb (allowed s t)) DEPLOYMENT_STATES))) as H.
    specialize (H ltac:(vm_compute; reflexivity) (fst m)).
    cbn beta in H. rewrite bool_decide_eq_true_2 in H by done. cbn [implb] in H.
    apply negb_true_iff. revert H. generalize (nextState input). intros t H. rewrite forallb_forall in H.
    apply H. destruct t; cbn; tauto. }
  cbn [mbind result_bind]. by rewrite (bool_decide_eq_true_2 (fst m ∈ TERMINAL_STATES)).
Qed.

(** C22: no dead ends: from every reachable state that is not terminal, some requests lead, in at
    most four steps, to a terminal state with the guard disarmed. *)
Theorem no_dead_end (h : list DeploymentState) (m : machine) :
  reachable h m -> fst m ∉ TERMINAL_STATES ->
  exists inputs t, (length inputs <= 4)%nat /\ accepts m inputs = Ok (t, false) /\ t ∈ TERMINAL_STATES.
Proof.
  intros Hr Ht. destruct m as [s g]. apply reachable_guard in Hr. cbn [fst snd] in *.
  destruct (exit_plan_accepted s g Hr) as (t & Ha & Hterm); [by apply bool_decide_eq_false_2|].
  exists (plan_inputs s (exit_plan s)), t. split_and!; [|done|by bool_inv].
  clear. apply Nat.leb_le. revert s.
  apply (all_states (fun s => (length (plan_inputs s (exit_plan s)) <=? 4)%nat)). vm_compute. reflexivity.
Qed.

(** The happy path is accepted, in the order of the code, up to [succeeded]. *)
Theorem happy_path_succeeds :
  accepts (requested, false) (plan_inputs requested (drop 1 HAPPY_PATH)) = Ok (succeeded, false).
Proof. vm_compute. reflexivity. Qed.

(** ** Witnesses *)

(** The way to [succeeded]. *)
Fixpoint visited (m : machine) (h : list DeploymentState) (inputs : list DeploymentTransitionInput)
    : list DeploymentState :=
  match inputs with [] => h | i :: l => visited m (nextState i :: h) l end.

Lemma accepts_visited h m inputs m' :
  reachable h m -> accepts m inputs = Ok m' -> reachable (visited m h inputs) m'.
Proof.
  revert h m. induction inputs as [|i l IH]; intros h m Hr H; cbn in H.
  - by injection H as <-.
  - result_inv. cbn [visited]. assert (visited m (nextState i :: h) l = visited a (nextState i :: h) l) as ->.
    { clear. generalize (nextState i :: h). induction l; intros; cbn; auto. }
    apply IH; [|done]. pose proof (accept_Ok _ _ _ H0) as (_ & _ & _ & ->). by eapply reachable_accept.
Qed.

Definition happy_history : list DeploymentState := rev HAPPY_PATH.

Lemma happy_reachable : reachable happy_history (succeeded, false).
Proof.
  apply (accepts_visited [requested] (requested, false) (plan_inputs requested (drop 1 HAPPY_PATH)));
    [apply reachable_requested|vm_compute; reflexivity].
Qed.

Definition activating : list DeploymentState := take 18 HAPPY_PATH.

Lemma activating_reachable : reachable (rev activating) (gateway_activating, true).
Proof.
  apply (accepts_visited [requested] (requested, false) (plan_inputs requested (drop 1 activating)));
    [apply reachable_requested|vm_compute; reflexivity].
Qed.

Lemma active_mutation_guarded_witness : guard_armed ∈ rev activating.
Proof.
  apply (active_mutation_guarded (rev activating) gateway_activating true activating_reachable). reflexivity.
Defined.

Lemma success_through_guard_witness : exists h', happy_history = succeeded :: h' /\
  reachable h' (guard_disarming, true) /\ guard_armed ∈ h'.
Proof. apply (success_through_guard happy_history false happy_reachable). Defined.

Lemma terminal_is_final_witness :
  accept (succeeded, false) (plan_input succeeded reconciling) = Err deployment_terminal.
Proof. apply (terminal_is_final (succeeded, false) (plan_input succeeded reconciling)). left. Defined.

Lemma no_dead_end_witness : exists inputs t, (length inputs <= 4)%nat /\
  accepts (gateway_activating, true) inputs = Ok (t, false) /\ t ∈ TERMINAL_STATES.
Proof.
  apply (no_dead_end (rev activating) (gateway_activating, true) activating_reachable).
  apply (bool_decide_eq_true_1 (_ ∉ _)). vm_compute. reflexivity.
Defined.
