(* ===== verification/DeploymentDb.v ===== *)
(** * The deployment ledger ([src/deployment/database.ts])

    The tables of the class [DeploymentDatabase], the constraints and triggers of its schema, and
    its operations, each in a transaction.  The theorems: the ledger refines the state machine (the
    recorded transitions of each deployment are a run of it, with a hash chain over them), whatever
    operations are called; a transition is recorded at most once, replayed exactly, and wins the
    compare-and-swap alone; a failed operation changes nothing. *)

From S2P Require Import Prelude Bytes Json Platform Canonical StateMachine.

#[global] Open Scope Z_scope.

(** ** Records *)

(** Source: src/deployment/types.ts:78-88 (DeploymentRequestRecord) *)
Record DeploymentRequestRecord := {
  deploymentId : string;
  generation : Z;
  machineId : string;
  planDigest : string;
  requestDigest : string;
  deadline : string;
  requestedAt : string;
  requestedBy : string;
  idempotencyKey : string
}.

(** Source: src/deployment/types.ts:90-100 (DeploymentRecord) *)
Record DeploymentRecord := {
  request : DeploymentRequestRecord;
  sourceSetDigest : string;
  state : DeploymentState;
  stateSequence : Z;
  guardArmed : bool;
  successMarkerDigest : option string;
  terminal : bool;
  recordDigest : string;
  createdAt : string;
  updatedAt : string
}.

(** Source: src/deployment/types.ts:102-108 (DeploymentSourceRecord) *)
Record DeploymentSourceRecord := {
  s_deploymentId : string;
  s_product : DeploymentProduct;
  s_repository : string;
  s_commit : string;
  s_tree : string
}.

(** Source: src/deployment/types.ts:110-119 (DeploymentProductRecord) *)
Record DeploymentProductRecord := {
  p_deploymentId : string;
  p_product : DeploymentProduct;
  p_repository : string;
  p_commit : string;
  p_tree : string;
  manifestDigest : string;
  artifactDigest : string;
  compatibilityDigest : string
}.

(** Source: src/deployment/types.ts:121-132 (DeploymentEvidenceRecord) *)
Record DeploymentEvidenceRecord := {
  e_deploymentId : string;
  e_digest : string;
  e_kind : string;
  contentLength : Z;
  artifactReference : string;
  redacted : bool;
  e_signatureAlgorithm : string;
  e_signingKeyId : string;
  e_signature : string;
  e_createdAt : string
}.

(** [priorState] and [expectedState] of the source, and [sequence] and [expectedSequence], are the
    members of [t_input].
    Source: src/deployment/types.ts:152-158 (DeploymentTransitionRecord) *)
Record DeploymentTransitionRecord := {
  t_input : DeploymentTransitionInput;
  sequence : Z;
  intentDigest : string;
  transitionDigest : string;
  t_terminal : bool
}.

Inductive IntentStatus := intent_pending | intent_completed.

(** A row of [request_intents].
    Source: src/deployment/database.ts:137-147 (MIGRATION_1) *)
Record RequestIntent := {
  i_idempotencyKey : string;
  semanticDigest : string;
  operation : string;
  i_deploymentId : option string;
  i_status : IntentStatus;
  resultDigest : option string;
  resultJson : option string;
  i_createdAt : string;
  completedAt : option string
}.

#[global] Instance DeploymentRequestRecord_eq_dec : EqDecision DeploymentRequestRecord.
Proof. solve_decision. Defined.
#[global] Instance DeploymentRecord_eq_dec : EqDecision DeploymentRecord.
Proof. solve_decision. Defined.
#[global] Instance DeploymentTransitionInput_eq_dec : EqDecision DeploymentTransitionInput.
Proof. solve_decision. Defined.
#[global] Instance DeploymentTransitionRecord_eq_dec : EqDecision DeploymentTransitionRecord.
Proof. solve_decision. Defined.
#[global] Instance IntentStatus_eq_dec : EqDecision IntentStatus.
Proof. solve_decision. Defined.

(** The tables; [deployment_sources], [deployment_products], [deployment_evidence] and
    [deployment_transitions] are append-only, as their triggers make them.
    Source: src/deployment/database.ts:43-147 (MIGRATION_1) *)
Record Ledger := {
  deployments : list DeploymentRecord;
  deployment_sources : list DeploymentSourceRecord;
  deployment_products : list DeploymentProductRecord;
  deployment_evidence : list DeploymentEvidenceRecord;
  deployment_transitions : list DeploymentTransitionRecord;
  request_intents : list RequestIntent
}.

Definition empty_ledger : Ledger := {|
  deployments := []; deployment_sources := []; deployment_products := []; deployment_evidence := [];
  deployment_transitions := []; request_intents := []
|}.

Definition with_deployments (l : list DeploymentRecord) (s : Ledger) : Ledger := {|
  deployments := l; deployment_sources := deployment_sources s;
  deployment_products := deployment_products s; deployment_evidence := deployment_evidence s;
  deployment_transitions := deployment_transitions s; request_intents := request_intents s
|}.
Definition with_sources (l : list DeploymentSourceRecord) (s : Ledger) : Ledger := {|
  deployments := deployments s; deployment_sources := l;
  deployment_products := deployment_products s; deployment_evidence := deployment_evidence s;
  deployment_transitions := deployment_transitions s; request_intents := request_intents s
|}.
Definition with_products (l : list DeploymentProductRecord) (s : Ledger) : Ledger := {|
  deployments := deployments s; deployment_sources := deployment_sources s;
  deployment_products := l; deployment_evidence := deployment_evidence s;
  deployment_transitions := deployment_transitions s; request_intents := request_intents s
|}.
Definition with_evidence (l : list DeploymentEvidenceRecord) (s : Ledger) : Ledger := {|
  deployments := deployments s; deployment_sources := deployment_sources s;
  deployment_products := deployment_products s; deployment_evidence := l;
  deployment_transitions := deployment_transitions s; request_intents := request_intents s
|}.
Definition with_transitions (l : list DeploymentTransitionRecord) (s : Ledger) : Ledger := {|
  deployments := deployments s; deployment_sources := deployment_sources s;
  deployment_products := deployment_products s; deployment_evidence := deployment_evidence s;
  deployment_transitions := l; request_intents := request_intents s
|}.
Definition with_intents (l : list RequestIntent) (s : Ledger) : Ledger := {|
  deployments := deployments s; deployment_sources := deployment_sources s;
  deployment_products := deployment_products s; deployment_evidence := deployment_evidence s;
  deployment_transitions := deployment_transitions s; request_intents := l
|}.

Abbreviation DM A := (M Ledger DeploymentError A).

(** Keeps the boolean test of [exists row of the table with ...]. *)
Abbreviation exists_row l p := (existsb p l).

(** ** The constraints of the schema *)

Definition id_of (d : DeploymentRecord) : string := deploymentId (request d).
Definition length64 (s : string) : bool := (String.length s =? 64)%nat.
Definition length64_opt (o : option string) : bool := match o with Some s => length64 s | None => true end.

Definition has_deployment (id : string) (s : Ledger) : bool :=
  exists_row (deployments s) (fun d => id_of d === id).

(** Source: src/deployment/database.ts:51-72 (MIGRATION_1) *)
Definition insert_deployment (d : DeploymentRecord) : DM unit :=
  s ← get_state;
  guardM (negb (exists_row (deployments s) (fun r => (id_of r === id_of d) ||
            (generation (request r) === generation (request d)) ||
            (idempotencyKey (request r) === idempotencyKey (request d)))) &&
          (0 <? generation (request d)) && length64 (planDigest (request d)) &&
          length64 (requestDigest (request d)) && length64 (sourceSetDigest d) &&
          (0 <=? stateSequence d) && length64_opt (successMarkerDigest d) && length64 (recordDigest d))
    sqlite_constraint;;
  modify (fun s => with_deployments (deployments s ++ [d]) s).

(** Source: src/deployment/database.ts:74-81 (MIGRATION_1) *)
Definition insert_source (r : DeploymentSourceRecord) : DM unit :=
  s ← get_state;
  guardM (has_deployment (s_deploymentId r) s &&
          negb (exists_row (deployment_sources s)
            (fun q => (s_deploymentId q === s_deploymentId r) && (s_product q === s_product r))))
    sqlite_constraint;;
  modify (fun s => with_sources (deployment_sources s ++ [r]) s).

(** Source: src/deployment/database.ts:83-93 (MIGRATION_1) *)
Definition insert_product (r : DeploymentProductRecord) : DM unit :=
  s ← get_state;
  guardM (has_deployment (p_deploymentId r) s &&
          negb (exists_row (deployment_products s)
            (fun q => (p_deploymentId q === p_deploymentId r) && (p_product q === p_product r))) &&
          length64 (manifestDigest r) && length64 (artifactDigest r) && length64 (compatibilityDigest r))
    sqlite_constraint;;
  modify (fun s => with_products (deployment_products s ++ [r]) s).

(** Source: src/deployment/database.ts:95-107 (MIGRATION_1) *)
Definition insert_evidence (r : DeploymentEvidenceRecord) : DM unit :=
  s ← get_state;
  guardM (has_deployment (e_deploymentId r) s &&
          negb (exists_row (deployment_evidence s) (fun q => (e_deploymentId q === e_deploymentId r) &&
            (e_digest q === e_digest r) && (e_kind q === e_kind r))) &&
          length64 (e_digest r) && (0 <=? contentLength r) && (e_signatureAlgorithm r === "ed25519"%string))
    sqlite_constraint;;
  modify (fun s => with_evidence (deployment_evidence s ++ [r]) s).

(** Source: src/deployment/database.ts:109-135 (MIGRATION_1) *)
Definition insert_transition (r : DeploymentTransitionRecord) : DM unit :=
  s ← get_state;
  let i := t_input r in
  guardM (has_deployment (ti_deploymentId i) s &&
          negb (exists_row (deployment_transitions s) (fun q =>
            (ti_deploymentId (t_input q) === ti_deploymentId i) &&
            ((sequence q === sequence r) || (ti_idempotencyKey (t_input q) === ti_idempotencyKey i) ||
             (transitionDigest q === transitionDigest r)))) &&
          (0 <? sequence r) && (0 <? ti_generation i) && length64_opt (ti_successMarkerDigest i) &&
          match signatureAlgorithm i with Some a => a === "ed25519"%string | None => true end &&
          length64 (intentDigest r) && length64 (transitionDigest r))
    sqlite_constraint;;
  modify (fun s => with_transitions (deployment_transitions s ++ [r]) s).

(** Source: src/deployment/database.ts:137-147 (MIGRATION_1) *)
Definition insert_intent (r : RequestIntent) : DM unit :=
  s ← get_state;
  guardM (match i_deploymentId r with Some id => has_deployment id s | None => true end &&
          negb (exists_row (request_intents s) (fun q => i_idempotencyKey q === i_idempotencyKey r)) &&
          length64 (semanticDigest r) && length64_opt (resultDigest r))
    sqlite_constraint;;
  modify (fun s => with_intents (request_intents s ++ [r]) s).

(** The triggers [deployments_identity_immutable], [deployments_terminal_immutable] and
    [deployments_sequence_cas], and the checks of the new row.
    Source: src/deployment/database.ts:159-193 (MIGRATION_1) *)
Definition deployment_triggers (old new : DeploymentRecord) : bool :=
  (request old === request new) && (sourceSetDigest old === sourceSetDigest new) &&
  (createdAt old === createdAt new) && negb (terminal old) &&
  (stateSequence new === stateSequence old + 1) &&
  length64_opt (successMarkerDigest new) && length64 (recordDigest new).

(** [UPDATE deployments SET ... WHERE ...]; returns the number of changed rows. *)
Definition update_deployments (where_ : DeploymentRecord -> bool) (set_ : DeploymentRecord -> DeploymentRecord)
    : DM nat :=
  s ← get_state;
  guardM (forallb (fun d => negb (where_ d) || deployment_triggers d (set_ d)) (deployments s))
    sqlite_constraint;;
  modify (fun s => with_deployments
    (List.map (fun d => if where_ d then set_ d else d) (deployments s)) s);;
  mret (length (List.filter where_ (deployments s))).

(** [UPDATE request_intents SET ... WHERE ...], which never changes the identity of a row. *)
Definition update_intents (where_ : RequestIntent -> bool) (set_ : RequestIntent -> RequestIntent) : DM nat :=
  s ← get_state;
  modify (fun s => with_intents
    (List.map (fun d => if where_ d then set_ d else d) (request_intents s)) s);;
  mret (length (List.filter where_ (request_intents s))).

(** ** Validation *)

Abbreviation VR A := (result DeploymentError A).

(** Source: src/deployment/database.ts:261-265 (assertIdentifier) *)
Definition assertIdentifier (value : string) : VR unit := require (IDENTIFIER_PATTERN value) deployment_invalid.

(** Source: src/deployment/database.ts:267-271 (assertIdempotencyKey) *)
Definition assertIdempotencyKey (value : string) : VR unit :=
  require (IDEMPOTENCY_PATTERN value) deployment_invalid.

(** Source: src/deployment/database.ts:273-277 (assertDigest) *)
Definition assertDigest (value : string) : VR unit := require (DIGEST_PATTERN value) deployment_invalid.

(** Source: src/deployment/database.ts:279-283 (assertGitObject) *)
Definition assertGitObject (value : string) : VR unit := require (GIT_OBJECT_PATTERN value) deployment_invalid.

(** Source: src/deployment/database.ts:285-290 (assertTimestamp) *)
Definition assertTimestamp {D : Dates} (value : string) : VR unit :=
  require (canonical_timestamp value) deployment_invalid.

Definition canonical_repository (p : DeploymentProduct) : string := "StealthEyeLLC/" +:+ product_name p.

Definition source_json (r : DeploymentSourceRecord) : json :=
  JObj [("deploymentId", JStr (s_deploymentId r)); ("product", JStr (product_name (s_product r)));
        ("repository", JStr (s_repository r)); ("commit", JStr (s_commit r)); ("tree", JStr (s_tree r))]%string.

Definition product_doc (r : DeploymentProductRecord) : props json :=
  [("deploymentId", JStr (p_deploymentId r)); ("product", JStr (product_name (p_product r)));
   ("repository", JStr (p_repository r)); ("commit", JStr (p_commit r)); ("tree", JStr (p_tree r));
   ("manifestDigest", JStr (manifestDigest r)); ("artifactDigest", JStr (artifactDigest r));
   ("compatibilityDigest", JStr (compatibilityDigest r))]%string.

Definition evidence_doc (r : DeploymentEvidenceRecord) : props json :=
  [("deploymentId", JStr (e_deploymentId r)); ("digest", JStr (e_digest r)); ("kind", JStr (e_kind r));
   ("contentLength", JNum (contentLength r)); ("artifactReference", JStr (artifactReference r));
   ("redacted", JBool (redacted r)); ("signatureAlgorithm", JStr (e_signatureAlgorithm r));
   ("signingKeyId", JStr (e_signingKeyId r)); ("signature", JStr (e_signature r));
   ("createdAt", JStr (e_createdAt r))]%string.

Definition request_doc (r : DeploymentRequestRecord) : props json :=
  [("deploymentId", JStr (deploymentId r)); ("generation", JNum (generation r));
   ("machineId", JStr (machineId r)); ("planDigest", JStr (planDigest r));
   ("requestDigest", JStr (requestDigest r)); ("deadline", JStr (deadline r));
   ("requestedAt", JStr (requestedAt r)); ("requestedBy", JStr (requestedBy r));
   ("idempotencyKey", JStr (idempotencyKey r))]%string.

(** The digest of the canonical text of an array, which is never [undefined]. *)
Definition digest_of {C : Crypto} (v : json) : string := sha256Hex (default ""%string (canonicalJson v)).

Section Database.
Context {C : Crypto} {D : Dates} {Lo : Locale}.

(** Source: src/deployment/database.ts:724-739 (validateRequest) *)
Definition validateRequest (r : DeploymentRequestRecord) : VR unit :=
  _ ← assertIdentifier (deploymentId r);
  _ ← assertIdentifier (machineId r);
  _ ← assertIdentifier (requestedBy r);
  _ ← assertIdempotencyKey (idempotencyKey r);
  _ ← assertDigest (planDigest r);
  _ ← assertDigest (requestDigest r);
  _ ← assertTimestamp (requestedAt r);
  _ ← assertTimestamp (deadline r);
  _ ← require (negb (date_leb (deadline r) (requestedAt r))) deployment_invalid;
  require (isSafeInteger (generation r) && (0 <? generation r)) deployment_invalid.

Fixpoint check_sources (id : string) (seen : list DeploymentProduct) (l : list DeploymentSourceRecord) : VR unit :=
  match l with
  | [] => Ok tt
  | r :: l =>
      _ ← require (s_deploymentId r === id) deployment_invalid;
      _ ← require (negb (bool_decide (s_product r ∈ seen))) deployment_invalid;
      _ ← require (s_repository r === canonical_repository (s_product r)) deployment_invalid;
      _ ← assertGitObject (s_commit r);
      _ ← assertGitObject (s_tree r);
      check_sources id (s_product r :: seen) l
  end.

(** Source: src/deployment/database.ts:688-722 (validateSources) *)
Definition validateSources (id : string) (sources : list DeploymentSourceRecord) : VR (list DeploymentSourceRecord) :=
  _ ← require (length sources =? 2)%nat deployment_invalid;
  _ ← check_sources id [] sources;
  Ok (locale_sort (fun r => product_name (s_product r)) sources).

(** Source: src/deployment/database.ts:608-617 (createDeployment) *)
Definition initial_digest (r : DeploymentRequestRecord) (sourceSet : string) : string :=
  sha256Hex (canonical_obj (request_doc r ++
    [("sourceSetDigest", JStr sourceSet); ("state", JStr "requested"); ("stateSequence", JNum 0);
     ("guardArmed", JBool false); ("terminal", JBool false)]%string)).

(** Source: src/deployment/database.ts:741-746 (getDeployment) *)
Definition getDeployment (id : string) (s : Ledger) : option DeploymentRecord :=
  List.find (fun d => id_of d === id) (deployments s).

(** Source: src/deployment/database.ts:762-768 (getDeploymentRequired) *)
Definition getDeploymentRequired (id : string) : DM DeploymentRecord :=
  s ← get_state;
  match getDeployment id s with
  | Some d => mret d
  | None => throw deployment_not_found
  end.

(** A list of rows inserted one by one. *)
Fixpoint forM_ {A} (f : A -> DM unit) (l : list A) : DM unit :=
  match l with
  | [] => mret tt
  | x :: l => f x;; forM_ f l
  end.

Definition initial_record (r : DeploymentRequestRecord) (sourceSet : string) : DeploymentRecord := {|
  request := r; sourceSetDigest := sourceSet; state := requested; stateSequence := 0; guardArmed := false;
  successMarkerDigest := None; terminal := false; recordDigest := initial_digest r sourceSet;
  createdAt := requestedAt r; updatedAt := requestedAt r
|}.

(** Source: src/deployment/database.ts:601-686 (createDeployment) *)
Definition createDeployment (r : DeploymentRequestRecord) (sources : list DeploymentSourceRecord)
    : DM DeploymentRecord :=
  lift (validateRequest r);;
  canonicalSources ← lift (validateSources (deploymentId r) sources);
  let sourceSet := digest_of (JArr (List.map source_json canonicalSources)) in
  transaction (
    s ← get_state;
    match List.find (fun d => idempotencyKey (request d) === idempotencyKey r) (deployments s) with
    | Some existing =>
        if (requestDigest (request existing) === requestDigest r) && (sourceSetDigest existing === sourceSet)
        then mret existing else throw idempotency_conflict
    | None =>
        guardM (negb (exists_row (deployments s) (fun d => (id_of d === deploymentId r) ||
                  (generation (request d) === generation r))))
          deployment_conflict;;
        insert_deployment (initial_record r sourceSet);;
        forM_ insert_source canonicalSources;;
        getDeploymentRequired (deploymentId r)
    end).

(** Source: src/deployment/database.ts:778-849 (addProduct) *)
Definition addProduct (p : DeploymentProductRecord) : DM DeploymentProductRecord :=
  lift (_ ← assertIdentifier (p_deploymentId p);
        _ ← require (p_repository p === canonical_repository (p_product p)) deployment_invalid;
        _ ← assertGitObject (p_commit p);
        _ ← assertGitObject (p_tree p);
        _ ← assertDigest (manifestDigest p);
        _ ← assertDigest (artifactDigest p);
        assertDigest (compatibilityDigest p));;
  transaction (
    d ← getDeploymentRequired (p_deploymentId p);
    guardM (has [requested; artifact_verified; compatibility_verifying] (state d)) deployment_state_conflict;;
    s ← get_state;
    source ← match List.find (fun r => (s_deploymentId r === p_deploymentId p) && (s_product r === p_product p))
                   (deployment_sources s) with
      | Some r => mret r
      | None => throw deployment_invalid
      end;
    guardM ((s_repository source === p_repository p) && (s_commit source === p_commit p) &&
            (s_tree source === p_tree p)) deployment_conflict;;
    match List.find (fun r => (p_deploymentId r === p_deploymentId p) && (p_product r === p_product p))
            (deployment_products s) with
    | Some mapped =>
        if canonical_obj (product_doc mapped) === canonical_obj (product_doc p)
        then mret mapped else throw deployment_conflict
    | None => insert_product p;; mret p
    end).

(** Source: src/deployment/database.ts:859-917 (appendEvidence) *)
Definition appendEvidence (e : DeploymentEvidenceRecord) : DM DeploymentEvidenceRecord :=
  lift (_ ← assertIdentifier (e_deploymentId e);
        _ ← assertIdentifier (e_kind e);
        _ ← assertIdentifier (e_signingKeyId e);
        _ ← assertDigest (e_digest e);
        _ ← assertTimestamp (e_createdAt e);
        _ ← require (isSafeInteger (contentLength e) && (0 <=? contentLength e)) deployment_invalid;
        _ ← require (artifactReference e === "artifact:sha256:" +:+ e_digest e) deployment_invalid;
        _ ← require (redacted e) deployment_invalid;
        _ ← require (e_signatureAlgorithm e === "ed25519"%string) deployment_invalid;
        require (SIGNATURE_PATTERN (e_signature e)) deployment_invalid);;
  transaction (
    getDeploymentRequired (e_deploymentId e);;
    s ← get_state;
    match List.find (fun r => (e_deploymentId r === e_deploymentId e) && (e_digest r === e_digest e) &&
                              (e_kind r === e_kind e)) (deployment_evidence s) with
    | Some mapped =>
        if canonical_obj (evidence_doc mapped) === canonical_obj (evidence_doc e)
        then mret mapped else throw deployment_conflict
    | None => insert_evidence e;; mret e
    end).

Definition reference_json (r : EvidenceReference) : json :=
  JObj [("kind", JStr (kind r)); ("digest", JStr (digest r))]%string.

Definition guard_json (g : option GuardStatus) : json :=
  match g with Some armed => JStr "armed" | Some disarmed => JStr "disarmed" | None => JNull end.

(** The members of a transition input that its intent digest covers.
    Source: src/deployment/database.ts:933-950 (transition) *)
Definition intent_doc (input : DeploymentTransitionInput) : props json :=
  [("deploymentId", JStr (ti_deploymentId input)); ("generation", JNum (ti_generation input));
   ("expectedState", JStr (state_name (expectedState input)));
   ("expectedSequence", JNum (expectedSequence input));
   ("nextState", JStr (state_name (nextState input)));
   ("evidence", JArr (List.map reference_json
      (locale_sort (fun r => kind r +:+ ":" +:+ digest r) (evidence input))));
   ("actor", JStr (actor input)); ("occurredAt", JStr (occurredAt input));
   ("reason", null_str (reason input)); ("guardStatus", guard_json (guardStatus input));
   ("successMarkerDigest", null_str (ti_successMarkerDigest input));
   ("signatureAlgorithm", null_str (signatureAlgorithm input))]%string.

Definition intent_digest (input : DeploymentTransitionInput) : string := sha256Hex (canonical_obj (intent_doc input)).

Fixpoint check_references (unique : list string) (l : list EvidenceReference) : VR unit :=
  match l with
  | [] => Ok tt
  | r :: l =>
      _ ← assertIdentifier (kind r);
      _ ← assertDigest (digest r);
      let key := kind r +:+ ":" +:+ digest r in
      _ ← require (negb (bool_decide (key ∈ unique))) deployment_invalid;
      check_references (key :: unique) l
  end.

(** [if (value) check(value)] for an optional string. *)
Definition if_given (o : option string) (check : string -> VR unit) : VR unit :=
  match o with Some v => if truthy_str v then check v else Ok tt | None => Ok tt end.

(** Source: src/deployment/database.ts:1132-1163 (validateTransitionInput) *)
Definition validateTransitionInput (input : DeploymentTransitionInput) : VR unit :=
  _ ← assertIdentifier (ti_deploymentId input);
  _ ← assertIdentifier (actor input);
  _ ← assertIdempotencyKey (ti_idempotencyKey input);
  _ ← assertTimestamp (occurredAt input);
  _ ← require (isSafeInteger (ti_generation input) && (0 <? ti_generation input)) deployment_invalid;
  _ ← require (isSafeInteger (expectedSequence input) && (0 <=? expectedSequence input)) deployment_invalid;
  _ ← require (negb (length (evidence input) =? 0)%nat) deployment_evidence_missing;
  _ ← check_references [] (evidence input);
  _ ← if_given (signingKeyId input) assertIdentifier;
  _ ← if_given (signatureAlgorithm input) (fun a => require (a === "ed25519"%string) deployment_invalid);
  if_given (signature input) (fun v => require (SIGNATURE_PATTERN v) deployment_invalid).

(** Source: src/deployment/database.ts:851-857 (listProducts) *)
Definition listProducts (id : string) (s : Ledger) : list DeploymentProductRecord :=
  List.filter (fun r => p_deploymentId r === id) (deployment_products s).

(** The two conditions on the products before [preflight].
    Source: src/deployment/database.ts:994-1008 (transition) *)
Definition products_ready (id : string) (s : Ledger) : bool :=
  let products := listProducts id s in
  (length products =? 2)%nat &&
  (length (remove_dups (List.map compatibilityDigest products)) =? 1)%nat.

(** Source: src/deployment/database.ts:1009-1021 (transition) *)
Definition evidence_recorded (id : string) (refs : list EvidenceReference) (s : Ledger) : bool :=
  forallb (fun r => exists_row (deployment_evidence s) (fun e =>
    (e_deploymentId e === id) && (e_digest e === digest r) && (e_kind e === kind r))) refs.

(** Source: src/deployment/database.ts:1044-1052 (transition) *)
Definition transition_digest (prior intent : string) (seq : Z) (next : DeploymentState) : string :=
  sha256Hex (canonical_obj
    [("priorRecordDigest", JStr prior); ("intentDigest", JStr intent); ("sequence", JNum seq);
     ("mutationClass", JStr (mutation_name (MUTATION_CLASS next)));
     ("terminalTruth", JStr (truth_name (terminalTruth next)))]%string).

(** Source: src/deployment/database.ts:1060-1070 (transition) *)
Definition record_digest (prior trans : string) (next : DeploymentState) (seq : Z) (g : bool)
    (marker : option string) (term : bool) : string :=
  sha256Hex (canonical_obj
    [("priorRecordDigest", JStr prior); ("transitionDigest", JStr trans); ("state", JStr (state_name next));
     ("stateSequence", JNum seq); ("guardArmed", JBool g); ("successMarkerDigest", null_str marker);
     ("terminal", JBool term)]%string).

(** [a ?? b] *)
Definition or_else {A} (a b : option A) : option A := match a with Some _ => a | None => b end.

(** The row an update of [transition] writes.
    Source: src/deployment/database.ts:1043-1120 (transition) *)
Definition advanced (input : DeploymentTransitionInput) (d0 d : DeploymentRecord) : DeploymentRecord :=
  let seq := stateSequence d0 + 1 in
  let term := has TERMINAL_STATES (nextState input) in
  let g := guard_after (guardArmed d0) (guardStatus input) in
  let marker := or_else (ti_successMarkerDigest input) (successMarkerDigest d0) in
  let trans := transition_digest (recordDigest d0) (intent_digest input) seq (nextState input) in {|
  request := request d; sourceSetDigest := sourceSetDigest d; state := nextState input;
  stateSequence := seq; guardArmed := g; successMarkerDigest := marker; terminal := term;
  recordDigest := record_digest (recordDigest d0) trans (nextState input) seq g marker term;
  createdAt := createdAt d; updatedAt := occurredAt input
|}.

(** Source: src/deployment/database.ts:1072-1100 (transition) *)
Definition transition_row (input : DeploymentTransitionInput) (d : DeploymentRecord) : DeploymentTransitionRecord :=
  let seq := stateSequence d + 1 in {|
  t_input := input; sequence := seq; intentDigest := intent_digest input;
  transitionDigest := transition_digest (recordDigest d) (intent_digest input) seq (nextState input);
  t_terminal := has TERMINAL_STATES (nextState input)
|}.

(** The checks of [transition] on a deployment, between the lookup and the writes.
    Source: src/deployment/database.ts:967-1042 (transition) *)
Definition check_transition (input : DeploymentTransitionInput) (d : DeploymentRecord) (s : Ledger) : VR unit :=
  _ ← require (negb (terminal d)) deployment_terminal;
  _ ← require (generation (request d) === ti_generation input) deployment_generation_conflict;
  _ ← require ((state d === expectedState input) && (stateSequence d === expectedSequence input))
    deployment_state_conflict;
  _ ← assertTransitionAllowed (guardArmed d) input;
  _ ← require (negb (nextState input === preflight) || products_ready (ti_deploymentId input) s)
    deployment_transition_forbidden;
  _ ← require (evidence_recorded (ti_deploymentId input) (evidence input) s) deployment_evidence_missing;
  _ ← require (negb (has TERMINAL_STATES (nextState input) &&
        ((signatureAlgorithm input !== Some "ed25519"%string) || negb (given (signingKeyId input)) ||
         negb (given (signature input))))) deployment_transition_forbidden;
  _ ← if_given (ti_successMarkerDigest input) assertDigest;
  require (negb ((nextState input === succeeded) &&
                 (successMarkerDigest d !== ti_successMarkerDigest input))) deployment_transition_forbidden.

(** The condition of the update.
    Source: src/deployment/database.ts:1106-1106 (transition) *)
Definition cas_where (input : DeploymentTransitionInput) (r : DeploymentRecord) : bool :=
  (id_of r === ti_deploymentId input) && (generation (request r) === ti_generation input) &&
  (state r === expectedState input) && (stateSequence r === expectedSequence input).

(** The recorded transition with the idempotency key of the input.
    Source: src/deployment/database.ts:953-957 (transition) *)
Definition prior_attempt (input : DeploymentTransitionInput) (s : Ledger) : option DeploymentTransitionRecord :=
  List.find (fun r => (ti_deploymentId (t_input r) === ti_deploymentId input) &&
                      (ti_idempotencyKey (t_input r) === ti_idempotencyKey input))
    (deployment_transitions s).

(** Source: src/deployment/database.ts:931-1130 (transition) *)
Definition transition (input : DeploymentTransitionInput) : DM DeploymentTransitionRecord :=
  lift (validateTransitionInput input);;
  transaction (
    s ← get_state;
    match prior_attempt input s with
    | Some mapped =>
        if intentDigest mapped === intent_digest input then mret mapped else throw idempotency_conflict
    | None =>
        d ← getDeploymentRequired (ti_deploymentId input);
        lift (check_transition input d s);;
        insert_transition (transition_row input d);;
        changes ← update_deployments (cas_where input) (advanced input d);
        guardM (changes =? 1)%nat deployment_state_conflict;;
        s ← get_state;
        match List.find (fun r => (ti_deploymentId (t_input r) === ti_deploymentId input) &&
                                  (sequence r === stateSequence d + 1)) (deployment_transitions s) with
        | Some row => mret row
        | None => throw type_error
        end
    end).

(** The result of a completed intent is its JSON text, which the code parses when it returns it.
    Source: src/deployment/database.ts:255-259 (IntentReservation) *)
Inductive IntentReservation :=
| ir_reserved | ir_pending | ir_completed (resultDigest resultJson : string) | ir_conflict (existing : string).

(** Source: src/deployment/database.ts:1184-1184 (reserveIntent) *)
Definition check_deployment (id_ : option string) : DM unit :=
  match id_ with
  | Some i => if truthy_str i then getDeploymentRequired i;; mret tt else mret tt
  | None => mret tt
  end.

(** Source: src/deployment/database.ts:1173-1219 (reserveIntent) *)
Definition reserveIntent (key semantic oper : string) (id_ : option string) (created : string) : DM IntentReservation :=
  lift (_ ← assertIdempotencyKey key;
        _ ← assertDigest semantic;
        _ ← assertIdentifier oper;
        assertTimestamp created);;
  check_deployment id_;;
  transaction (
    s ← get_state;
    match List.find (fun r => i_idempotencyKey r === key) (request_intents s) with
    | Some existing =>
        if semanticDigest existing !== semantic then mret (ir_conflict (semanticDigest existing))
        else if i_status existing === intent_pending then mret ir_pending
        else match resultJson existing, resultDigest existing with
             | Some j, Some d =>
                 if truthy_str j && truthy_str d then mret (ir_completed d j)
                 else throw deployment_integrity_failed
             | _, _ => throw deployment_integrity_failed
             end
    | None =>
        insert_intent {| i_idempotencyKey := key; semanticDigest := semantic; operation := oper;
          i_deploymentId := id_; i_status := intent_pending; resultDigest := None; resultJson := None;
          i_createdAt := created; completedAt := None |};;
        mret ir_reserved
    end).

(** Source: src/deployment/database.ts:1221-1259 (completeIntent) *)
Definition completeIntent (key semantic : string) (result : json) (completed_ : string) : DM string :=
  lift (_ ← assertIdempotencyKey key;
        _ ← assertDigest semantic;
        assertTimestamp completed_);;
  text ← match canonicalJson result with Some t => mret t | None => throw type_error end;
  let digest_ := sha256Hex text in
  transaction (
    s ← get_state;
    match List.find (fun r => i_idempotencyKey r === key) (request_intents s) with
    | None => throw deployment_not_found
    | Some current =>
        guardM (semanticDigest current === semantic) idempotency_conflict;;
        if i_status current === intent_completed then
          if resultDigest current === Some digest_ then mret digest_ else throw idempotency_conflict
        else
          changes ← update_intents
            (fun r => (i_idempotencyKey r === key) && (i_status r === intent_pending))
            (fun r => {| i_idempotencyKey := i_idempotencyKey r; semanticDigest := semanticDigest r;
               operation := operation r; i_deploymentId := i_deploymentId r; i_status := intent_completed;
               resultDigest := Some digest_; resultJson := Some text; i_createdAt := i_createdAt r;
               completedAt := Some completed_ |});
          guardM (changes =? 1)%nat deployment_conflict;;
          mret digest_
    end).
End Database.

(** ** Operations, executed *)

Inductive db_op :=
| op_create (r : DeploymentRequestRecord) (sources : list DeploymentSourceRecord)
| op_product (p : DeploymentProductRecord)
| op_evidence (e : DeploymentEvidenceRecord)
| op_transition (input : DeploymentTransitionInput)
| op_reserve (key semantic oper : string) (id_ : option string) (created : string)
| op_complete (key semantic : string) (result : json) (completed_ : string).

Section Proofs.
Context {C : Crypto} {D : Dates} {Lo : Locale}.

Definition exec (s : Ledger) (o : db_op) : Ledger :=
  match o with
  | op_create r l => snd (createDeployment r l s)
  | op_product p => snd (addProduct p s)
  | op_evidence e => snd (appendEvidence e s)
  | op_transition i => snd (transition i s)
  | op_reserve k m o i c => snd (reserveIntent k m o i c s)
  | op_complete k m r c => snd (completeIntent k m r c s)
  end.

Definition run (trace : list db_op) (s : Ledger) : Ledger := fold_left exec trace s.

(** ** Helper lemmas *)

Lemma transaction_cases {A} (m : DM A) s r s' :
  transaction m s = (r, s') -> (exists a, r = Ok a /\ m s = (Ok a, s')) \/ (is_ok r = false /\ s' = s).
Proof using. unfold transaction. destruct (m s) as [[a|e] s1]; intros [= <- <-]; eauto. Qed.

Lemma lift_bind_cases {A B} (v : VR A) (k : A -> DM B) s :
  ((lift v ≫= k) s = match v with Ok a => k a s | Err e => (Err e, s) end).
Proof using. unfold mbind, M_bind, lift. by destruct v. Qed.

(** The operations that append a row leave the other tables alone. *)
Lemma insert_source_run l s a s' :
  forM_ insert_source l s = (Ok a, s') ->
  deployments s' = deployments s /\ deployment_transitions s' = deployment_transitions s /\
  request_intents s' = request_intents s /\ deployment_evidence s' = deployment_evidence s /\
  deployment_products s' = deployment_products s.
Proof using.
  revert s. induction l as [|r l IH]; intros s H; cbn [forM_] in H; m_inv; [done|].
  unfold insert_source in *. m_inv.
  match goal with H : forM_ _ _ _ = _ |- _ => by apply IH in H end.
Qed.

(** ** The ledger refines the state machine *)

(** [history d0 trs d]: from the record [d0] the transitions [trs], each allowed by the state
    machine where it was taken, lead to the record [d], digests included. *)
Inductive history (d0 : DeploymentRecord) : list DeploymentTransitionRecord -> DeploymentRecord -> Prop :=
| history_nil : history d0 [] d0
| history_snoc trs d input rule :
    history d0 trs d -> terminal d = false ->
    expectedState input = state d -> expectedSequence input = stateSequence d ->
    assertTransitionAllowed (guardArmed d) input = Ok rule ->
    history d0 (trs ++ [transition_row input d]) (advanced input d d).

Definition transitions_of (id : string) (s : Ledger) : list DeploymentTransitionRecord :=
  List.filter (fun t => ti_deploymentId (t_input t) === id) (deployment_transitions s).

Record wf (s : Ledger) : Prop := {
  wf_ids : NoDup (List.map id_of (deployments s));
  wf_generations : NoDup (List.map (fun d => generation (request d)) (deployments s));
  wf_keys : NoDup (List.map (fun d => idempotencyKey (request d)) (deployments s));
  wf_foreign : forall t, t ∈ deployment_transitions s -> ti_deploymentId (t_input t) ∈ List.map id_of (deployments s);
  wf_history : forall d, d ∈ deployments s ->
    history (initial_record (request d) (sourceSetDigest d)) (transitions_of (id_of d) s) d
}.

(** The tables the invariant is about. *)
Lemma wf_same s s' :
  deployments s' = deployments s -> deployment_transitions s' = deployment_transitions s -> wf s -> wf s'.
Proof using.
  intros Hd Ht []. constructor; unfold transitions_of; rewrite ?Hd, ?Ht; done.
Qed.

Lemma addProduct_frame p s : let s' := snd (addProduct p s) in
  deployments s' = deployments s /\ deployment_transitions s' = deployment_transitions s /\
  request_intents s' = request_intents s.
Proof using.
  cbn zeta. unfold addProduct. rewrite lift_bind_cases. destruct (_ ≫= _) as [[]|e]; [|done].
  destruct (transaction _ s) as [r s'] eqn:E. cbn [snd].
  apply transaction_cases in E as [(a & -> & E)|[_ ->]]; [|done]. m_inv.
  unfold getDeploymentRequired, insert_product in *. by m_split.
Qed.

Lemma appendEvidence_frame e s : let s' := snd (appendEvidence e s) in
  deployments s' = deployments s /\ deployment_transitions s' = deployment_transitions s /\
  request_intents s' = request_intents s.
Proof using.
  cbn zeta. unfold appendEvidence. rewrite lift_bind_cases. destruct (_ ≫= _) as [[]|x]; [|done].
  destruct (transaction _ s) as [r s'] eqn:E. cbn [snd].
  apply transaction_cases in E as [(a & -> & E)|[_ ->]]; [|done]. m_inv.
  unfold getDeploymentRequired, insert_evidence in *. by m_split.
Qed.

Lemma check_deployment_cases o s :
  check_deployment o s = (Ok tt, s) \/ check_deployment o s = (Err deployment_not_found, s).
Proof using.
  unfold check_deployment. destruct o as [j|]; [|by left]. destruct (truthy_str j); [|by left].
  rewrite bindM_eq. unfold getDeploymentRequired. rewrite bindM_eq. cbn.
  destruct (getDeployment j s); [by left|by right].
Qed.

Lemma reserveIntent_frame k m o i c s : let s' := snd (reserveIntent k m o i c s) in
  deployments s' = deployments s /\ deployment_transitions s' = deployment_transitions s.
Proof using.
  cbn zeta. unfold reserveIntent. rewrite lift_bind_cases. destruct (_ ≫= _) as [[]|x]; [|done].
  rewrite bindM_eq. destruct (check_deployment_cases i s) as [-> | ->]; [|done].
  destruct (transaction _ s) as [r s'] eqn:E. cbn [snd].
  apply transaction_cases in E as [(a & -> & E)|[_ ->]]; [|done].
  unfold insert_intent in *. by m_split.
Qed.

Lemma completeIntent_frame k m r c s : let s' := snd (completeIntent k m r c s) in
  deployments s' = deployments s /\ deployment_transitions s' = deployment_transitions s.
Proof using.
  cbn zeta. unfold completeIntent. rewrite lift_bind_cases. destruct (_ ≫= _) as [[]|x]; [|done].
  rewrite bindM_eq. destruct (canonicalJson r) as [text|]; [|done]. cbn [mret M_ret].
  destruct (transaction _ s) as [r' s'] eqn:E. cbn [snd].
  apply transaction_cases in E as [(a & -> & E)|[_ ->]]; [|done].
  unfold update_intents in *. by m_split.
Qed.

(** What [createDeployment] does when it returns. *)
Lemma createDeployment_Ok r l s d s' :
  createDeployment r l s = (Ok d, s') ->
  s' = s \/
  exists src, d = initial_record r src /\
    deployments s' = deployments s ++ [d] /\ deployment_transitions s' = deployment_transitions s /\
    forall q, q ∈ deployments s -> id_of q <> deploymentId r /\ generation (request q) <> generation r /\
      idempotencyKey (request q) <> idempotencyKey r.
Proof using.
  unfold createDeployment. intros H. m_inv.
  set (src := digest_of _) in *.
  destruct (List.find _ _) as [e|] eqn:Hf.
  - m_split. by left.
  - m_inv. right. exists src. unfold insert_deployment in *. m_inv.
    match goal with H : forM_ _ _ _ = _ |- _ => apply insert_source_run in H as (Hd & Ht & _) end.
    match type of Hd with _ = deployments (with_deployments _ ?x) => rename x into s0 end.
    unfold getDeploymentRequired in *. m_split. bool_inv.
    match goal with H : existsb _ _ = false |- _ => rewrite existsb_false in H; rename H into Hex end.
    assert (Hq : forall q, q ∈ deployments s0 -> id_of q <> deploymentId r /\
      generation (request q) <> generation r /\ idempotencyKey (request q) <> idempotencyKey r).
    { intros q Hq. apply Hex in Hq. by bool_inv. }
    assert (d = initial_record r src) as ->.
    { match goal with H : getDeployment _ _ = Some _ |- _ => unfold getDeployment in H; rename H into Hg end.
      rewrite Hd in Hg. cbn [with_deployments deployments] in Hg. rewrite find_app_None in Hg.
      - cbn in Hg. rewrite bool_decide_eq_true_2 in Hg by done. by injection Hg.
      - apply find_none_iff_all. intros q Hin. apply Hq in Hin as (Hid & _ & _). by apply bool_decide_eq_false_2. }
    done.
Qed.

(** A failed call changes nothing. *)
Lemma lift_transaction_Err {A B} (v : VR A) (k : A -> DM B) s e s' :
  (forall a e s', k a s = (Err e, s') -> s' = s) ->
  (lift v ≫= k) s = (Err e, s') -> s' = s.
Proof using. intros Hk. rewrite lift_bind_cases. destruct v; [apply Hk|by intros [= <- <-]]. Qed.

Lemma createDeployment_Err r l s e s' : createDeployment r l s = (Err e, s') -> s' = s.
Proof using.
  apply lift_transaction_Err. intros ? ? ?. apply lift_transaction_Err. intros ? ? ?. apply transaction_Err.
Qed.

Lemma transition_Err i s e s' : transition i s = (Err e, s') -> s' = s.
Proof using. apply lift_transaction_Err. intros ? ? ?. apply transaction_Err. Qed.

(** What [transition] does when it returns: it replays a recorded attempt, or records this one. *)
Definition recorded (input : DeploymentTransitionInput) (d : DeploymentRecord) (s : Ledger) : Ledger :=
  with_deployments (List.map (fun r => if cas_where input r then advanced input d r else r) (deployments s))
    (with_transitions (deployment_transitions s ++ [transition_row input d]) s).

Lemma transition_Ok input s t s' :
  transition input s = (Ok t, s') ->
  validateTransitionInput input = Ok tt /\
  ((s' = s /\ prior_attempt input s = Some t /\ intentDigest t = intent_digest input) \/
   (exists d, prior_attempt input s = None /\ getDeployment (ti_deploymentId input) s = Some d /\
      check_transition input d s = Ok tt /\ t = transition_row input d /\ s' = recorded input d s /\
      forall q, q ∈ deployment_transitions s -> ti_deploymentId (t_input q) = ti_deploymentId input ->
        sequence q <> sequence t /\ transitionDigest q <> transitionDigest t)).
Proof using.
  unfold transition. intros H. m_inv. split; [done|].
  destruct (prior_attempt input _) as [m|] eqn:Hp.
  - left. m_split. by bool_inv.
  - right. unfold getDeploymentRequired, insert_transition, update_deployments in *. m_split.
    match goal with H : getDeployment _ _ = Some ?d |- _ => exists d end.
    match goal with H : check_transition _ _ ?x = _ |- _ => rename x into s9 end.
    match goal with H : getDeployment _ _ = Some ?x |- _ => rename x into a end.
    unfold recorded. bool_inv.
    match goal with H : existsb _ _ = false |- _ => rewrite existsb_false in H; rename H into Hex end.
    set (row := transition_row input a) in *. set (tbl := deployment_transitions s9) in *.
    assert (Hq : forall q, q ∈ tbl -> ti_deploymentId (t_input q) = ti_deploymentId input ->
      sequence q <> sequence row /\ transitionDigest q <> transitionDigest row).
    { intros q Hq Hid. apply Hex in Hq. rewrite Hid, bool_decide_eq_true_2 in Hq by done.
      cbn [andb] in Hq. by bool_inv. }
    assert (t = row) as ->.
    { match goal with H : List.find _ _ = Some t |- _ => rename H into Hf end.
      cbn [with_deployments with_transitions deployment_transitions] in Hf.
      fold tbl in Hf. fold row in Hf. rewrite find_app_None in Hf.
      - cbn in Hf. rewrite !bool_decide_eq_true_2 in Hf by done. by injection Hf.
      - apply find_none_iff_all. intros q Hin. apply andb_false_iff.
        destruct (decide (ti_deploymentId (t_input q) = ti_deploymentId input)) as [Hid|Hid].
        + right. apply bool_decide_eq_false_2. apply (Hq q Hin Hid).
        + left. by apply bool_decide_eq_false_2. }
    split_and!; done.
Qed.

Lemma check_transition_Ok input d s :
  check_transition input d s = Ok tt ->
  terminal d = false /\ generation (request d) = ti_generation input /\
  state d = expectedState input /\ stateSequence d = expectedSequence input /\
  (exists rule, assertTransitionAllowed (guardArmed d) input = Ok rule) /\
  (nextState input = preflight -> products_ready (ti_deploymentId input) s = true) /\
  evidence_recorded (ti_deploymentId input) (evidence input) s = true /\
  (nextState input ∈ TERMINAL_STATES -> signatureAlgorithm input = Some "ed25519"%string /\
     given (signingKeyId input) = true /\ given (signature input) = true) /\
  (nextState input = succeeded -> successMarkerDigest d = ti_successMarkerDigest input).
Proof using.
  unfold check_transition. intros H.
  apply require_bind in H as [H1 H]. apply require_bind in H as [H2 H]. apply require_bind in H as [H3 H].
  apply bind_Ok in H as (rule & H4 & H). apply require_bind in H as [H5 H]. apply require_bind in H as [H6 H].
  apply require_bind in H as [H7 H]. apply bind_Ok in H as ([] & _ & H). apply require_Ok in H. bool_inv.
  split_and!; try assumption; [by exists rule| | |].
  - intros E. rewrite (bool_decide_eq_true_2 _ E) in H5. exact H5.
  - intros E. rewrite (bool_decide_eq_true_2 _ E) in H7. cbn [andb] in H7. bool_inv. by split_and!.
  - intros E. rewrite (bool_decide_eq_true_2 _ E) in H. cbn [andb] in H. by bool_inv.
Qed.

(** ** The invariant is preserved *)

Lemma filter_snoc_false {A} (p : A -> bool) l x : p x = false -> List.filter p (l ++ [x]) = List.filter p l.
Proof using. intros H. rewrite List.filter_app. cbn. by rewrite H, app_nil_r. Qed.

Lemma filter_snoc_true {A} (p : A -> bool) l x : p x = true -> List.filter p (l ++ [x]) = List.filter p l ++ [x].
Proof using. intros H. rewrite List.filter_app. cbn. by rewrite H. Qed.

Lemma filter_none {A} (p : A -> bool) l : (forall x, x ∈ l -> p x = false) -> List.filter p l = [].
Proof using.
  intros H. induction l as [|x l IH]; cbn; [done|]. rewrite H by left. apply IH. intros y Hy. apply H. by right.
Qed.

Lemma wf_created s s' r src :
  wf s -> deployments s' = deployments s ++ [initial_record r src] ->
  deployment_transitions s' = deployment_transitions s ->
  (forall q, q ∈ deployments s -> id_of q <> deploymentId r /\ generation (request q) <> generation r /\
      idempotencyKey (request q) <> idempotencyKey r) -> wf s'.
Proof using.
  intros [H1 H2 H3 H4 H5] Hd Ht Hq. constructor; rewrite ?Hd, ?Ht.
  - apply NoDup_map_snoc; [done|]. intros y Hy. by apply Hq.
  - apply NoDup_map_snoc; [done|]. intros y Hy. by apply Hq.
  - apply NoDup_map_snoc; [done|]. intros y Hy. by apply Hq.
  - intros t Hin. rewrite List.map_app. apply elem_of_app. left. by apply H4.
  - intros d Hin. unfold transitions_of. rewrite Ht.
    apply elem_of_app in Hin as [Hin|[->|[]%not_elem_of_nil]%elem_of_cons]; [by apply H5|].
    rewrite filter_none; [apply history_nil|]. intros t Hin. apply bool_decide_eq_false_2.
    intros E. apply H4 in Hin. rewrite E in Hin.
    apply list_elem_of_In, in_map_iff in Hin as (q & Hid & Hin%list_elem_of_In).
    destruct (Hq q Hin) as [Hne _]. by apply Hne.
Qed.

(** The row the update changes is the row of the deployment. *)
Lemma recorded_rows s input d :
  wf s -> getDeployment (ti_deploymentId input) s = Some d -> check_transition input d s = Ok tt ->
  forall r, r ∈ deployments s -> cas_where input r = (id_of r === ti_deploymentId input) /\
    (id_of r = ti_deploymentId input -> r = d).
Proof using.
  intros Hwf Hg Hc r Hr. apply find_Some_elem in Hg as [Hin Hid]. bool_inv.
  apply check_transition_Ok in Hc as (_ & Hgen & Hst & Hseq & _).
  assert (Hu : id_of r = ti_deploymentId input -> r = d).
  { intros E. pose proof (find_id_unique id_of _ r (wf_ids _ Hwf) Hr) as F1.
    pose proof (find_id_unique id_of _ d (wf_ids _ Hwf) Hin) as F2.
    rewrite E in F1. rewrite Hid in F2. congruence. }
  split; [|done]. unfold cas_where. destruct (decide (id_of r = ti_deploymentId input)) as [E|E].
  - rewrite (Hu E) in *. by rewrite !bool_decide_eq_true_2.
  - by rewrite (bool_decide_eq_false_2 _ E).
Qed.

Lemma recorded_map {B} (f : DeploymentRecord -> B) input d l :
  (forall r, f (advanced input d r) = f r) ->
  List.map f (List.map (fun r => if cas_where input r then advanced input d r else r) l) = List.map f l.
Proof using.
  intros Hf. rewrite List.map_map. apply List.map_ext. intros r. by destruct (cas_where input r).
Qed.

Lemma wf_recorded s input d :
  wf s -> getDeployment (ti_deploymentId input) s = Some d -> check_transition input d s = Ok tt ->
  wf (recorded input d s).
Proof using.
  intros Hwf Hg Hc. pose proof (recorded_rows s input d Hwf Hg Hc) as Hrows.
  pose proof (check_transition_Ok _ _ _ Hc) as (Hterm & _ & Hst & Hseq & [rule Hrule] & _).
  apply find_Some_elem in Hg as [Hin Hid]. bool_inv.
  destruct Hwf as [H1 H2 H3 H4 H5]. constructor; unfold recorded;
    cbn [with_deployments with_transitions deployments deployment_transitions].
  1-3: by rewrite recorded_map.
  - intros t Ht. rewrite recorded_map by done.
    apply elem_of_app in Ht as [Ht|[->|[]%not_elem_of_nil]%elem_of_cons]; [by apply H4|].
    cbn. rewrite <- Hid. apply list_elem_of_In, in_map, list_elem_of_In. done.
  - intros r' Hr'. apply list_elem_of_In, in_map_iff in Hr' as (r & <- & Hr%list_elem_of_In).
    destruct (Hrows r Hr) as [Hw Hu]. unfold transitions_of.
    cbn [with_deployments with_transitions deployment_transitions]. rewrite Hw.
    destruct (id_of r === ti_deploymentId input) eqn:E; bool_inv.
    + rewrite (Hu E) in *. rewrite filter_snoc_true by (by apply bool_decide_eq_true_2).
      apply (history_snoc _ _ d input rule); [exact (H5 d Hin)|done|done|done|done].
    + rewrite filter_snoc_false by (by apply bool_decide_eq_false_2). by apply H5.
Qed.

Lemma wf_exec s o : wf s -> wf (exec s o).
Proof using.
  intros Hwf. destruct o as [r l|p|e|i|k m o i c|k m r c]; cbn [exec].
  - destruct (createDeployment r l s) as [[d|e] s'] eqn:E; cbn [snd].
    + apply createDeployment_Ok in E as [->|(src & -> & Hd & Ht & Hq)]; [done|]. by eapply wf_created.
    + apply createDeployment_Err in E as ->. done.
  - destruct (addProduct_frame p s) as (? & ? & _). by eapply wf_same.
  - destruct (appendEvidence_frame e s) as (? & ? & _). by eapply wf_same.
  - destruct (transition i s) as [[t|e] s'] eqn:E; cbn [snd].
    + apply transition_Ok in E as [_ [(-> & _)|(d & _ & Hg & Hc & _ & -> & _)]]; [done|]. by apply wf_recorded.
    + apply transition_Err in E as ->. done.
  - destruct (reserveIntent_frame k m o i c s) as (? & ?). by eapply wf_same.
  - destruct (completeIntent_frame k m r c s) as (? & ?). by eapply wf_same.
Qed.

Lemma run_ind (P : Ledger -> Prop) trace s :
  (forall s o, P s -> P (exec s o)) -> P s -> P (run trace s).
Proof using.
  intros He. unfold run. revert s. induction trace as [|o l IH]; intros s Hs; [done|]. cbn. apply IH. by apply He.
Qed.

Lemma wf_run trace : wf (run trace empty_ledger).
Proof using.
  apply run_ind; [intros; by apply wf_exec|]. constructor; try constructor; intros ? []%not_elem_of_nil.
Qed.

Lemma exec_wf_trace trace s : wf s -> wf (run trace s).
Proof using. intros. apply run_ind; [|done]. intros. by apply wf_exec. Qed.

(** ** What a history says *)

Lemma history_reachable r src trs d :
  history (initial_record r src) trs d ->
  reachable (rev (requested :: List.map (fun t => nextState (t_input t)) trs)) (state d, guardArmed d).
Proof using.
  induction 1 as [|trs d input rule _ IH _ Hst _ Hrule]; [apply reachable_requested|].
  rewrite List.map_app, app_comm_cons, rev_app_distr. cbn [List.map rev app transition_row t_input].
  apply (reachable_accept _ (state d, guardArmed d) input
    (state (advanced input d d), guardArmed (advanced input d d))); [exact IH|].
  unfold accept. cbn [fst snd]. rewrite (bool_decide_eq_true_2 _ Hst). cbn [require mbind result_bind].
  rewrite Hrule. reflexivity.
Qed.

Lemma history_sequence r src trs d :
  history (initial_record r src) trs d ->
  stateSequence d = Z.of_nat (length trs) /\ terminal d = has TERMINAL_STATES (state d) /\
  forall i t, trs !! i = Some t -> sequence t = Z.of_nat i + 1 /\ expectedSequence (t_input t) = Z.of_nat i.
Proof using.
  induction 1 as [|trs d input rule _ (IH1 & _ & IH3) _ _ Hseq _]; [by split_and!|].
  split_and!; [cbn [advanced stateSequence]; rewrite length_app; cbn; lia|done|].
  intros i t Hi. apply lookup_app_Some in Hi as [Hi|[Hle Hi]]; [by apply IH3|].
  destruct (i - length trs)%nat as [|j] eqn:Ej; [|done]. injection Hi as <-.
  assert (i = length trs) as -> by lia. cbn [transition_row sequence t_input]. rewrite Hseq, IH1. lia.
Qed.

(** ** Growth *)

(** The ledger [s'] extends [s]. *)
Record extends (s s' : Ledger) : Prop := {
  ext_transitions : exists k, deployment_transitions s' = deployment_transitions s ++ k;
  ext_evidence : exists k, deployment_evidence s' = deployment_evidence s ++ k;
  ext_products : exists k, deployment_products s' = deployment_products s ++ k;
  ext_deployments : forall d, d ∈ deployments s -> exists d', d' ∈ deployments s' /\
    request d' = request d /\ sourceSetDigest d' = sourceSetDigest d /\
    stateSequence d <= stateSequence d' /\ (terminal d = true -> d' = d)
}.

Lemma extends_refl s : extends s s.
Proof using.
  constructor; try (exists []; by rewrite app_nil_r). intros d Hd. exists d. split_and!; [done..|lia|done].
Qed.

Lemma extends_trans s1 s2 s3 : extends s1 s2 -> extends s2 s3 -> extends s1 s3.
Proof using.
  intros [[k1 H1] [k2 H2] [k3 H3] H4] [[l1 G1] [l2 G2] [l3 G3] G4].
  constructor; [exists (k1 ++ l1)|exists (k2 ++ l2)|exists (k3 ++ l3)|];
    rewrite ?G1, ?G2, ?G3, ?H1, ?H2, ?H3, <- ?app_assoc; [done..|].
  intros d Hd. destruct (H4 d Hd) as (d' & Hd' & E1 & E2 & E3 & E4).
  destruct (G4 d' Hd') as (d'' & Hd'' & F1 & F2 & F3 & F4). exists d''.
  split_and!; [done|congruence|congruence|lia|]. intros Ht. specialize (E4 Ht) as ->. by apply F4.
Qed.

(** The tables of evidence and products, for the operations that may write them. *)
Lemma extends_frame s s' :
  (exists k, deployments s' = deployments s ++ k) ->
  deployment_transitions s' = deployment_transitions s ->
  (exists k, deployment_evidence s' = deployment_evidence s ++ k) ->
  (exists k, deployment_products s' = deployment_products s ++ k) -> extends s s'.
Proof using.
  intros [k Hd] Ht He Hp. constructor; [exists []; by rewrite app_nil_r|done|done|].
  intros d Hin. exists d. rewrite Hd. split_and!; [by apply elem_of_app; left|done..|lia|done].
Qed.

(** The tables of evidence and products after each operation. *)
Lemma exec_tables s o :
  (exists k, deployment_evidence (exec s o) = deployment_evidence s ++ k) /\
  (exists k, deployment_products (exec s o) = deployment_products s ++ k).
Proof using.
  assert (Hnil : forall s' : Ledger, deployment_evidence s' = deployment_evidence s ->
    deployment_products s' = deployment_products s ->
    (exists k, deployment_evidence s' = deployment_evidence s ++ k) /\
    (exists k, deployment_products s' = deployment_products s ++ k))
    by (intros s' -> ->; split; exists []; by rewrite app_nil_r).
  destruct o as [r l|p|e|i|k m o i c|k m r c]; cbn [exec].
  - destruct (createDeployment r l s) as [[d|x] s'] eqn:E; cbn [snd];
      [|by apply createDeployment_Err in E as ->; apply Hnil].
    unfold createDeployment in E.
    unfold insert_deployment, getDeploymentRequired in *. m_split; try by apply Hnil.
    match goal with H : forM_ _ _ _ = _ |- _ => apply insert_source_run in H as (_ & _ & _ & He & Hp) end.
    by apply Hnil.
  - unfold addProduct. rewrite lift_bind_cases. destruct (_ ≫= _) as [[]|x]; [|by apply Hnil].
    destruct (transaction _ s) as [r s'] eqn:E. cbn [snd].
    apply transaction_cases in E as [(a & -> & E)|[_ ->]]; [|by apply Hnil].
    unfold getDeploymentRequired, insert_product in *. m_split; try by apply Hnil.
    cbn. split; [exists []; by rewrite app_nil_r|eauto].
  - unfold appendEvidence. rewrite lift_bind_cases. destruct (_ ≫= _) as [[]|x]; [|by apply Hnil].
    destruct (transaction _ s) as [r s'] eqn:E. cbn [snd].
    apply transaction_cases in E as [(a & -> & E)|[_ ->]]; [|by apply Hnil].
    unfold getDeploymentRequired, insert_evidence in *. m_split; try by apply Hnil.
    cbn. split; [eauto|exists []; by rewrite app_nil_r].
  - destruct (transition i s) as [[t|x] s'] eqn:E; cbn [snd]; [|by apply transition_Err in E as ->; apply Hnil].
    apply transition_Ok in E as [_ [(-> & _)|(d & _ & _ & _ & _ & -> & _)]]; by apply Hnil.
  - unfold reserveIntent. rewrite lift_bind_cases. destruct (_ ≫= _) as [[]|x]; [|by apply Hnil].
    rewrite bindM_eq. destruct (check_deployment_cases i s) as [-> | ->]; [|by apply Hnil].
    destruct (transaction _ s) as [r s'] eqn:E. cbn [snd].
    apply transaction_cases in E as [(a & -> & E)|[_ ->]]; [|by apply Hnil].
    unfold insert_intent in *. m_split; by apply Hnil.
  - unfold completeIntent. rewrite lift_bind_cases. destruct (_ ≫= _) as [[]|x]; [|by apply Hnil].
    rewrite bindM_eq. destruct (canonicalJson r) as [text|]; [|by apply Hnil]. cbn [mret M_ret].
    destruct (transaction _ s) as [r' s'] eqn:E. cbn [snd].
    apply transaction_cases in E as [(a & -> & E)|[_ ->]]; [|by apply Hnil].
    unfold update_intents in *. m_split; by apply Hnil.
Qed.

Lemma exec_extends s o : wf s -> extends s (exec s o).
Proof using.
  intros Hwf. pose proof (exec_tables s o) as [He Hp].
  assert (Hsame : deployments (exec s o) = deployments s ->
    deployment_transitions (exec s o) = deployment_transitions s -> extends s (exec s o)).
  { intros Hd Ht. apply extends_frame; [exists []; by rewrite app_nil_r|done|done|done]. }
  destruct o as [r l|p|e|i|k m o i c|k m r c].
  - cbn [exec] in *. destruct (createDeployment r l s) as [[d|x] s'] eqn:E; cbn [snd] in *.
    + apply createDeployment_Ok in E as [->|(src & -> & Hd & Ht & _)]; [apply extends_refl|].
      apply extends_frame; eauto.
    + apply createDeployment_Err in E as ->. apply extends_refl.
  - destruct (addProduct_frame p s) as (? & ? & _). by apply Hsame.
  - destruct (appendEvidence_frame e s) as (? & ? & _). by apply Hsame.
  - cbn [exec] in *. destruct (transition i s) as [[t|x] s'] eqn:E; cbn [snd] in *;
      [|apply transition_Err in E as ->; apply extends_refl].
    apply transition_Ok in E as [_ [(-> & _)|(d & _ & Hg & Hc & _ & -> & _)]]; [apply extends_refl|].
    pose proof (recorded_rows s i d Hwf Hg Hc) as Hrows.
    pose proof (check_transition_Ok _ _ _ Hc) as (Hterm & _ & _ & Hseq & _).
    constructor; [|done|done|]; unfold recorded; cbn [with_deployments with_transitions deployments deployment_transitions].
    + by eexists.
    + intros q Hq. exists (if cas_where i q then advanced i d q else q).
      split; [by apply list_elem_of_In, in_map_iff; exists q; split; [|apply list_elem_of_In]|].
      destruct (Hrows q Hq) as [Hw Hu]. destruct (cas_where i q); [|split_and!; [done|done|lia|done]].
      symmetry in Hw. bool_inv. rewrite (Hu Hw) in *. cbn. split_and!; [done|done|lia|congruence].
  - destruct (reserveIntent_frame k m o i c s) as (? & ?). by apply Hsame.
  - destruct (completeIntent_frame k m r c s) as (? & ?). by apply Hsame.
Qed.

Lemma run_extends trace s : wf s -> extends s (run trace s).
Proof using.
  intros Hwf. enough (wf (run trace s) /\ extends s (run trace s)) by tauto.
  apply run_ind; [|by split; [|apply extends_refl]].
  intros s' o [Hw He]. split; [by apply wf_exec|]. eapply extends_trans; [exact He|by apply exec_extends].
Qed.
End Proofs.

(** ** The properties *)

Section Properties.
Context {C : Crypto} {D : Dates} {Lo : Locale}.

Lemma prior_attempt_app input s s' t :
  (exists k, deployment_transitions s' = deployment_transitions s ++ k) ->
  prior_attempt input s = Some t -> prior_attempt input s' = Some t.
Proof using.
  unfold prior_attempt. intros [k ->]. induction (deployment_transitions s) as [|x l IH]; [done|].
  cbn. destruct (_ && _); auto.
Qed.

Lemma transition_attempted input s t s' :
  transition input s = (Ok t, s') ->
  prior_attempt input s' = Some t /\ intentDigest t = intent_digest input.
Proof using.
  intros H. apply transition_Ok in H as [_ [(-> & Hp & He)|(d & Hp & Hg & _ & -> & -> & _)]]; [done|].
  split; [|done]. unfold prior_attempt, recorded in *. cbn [with_deployments with_transitions deployment_transitions].
  rewrite find_app_None by exact Hp. cbn. by rewrite !bool_decide_eq_true_2.
Qed.

Lemma transition_replays input s t :
  validateTransitionInput input = Ok tt -> prior_attempt input s = Some t ->
  transition input s = if intentDigest t === intent_digest input then (Ok t, s) else (Err idempotency_conflict, s).
Proof using.
  intros Hv Hp. unfold transition. rewrite lift_bind_cases, Hv. unfold transaction. rewrite bindM_eq.
  cbn [get_state]. rewrite Hp. by destruct (intentDigest t === intent_digest input).
Qed.

(** C5: the ledger refines the state machine.  After any sequence of operations on an empty
    database, the record of each deployment is what its recorded transitions make of its initial
    record, digests included; each of them was allowed by the state machine where it was taken, so
    the deployment is in a state the machine reaches; and their sequence numbers are 1, 2, 3, ... *)
Theorem ledger_refines_machine (trace : list db_op) (d : DeploymentRecord) :
  let s := run trace empty_ledger in
  let trs := transitions_of (id_of d) s in
  d ∈ deployments s ->
  history (initial_record (request d) (sourceSetDigest d)) trs d /\
  reachable (rev (requested :: List.map (fun t => nextState (t_input t)) trs)) (state d, guardArmed d) /\
  stateSequence d = Z.of_nat (length trs) /\ terminal d = has TERMINAL_STATES (state d) /\
  forall i t, trs !! i = Some t -> sequence t = Z.of_nat i + 1.
Proof using.
  cbn zeta. intros Hd. pose proof (wf_history _ (wf_run trace) d Hd) as Hh.
  pose proof (history_sequence _ _ _ _ Hh) as (H1 & H2 & H3).
  split_and!; [exact Hh|by eapply history_reachable|exact H1|exact H2|].
  intros i t Hi. by apply H3.
Qed.

(** a transition is recorded exactly once.  After it returned, repeating the call with the same
    input returns the same record and changes nothing, whatever happened in between, and a call with
    the same idempotency key and another intent is refused. *)
Theorem transition_exactly_once (s : Ledger) (input : DeploymentTransitionInput)
    (t : DeploymentTransitionRecord) (s1 : Ledger) (trace : list db_op) :
  wf s -> transition input s = (Ok t, s1) ->
  let s2 := run trace s1 in
  transition input s2 = (Ok t, s2) /\
  forall other, validateTransitionInput other = Ok tt ->
    ti_deploymentId other = ti_deploymentId input -> ti_idempotencyKey other = ti_idempotencyKey input ->
    intent_digest other <> intent_digest input -> transition other s2 = (Err idempotency_conflict, s2).
Proof using.
  cbn zeta. intros Hwf H. pose proof (transition_Ok _ _ _ _ H) as [Hv _].
  pose proof (transition_attempted _ _ _ _ H) as [Hp He].
  assert (Hwf1 : wf s1) by (pose proof (wf_exec s (op_transition input) Hwf) as Hw; cbn in Hw; by rewrite H in Hw).
  pose proof (prior_attempt_app _ _ (run trace s1) _ (ext_transitions _ _ (run_extends trace s1 Hwf1)) Hp) as Hp2.
  split.
  - rewrite (transition_replays input _ t Hv Hp2). by rewrite bool_decide_eq_true_2.
  - intros other Hvo Hid Hkey Hne.
    assert (Hpo : prior_attempt other (run trace s1) = Some t)
      by (unfold prior_attempt in *; by rewrite Hid, Hkey).
    rewrite (transition_replays other _ t Hvo Hpo), He. by rewrite bool_decide_eq_false_2 by congruence.
Qed.

(** the compare-and-swap has one winner: in every database, two recorded transitions of one
    deployment that expected the same sequence number are the same transition. *)
Theorem cas_one_winner (trace : list db_op) (t1 t2 : DeploymentTransitionRecord) :
  let s := run trace empty_ledger in
  t1 ∈ deployment_transitions s -> t2 ∈ deployment_transitions s ->
  ti_deploymentId (t_input t1) = ti_deploymentId (t_input t2) ->
  expectedSequence (t_input t1) = expectedSequence (t_input t2) -> t1 = t2.
Proof using.
  cbn zeta. intros H1 H2 Hid Hseq. pose proof (wf_run trace) as Hwf.
  pose proof (wf_foreign _ Hwf t1 H1) as Hd.
  apply list_elem_of_In, in_map_iff in Hd as (d & Hdid & Hd%list_elem_of_In).
  pose proof (history_sequence _ _ _ _ (wf_history _ Hwf d Hd)) as (_ & _ & Hs).
  assert (Hin : forall t, t ∈ deployment_transitions (run trace empty_ledger) ->
    ti_deploymentId (t_input t) = id_of d -> t ∈ transitions_of (id_of d) (run trace empty_ledger)).
  { intros t Ht Ht'. apply list_elem_of_In, filter_In. split; [by apply list_elem_of_In|by apply bool_decide_eq_true_2]. }
  destruct (list_elem_of_lookup_1 _ _ (Hin t1 H1 (eq_sym Hdid))) as [i Hi].
  destruct (list_elem_of_lookup_1 _ _ (Hin t2 H2 ltac:(congruence))) as [j Hj].
  pose proof (Hs i t1 Hi) as [_ E1]. pose proof (Hs j t2 Hj) as [_ E2].
  assert (i = j) as <- by lia. congruence.
Qed.

(** the ledger is append-only.  Whatever operations follow, recorded transitions, evidence and
    products stay as they are, in order; a deployment keeps its request and its sources, its
    sequence number never goes back, and a terminal deployment never changes again. *)
Theorem ledger_append_only (s : Ledger) (trace : list db_op) :
  wf s -> extends s (run trace s).
Proof using. apply run_extends. Qed.

(** the transitions on record are justified: in every database, each recorded transition has
    all its evidence in the ledger, the evidence kinds its target requires among them, and each
    terminal one is signed with Ed25519. *)
Theorem transitions_justified (trace : list db_op) (t : DeploymentTransitionRecord) :
  let s := run trace empty_ledger in
  t ∈ deployment_transitions s ->
  (forall r, r ∈ evidence (t_input t) -> exists e, e ∈ deployment_evidence s /\
     e_deploymentId e = ti_deploymentId (t_input t) /\ e_digest e = digest r /\ e_kind e = kind r) /\
  (forall k, k ∈ REQUIRED_EVIDENCE (nextState (t_input t)) -> k ∈ List.map kind (evidence (t_input t))) /\
  (nextState (t_input t) ∈ TERMINAL_STATES ->
     signatureAlgorithm (t_input t) = Some "ed25519"%string /\
     given (signingKeyId (t_input t)) = true /\ given (signature (t_input t)) = true).
Proof using.
  cbn zeta. revert t.
  set (P s := forall t, t ∈ deployment_transitions s ->
    (forall r, r ∈ evidence (t_input t) -> exists e, e ∈ deployment_evidence s /\
       e_deploymentId e = ti_deploymentId (t_input t) /\ e_digest e = digest r /\ e_kind e = kind r) /\
    (forall k, k ∈ REQUIRED_EVIDENCE (nextState (t_input t)) -> k ∈ List.map kind (evidence (t_input t))) /\
    (nextState (t_input t) ∈ TERMINAL_STATES ->
       signatureAlgorithm (t_input t) = Some "ed25519"%string /\
       given (signingKeyId (t_input t)) = true /\ given (signature (t_input t)) = true)).
  change (P (run trace empty_ledger)). apply run_ind; [|by intros ? []%not_elem_of_nil].
  intros s o HP. pose proof (exec_tables s o) as [[k He] _].
  assert (Hsame : deployment_transitions (exec s o) = deployment_transitions s -> P (exec s o)).
  { intros Ht t Hin. rewrite Ht in Hin. destruct (HP t Hin) as (H1 & H2 & H3). split_and!; [|done|done].
    intros r Hr. destruct (H1 r Hr) as (e & Hin' & Hrest). exists e. split; [|done].
    rewrite He. apply elem_of_app. by left. }
  destruct o as [r l|p|e|i|k' m o i c|k' m r c]; cbn [exec] in *.
  - destruct (createDeployment r l s) as [[d|x] s'] eqn:E; cbn [snd] in *.
    + apply createDeployment_Ok in E as [->|(src & -> & Hd & Ht & _)]; [done|]. by apply Hsame.
    + by apply createDeployment_Err in E as ->.
  - destruct (addProduct_frame p s) as (_ & ? & _). by apply Hsame.
  - destruct (appendEvidence_frame e s) as (_ & ? & _). by apply Hsame.
  - destruct (transition i s) as [[t|x] s'] eqn:E; cbn [snd] in *; [|by apply transition_Err in E as ->].
    apply transition_Ok in E as [_ [(-> & _)|(d & _ & Hg & Hc & _ & -> & _)]]; [done|].
    intros t' Hin. unfold recorded in *. cbn [with_deployments with_transitions deployment_transitions deployment_evidence] in *.
    apply elem_of_app in Hin as [Hin|[->|[]%not_elem_of_nil]%elem_of_cons]; [by apply HP|].
    apply check_transition_Ok in Hc as (_ & _ & _ & _ & [rule Hrule] & _ & Hev & Hsig & _).
    apply assertTransitionAllowed_Ok in Hrule as (_ & _ & Hreq & _).
    cbn [transition_row t_input]. split_and!; [|done|done].
    intros q Hq. unfold evidence_recorded in Hev. rewrite forallb_forall in Hev.
    apply list_elem_of_In, Hev, existsb_exists in Hq as (ev & Hin & Hm). bool_inv. exists ev.
    split; [by apply list_elem_of_In|done].
  - destruct (reserveIntent_frame k' m o i c s) as (_ & ?). by apply Hsame.
  - destruct (completeIntent_frame k' m r c s) as (_ & ?). by apply Hsame.
Qed.

(** every operation is atomic: a call that throws, for whatever reason and at whatever
    statement, leaves the database as it was. *)
Theorem operations_atomic (s : Ledger) :
  (forall r l e s', createDeployment r l s = (Err e, s') -> s' = s) /\
  (forall p e s', addProduct p s = (Err e, s') -> s' = s) /\
  (forall v e s', appendEvidence v s = (Err e, s') -> s' = s) /\
  (forall i e s', transition i s = (Err e, s') -> s' = s) /\
  (forall k m o i c e s', reserveIntent k m o i c s = (Err e, s') -> s' = s) /\
  (forall k m r c e s', completeIntent k m r c s = (Err e, s') -> s' = s).
Proof using.
  split_and!.
  - intros r l e s'. apply createDeployment_Err.
  - intros p e s'. apply lift_transaction_Err. intros ? ? ?. apply transaction_Err.
  - intros v e s'. apply lift_transaction_Err. intros ? ? ?. apply transaction_Err.
  - intros i e s'. apply transition_Err.
  - intros k m o i c e s'. apply lift_transaction_Err. intros ? ? ?. rewrite bindM_eq.
    destruct (check_deployment_cases i s) as [-> | ->]; [apply transaction_Err|by intros [= <- <-]].
  - intros k m r c e s'. apply lift_transaction_Err. intros ? ? ?. rewrite bindM_eq.
    destruct (canonicalJson r); cbn [mret M_ret throw]; [apply transaction_Err|by intros [= <- <-]].
Qed.
End Properties.

Section Intents.
Context {C : Crypto} {D : Dates} {Lo : Locale}.

Lemma find_snoc_intent key l r :
  List.find (fun q => i_idempotencyKey q === key) l = None -> i_idempotencyKey r = key ->
  List.find (fun q => i_idempotencyKey q === key) (l ++ [r]) = Some r.
Proof using. intros Hf Hr. rewrite find_app_None by done. cbn. by rewrite bool_decide_eq_true_2. Qed.

(** What [reserveIntent] returns for a key on record. *)
Lemma reserveIntent_known k m o i c s x :
  is_ok (_ ← assertIdempotencyKey k; _ ← assertDigest m; _ ← assertIdentifier o; assertTimestamp c) = true ->
  check_deployment i s = (Ok tt, s) ->
  List.find (fun q => i_idempotencyKey q === k) (request_intents s) = Some x ->
  reserveIntent k m o i c s =
    (if semanticDigest x !== m then Ok (ir_conflict (semanticDigest x))
     else if i_status x === intent_pending then Ok ir_pending
     else match resultJson x, resultDigest x with
          | Some j, Some d => if truthy_str j && truthy_str d then Ok (ir_completed d j)
                              else Err deployment_integrity_failed
          | _, _ => Err deployment_integrity_failed
          end, s).
Proof using.
  intros Hv Hc Hf. unfold reserveIntent. rewrite lift_bind_cases. destruct (_ ≫= _) as [[]|]; [|done].
  rewrite bindM_eq, Hc. unfold transaction. rewrite bindM_eq. cbn [get_state]. rewrite Hf.
  destruct (semanticDigest x !== m); [done|]. destruct (i_status x === intent_pending); [done|].
  destruct (resultJson x), (resultDigest x); try done. by destruct (_ && _).
Qed.

Lemma check_deployment_same i s s' :
  deployments s' = deployments s -> check_deployment i s = (Ok tt, s) -> check_deployment i s' = (Ok tt, s').
Proof using.
  unfold check_deployment. intros Hd. destruct i as [j|]; [|done]. destruct (truthy_str j); [|done].
  unfold getDeploymentRequired. rewrite !bindM_eq. cbn. unfold getDeployment. rewrite Hd.
  destruct (List.find _ _); [done|]. intros [=].
Qed.

Lemma reserveIntent_reserved k m o i c s s1 :
  reserveIntent k m o i c s = (Ok ir_reserved, s1) ->
  is_ok (_ ← assertIdempotencyKey k; _ ← assertDigest m; _ ← assertIdentifier o; assertTimestamp c) = true /\
  check_deployment i s = (Ok tt, s) /\
  List.find (fun q => i_idempotencyKey q === k) (request_intents s) = None /\
  s1 = with_intents (request_intents s ++ [{| i_idempotencyKey := k; semanticDigest := m; operation := o;
          i_deploymentId := i; i_status := intent_pending; resultDigest := None; resultJson := None;
          i_createdAt := c; completedAt := None |}]) s.
Proof using.
  unfold reserveIntent. rewrite lift_bind_cases. destruct (_ ≫= _) as [[]|]; [|done]. intros H. split; [done|].
  rewrite bindM_eq in H. destruct (check_deployment_cases i s) as [Hc|Hc]; rewrite Hc in *; [|done].
  unfold insert_intent in H. split; [done|]. by m_split.
Qed.

Lemma find_update_intent k (g : RequestIntent -> RequestIntent) l x :
  (forall r, i_idempotencyKey (g r) = i_idempotencyKey r) ->
  List.find (fun q => i_idempotencyKey q === k) l = Some x -> i_status x = intent_pending ->
  List.find (fun q => i_idempotencyKey q === k)
    (List.map (fun r => if (i_idempotencyKey r === k) && (i_status r === intent_pending) then g r else r) l)
  = Some (g x).
Proof using.
  intros Hg. induction l as [|r l IH]; [done|]. cbn [List.find List.map].
  destruct (i_idempotencyKey r === k) eqn:E; intros Hf Hs.
  - injection Hf as ->. rewrite Hs. cbn [andb].
    rewrite (bool_decide_eq_true_2 (intent_pending = intent_pending)) by done. by rewrite Hg, E.
  - cbn [andb]. rewrite E. by apply IH.
Qed.

(** the life of a request intent.  A reserved key is pending for the request it was reserved
    with and conflicts with every other one; once it is completed, a repeated reservation returns the
    canonical text of the result and its digest, completing it again with the same result is
    accepted, and with a result of another digest refused. *)
Theorem intent_protocol (k m o c : string) (i : option string) (s s1 : Ledger) :
  reserveIntent k m o i c s = (Ok ir_reserved, s1) ->
  reserveIntent k m o i c s1 = (Ok ir_pending, s1) /\
  (forall m', m' <> m -> DIGEST_PATTERN m' = true -> reserveIntent k m' o i c s1 = (Ok (ir_conflict m), s1)) /\
  forall result c' d s2, completeIntent k m result c' s1 = (Ok d, s2) ->
    exists text, canonicalJson result = Some text /\ d = sha256Hex text /\
    (text <> ""%string -> d <> ""%string -> reserveIntent k m o i c s2 = (Ok (ir_completed d text), s2)) /\
    completeIntent k m result c' s2 = (Ok d, s2) /\
    forall other text', canonicalJson other = Some text' -> sha256Hex text' <> d ->
      completeIntent k m other c' s2 = (Err idempotency_conflict, s2).
Proof using.
  intros H. apply reserveIntent_reserved in H as (Hv & Hc & Hf & ->).
  set (row := {| i_idempotencyKey := k |}). set (s1 := with_intents _ s).
  assert (Hf1 : List.find (fun q => i_idempotencyKey q === k) (request_intents s1) = Some row)
    by (apply find_snoc_intent; done).
  assert (Hc1 : check_deployment i s1 = (Ok tt, s1)) by (by apply (check_deployment_same i s)).
  split_and!.
  - rewrite (reserveIntent_known k m o i c s1 row Hv Hc1 Hf1). cbn [row semanticDigest i_status].
    by rewrite !bool_decide_eq_true_2.
  - intros m' Hm Hd. rewrite (reserveIntent_known k m' o i c s1 row); [|clear -Hv Hd|done|done].
    + cbn [row semanticDigest]. by rewrite bool_decide_eq_false_2.
    + unfold assertDigest in *. rewrite Hd. destruct (assertIdempotencyKey k) as [[]|]; [|done].
      cbn [mbind result_bind] in *. by destruct (DIGEST_PATTERN m).
  - intros result c' d s2 H. unfold completeIntent in H. rewrite lift_bind_cases in H.
    destruct (assertIdempotencyKey k ≫= (fun _ => assertDigest m ≫= (fun _ => assertTimestamp c')))
      as [[]|] eqn:Hv'; [|done]. rewrite bindM_eq in H.
    destruct (canonicalJson result) as [text|] eqn:Ht; [|done]. cbn [mret M_ret] in H.
    apply transaction_Ok_inv in H. rewrite bindM_eq in H. cbn [get_state] in H. rewrite Hf1 in H.
    cbn [row semanticDigest i_status] in H. unfold update_intents in H. m_split.
    set (g r := {| i_idempotencyKey := i_idempotencyKey r; semanticDigest := semanticDigest r;
               operation := operation r; i_deploymentId := i_deploymentId r; i_status := intent_completed;
               resultDigest := Some (sha256Hex text); resultJson := Some text; i_createdAt := i_createdAt r;
               completedAt := Some c' |}).
    pose proof (find_update_intent k g _ row ltac:(done) Hf1 eq_refl) as Hf2.
    set (s2 := with_intents _ s1).
    assert (Hf2' : List.find (fun q => i_idempotencyKey q === k) (request_intents s2) = Some (g row)) by exact Hf2.
    exists text. split_and!; [done|done| | |].
    + intros Ht' Hd'. rewrite (reserveIntent_known k m o i c s2 (g row)); [|done| |done].
      * cbn [g row semanticDigest i_status resultJson resultDigest].
        rewrite !bool_decide_eq_true_2 by done. cbn [negb]. unfold truthy_str.
        by rewrite !bool_decide_eq_false_2.
      * by apply (check_deployment_same i s).
    + unfold completeIntent. rewrite lift_bind_cases, Hv', bindM_eq, Ht. cbn [mret M_ret].
      unfold transaction. rewrite bindM_eq. cbn [get_state]. rewrite Hf2'.
      cbn [g row semanticDigest i_status resultDigest]. rewrite bindM_eq. unfold guardM, lift.
      by rewrite !bool_decide_eq_true_2.
    + intros other text' Ho Hne. unfold completeIntent. rewrite lift_bind_cases, Hv', bindM_eq, Ho. cbn [mret M_ret].
      unfold transaction. rewrite bindM_eq. cbn [get_state]. rewrite Hf2'.
      cbn [g row semanticDigest i_status resultDigest]. rewrite bindM_eq. unfold guardM, lift.
      rewrite !bool_decide_eq_true_2 by done. cbn [require].
      rewrite bool_decide_eq_false_2; [done|congruence].
Qed.
End Intents.

(** ** Witnesses *)

Section Witnesses.
#[local] Existing Instance toy_crypto.
#[local] Existing Instance toy_dates.
#[local] Existing Instance toy_locale.

Definition toy_digest (s : string) : string := toy_sha s.

Definition toy_deployment : DeploymentRequestRecord := {|
  deploymentId := "d-1"; generation := 1; machineId := "m-1"; planDigest := toy_digest "plan";
  requestDigest := toy_digest "request"; deadline := "9000"; requestedAt := "1000"; requestedBy := "owner";
  idempotencyKey := "key-create"
|}.

Definition toy_source (p : DeploymentProduct) : DeploymentSourceRecord := {|
  s_deploymentId := "d-1"; s_product := p; s_repository := canonical_repository p;
  s_commit := toy_digest "commit"; s_tree := toy_digest "tree"
|}.

Definition toy_evidence : DeploymentEvidenceRecord := {|
  e_deploymentId := "d-1"; e_digest := toy_digest "e"; e_kind := "request.validated"; contentLength := 1;
  artifactReference := "artifact:sha256:" +:+ toy_digest "e"; redacted := true;
  e_signatureAlgorithm := "ed25519"; e_signingKeyId := "key-1"; e_signature := toy_digest "sig";
  e_createdAt := "1500"
|}.

Definition toy_input : DeploymentTransitionInput := {|
  ti_deploymentId := "d-1"; ti_generation := 1; expectedState := requested; expectedSequence := 0;
  nextState := source_resolving; ti_idempotencyKey := "key-step";
  evidence := [{| kind := "request.validated"; digest := toy_digest "e" |}]; actor := "owner"; occurredAt := "2000";
  reason := None; guardStatus := None; ti_successMarkerDigest := None; signatureAlgorithm := None;
  signingKeyId := None; signature := None
|}.

Definition toy_trace : list db_op :=
  [op_create toy_deployment [toy_source baby_quirt_mcp; toy_source baby_quirt]; op_evidence toy_evidence;
   op_transition toy_input].

Definition toy_ledger : Ledger := run toy_trace empty_ledger.

Definition toy_initial : DeploymentRecord :=
  initial_record toy_deployment (digest_of (JArr (List.map source_json [toy_source baby_quirt; toy_source baby_quirt_mcp]))).
Definition toy_row : DeploymentTransitionRecord := transition_row toy_input toy_initial.
Definition toy_record : DeploymentRecord := advanced toy_input toy_initial toy_initial.

Lemma toy_record_stored : toy_record ∈ deployments toy_ledger.
Proof. decided. vm_compute. reflexivity. Qed.

Lemma toy_row_stored : toy_row ∈ deployment_transitions toy_ledger.
Proof. decided. vm_compute. reflexivity. Qed.

Lemma ledger_refines_machine_witness : stateSequence toy_record = 1 /\
  stateSequence toy_record = Z.of_nat (length (transitions_of (id_of toy_record) toy_ledger)).
Proof.
  split; [vm_compute; reflexivity|].
  exact (proj1 (proj2 (proj2 (ledger_refines_machine toy_trace toy_record toy_record_stored)))).
Defined.

Definition toy_before : Ledger := run (take 2 toy_trace) empty_ledger.

Lemma transition_exactly_once_witness :
  transition toy_input (run [] toy_ledger) = (Ok toy_row, run [] toy_ledger).
Proof.
  refine (proj1 (transition_exactly_once toy_before toy_input toy_row toy_ledger [] _ _)).
  - apply wf_run.
  - vm_compute. reflexivity.
Defined.

Lemma cas_one_winner_witness : toy_row = toy_row.
Proof.
  exact (cas_one_winner toy_trace toy_row toy_row toy_row_stored toy_row_stored eq_refl eq_refl).
Defined.

Lemma ledger_append_only_witness : extends toy_before (run (drop 2 toy_trace) toy_before).
Proof. apply (ledger_append_only toy_before (drop 2 toy_trace)). apply wf_run. Defined.

Lemma transitions_justified_witness : exists e, e ∈ deployment_evidence toy_ledger /\
  e_deploymentId e = "d-1"%string /\ e_digest e = toy_digest "e" /\ e_kind e = "request.validated"%string.
Proof.
  apply (proj1 (transitions_justified toy_trace toy_row toy_row_stored)
           {| kind := "request.validated"; digest := toy_digest "e" |}).
  left.
Defined.

Definition toy_reserved : Ledger :=
  snd (reserveIntent "key-intent" (toy_digest "i") "baby.deploy" None "1000" empty_ledger).

Lemma intent_protocol_witness :
  reserveIntent "key-intent" (toy_digest "i") "baby.deploy" None "1000" toy_reserved = (Ok ir_pending, toy_reserved).
Proof.
  refine (proj1 (intent_protocol "key-intent" (toy_digest "i") "baby.deploy" "1000" None empty_ledger toy_reserved _)).
  vm_compute. reflexivity.
Defined.
End Witnesses.
