(* ===== verification/ControllerContract.v ===== *)
(** * The records of the rollback controller ([src/controller/types.ts], [src/controller/contract.ts])

    The signed guard, success and evidence records as JSON values of unknown origin, with the exact
    checks of the code; a record the code builds is accepted by the code that verifies it. *)

From S2P Require Import Prelude Bytes Json Platform Canonical.

#[global] Open Scope Z_scope.

(** Source: src/controller/types.ts:127-150 (ControllerErrorCode, ControllerError) *)
Inductive ControllerError :=
| controller_invalid_record | controller_signature_invalid | controller_machine_mismatch
| controller_generation_conflict | controller_active_guard_conflict | controller_pointer_mismatch
| controller_deadline_invalid | controller_marker_mismatch | controller_not_found
| controller_lock_busy | controller_integrity_failed | controller_rollback_failed
| host_error.

#[global] Instance ControllerError_eq_dec : EqDecision ControllerError.
Proof. solve_decision. Defined.

(** Source: src/controller/types.ts:5-12 (ControllerDisposition) *)
Inductive ControllerDisposition :=
| armed | pending | success_marker_valid | disarmed | stale_generation | rolled_back | rollback_failed.

#[global] Instance ControllerDisposition_eq_dec : EqDecision ControllerDisposition.
Proof. solve_decision. Defined.

Definition disposition_name (d : ControllerDisposition) : string :=
  match d with
  | armed => "armed" | pending => "pending" | success_marker_valid => "success_marker_valid"
  | disarmed => "disarmed" | stale_generation => "stale_generation" | rolled_back => "rolled_back"
  | rollback_failed => "rollback_failed"
  end.

Definition dispositions : list ControllerDisposition :=
  [armed; pending; success_marker_valid; disarmed; stale_generation; rolled_back; rollback_failed].

(** Source: src/controller/types.ts:3-3 (CONTROLLER_RECORD_VERSION) *)
Definition CONTROLLER_RECORD_VERSION : string := "2.0.0".

Abbreviation CR A := (result ControllerError A).

(** [fail] of the source unless the test holds.
    Source: src/controller/contract.ts:24-26 (fail) *)
Definition ensure (b : bool) : CR unit := require b controller_invalid_record.

Definition name_char (c : ascii) : bool := is_alnum c || one_of "._-" c.

(** The rest of a path after a slash ([fresh]) or after a name character. *)
Fixpoint path_rest (fresh : bool) (l : list ascii) : bool :=
  match l with
  | [] => true
  | c :: l => if name_char c then path_rest false l
              else if bool_decide (c = "/"%char) then negb fresh && path_rest true l
              else false
  end.

(** Source: src/controller/contract.ts:22-22 (ABSOLUTE_PATH) *)
Definition ABSOLUTE_PATH (s : string) : bool :=
  match chars s with
  | c :: d :: l => bool_decide (c = "/"%char) && path_rest true (d :: l)
  | _ => false
  end.

(** Source: src/controller/contract.ts:40-44 (assertObject) *)
Definition assertObject (v : json) : CR (props json) :=
  match v with JObj kvs => Ok kvs | _ => Err controller_invalid_record end.

(** Source: src/controller/contract.ts:28-38 (assertExactKeys) *)
Definition assertExactKeys (kvs : props json) (required : list string) : CR unit :=
  ensure (sort_strings (keys kvs) === sort_strings required).

Definition is_string (v : json) (p : string -> bool) : bool :=
  match v with JStr s => p s | _ => false end.

(** Source: src/controller/contract.ts:46-48 (assertIdentifier) *)
Definition assertIdentifier (v : json) : CR unit := ensure (is_string v IDENTIFIER_PATTERN).

(** Source: src/controller/contract.ts:50-52 (assertDigest) *)
Definition assertDigest (v : json) : CR unit := ensure (is_string v DIGEST_PATTERN).

(** Source: src/controller/contract.ts:54-60 (assertTimestamp) *)
Definition assertTimestamp {D : Dates} (v : json) : CR unit := ensure (is_string v canonical_timestamp).

(** Source: src/controller/contract.ts:62-67 (assertManifestDigests) *)
Definition assertManifestDigests (v : json) : CR unit :=
  kvs ← assertObject v;
  _ ← assertExactKeys kvs ["baby"; "gateway"]%string;
  _ ← assertDigest (prop "baby" kvs);
  assertDigest (prop "gateway" kvs).

Definition normalized_path (s : string) : bool := ABSOLUTE_PATH s && negb (includes s "..").

(** Source: src/controller/contract.ts:69-81 (assertPointer) *)
Definition assertPointer (v : json) : CR unit :=
  kvs ← assertObject v;
  _ ← assertExactKeys kvs ["link"; "target"]%string;
  _ ← ensure (is_string (prop "link" kvs) normalized_path);
  ensure ((prop "target" kvs === JNull) || is_string (prop "target" kvs) normalized_path).

Definition product_root (product : string) : string :=
  if product === "baby"%string then "/opt/baby-quirt/" else "/opt/baby-quirt-mcp/".

Definition check_pointer_shape (value : props json) (product : string) : CR unit :=
  pointers ← assertObject (prop product value);
  _ ← assertExactKeys pointers ["current"; "previous"]%string;
  _ ← assertPointer (prop "current" pointers);
  assertPointer (prop "previous" pointers).

Definition check_pointer_links (value : props json) (product : string) : CR unit :=
  let pointers := prop product value in
  let current := field "current" pointers in
  let previous := field "previous" pointers in
  let prefix := product_root product +:+ "releases/" in
  _ ← ensure ((field "link" current === JStr (product_root product +:+ "current")) &&
              (field "link" previous === JStr (product_root product +:+ "previous")));
  _ ← ensure (is_string (field "target" current) (fun t => startsWith t prefix));
  ensure ((field "target" previous === JNull) ||
          is_string (field "target" previous) (fun t => startsWith t prefix)).

(** Source: src/controller/contract.ts:83-120 (assertExpectedPointers) *)
Definition assertExpectedPointers (v : json) : CR unit :=
  value ← assertObject v;
  _ ← assertExactKeys value ["baby"; "gateway"]%string;
  _ ← check_pointer_shape value "baby";
  _ ← check_pointer_shape value "gateway";
  _ ← check_pointer_links value "baby";
  check_pointer_links value "gateway".

(** The release name after the prefix: not one of the reserved versions, and a plain name. *)
Definition candidate_target (product : string) (s : string) : bool :=
  let prefix := product_root product +:+ "releases/" in
  let name := slice_from s (String.length prefix) in
  startsWith s prefix && negb (bool_decide (name = "0.2.1"%string)) &&
  negb (bool_decide (name = "0.2.2"%string)) && negb (bool_decide (name = ""%string)) &&
  all_chars name_char name.

(** Source: src/controller/contract.ts:122-134 (assertCandidatePointerTargets) *)
Definition assertCandidatePointerTargets (v : json) : CR unit :=
  kvs ← assertObject v;
  _ ← assertExactKeys kvs ["baby"; "gateway"]%string;
  _ ← ensure (is_string (prop "baby" kvs) (candidate_target "baby"));
  ensure (is_string (prop "gateway" kvs) (candidate_target "gateway")).

(** Source: src/controller/contract.ts:136-149 (assertIdentityPayload) *)
Definition assertIdentityPayload (v : props json) : CR unit :=
  _ ← ensure (prop "recordVersion" v === JStr CONTROLLER_RECORD_VERSION);
  _ ← assertIdentifier (prop "deploymentId" v);
  _ ← ensure (match prop "generation" v with JNum g => isSafeInteger g && (1 <=? g) | _ => false end);
  _ ← assertIdentifier (prop "machineId" v);
  _ ← assertDigest (prop "planDigest" v);
  _ ← assertDigest (prop "snapshotDigest" v);
  _ ← assertManifestDigests (prop "candidateManifestDigests" v);
  _ ← assertCandidatePointerTargets (prop "candidatePointerTargets" v);
  _ ← assertIdentifier (prop "signingKeyId" v);
  ensure (prop "signatureAlgorithm" v === JStr "ed25519").

(** Source: src/controller/contract.ts:151-154 (assertCommonPayload) *)
Definition assertCommonPayload (v : props json) : CR unit :=
  _ ← assertIdentityPayload v;
  assertDigest (prop "evidenceDigest" v).

(** Source: src/controller/contract.ts:156-160 (GUARD_PAYLOAD_KEYS) *)
Definition GUARD_PAYLOAD_KEYS : list string :=
  ["recordVersion"; "recordType"; "deploymentId"; "generation"; "machineId"; "planDigest"; "snapshotDigest";
   "candidateManifestDigests"; "candidatePointerTargets"; "expectedPointers"; "deadline"; "evidenceDigest";
   "signingKeyId"; "signatureAlgorithm"]%string.

(** Source: src/controller/contract.ts:162-166 (SUCCESS_PAYLOAD_KEYS) *)
Definition SUCCESS_PAYLOAD_KEYS : list string :=
  ["recordVersion"; "recordType"; "deploymentId"; "generation"; "machineId"; "planDigest"; "snapshotDigest";
   "candidateManifestDigests"; "candidatePointerTargets"; "evidenceDigest"; "acceptedAt"; "signingKeyId";
   "signatureAlgorithm"]%string.

(** Source: src/controller/contract.ts:168-172 (EVIDENCE_PAYLOAD_KEYS) *)
Definition EVIDENCE_PAYLOAD_KEYS : list string :=
  ["recordVersion"; "recordType"; "deploymentId"; "generation"; "machineId"; "planDigest"; "snapshotDigest";
   "candidateManifestDigests"; "candidatePointerTargets"; "disposition"; "detailsDigest"; "occurredAt";
   "signingKeyId"; "signatureAlgorithm"]%string.


Section Contract.
Context {C : Crypto} {D : Dates}.

(** Source: src/controller/contract.ts:174-185 (signedRecord) *)
Definition signedRecord (payload : props json) (privateKey : PrivateKey) : props json :=
  let recordDigest := sha256Hex (canonical_obj payload) in
  let document := canonical_obj (payload ++ [("recordDigest"%string, JStr recordDigest)]) in
  payload ++ [("recordDigest", JStr recordDigest); ("signature", JStr (signEd25519 document privateKey))]%string.

(** Source: src/controller/contract.ts:187-205 (verifyRecordSignature) *)
Definition verifyRecordSignature (v : props json) (payloadKeys : list string) (publicKey : PublicKey) : CR unit :=
  _ ← assertDigest (prop "recordDigest" v);
  signature ← match prop "signature" v with
    | JStr s => if (String.length s <? 32)%nat then Err controller_invalid_record else Ok s
    | _ => Err controller_invalid_record
    end;
  let payload := select payloadKeys v in
  let expectedDigest := sha256Hex (canonical_obj payload) in
  _ ← require (prop "recordDigest" v === JStr expectedDigest) controller_integrity_failed;
  let document := canonical_obj (payload ++ [("recordDigest"%string, prop "recordDigest" v)]) in
  require (verifyEd25519 document signature publicKey) controller_signature_invalid.

(** Source: src/controller/contract.ts:215-221 (assertGuardPayload) *)
Definition assertGuardPayload (v : props json) : CR unit :=
  _ ← assertExactKeys v GUARD_PAYLOAD_KEYS;
  _ ← assertCommonPayload v;
  _ ← ensure (prop "recordType" v === JStr "baby-quirt-deployment-guard");
  _ ← assertExpectedPointers (prop "expectedPointers" v);
  assertTimestamp (prop "deadline" v).

(** Source: src/controller/contract.ts:243-248 (assertSuccessPayload) *)
Definition assertSuccessPayload (v : props json) : CR unit :=
  _ ← assertExactKeys v SUCCESS_PAYLOAD_KEYS;
  _ ← assertCommonPayload v;
  _ ← ensure (prop "recordType" v === JStr "baby-quirt-deployment-success");
  assertTimestamp (prop "acceptedAt" v).

(** Source: src/controller/contract.ts:270-280 (assertEvidencePayload) *)
Definition assertEvidencePayload (v : props json) : CR unit :=
  _ ← assertExactKeys v EVIDENCE_PAYLOAD_KEYS;
  _ ← assertIdentityPayload v;
  _ ← ensure (prop "recordType" v === JStr "baby-quirt-controller-evidence");
  _ ← ensure (existsb (fun d => js_String (prop "disposition" v) === disposition_name d) dispositions);
  _ ← assertDigest (prop "detailsDigest" v);
  assertTimestamp (prop "occurredAt" v).

(** The common body of the three functions that build a record and the three that verify one. *)
Definition build_signed (check : props json -> CR unit) (payload : props json) (k : PrivateKey) : CR (props json) :=
  _ ← check payload;
  Ok (signedRecord payload k).

Definition verify_signed (ks : list string) (check : props json -> CR unit) (v : json) (k : PublicKey)
    : CR (props json) :=
  value ← assertObject v;
  _ ← assertExactKeys value (ks ++ ["recordDigest"; "signature"]%string);
  _ ← check (select ks value);
  _ ← verifyRecordSignature value ks k;
  Ok value.

(** Source: src/controller/contract.ts:207-213 (buildSignedGuardRecord) *)
Definition buildSignedGuardRecord := build_signed assertGuardPayload.
(** Source: src/controller/contract.ts:223-233 (verifySignedGuardRecord) *)
Definition verifySignedGuardRecord := verify_signed GUARD_PAYLOAD_KEYS assertGuardPayload.
(** Source: src/controller/contract.ts:235-241 (buildSignedSuccessMarker) *)
Definition buildSignedSuccessMarker := build_signed assertSuccessPayload.
(** Source: src/controller/contract.ts:250-260 (verifySignedSuccessMarker) *)
Definition verifySignedSuccessMarker := verify_signed SUCCESS_PAYLOAD_KEYS assertSuccessPayload.
(** Source: src/controller/contract.ts:262-268 (buildSignedControllerEvidence) *)
Definition buildSignedControllerEvidence := build_signed assertEvidencePayload.
(** Source: src/controller/contract.ts:282-292 (verifySignedControllerEvidence) *)
Definition verifySignedControllerEvidence := verify_signed EVIDENCE_PAYLOAD_KEYS assertEvidencePayload.
End Contract.

(** The members that bind a success marker to its guard. *)
Definition bound_fields : list string :=
  ["deploymentId"; "generation"; "machineId"; "planDigest"; "snapshotDigest"]%string.

(** Source: src/controller/contract.ts:294-315 (assertMarkerMatchesGuard) *)
Definition assertMarkerMatchesGuard (marker guard : props json) : CR unit :=
  let nested o k v := field k (prop o v) in
  require (forallb (fun k => prop k marker === prop k guard) bound_fields &&
    (nested "candidateManifestDigests" "baby" marker === nested "candidateManifestDigests" "baby" guard) &&
    (nested "candidateManifestDigests" "gateway" marker === nested "candidateManifestDigests" "gateway" guard) &&
    (nested "candidatePointerTargets" "baby" marker === nested "candidatePointerTargets" "baby" guard) &&
    (nested "candidatePointerTargets" "gateway" marker === nested "candidatePointerTargets" "gateway" guard) &&
    (prop "evidenceDigest" marker === prop "evidenceDigest" guard))%string
    controller_marker_mismatch.

(** ** A built record is accepted *)

(** The three kinds of signed record. *)
Inductive record_kind := Guard | Success | Evidence.

Section Proofs.
Context {C : Crypto} {D : Dates}.

Definition kind_keys (r : record_kind) : list string :=
  match r with
  | Guard => GUARD_PAYLOAD_KEYS | Success => SUCCESS_PAYLOAD_KEYS | Evidence => EVIDENCE_PAYLOAD_KEYS
  end.

Definition kind_check (r : record_kind) : props json -> CR unit :=
  match r with
  | Guard => assertGuardPayload | Success => assertSuccessPayload | Evidence => assertEvidencePayload
  end.

Lemma assertExactKeys_Ok kvs required :
  NoDup required -> assertExactKeys kvs required = Ok tt <-> Permutation (keys kvs) required.
Proof using.
  intros Hn. unfold assertExactKeys, ensure. rewrite require_Ok, bool_decide_eq_true. split.
  - intros H. by rewrite <- (sort_strings_perm (keys kvs)), H, sort_strings_perm.
  - intros H. symmetry. by apply sort_strings_unique.
Qed.

(** A check that reads its argument by member names only. *)
Definition by_name (check : props json -> CR unit) : Prop :=
  forall v w, sort_strings (keys v) = sort_strings (keys w) -> (forall k, prop k v = prop k w) -> check v = check w.

Lemma kind_check_by_name r : by_name (kind_check r).
Proof using.
  intros v w Hk Hp. destruct r; cbn [kind_check];
    unfold assertGuardPayload, assertSuccessPayload, assertEvidencePayload, assertCommonPayload,
      assertIdentityPayload, assertExactKeys;
    rewrite Hk, !Hp; reflexivity.
Qed.

Lemma kind_check_keys r v : kind_check r v = Ok tt -> Permutation (keys v) (kind_keys r).
Proof using.
  intros H. apply assertExactKeys_Ok; [decided; destruct r; vm_compute; reflexivity|].
  destruct r; cbn [kind_check kind_keys] in *;
    [unfold assertGuardPayload in H|unfold assertSuccessPayload in H|unfold assertEvidencePayload in H];
    apply bind_Ok in H as ([] & H & _); exact H.
Qed.

Lemma build_verify (L : CryptoLaws C) (r : record_kind) (payload v : props json) (k : PrivateKey) :
  plain (JObj payload) = true ->
  build_signed (kind_check r) payload k = Ok v ->
  verify_signed (kind_keys r) (kind_check r) (JObj v) (public_half k) = Ok v.
Proof using.
  intros Hplain H. unfold build_signed in H. apply bind_Ok in H as ([] & Hc & [= <-]).
  pose proof (kind_check_keys r payload Hc) as Hkeys.
  pose proof (proj1 (plain_obj payload) Hplain) as (Hn & _ & _).
  set (d := sha256Hex (canonical_obj payload)).
  set (tail := [("recordDigest", JStr d);
    ("signature", JStr (signEd25519 (canonical_obj (payload ++ [("recordDigest", JStr d)])) k))]%string).
  change (signedRecord payload k) with (payload ++ tail).
  assert (Hnot : forall x, x ∈ ["recordDigest"; "signature"]%string -> x ∉ keys payload).
  { intros x Hx. rewrite Hkeys. revert Hx. clear.
    assert (H : forallb (fun x => negb (bool_decide (x ∈ kind_keys r))) ["recordDigest"; "signature"]%string = true)
      by (destruct r; vm_compute; reflexivity).
    rewrite forallb_forall in H. intros Hx%list_elem_of_In. apply H in Hx. by bool_inv. }
  assert (Hsel : Permutation (select (kind_keys r) (payload ++ tail)) payload).
  { assert (select (kind_keys r) (payload ++ tail) = select (kind_keys r) payload) as ->;
      [|by apply select_perm].
    unfold select. apply List.map_ext_in. intros x Hx%list_elem_of_In. f_equal. apply prop_app_l. by rewrite Hkeys. }
  assert (Hpsel : forall x, prop x (select (kind_keys r) (payload ++ tail)) = prop x payload).
  { intros x. destruct (decide (x ∈ kind_keys r)) as [Hx|Hx].
    - rewrite prop_select by done. apply prop_app_l. by rewrite Hkeys.
    - rewrite !prop_none; [done|by rewrite Hkeys|by rewrite keys_select]. }
  unfold verify_signed. cbn [assertObject mbind result_bind].
  assert (assertExactKeys (payload ++ tail) (kind_keys r ++ ["recordDigest"; "signature"]%string) = Ok tt) as ->.
  { apply assertExactKeys_Ok; [decided; destruct r; vm_compute; reflexivity|].
    unfold keys. rewrite List.map_app. by apply Permutation_app. }
  cbn [mbind result_bind].
  rewrite (kind_check_by_name r (select (kind_keys r) (payload ++ tail)) payload); [| |exact Hpsel].
  2: { rewrite keys_select. symmetry. by apply sort_strings_unique. }
  rewrite Hc. cbn [mbind result_bind].
  assert (Hd : prop "recordDigest" (payload ++ tail) = JStr d)
    by (rewrite prop_app_r by (apply Hnot; left); done).
  assert (Hs : prop "signature" (payload ++ tail) = snd (List.nth 1 tail ("", JNull))%string)
    by (rewrite prop_app_r by (apply Hnot; right; left); done).
  unfold verifyRecordSignature. rewrite Hd, Hs. cbn [snd List.nth tail].
  unfold assertDigest, ensure, is_string. assert (DIGEST_PATTERN d = true) as -> by apply sha256Hex_digest.
  cbn [require mbind result_bind].
  assert (Hlt : (String.length (signEd25519 (canonical_obj (payload ++ [("recordDigest"%string, JStr d)])) k) <? 32)%nat
    = false) by (apply Nat.ltb_ge, sign_length).
  rewrite Hlt. cbn [mbind result_bind].
  assert (Hcan : canonical_obj (select (kind_keys r) (payload ++ tail)) = canonical_obj payload)
    by (symmetry; by apply canonical_obj_perm).
  rewrite Hcan. fold d. rewrite bool_decide_eq_true_2 by done. cbn [require mbind result_bind].
  assert (canonical_obj (select (kind_keys r) (payload ++ tail) ++ [("recordDigest"%string, JStr d)])
    = canonical_obj (payload ++ [("recordDigest"%string, JStr d)])) as ->; [|by rewrite verify_sign].
  symmetry. apply canonical_obj_perm; [|by apply Permutation_app_tail].
  apply plain_obj in Hplain as (_ & Hpr & Hall). apply plain_obj.
  unfold keys in *. rewrite List.map_app. cbn [List.map fst]. split_and!.
  - apply NoDup_app. split_and!; [done| |repeat constructor; by apply not_elem_of_nil].
    intros x Hx [->|[]%not_elem_of_nil]%elem_of_cons. by apply (Hnot "recordDigest"%string); [left|].
  - rewrite elem_of_app, elem_of_cons. intros [?|[E|[]%not_elem_of_nil]]; [done|discriminate E].
  - apply Forall_app. split; [done|]. by repeat constructor.
Qed.
(** what the code signs, it accepts: for each kind of record, a record built from a payload
    (of plain values) and a private key is accepted under the public key, whatever the order of the
    payload's members. *)
Theorem built_record_verifies (L : CryptoLaws C) (r : record_kind) (payload v : props json) (k : PrivateKey) :
  plain (JObj payload) = true ->
  build_signed (kind_check r) payload k = Ok v ->
  verify_signed (kind_keys r) (kind_check r) (JObj v) (public_half k) = Ok v.
Proof using. apply build_verify. Qed.

(** What verification returns is the object it was given. *)
Lemma verify_signed_same ks check v k kvs : verify_signed ks check v k = Ok kvs -> v = JObj kvs.
Proof using.
  unfold verify_signed. destruct v; cbn [assertObject mbind result_bind]; try discriminate.
  intros (? & _ & (? & _ & (? & _ & [= <-])%bind_Ok)%bind_Ok)%bind_Ok. done.
Qed.

Lemma verify_signed_check ks check v k kvs :
  verify_signed ks check v k = Ok kvs -> check (select ks kvs) = Ok tt.
Proof using.
  intros H. pose proof (verify_signed_same _ _ _ _ _ H) as ->. revert H.
  unfold verify_signed. cbn [assertObject mbind result_bind].
  by intros (? & _ & ([] & H & _)%bind_Ok)%bind_Ok.
Qed.

(** The members of an identity payload are plain values. *)
Lemma is_string_plain v p : is_string v p = true -> plain v = true.
Proof using. by destruct v. Qed.

Lemma pair_plain kvs p q :
  assertExactKeys kvs ["baby"; "gateway"]%string = Ok tt ->
  is_string (prop "baby" kvs) p = true -> is_string (prop "gateway" kvs) q = true ->
  plain (JObj kvs) = true.
Proof using.
  intros Hk%assertExactKeys_Ok Hb Hg; [|by decided].
  assert (Hn : NoDup (keys kvs)) by (rewrite Hk; by decided).
  apply plain_obj. split_and!; [done|rewrite Hk; by decided|]. apply Forall_forall. intros [k x] Hx. cbn.
  assert (k ∈ ["baby"; "gateway"]%string) as Hin.
  { rewrite <- Hk. unfold keys. by apply (list_elem_of_fmap_2 fst kvs (k, x)). }
  rewrite <- (prop_elem k x kvs Hn Hx).
  apply elem_of_cons in Hin as [->|[->|[]%not_elem_of_nil]%elem_of_cons]; by eapply is_string_plain.
Qed.

Definition identity_fields : list string :=
  bound_fields ++ ["candidateManifestDigests"; "candidatePointerTargets"]%string.

Lemma ensure_Ok b u : ensure b = Ok u -> b = true.
Proof using. apply require_Ok. Qed.

Lemma identity_plain v :
  assertIdentityPayload v = Ok tt -> Forall (fun k => plain (prop k v) = true) identity_fields.
Proof using.
  unfold assertIdentityPayload. intros H.
  apply bind_Ok in H as (? & _ & H).
  apply bind_Ok in H as (? & Hd%ensure_Ok & H). apply bind_Ok in H as (? & Hg%ensure_Ok & H).
  apply bind_Ok in H as (? & Hm%ensure_Ok & H). apply bind_Ok in H as (? & Hp%ensure_Ok & H).
  apply bind_Ok in H as (? & Hs%ensure_Ok & H). apply bind_Ok in H as (? & Hc & H).
  apply bind_Ok in H as (? & Ht & _).
  repeat apply Forall_cons_2; [..|apply Forall_nil_2]; try (by eapply is_string_plain).
  - by destruct (prop "generation" v).
  - unfold assertManifestDigests in Hc. destruct (prop "candidateManifestDigests" v); cbn [assertObject mbind result_bind] in Hc; try discriminate.
    apply bind_Ok in Hc as ([] & Hk & (? & Hb%ensure_Ok & Hc'%ensure_Ok)%bind_Ok). by eapply pair_plain.
  - unfold assertCandidatePointerTargets in Ht. destruct (prop "candidatePointerTargets" v); cbn [assertObject mbind result_bind] in Ht; try discriminate.
    apply bind_Ok in Ht as ([] & Hk & (? & Hb%ensure_Ok & Hc'%ensure_Ok)%bind_Ok). by eapply pair_plain.
Qed.
End Proofs.

(** ** Witness *)

Section Witnesses.
#[local] Existing Instance toy_crypto.
#[local] Existing Instance toy_dates.

Definition toy_product_pointers (product : string) : json :=
  JObj [("current", JObj [("link", JStr (product_root product +:+ "current"));
                          ("target", JStr (product_root product +:+ "releases/1.0.0"))]);
        ("previous", JObj [("link", JStr (product_root product +:+ "previous")); ("target", JNull)])]%string.

Definition toy_pointers : json :=
  JObj [("baby", toy_product_pointers "baby"); ("gateway", toy_product_pointers "gateway")]%string.

Definition toy_identity (id : string) (g : Z) : props json :=
  [("recordVersion", JStr "2.0.0"); ("deploymentId", JStr id); ("generation", JNum g);
   ("machineId", JStr "m-1"); ("planDigest", JStr (toy_sha "plan"));
   ("snapshotDigest", JStr (toy_sha "snapshot"));
   ("candidateManifestDigests", JObj [("baby", JStr (toy_sha "b")); ("gateway", JStr (toy_sha "g"))]);
   ("candidatePointerTargets", JObj [("baby", JStr "/opt/baby-quirt/releases/1.1.0");
                                     ("gateway", JStr "/opt/baby-quirt-mcp/releases/1.1.0")]);
   ("evidenceDigest", JStr (toy_sha "evidence")); ("signingKeyId", JStr "key-1");
   ("signatureAlgorithm", JStr "ed25519")]%string.

Definition toy_guard_payload (id : string) (g : Z) : props json :=
  [("recordType", JStr "baby-quirt-deployment-guard"); ("expectedPointers", toy_pointers);
   ("deadline", JStr "5000")]%string ++ toy_identity id g.

Definition toy_marker_payload (id : string) (g : Z) : props json :=
  [("recordType", JStr "baby-quirt-deployment-success"); ("acceptedAt", JStr "3000")]%string ++ toy_identity id g.

Definition toy_private : @PrivateKey toy_crypto := "pk"%string.

Definition toy_guard (id : string) (g : Z) : props json := signedRecord (toy_guard_payload id g) toy_private.
Definition toy_marker (id : string) (g : Z) : props json := signedRecord (toy_marker_payload id g) toy_private.

Lemma built_record_verifies_witness :
  verifySignedGuardRecord (JObj (toy_guard "d-1" 1)) (@public_half toy_crypto toy_laws toy_private)
  = Ok (toy_guard "d-1" 1).
Proof.
  apply (built_record_verifies toy_laws Guard (toy_guard_payload "d-1" 1) (toy_guard "d-1" 1) toy_private);
    vm_compute; reflexivity.
Defined.
End Witnesses.
