(* ===== verification/Controller.v ===== *)
(** * The rollback controller ([src/controller/storage.ts], [src/controller/controller.ts])

    The create-once files of [ControllerStore], its lock, and the actions of
    [FixedDeploymentController] over an abstract host adapter.  A file is modelled by the JSON value
    it holds: its bytes are the canonical text of the value, and reading it back yields the same
    members.  The theorems: no file ever changes or disappears; at most one guard is active; a guard
    is never both disarmed and rolled back; once a success marker is committed, evaluation never
    touches the host; and after the deadline without one, it restores the snapshot. *)

From S2P Require Import Prelude Bytes Json Platform Errors Canonical ControllerContract.

#[global] Open Scope Z_scope.

(** ** Files *)

Record Dir := {
  guard_json : option json;
  success_json : option json;
  disarmed_json : option json;
  rollback_json : option json;
  evidence_dir : props json;
  manual_recovery_dir : props json
}.

Definition empty_dir : Dir := {|
  guard_json := None; success_json := None; disarmed_json := None; rollback_json := None;
  evidence_dir := []; manual_recovery_dir := []
|}.

Record Store := { deployments : gmap string Dir; generations : gmap Z json }.

(** Source: src/controller/storage.ts:31-36 (LockIdentity) *)
Record LockIdentity := { token : string; pid : Z; startTime : string; executable : string }.

(** The lock file: absent, unreadable, or holding an identity. *)
Inductive lock_file := NoLock | BadLock | Lock (l : LockIdentity).

(** What one action of the process finds: the clock, its own identity with a fresh token, and the
    identity [/proc] shows for a process id. *)
Record Env := {
  now : Z;
  self : option LockIdentity;
  processIdentity : Z -> option (string * string)
}.

(** Source: src/controller/types.ts:104-117 (FixedGuardHostAdapter) *)
Class FixedGuardHostAdapter (H : Type) := {
  readPointers : H -> props json -> result ControllerError json;
  restoreSnapshot : H -> props json -> result ControllerError (bool * props json) * H
}.

(** Source: src/controller/controller.ts:24-32 (FixedDeploymentControllerOptions) *)
Record Options {C : Crypto} := {
  machineId : string;
  babyAuthorityPublicKey : PublicKey;
  controllerEvidencePrivateKey : PrivateKey;
  controllerEvidencePublicKey : PublicKey;
  controllerSigningKeyId : string
}.
Arguments Options : clear implicits.

(** Source: src/controller/types.ts:119-125 (ControllerStatus) *)
Record ControllerStatus := {
  st_deploymentId : json;
  st_generation : json;
  st_disposition : string;
  st_guardRecordDigest : json;
  st_evidence : option (props json)
}.

Section Controller.
Context {C : Crypto} {D : Dates} {H : Type} {Ho : FixedGuardHostAdapter H} (options : Options C).

Record State := { store : Store; lock : lock_file; host : H }.

Abbreviation CM A := (M State ControllerError A).

Definition with_store (f : Store -> Store) (s : State) : State :=
  {| store := f (store s); lock := lock s; host := host s |}.
Definition with_lock (l : lock_file) (s : State) : State :=
  {| store := store s; lock := l; host := host s |}.
Definition with_host (h : H) (s : State) : State :=
  {| store := store s; lock := lock s; host := h |}.

(** ** Storage *)

Definition MAX_RECORD_BYTES : nat := 1024 * 1024.

(** The length of a file that holds a value.
    Source: src/controller/storage.ts:55-57 (exactJsonBytes) *)
Definition file_length (v : json) : nat := S (length (utf8_bytes (default ""%string (canonicalJson v)))).

(** Whether [createOnce] creates the file; one that is there must hold the same text.
    Source: src/controller/storage.ts:59-88 (createOnce) *)
Definition createOnce (existing : option json) (v : json) : CR bool :=
  _ ← require (negb (MAX_RECORD_BYTES <? file_length v)%nat) controller_invalid_record;
  match existing with
  | None => Ok true
  | Some e => if canonicalJson e === canonicalJson v then Ok false else Err controller_integrity_failed
  end.

(** Source: src/controller/storage.ts:295-299 (assertDeploymentId) *)
Definition assertDeploymentId (id : string) : CR unit := require (IDENTIFIER_PATTERN id) controller_invalid_record.

Definition dir_of (id : string) (s : State) : Dir := default empty_dir (deployments (store s) !! id).

Definition write_dir (id : string) (d : Dir) : State -> State := with_store (fun s =>
  {| deployments := <[id := d]> (deployments s); generations := generations s |}).

Definition with_guard (v : json) (d : Dir) : Dir := {|
  guard_json := Some v; success_json := success_json d; disarmed_json := disarmed_json d;
  rollback_json := rollback_json d; evidence_dir := evidence_dir d; manual_recovery_dir := manual_recovery_dir d |}.
Definition with_success (v : json) (d : Dir) : Dir := {|
  guard_json := guard_json d; success_json := Some v; disarmed_json := disarmed_json d;
  rollback_json := rollback_json d; evidence_dir := evidence_dir d; manual_recovery_dir := manual_recovery_dir d |}.
Definition with_disarmed (v : json) (d : Dir) : Dir := {|
  guard_json := guard_json d; success_json := success_json d; disarmed_json := Some v;
  rollback_json := rollback_json d; evidence_dir := evidence_dir d; manual_recovery_dir := manual_recovery_dir d |}.
Definition with_rollback (v : json) (d : Dir) : Dir := {|
  guard_json := guard_json d; success_json := success_json d; disarmed_json := disarmed_json d;
  rollback_json := Some v; evidence_dir := evidence_dir d; manual_recovery_dir := manual_recovery_dir d |}.
Definition with_evidence (l : props json) (d : Dir) : Dir := {|
  guard_json := guard_json d; success_json := success_json d; disarmed_json := disarmed_json d;
  rollback_json := rollback_json d; evidence_dir := l; manual_recovery_dir := manual_recovery_dir d |}.
Definition with_manual (l : props json) (d : Dir) : Dir := {|
  guard_json := guard_json d; success_json := success_json d; disarmed_json := disarmed_json d;
  rollback_json := rollback_json d; evidence_dir := evidence_dir d; manual_recovery_dir := l |}.

(** The value of a file of a directory, by name. *)
Definition file_of (name : string) (l : props json) : option json :=
  match List.find (fun kv => fst kv === name) l with Some kv => Some (snd kv) | None => None end.

(** [createOnce] on the file a directory has for it. *)
Definition create_file (id : string) (get_ : Dir -> option json) (set_ : json -> Dir -> Dir) (v : json) : CM unit :=
  s ← get_state;
  created ← lift (createOnce (get_ (dir_of id s)) v);
  if (created : bool) then modify (write_dir id (set_ v (dir_of id s))) else mret tt.

Definition write_generation (g : Z) (v : json) : State -> State := with_store (fun s =>
  {| deployments := deployments s; generations := <[g := v]> (generations s) |}).

(** [createOnce] in the directory [generations]; the name is the number, padded. *)
Definition create_generation (g : Z) (v : json) : CM unit :=
  s ← get_state;
  created ← lift (createOnce (generations (store s) !! g) v);
  if (created : bool) then modify (write_generation g v) else mret tt.

(** The identifier and the generation of a verified record. *)
Definition id_of (record : props json) : string := js_String (prop "deploymentId" record).
Definition generation_of (record : props json) : Z := match prop "generation" record with JNum g => g | _ => 0 end.

(** Source: src/controller/storage.ts:198-212 (writeGuard) *)
Definition writeGuard (record : props json) : CM unit :=
  let id := id_of record in
  let g := generation_of record in
  lift (assertDeploymentId id);;
  create_file id guard_json with_guard (JObj record);;
  create_generation g (JObj [("deploymentId", JStr id); ("generation", JNum g);
                             ("guardRecordDigest", prop "recordDigest" record)]%string).

(** Source: src/controller/storage.ts:214-219 (readGuard) *)
Definition readGuard (id : string) : CM json :=
  lift (assertDeploymentId id);;
  s ← get_state;
  match guard_json (dir_of id s) with Some v => mret v | None => throw controller_not_found end.

(** Source: src/controller/storage.ts:221-223 (writeSuccessMarker) *)
Definition writeSuccessMarker (marker : props json) : CM unit :=
  lift (assertDeploymentId (id_of marker));;
  create_file (id_of marker) success_json with_success (JObj marker).

(** Source: src/controller/storage.ts:225-228 (readSuccessMarker) *)
Definition readSuccessMarker (id : string) : CM (option json) :=
  lift (assertDeploymentId id);;
  gets (fun s => success_json (dir_of id s)).

Definition digest_name (evidence : props json) : string := js_String (prop "recordDigest" evidence) +:+ ".json".

(** [createOnce] in the directory [evidence], and in the directory [manual-recovery]. *)
Definition create_evidence (id name : string) (v : json) : CM unit :=
  create_file id (fun d => file_of name (evidence_dir d))
    (fun w d => with_evidence (evidence_dir d ++ [(name, w)]) d) v.
Definition create_manual (id name : string) (v : json) : CM unit :=
  create_file id (fun d => file_of name (manual_recovery_dir d))
    (fun w d => with_manual (manual_recovery_dir d ++ [(name, w)]) d) v.

(** Source: src/controller/storage.ts:230-237 (writeEvidence) *)
Definition writeEvidence (evidence : props json) : CM unit :=
  let id := id_of evidence in
  let disposition := prop "disposition" evidence in
  lift (assertDeploymentId id);;
  create_evidence id (digest_name evidence) (JObj evidence);;
  (if disposition === JStr "disarmed" then create_file id disarmed_json with_disarmed (JObj evidence) else mret tt);;
  if (disposition === JStr "rolled_back") || (disposition === JStr "rollback_failed")
  then create_file id rollback_json with_rollback (JObj evidence) else mret tt.

(** [s.padStart(n, '0')] *)
Definition padStart (n : nat) (s : string) : string :=
  of_chars (replicate (n - String.length s) "0"%char) +:+ s.

Definition manual_name (evidence : props json) : string :=
  let sequence := match prop "occurredAt" evidence with
    | JStr t => match date_value t with Some ms => pretty ms | None => "NaN"%string end
    | _ => "NaN"%string
    end in
  padStart 16 sequence +:+ "-" +:+ digest_name evidence.

(** Source: src/controller/storage.ts:239-246 (writeManualRecoveryEvidence) *)
Definition writeManualRecoveryEvidence (evidence : props json) : CM unit :=
  let id := id_of evidence in
  lift (assertDeploymentId id);;
  create_evidence id (digest_name evidence) (JObj evidence);;
  create_manual id (manual_name evidence) (JObj evidence).

(** Source: src/controller/storage.ts:248-261 (readTerminalEvidence) *)
Definition terminal_of (d : Dir) : option json :=
  match last (sort_by str_ltb (manual_recovery_dir d)) with
  | Some kv => Some (snd kv)
  | None => match disarmed_json d with Some v => Some v | None => rollback_json d end
  end.

(** Source: src/controller/storage.ts:248-261 (readTerminalEvidence) *)
Definition readTerminalEvidence (id : string) : CM (option json) :=
  lift (assertDeploymentId id);;
  gets (fun s => terminal_of (dir_of id s)).

(** Source: src/controller/storage.ts:263-273 (latestGeneration) *)
Definition latestGeneration (s : State) : Z :=
  foldr Z.max 0 (List.map fst (map_to_list (generations (store s)))).

Definition is_active (d : Dir) : bool :=
  match guard_json d, disarmed_json d, rollback_json d with Some _, None, None => true | _, _, _ => false end.

(** Source: src/controller/storage.ts:275-288 (activeGuardIds) *)
Definition activeGuardIds (s : State) : list string :=
  List.map fst (List.filter (fun kv => is_active (snd kv)) (map_to_list (deployments (store s)))).

(** Source: src/controller/storage.ts:111-123 (isLiveLock) *)
Definition isLiveLock (env : Env) (l : lock_file) : bool :=
  match l with
  | Lock i => processIdentity env (pid i) === Some (startTime i, executable i)
  | NoLock | BadLock => false
  end.

(** The attempts of the loop: create the file, refuse if it is live, remove it if it is stale.
    Source: src/controller/storage.ts:149-182 (withGlobalLock) *)
Fixpoint acquire (attempts : nat) (env : Env) (me : LockIdentity) (l : lock_file) : CR lock_file :=
  match attempts with
  | O => match l with NoLock => Err controller_lock_busy | _ => Ok l end
  | S n =>
      match l with
      | NoLock => Ok (Lock me)
      | _ => if isLiveLock env l then Err controller_lock_busy else acquire n env me NoLock
      end
  end.

(** Source: src/controller/storage.ts:138-196 (withGlobalLock) *)
Definition withGlobalLock {A} (env : Env) (action : CM A) : CM A :=
  match self env with
  | None => throw controller_integrity_failed
  | Some me => fun s =>
      match acquire 2 env me (lock s) with
      | Err e => (Err e, s)
      | Ok l =>
          let '(r, s1) := action (with_lock l s) in
          (r, match lock s1 with
              | Lock current => if token current === token me then with_lock NoLock s1 else s1
              | _ => s1
              end)
      end
  end.

(** ** The controller *)

(** Source: src/controller/controller.ts:34-36 (pointersDigest) *)
Definition pointersDigest (v : json) : json := JStr (sha256Hex (default ""%string (canonicalJson v))).

(** Source: src/controller/controller.ts:241-248 (assertMachine) *)
Definition assertMachine (v : json) : CR unit := require (v === JStr (machineId options)) controller_machine_mismatch.

(** Source: src/controller/controller.ts:235-239 (verifyGuard) *)
Definition verifyGuard (input : json) : CR (props json) :=
  record ← verifySignedGuardRecord input (babyAuthorityPublicKey options);
  _ ← assertMachine (prop "machineId" record);
  Ok record.

(** Source: src/controller/controller.ts:231-233 (loadGuard) *)
Definition loadGuard (id : string) : CM (props json) :=
  v ← readGuard id;
  lift (verifyGuard v).

Definition valid_marker (guard : props json) (raw : json) : CR (props json) :=
  marker ← verifySignedSuccessMarker raw (babyAuthorityPublicKey options);
  _ ← assertMarkerMatchesGuard marker guard;
  _ ← assertMachine (prop "machineId" marker);
  Ok marker.

(** Source: src/controller/controller.ts:250-261 (loadValidMarker) *)
Definition loadValidMarker (guard : props json) : CM (option (props json)) :=
  raw ← readSuccessMarker (id_of guard);
  mret match raw with
       | None => None
       | Some v => if truthy v then match valid_marker guard v with Ok m => Some m | Err _ => None end else None
       end.

Definition valid_evidence (v : json) : CR (props json) :=
  evidence ← verifySignedControllerEvidence v (controllerEvidencePublicKey options);
  _ ← assertMachine (prop "machineId" evidence);
  Ok evidence.

(** Source: src/controller/controller.ts:263-269 (readVerifiedTerminal) *)
Definition readVerifiedTerminal (id : string) : CM (option (props json)) :=
  raw ← readTerminalEvidence id;
  match raw with
  | None => mret None
  | Some v =>
      if truthy v then
        lift (evidence ← valid_evidence v; Ok (Some evidence))
      else mret None
  end.

(** Source: src/controller/controller.ts:271-295 (evidence) *)
Definition evidence (env : Env) (guard : props json) (disposition : ControllerDisposition)
    (details : props json) : CR (props json) :=
  buildSignedControllerEvidence
    [("recordVersion", JStr CONTROLLER_RECORD_VERSION);
     ("recordType", JStr "baby-quirt-controller-evidence");
     ("deploymentId", prop "deploymentId" guard); ("generation", prop "generation" guard);
     ("machineId", prop "machineId" guard); ("planDigest", prop "planDigest" guard);
     ("snapshotDigest", prop "snapshotDigest" guard);
     ("candidateManifestDigests", prop "candidateManifestDigests" guard);
     ("candidatePointerTargets", prop "candidatePointerTargets" guard);
     ("disposition", JStr (disposition_name disposition));
     ("detailsDigest", JStr (sha256Hex (canonical_obj details)));
     ("occurredAt", JStr (to_iso (now env)));
     ("signingKeyId", JStr (controllerSigningKeyId options)); ("signatureAlgorithm", JStr "ed25519")]%string
    (controllerEvidencePrivateKey options).

(** Source: src/controller/controller.ts:297-309 (status) *)
Definition status (guard : props json) (disposition : string) (ev : option (props json)) : ControllerStatus := {|
  st_deploymentId := prop "deploymentId" guard; st_generation := prop "generation" guard;
  st_disposition := disposition; st_guardRecordDigest := prop "recordDigest" guard; st_evidence := ev
|}.

(** Records a disposition: the evidence is built, written and returned. *)
Definition record_disposition (env : Env) (guard : props json) (d : ControllerDisposition) (details : props json)
    : CM ControllerStatus :=
  ev ← lift (evidence env guard d details);
  writeEvidence ev;;
  mret (status guard (disposition_name d) (Some ev)).

(** [new Date(v).valueOf()] of a member that is a verified timestamp. *)
Definition date_of (v : json) : option Z := match v with JStr t => date_value t | _ => None end.

Definition date_test (test : Z -> bool) (v : json) : bool :=
  match date_of v with Some t => test t | None => false end.

(** Source: src/controller/controller.ts:47-99 (arm) *)
Definition arm (env : Env) (input : json) : CM ControllerStatus :=
  withGlobalLock env (
    record ← lift (verifyGuard input);
    guardM (negb (date_test (fun t => t <=? now env) (prop "deadline" record))) controller_deadline_invalid;;
    active ← gets activeGuardIds;
    guardM (forallb (fun i => i === id_of record) active) controller_active_guard_conflict;;
    if bool_decide (id_of record ∈ active) then
      existing ← loadGuard (id_of record);
      guardM (prop "recordDigest" existing === prop "recordDigest" record) controller_generation_conflict;;
      mret (status existing "armed" None)
    else
      latest ← gets latestGeneration;
      guardM (negb (generation_of record <? latest) && negb (latest =? generation_of record))
        controller_generation_conflict;;
      h ← gets host;
      actual ← lift (readPointers h record);
      guardM (canonicalJson actual === canonicalJson (prop "expectedPointers" record)) controller_pointer_mismatch;;
      writeGuard record;;
      record_disposition env record armed
        [("guardRecordDigest", prop "recordDigest" record); ("pointerDigest", pointersDigest actual)]%string).

(** Source: src/controller/controller.ts:101-117 (commitSuccess) *)
Definition commitSuccess (env : Env) (input : json) : CM ControllerStatus :=
  withGlobalLock env (
    marker ← lift (verifySignedSuccessMarker input (babyAuthorityPublicKey options));
    guard ← loadGuard (id_of marker);
    lift (_ ← assertMarkerMatchesGuard marker guard; assertMachine (prop "machineId" marker));;
    guardM (negb (date_test (fun t => now env <? t) (prop "acceptedAt" marker))) controller_marker_mismatch;;
    writeSuccessMarker marker;;
    record_disposition env guard success_marker_valid
      [("successMarkerDigest", prop "recordDigest" marker)]%string).

(** Source: src/controller/controller.ts:119-146 (disarm) *)
Definition disarm (env : Env) (id : string) : CM ControllerStatus :=
  withGlobalLock env (
    guard ← loadGuard id;
    terminal ← readVerifiedTerminal id;
    match terminal with
    | Some t => if prop "disposition" t === JStr "disarmed" then mret (status guard "disarmed" (Some t))
                else throw controller_marker_mismatch
    | None =>
        marker ← loadValidMarker guard;
        match marker with
        | None => throw controller_marker_mismatch
        | Some m => record_disposition env guard disarmed
            [("successMarkerDigest", prop "recordDigest" m); ("guardRecordDigest", prop "recordDigest" guard)]%string
        end
    end).

(** [restoreSnapshot] of the host. *)
Definition restore (guard : props json) : CM (bool * props json) :=
  fun s => let '(r, h) := restoreSnapshot (host s) guard in (r, with_host h s).

(** Source: src/controller/controller.ts:148-185 (evaluate) *)
Definition evaluate (env : Env) (id : string) : CM ControllerStatus :=
  withGlobalLock env (
    guard ← loadGuard id;
    latest ← gets latestGeneration;
    if generation_of guard <? latest then
      record_disposition env guard stale_generation [("latestGeneration", JNum latest)]%string
    else
    terminal ← readVerifiedTerminal id;
    match terminal with
    | Some t => mret (status guard (js_String (prop "disposition" t)) (Some t))
    | None =>
        marker ← loadValidMarker guard;
        match marker with
        | Some m => record_disposition env guard success_marker_valid
            [("successMarkerDigest", prop "recordDigest" m)]%string
        | None =>
            if date_test (fun t => now env <? t) (prop "deadline" guard) then
              raw ← readSuccessMarker id;
              record_disposition env guard pending
                [("deadline", prop "deadline" guard); ("markerPresent", JBool (bool_decide (raw <> None)))]%string
            else
              '(completed, details) ← restore guard;
              record_disposition env guard (if (completed : bool) then rolled_back else rollback_failed) details
        end
    end).

(** Source: src/controller/controller.ts:187-193 (read) *)
Definition read (id : string) : CM ControllerStatus :=
  guard ← loadGuard id;
  terminal ← readVerifiedTerminal id;
  match terminal with
  | Some t => mret (status guard (js_String (prop "disposition" t)) (Some t))
  | None =>
      marker ← loadValidMarker guard;
      match marker with
      | Some _ => mret (status guard "success_marker_valid" None)
      | None => mret (status guard "armed" None)
      end
  end.

(** [/^[A-Za-z0-9][A-Za-z0-9 .,._:-]{7,511}$/u], which excludes the characters of the second test. *)
Definition reason_ok (s : string) : bool :=
  match s with
  | EmptyString => false
  | String c s => is_alnum c && (7 <=? String.length s)%nat && (String.length s <=? 511)%nat &&
      all_chars (fun c => is_alnum c || one_of " .,_:-" c) s
  end.

(** Source: src/controller/controller.ts:195-229 (manualRecover) *)
Definition manualRecover (env : Env) (id snapshotDigest reason : string) : CM ControllerStatus :=
  withGlobalLock env (
    guardM (reason_ok reason) controller_invalid_record;;
    guard ← loadGuard id;
    guardM (prop "snapshotDigest" guard === JStr snapshotDigest) controller_marker_mismatch;;
    terminal ← readVerifiedTerminal id;
    match terminal with
    | Some t =>
        guardM (prop "disposition" t === JStr "rollback_failed") controller_rollback_failed;;
        '(completed, details) ← restore guard;
        let d := if (completed : bool) then rolled_back else rollback_failed in
        ev ← lift (evidence env guard d
          (fold_left (fun (kvs : props json) (kv : string * json) => put (fst kv) (snd kv) kvs)
             [("breakGlass", JBool true); ("reasonDigest", JStr (sha256Hex reason));
              ("priorFailureEvidenceDigest", prop "recordDigest" t)]%string details));
        writeManualRecoveryEvidence ev;;
        mret (status guard (disposition_name d) (Some ev))
    | None => throw controller_rollback_failed
    end).
(** ** Files are created once

    One directory, one store extends another: every file there is still there, unchanged. *)

Definition opt_le {A} (a b : option A) : Prop := forall v, a = Some v -> b = Some v.

Record dir_le (d d' : Dir) : Prop := {
  le_guard : opt_le (guard_json d) (guard_json d');
  le_success : opt_le (success_json d) (success_json d');
  le_disarmed : opt_le (disarmed_json d) (disarmed_json d');
  le_rollback : opt_le (rollback_json d) (rollback_json d');
  le_evidence : evidence_dir d `prefix_of` evidence_dir d';
  le_manual : manual_recovery_dir d `prefix_of` manual_recovery_dir d'
}.

Record store_le (s s' : State) : Prop := {
  le_dirs : forall id, dir_le (dir_of id s) (dir_of id s');
  le_generations : generations (store s) ⊆ generations (store s')
}.

Lemma opt_le_refl {A} (a : option A) : opt_le a a.
Proof using. by intros v. Qed.

Lemma opt_le_none {A} (b : option A) : opt_le None b.
Proof using. by intros v. Qed.

#[local] Hint Resolve opt_le_refl opt_le_none : core.

#[local] Instance dir_le_preorder : PreOrder dir_le.
Proof using.
  split.
  - by intros d; split.
  - intros a b c [] []; split; try (intros v Hv; auto); by etransitivity.
Qed.

#[local] Instance store_le_preorder : PreOrder store_le.
Proof using.
  split.
  - by intros s; split.
  - intros a b c [H1 H2] [H3 H4]; split; [intros id; etransitivity; [apply H1|apply H3]|by etransitivity].
Qed.

Lemma dir_of_write id id' d s : dir_of id' (write_dir id d s) = if decide (id = id') then d else dir_of id' s.
Proof using.
  unfold dir_of. cbn. destruct (decide (id = id')) as [->|Hne];
    [by rewrite lookup_insert_eq|by rewrite lookup_insert_ne].
Qed.

Lemma createOnce_created existing v : createOnce existing v = Ok true -> existing = None.
Proof using.
  intros (? & _ & Hc)%bind_Ok. destruct existing; [|done]. destruct (bool_decide _); discriminate.
Qed.

Lemma create_file_le id get_ set_ v :
  (forall d, get_ d = None -> dir_le d (set_ v d)) -> respects store_le (create_file id get_ set_ v).
Proof using.
  intros Hset s. unfold create_file. rewrite bindM_eq. cbn [get_state]. rewrite bindM_eq. unfold lift.
  destruct (createOnce _ v) as [[]|e] eqn:Hc; cbn; [|reflexivity|reflexivity]. split; [|reflexivity].
  intros id'. rewrite dir_of_write. destruct (decide (id = id')) as [<-|]; [|reflexivity].
  by apply Hset, (createOnce_created _ v).
Qed.

Lemma create_evidence_le id name v : respects store_le (create_evidence id name v).
Proof using. apply create_file_le. intros d _. split; cbn; auto. by apply prefix_app_r. Qed.

Lemma create_manual_le id name v : respects store_le (create_manual id name v).
Proof using. apply create_file_le. intros d _. split; cbn; auto. by apply prefix_app_r. Qed.

Lemma create_guard_le id v : respects store_le (create_file id guard_json with_guard v).
Proof using. apply create_file_le. intros d Hd. split; cbn; auto. by rewrite Hd. Qed.

Lemma create_success_le id v : respects store_le (create_file id success_json with_success v).
Proof using. apply create_file_le. intros d Hd. split; cbn; auto. by rewrite Hd. Qed.

Lemma create_disarmed_le id v : respects store_le (create_file id disarmed_json with_disarmed v).
Proof using. apply create_file_le. intros d Hd. split; cbn; auto. by rewrite Hd. Qed.

Lemma create_rollback_le id v : respects store_le (create_file id rollback_json with_rollback v).
Proof using. apply create_file_le. intros d Hd. split; cbn; auto. by rewrite Hd. Qed.

#[local] Hint Resolve create_evidence_le create_manual_le create_guard_le create_success_le
  create_disarmed_le create_rollback_le : respects.

(** A relation that no write of a file breaks. *)
Section Frame.
Context (R : State -> State -> Prop) `{!PreOrder R}
  (Hdir : forall id d s, R s (write_dir id d s)) (Hgen : forall g v s, R s (write_generation g v s)).

Lemma create_file_frame id get_ set_ v : respects R (create_file id get_ set_ v).
Proof using All.
  unfold create_file, respects. intros s. rewrite bindM_eq. cbn [get_state]. rewrite bindM_eq. unfold lift.
  destruct (createOnce _ v) as [[]|e]; cbn; [apply Hdir|reflexivity|reflexivity].
Qed.

Lemma create_generation_frame g v : respects R (create_generation g v).
Proof using All.
  intros s. unfold create_generation. rewrite bindM_eq. cbn [get_state]. rewrite bindM_eq. unfold lift.
  destruct (createOnce _ v) as [[]|e]; cbn; [apply Hgen|reflexivity|reflexivity].
Qed.

#[local] Hint Resolve create_file_frame create_generation_frame : respects.

Lemma record_disposition_frame env guard d details : respects R (record_disposition env guard d details).
Proof using All. unfold record_disposition, writeEvidence, create_evidence. respects_steps. Qed.

Lemma writeGuard_frame record : respects R (writeGuard record).
Proof using All. unfold writeGuard. respects_steps. Qed.

Lemma writeSuccessMarker_frame marker : respects R (writeSuccessMarker marker).
Proof using All. unfold writeSuccessMarker. respects_steps. Qed.

Lemma writeManualRecoveryEvidence_frame ev : respects R (writeManualRecoveryEvidence ev).
Proof using All. unfold writeManualRecoveryEvidence, create_evidence, create_manual. respects_steps. Qed.
End Frame.

#[local] Instance same_host_preorder : PreOrder (fun a b : State => host b = host a).
Proof using. split; [done|]. intros a b c ? ?. by transitivity (host b). Qed.

#[local] Instance same_lock_preorder : PreOrder (fun a b : State => lock b = lock a).
Proof using. split; [done|]. intros a b c ? ?. by transitivity (lock b). Qed.

Section Locked.
Context (R : State -> State -> Prop) `{!PreOrder R} (HR : forall s l, R s (with_lock l s)).

Lemma withGlobalLock_respects {A} env (m : CM A) : respects R m -> respects R (withGlobalLock env m).
Proof using All.
  intros Hm s. unfold withGlobalLock. destruct (self env) as [me|]; [|cbn; reflexivity].
  destruct (acquire 2 env me (lock s)) as [l|e]; [|cbn; reflexivity].
  specialize (Hm (with_lock l s)). destruct (m (with_lock l s)) as [r s1]. cbn in *.
  assert (R s s1) by (etransitivity; [apply HR|exact Hm]).
  destruct (lock s1); [done|done|]. destruct (bool_decide _); [|done]. etransitivity; [done|apply HR].
Qed.
End Locked.

Lemma write_generation_le g v s :
  generations (store s) !! g = None -> store_le s (write_generation g v s).
Proof using. intros Hg. split; [done|]. by apply insert_subseteq. Qed.

Lemma create_generation_le g v : respects store_le (create_generation g v).
Proof using.
  intros s. unfold create_generation. rewrite bindM_eq. cbn [get_state]. rewrite bindM_eq. unfold lift.
  destruct (createOnce _ v) as [[]|e] eqn:Hc; cbn; [|reflexivity|reflexivity].
  by apply write_generation_le, (createOnce_created _ v).
Qed.

Lemma restore_le guard : respects store_le (restore guard).
Proof using. intros s. unfold restore. destruct (restoreSnapshot _ _) as [r h]. by split. Qed.

#[local] Hint Resolve create_generation_le restore_le : respects.

(** ** Actions and executions *)

(** One invocation of the command, by a process that finds [env]. *)
Inductive action :=
| Arm (env : Env) (input : json)
| CommitSuccess (env : Env) (input : json)
| Disarm (env : Env) (id : string)
| Evaluate (env : Env) (id : string)
| Read (id : string)
| ManualRecover (env : Env) (id snapshotDigest reason : string).

Definition perform (a : action) : CM ControllerStatus :=
  match a with
  | Arm env input => arm env input
  | CommitSuccess env input => commitSuccess env input
  | Disarm env id => disarm env id
  | Evaluate env id => evaluate env id
  | Read id => read id
  | ManualRecover env id digest reason => manualRecover env id digest reason
  end.

(** What happens to the state between actions: the host changes by itself, and the lock may be left
    behind by a process that died. *)
Inductive step : State -> State -> Prop :=
| step_action a s : step s (snd (perform a s))
| step_host h s : step s (with_host h s)
| step_lock l s : step s (with_lock l s).

Definition init (h : H) : State :=
  {| store := {| deployments := ∅; generations := ∅ |}; lock := NoLock; host := h |}.

Definition reachable (s : State) : Prop := exists h, rtc step (init h) s.

(** What only reads. *)
Lemma loadGuard_reads id : respects eq (loadGuard id).
Proof using. unfold loadGuard, readGuard. respects_steps. Qed.

Lemma readSuccessMarker_reads id : respects eq (readSuccessMarker id).
Proof using. unfold readSuccessMarker. respects_steps. Qed.

Lemma loadValidMarker_reads guard : respects eq (loadValidMarker guard).
Proof using. unfold loadValidMarker. respects_steps. apply readSuccessMarker_reads. Qed.

Lemma readVerifiedTerminal_reads id : respects eq (readVerifiedTerminal id).
Proof using. unfold readVerifiedTerminal, readTerminalEvidence. respects_steps. Qed.

#[local] Hint Extern 1 (respects _ _) =>
  apply respects_reads; [typeclasses eauto|];
  lazymatch goal with
  | |- respects _ (loadGuard _) => apply loadGuard_reads
  | |- respects _ (readSuccessMarker _) => apply readSuccessMarker_reads
  | |- respects _ (loadValidMarker _) => apply loadValidMarker_reads
  | |- respects _ (readVerifiedTerminal _) => apply readVerifiedTerminal_reads
  end : respects.

Lemma writeGuard_le record : respects store_le (writeGuard record).
Proof using. unfold writeGuard. respects_steps. Qed.

Lemma writeSuccessMarker_le marker : respects store_le (writeSuccessMarker marker).
Proof using. unfold writeSuccessMarker. respects_steps. Qed.

Lemma writeManualRecoveryEvidence_le ev : respects store_le (writeManualRecoveryEvidence ev).
Proof using. unfold writeManualRecoveryEvidence. respects_steps. Qed.

Lemma record_disposition_le env guard d details : respects store_le (record_disposition env guard d details).
Proof using. unfold record_disposition, writeEvidence. respects_steps. Qed.

#[local] Hint Resolve writeGuard_le writeSuccessMarker_le writeManualRecoveryEvidence_le
  record_disposition_le : respects.

Lemma perform_le a : respects store_le (perform a).
Proof using.
  destruct a; cbn [perform]; unfold arm, commitSuccess, disarm, evaluate, read, manualRecover;
    try (apply withGlobalLock_respects; [typeclasses eauto|by split|]); respects_steps.
Qed.

Lemma steps_le s s' : rtc step s s' -> store_le s s'.
Proof using.
  induction 1 as [|s s1 s2 Hs _ IH]; [reflexivity|]. etransitivity; [|exact IH].
  destruct Hs; [apply perform_le|by split|by split].
Qed.

(** ** What is read *)

Lemma verifyGuard_same v g : verifyGuard v = Ok g -> v = JObj g.
Proof using. intros (? & Hv & (? & _ & [= <-])%bind_Ok)%bind_Ok. by eapply verify_signed_same. Qed.

Lemma valid_evidence_same v e : valid_evidence v = Ok e -> v = JObj e.
Proof using. intros (? & Hv & (? & _ & [= <-])%bind_Ok)%bind_Ok. by eapply verify_signed_same. Qed.

Lemma wp_loadGuard id Q s :
  (forall e, Q (Err e) s) ->
  (forall g, guard_json (dir_of id s) = Some (JObj g) -> verifyGuard (JObj g) = Ok g -> Q (Ok g) s) ->
  wp (loadGuard id) Q s.
Proof using.
  intros He Hg. unfold loadGuard, readGuard. wp_steps; try apply He.
  match goal with H : verifyGuard _ = _ |- _ => pose proof (verifyGuard_same _ _ H); subst end. by apply Hg.
Qed.

Lemma wp_loadValidMarker guard Q s :
  (forall e, Q (Err e) s) ->
  (forall v m, success_json (dir_of (id_of guard) s) = Some v -> valid_marker guard v = Ok m -> Q (Ok (Some m)) s) ->
  (success_json (dir_of (id_of guard) s) = None \/
   (exists v, success_json (dir_of (id_of guard) s) = Some v /\ forall m, valid_marker guard v <> Ok m) ->
   Q (Ok None) s) ->
  wp (loadValidMarker guard) Q s.
Proof using.
  intros He Hm Hn. unfold loadValidMarker, readSuccessMarker. wp_steps; try apply He.
  destruct (success_json _) as [v|] eqn:Hs; [|auto].
  destruct (valid_marker guard v) as [m|e] eqn:Hv.
  - assert (truthy v = true) as ->; [|by eapply Hm].
    unfold valid_marker in Hv. apply bind_Ok in Hv as (kvs & Hv & _).
    assert (v = JObj kvs) as -> by (by eapply verify_signed_same). done.
  - assert (Hnone : Q (Ok None) s) by (apply Hn; right; exists v; by rewrite Hv).
    by destruct (truthy v).
Qed.

Lemma wp_readVerifiedTerminal id Q s :
  (forall e, Q (Err e) s) ->
  (forall t, terminal_of (dir_of id s) = Some (JObj t) -> valid_evidence (JObj t) = Ok t -> Q (Ok (Some t)) s) ->
  ((forall t, terminal_of (dir_of id s) <> Some (JObj t)) -> Q (Ok None) s) ->
  wp (readVerifiedTerminal id) Q s.
Proof using.
  intros He Ht Hn. unfold readVerifiedTerminal, readTerminalEvidence. wp_steps; try apply He.
  - match goal with H : (_ ≫= _) = Ok _ |- _ => apply bind_Ok in H as (t & Hv & [= <-]) end.
    pose proof (valid_evidence_same _ _ Hv) as ->. by apply Ht.
  - apply Hn. intros t Ht'. by simplify_eq.
  - apply Hn. congruence.
Qed.

Lemma wp_create_file id get_ set_ v Q s :
  (forall e, Q (Err e) s) ->
  (get_ (dir_of id s) <> None -> Q (Ok tt) s) ->
  (get_ (dir_of id s) = None -> Q (Ok tt) (write_dir id (set_ v (dir_of id s)) s)) ->
  wp (create_file id get_ set_ v) Q s.
Proof using.
  intros He Hs Hn. unfold create_file. wp_steps; try apply He.
  - by eapply Hn, createOnce_created.
  - apply Hs. intros Hg. unfold createOnce in *. rewrite Hg in *.
    match goal with H : (_ ≫= _) = Ok _ |- _ => by apply bind_Ok in H as (? & _ & [=]) end.
Qed.

Ltac controller_step :=
  lazymatch goal with
  | |- wp (loadGuard _) _ _ => apply wp_loadGuard; [intros ?|intros ? ? ?]
  | |- wp (loadValidMarker _) _ _ => apply wp_loadValidMarker; [intros ?|intros ? ? ? ?|intros ?]
  | |- wp (readVerifiedTerminal _) _ _ => apply wp_readVerifiedTerminal; [intros ?|intros ? ? ?|intros ?]
  | |- wp (create_file _ _ _ _) _ _ => apply wp_create_file; [intros ?|intros ?|intros ?]
  | |- _ => wp_step
  end; cbv beta iota.
Ltac controller_steps := repeat controller_step.

(** Equality tests between known strings are computed. *)
Ltac eval_tests :=
  repeat match goal with
  | |- context [bool_decide (JStr ?a = JStr ?b)] =>
      let v := eval vm_compute in (bool_decide (JStr a = JStr b)) in
      change (bool_decide (JStr a = JStr b)) with v
  end; cbn [orb].

Lemma wp_withGlobalLock {A} env (m : CM A) (Q : State -> Prop) s :
  (forall l s, Q (with_lock l s) <-> Q s) ->
  (forall l s, Q s -> wp m (fun _ s' => Q s') (with_lock l s)) ->
  Q s -> wp (withGlobalLock env m) (fun _ s' => Q s') s.
Proof using.
  intros HQ Hm Hs. unfold wp, withGlobalLock. destruct (self env) as [me|]; [|done].
  destruct (acquire 2 env me (lock s)) as [l|e]; [|done].
  specialize (Hm l s Hs). unfold wp in Hm. destruct (m (with_lock l s)) as [r s1]. cbn in *.
  destruct (lock s1); [done|done|]. destruct (bool_decide _); [by apply HQ|done].
Qed.


(** ** The invariant

    Every file of a directory verifies and stands in the order the actions create it; at most one
    guard is active, and no recorded generation is greater than its own. *)

Section Invariant.
(** A file with evidence of one of the dispositions. *)
Definition evidence_file (ds : list ControllerDisposition) (v : json) : Prop :=
  exists e d, v = JObj e /\ valid_evidence (JObj e) = Ok e /\ d ∈ ds /\
              prop "disposition" e = JStr (disposition_name d).

Definition rollbacks : list ControllerDisposition := [rolled_back; rollback_failed].

Record dir_ok (id : string) (d : Dir) : Prop := {
  ok_guard : forall v, guard_json d = Some v -> exists g, verifyGuard v = Ok g /\ id_of g = id;
  ok_success : forall v, success_json d = Some v ->
    exists g m, guard_json d = Some (JObj g) /\ valid_marker g v = Ok m;
  ok_disarmed : forall v, disarmed_json d = Some v ->
    evidence_file [disarmed] v /\ success_json d <> None /\ rollback_json d = None;
  ok_rollback : forall v, rollback_json d = Some v -> evidence_file rollbacks v /\ guard_json d <> None;
  ok_manual : forall n v, (n, v) ∈ manual_recovery_dir d -> evidence_file rollbacks v /\ rollback_json d <> None
}.

Record Inv (s : State) : Prop := {
  inv_dirs : forall id, dir_ok id (dir_of id s);
  inv_unique : forall i j, is_active (dir_of i s) = true -> is_active (dir_of j s) = true -> i = j;
  inv_latest : forall i g, is_active (dir_of i s) = true -> guard_json (dir_of i s) = Some (JObj g) ->
    latestGeneration s <= generation_of g
}.

Lemma empty_dir_ok id : dir_ok id empty_dir.
Proof using. split; cbn; try discriminate. by intros ? ? ?%not_elem_of_nil. Qed.

Lemma init_Inv h : Inv (init h).
Proof using.
  assert (Hd : forall id, dir_of id (init h) = empty_dir) by (intros id; unfold dir_of; cbn; by rewrite lookup_empty).
  split; intros *; rewrite !Hd; cbn; try discriminate. apply empty_dir_ok.
Qed.

(** A write that does not activate a guard. *)
Lemma Inv_write id d s :
  Inv s -> dir_ok id d ->
  (is_active d = true -> is_active (dir_of id s) = true /\ guard_json d = guard_json (dir_of id s)) ->
  Inv (write_dir id d s).
Proof using.
  intros [Hd Hu Hl] Hok Ha. split.
  - intros id'. rewrite dir_of_write. by destruct (decide (id = id')) as [<-|].
  - intros i j. rewrite !dir_of_write. destruct (decide (id = i)), (decide (id = j)); subst; auto;
      intros; try apply Hu; try done; by apply Ha.
  - intros i g. rewrite dir_of_write. destruct (decide (id = i)) as [<-|]; [|by apply Hl].
    intros [H1 H2]%Ha Hg. rewrite H2 in Hg. by apply (Hl id).
Qed.

Lemma Inv_store s s' : store s = store s' -> Inv s -> Inv s'.
Proof using.
  intros E []. assert (Hd : forall id, dir_of id s = dir_of id s') by (intros id; unfold dir_of; by rewrite E).
  assert (Hg : latestGeneration s = latestGeneration s') by (unfold latestGeneration; by rewrite E).
  split; intros *; try rewrite <- !Hd; rewrite <- ?Hg; eauto.
Qed.

Lemma active_elem i s : i ∈ activeGuardIds s <-> is_active (dir_of i s) = true.
Proof using.
  unfold activeGuardIds, dir_of. rewrite list_elem_of_In, in_map_iff. split.
  - intros ([j d] & <- & [Hj Ha]%filter_In). apply list_elem_of_In, elem_of_map_to_list in Hj. cbn in *.
    by rewrite Hj.
  - destruct (deployments (store s) !! i) as [d|] eqn:Hd; cbn; [|discriminate]. intros Ha.
    exists (i, d). split; [done|]. apply filter_In. split; [|done]. by apply list_elem_of_In, elem_of_map_to_list.
Qed.

Lemma latest_le s n :
  latestGeneration s <= n <-> 0 <= n /\ forall g v, generations (store s) !! g = Some v -> g <= n.
Proof using.
  unfold latestGeneration.
  assert (Hall : forall l : list (Z * json),
    foldr Z.max 0 (List.map fst l) <= n <-> 0 <= n /\ forall g v, (g, v) ∈ l -> g <= n).
  { induction l as [|[g v] l IH]; cbn; [split; [|naive_solver lia]; intros; split; [lia|by intros ? ? ?%not_elem_of_nil]|].
    rewrite Z.max_lub_iff, IH. setoid_rewrite elem_of_cons. naive_solver. }
  rewrite Hall. by setoid_rewrite elem_of_map_to_list.
Qed.

(** A new guard, when none is active. *)
Lemma Inv_arm r s :
  Inv s -> verifyGuard (JObj r) = Ok r -> (forall i, is_active (dir_of i s) = false) ->
  latestGeneration s <= generation_of r -> guard_json (dir_of (id_of r) s) = None ->
  Inv (write_dir (id_of r) (with_guard (JObj r) (dir_of (id_of r) s)) s).
Proof using.
  intros [Hd Hu Hl] Hr Hn Hgen Hg.
  assert (Ha : forall i, is_active (dir_of i (write_dir (id_of r) (with_guard (JObj r) (dir_of (id_of r) s)) s)) = true
    -> i = id_of r).
  { intros i. rewrite dir_of_write. destruct (decide (id_of r = i)) as [->|]; [done|]. by rewrite Hn. }
  split.
  - intros i. rewrite dir_of_write. destruct (decide (id_of r = i)) as [<-|]; [|done].
    destruct (Hd (id_of r)). split; cbn; try assumption.
    + intros v [= <-]. by exists r.
    + intros v (g & m & Hv & _)%ok_success0. by rewrite Hg in Hv.
    + intros v (? & ?)%ok_rollback0. by split.
  - intros i j ->%Ha ->%Ha. done.
  - intros i g ->%Ha. rewrite dir_of_write, decide_True by done. cbn. by intros [= <-].
Qed.

Lemma Inv_generation g v s :
  Inv s -> (forall i r, is_active (dir_of i s) = true -> guard_json (dir_of i s) = Some (JObj r) -> g <= generation_of r) ->
  Inv (write_generation g v s).
Proof using.
  intros [Hd Hu Hl] Hg.
  split; [exact Hd|exact Hu|]. intros i r Ha Hr. pose proof (Hl i r Ha Hr) as [H0 Hall]%latest_le.
  apply latest_le. split; [done|]. intros g' v'. cbn. intros [[<- _]|[_ Hv]]%lookup_insert_Some; [|by eapply Hall].
  exact (Hg i r Ha Hr).
Qed.

(** The value of a terminal file, and what its absence means. *)
Lemma terminal_file id d v : dir_ok id d -> terminal_of d = Some v -> evidence_file (disarmed :: rollbacks) v.
Proof using.
  intros Hok. unfold terminal_of.
  assert (Hw : forall ds, ds ⊆ disarmed :: rollbacks -> evidence_file ds v -> evidence_file (disarmed :: rollbacks) v)
    by (intros ds Hsub (e & d' & ? & ? & Hin & ?); exists e, d'; auto).
  destruct (last _) as [[n w]|] eqn:Hl.
  - intros [= <-]. apply (Hw rollbacks); [set_solver|]. apply (ok_manual _ _ Hok n).
    rewrite <- (sort_by_perm str_ltb). by apply last_Some_elem_of.
  - destruct (disarmed_json d) as [w|] eqn:Hd.
    + intros [= <-]. apply (Hw [disarmed]); [set_solver|]. by apply (ok_disarmed _ _ Hok).
    + intros Hr. apply (Hw rollbacks); [set_solver|]. by apply (ok_rollback _ _ Hok).
Qed.

Lemma no_terminal id d : dir_ok id d -> (forall t, terminal_of d <> Some (JObj t)) -> terminal_of d = None.
Proof using.
  intros Hok Hn. destruct (terminal_of d) as [v|] eqn:Ht; [|done].
  destruct (terminal_file id d v Hok Ht) as (e & _ & -> & _). by destruct (Hn e).
Qed.

Lemma guard_id id g s :
  Inv s -> guard_json (dir_of id s) = Some (JObj g) -> verifyGuard (JObj g) = Ok g -> id_of g = id.
Proof using.
  intros Hs Hg Hv. destruct (ok_guard _ _ (inv_dirs _ Hs id) _ Hg) as (g' & Hg' & Hid). congruence.
Qed.

Context (L : CryptoLaws C)
  (Hkeys : controllerEvidencePublicKey options = public_half (controllerEvidencePrivateKey options)).

Lemma evidence_valid env guard d details e :
  verifyGuard (JObj guard) = Ok guard -> evidence env guard d details = Ok e ->
  valid_evidence (JObj e) = Ok e /\ prop "disposition" e = JStr (disposition_name d) /\ id_of e = id_of guard.
Proof using L Hkeys.
  intros Hg He. unfold evidence, buildSignedControllerEvidence in He.
  match type of He with build_signed _ ?p _ = _ => set (payload := p) in He end.
  pose proof He as Hb. unfold build_signed in Hb. apply bind_Ok in Hb as ([] & Hc & [= Hb]).
  assert (Hm : assertMachine (prop "machineId" guard) = Ok tt).
  { unfold verifyGuard in Hg. apply bind_Ok in Hg as (r & Hr & (? & Hm & [= ->])%bind_Ok). by destruct x. }
  assert (Hplain : plain (JObj payload) = true).
  { unfold assertEvidencePayload in Hc. apply bind_Ok in Hc as (? & _ & Hc).
    apply bind_Ok in Hc as ([] & Hi%identity_plain & _).
    rewrite Forall_forall in Hi. apply plain_obj. split_and!; [by decided|by decided|].
    repeat apply Forall_cons_2; try apply Forall_nil_2; try reflexivity;
      cbn [snd]; match goal with |- plain (prop ?k guard) = true => apply (Hi k); by decided end. }
  unfold valid_evidence. rewrite Hkeys.
  pose proof (build_verify L Evidence payload e _ Hplain He) as Hv.
  change (verify_signed (kind_keys Evidence) (kind_check Evidence)) with verifySignedControllerEvidence in Hv.
  rewrite Hv. cbn [mbind result_bind]. rewrite <- Hb. unfold signedRecord, id_of.
  change (prop "machineId" (payload ++ _)) with (prop "machineId" guard). rewrite Hm. done.
Qed.

(** Evidence joins the directory; the other files are as they were. *)
Lemma wp_create_evidence id name v Q s :
  Inv s -> (forall e, Q (Err e) s) ->
  (forall s', Inv s' -> (exists l, dir_of id s' = with_evidence l (dir_of id s)) -> Q (Ok tt) s') ->
  wp (create_evidence id name v) Q s.
Proof using.
  intros Hs He Hok. unfold create_evidence. controller_steps; [apply He| |].
  - apply Hok; [done|]. exists (evidence_dir (dir_of id s)). by destruct (dir_of id s).
  - apply Hok; [|eexists; rewrite dir_of_write; by rewrite decide_True].
    apply Inv_write; [done| |done]. pose proof (inv_dirs _ Hs id) as []. by split.
Qed.

(** What the recording of a disposition needs. *)
Definition recordable (id : string) (d : ControllerDisposition) (s : State) : Prop :=
  let dir := dir_of id s in
  match d with
  | disarmed => success_json dir <> None /\ terminal_of dir = None
  | rolled_back | rollback_failed => guard_json dir <> None /\ terminal_of dir = None
  | armed | pending | success_marker_valid | stale_generation => True
  end.

Lemma terminal_none d :
  terminal_of d = None -> disarmed_json d = None /\ rollback_json d = None /\ manual_recovery_dir d = [].
Proof using.
  unfold terminal_of. destruct (last _) as [[n w]|] eqn:Hl; [discriminate|].
  destruct (disarmed_json d); [discriminate|]. intros Ht. split_and!; [done..|].
  apply last_None in Hl. apply Permutation_nil_r. by rewrite <- Hl, sort_by_perm.
Qed.

Lemma dir_ok_evidence id d l : dir_ok id d -> dir_ok id (with_evidence l d).
Proof using. intros []. by split. Qed.

Lemma dir_ok_disarmed id d v :
  dir_ok id d -> success_json d <> None -> terminal_of d = None -> evidence_file [disarmed] v ->
  dir_ok id (with_disarmed v d).
Proof using.
  intros [] Hs (Hd & Hr & Hm)%terminal_none Hv. split; cbn; try assumption. by intros w [= <-].
Qed.

Lemma dir_ok_rollback id d v :
  dir_ok id d -> guard_json d <> None -> terminal_of d = None -> evidence_file rollbacks v ->
  dir_ok id (with_rollback v d).
Proof using.
  intros [] Hg (Hd & Hr & Hm)%terminal_none Hv. split; cbn; try assumption.
  - rewrite Hd. discriminate.
  - by intros w [= <-].
  - rewrite Hm. by intros ? ? ?%not_elem_of_nil.
Qed.

Lemma record_disposition_Inv env guard d details s :
  Inv s -> verifyGuard (JObj guard) = Ok guard -> recordable (id_of guard) d s ->
  wp (record_disposition env guard d details) (fun _ s' => Inv s') s.
Proof using L Hkeys.
  intros Hs Hg Hr. unfold record_disposition, writeEvidence. controller_steps; try done.
  match goal with He : evidence _ _ _ _ = Ok ?e |- _ =>
    destruct (evidence_valid _ _ _ _ _ Hg He) as (Hv & Hd & Hid); rename e into ev end.
  apply wp_create_evidence; [done|done|]. intros s1 Hs1 [l Hl]. rewrite Hid in *.
  assert (Hf : forall ds, d ∈ ds -> evidence_file ds (JObj ev)) by (intros ds Hin; by exists ev, d).
  pose proof (dir_ok_evidence _ _ l (inv_dirs _ Hs (id_of guard))) as Hok. rewrite <- Hl in Hok. rewrite Hd.
  assert (Ht : terminal_of (dir_of (id_of guard) s1) = terminal_of (dir_of (id_of guard) s)) by by rewrite Hl.
  destruct d; cbn [disposition_name recordable] in *; eval_tests; controller_steps; try assumption;
    (destruct Hr as [Hr1 Hr2]; apply Inv_write; [assumption| |unfold is_active; cbn; by repeat case_match]);
    first [apply dir_ok_disarmed|apply dir_ok_rollback]; try assumption;
    first [by rewrite Ht|by rewrite Hl|apply Hf; by repeat constructor].
Qed.

Lemma wp_create_generation g v Q s :
  (forall e, Q (Err e) s) -> Q (Ok tt) s -> Q (Ok tt) (write_generation g v s) -> wp (create_generation g v) Q s.
Proof using. intros He H1 H2. unfold create_generation. controller_steps; auto. Qed.

Lemma writeGuard_Inv r s :
  Inv s -> verifyGuard (JObj r) = Ok r -> (forall i, is_active (dir_of i s) = false) ->
  latestGeneration s <= generation_of r -> wp (writeGuard r) (fun _ s' => Inv s') s.
Proof using.
  intros Hs Hr Hn Hgen. unfold writeGuard. controller_steps; try assumption.
  - apply wp_create_generation; [done..|]. apply Inv_generation; [done|]. intros i r' Ha. by rewrite Hn in Ha.
  - assert (Hs1 := Inv_arm r s Hs Hr Hn Hgen ltac:(assumption)).
    apply wp_create_generation; [done..|]. apply Inv_generation; [done|]. intros i r'.
    rewrite dir_of_write. destruct (decide (id_of r = i)); [|by rewrite Hn]. cbn. by intros _ [= <-].
Qed.

Lemma wp_locked {A} env (m : CM A) s :
  (forall s, Inv s -> wp m (fun _ s' => Inv s') s) -> Inv s ->
  wp (withGlobalLock env m) (fun _ s' => Inv s') s.
Proof using.
  assert (Hl : forall l s, Inv (with_lock l s) <-> Inv s) by (intros l s'; by split; apply Inv_store).
  intros Hm Hs. apply wp_withGlobalLock; [done| |done]. intros l s1 Hs1. by apply Hm, Hl.
Qed.

Lemma arm_Inv env input s : Inv s -> wp (arm env input) (fun _ s' => Inv s') s.
Proof using L Hkeys.
  apply wp_locked. clear s. intros s Hs. controller_steps; try assumption.
  match goal with Hg : verifyGuard input = Ok ?r |- _ =>
    rename r into record; pose proof (verifyGuard_same _ _ Hg) as ->; rename Hg into Hr end.
  assert (Hn : forall i, is_active (dir_of i s) = false).
  { intros i. apply not_true_is_false. intros Hi%active_elem. bool_inv.
    match goal with Hf : forallb _ _ = true |- _ => rewrite forallb_forall in Hf;
      pose proof (Hf i ltac:(by apply list_elem_of_In)) as Hi' end. bool_inv. by subst. }
  bool_inv. eapply wp_mono; [by apply writeGuard_Inv|]. cbn. intros [u|e] s' Hs'; [|done].
  by apply record_disposition_Inv.
Qed.

Lemma dir_ok_success id d g m :
  dir_ok id d -> guard_json d = Some (JObj g) -> valid_marker g (JObj m) = Ok m -> dir_ok id (with_success (JObj m) d).
Proof using.
  intros [] Hg Hm. split; cbn; try assumption.
  - intros v [= <-]. by exists g, m.
  - intros v (? & ? & ?)%ok_disarmed0. done.
Qed.

Lemma commitSuccess_Inv env input s : Inv s -> wp (commitSuccess env input) (fun _ s' => Inv s') s.
Proof using L Hkeys.
  apply wp_locked. clear s. intros s Hs. unfold writeSuccessMarker. controller_steps; try assumption.
  all: try (apply record_disposition_Inv; done).
  match goal with Hm : verifySignedSuccessMarker input _ = Ok ?r |- _ =>
    rename r into m; rename Hm into Hmark; assert (input = JObj m) as -> by (by eapply verify_signed_same) end.
  apply record_disposition_Inv; [|done|done]. apply Inv_write; [done| |done].
  eapply dir_ok_success; [apply inv_dirs, Hs|done|]. unfold valid_marker. rewrite Hmark. cbn [mbind result_bind].
  match goal with Hc : (assertMarkerMatchesGuard _ _ ≫= _) = Ok _ |- _ =>
    apply bind_Ok in Hc as ([] & -> & Hc) end. cbn [mbind result_bind].
  by match goal with Hc : assertMachine _ = Ok ?u |- _ => rewrite Hc end.
Qed.

(** The guard that [loadGuard] returned is the one of the directory. *)
Ltac name_guard g Hid :=
  match goal with Hs : Inv ?s, Hj : guard_json (dir_of ?i ?s) = Some (JObj ?r), Hv : verifyGuard (JObj ?r) = Ok ?r |- _ =>
    rename r into g; assert (Hid : id_of g = i) by exact (guard_id _ _ _ Hs Hj Hv); rewrite ?Hid in * end.

Lemma disarm_Inv env id s : Inv s -> wp (disarm env id) (fun _ s' => Inv s') s.
Proof using L Hkeys.
  apply wp_locked. clear s. intros s Hs. controller_steps; try assumption. name_guard g Hid.
  apply record_disposition_Inv; [done..|]. rewrite Hid. split; [congruence|].
  eapply no_terminal; [by apply inv_dirs|done].
Qed.

Lemma wp_restore g Q s : (forall r h, Q r (with_host h s)) -> wp (restore g) Q s.
Proof using. intros HQ. unfold wp, restore. destruct (restoreSnapshot _ _). apply HQ. Qed.

Lemma evaluate_Inv env id s : Inv s -> wp (evaluate env id) (fun _ s' => Inv s') s.
Proof using L Hkeys.
  apply wp_locked. clear s. intros s Hs. unfold readSuccessMarker. controller_steps; try assumption.
  all: try (apply record_disposition_Inv; done).
  name_guard g Hid. apply wp_restore. intros [[completed details]|e] h.
  - apply record_disposition_Inv; [by apply (Inv_store s)|done|]. rewrite Hid.
    assert (terminal_of (dir_of id s) = None) by (eapply no_terminal; [by apply inv_dirs|done]).
    unfold recordable. change (dir_of id (with_host h s)) with (dir_of id s).
    destruct completed; (split; [congruence|done]).
  - by apply (Inv_store s).
Qed.

Lemma dir_ok_manual id d n v :
  dir_ok id d -> rollback_json d <> None -> evidence_file rollbacks v ->
  dir_ok id (with_manual (manual_recovery_dir d ++ [(n, v)]) d).
Proof using.
  intros [] Hr Hv. split; cbn; try assumption. intros n' w [Hin|[= -> ->]%list_elem_of_singleton]%elem_of_app; [|done].
  by eapply ok_manual0.
Qed.

(** A guard whose rollback failed has the file of the rollback. *)
Lemma failed_rollback id d t :
  dir_ok id d -> terminal_of d = Some (JObj t) -> prop "disposition" t = JStr "rollback_failed" -> rollback_json d <> None.
Proof using.
  intros Hok. unfold terminal_of. destruct (last _) as [[n w]|] eqn:Hl.
  - intros _ _. apply (ok_manual _ _ Hok n w). rewrite <- (sort_by_perm str_ltb). by apply last_Some_elem_of.
  - destruct (disarmed_json d) as [w|] eqn:Hd; [|congruence]. intros [= ->] Ht.
    destruct (ok_disarmed _ _ Hok _ Hd) as ((e & d' & [= <-] & _ & ->%list_elem_of_singleton & Hdis) & _).
    rewrite Ht in Hdis. discriminate.
Qed.

Lemma manualRecover_Inv env id digest reason s :
  Inv s -> wp (manualRecover env id digest reason) (fun _ s' => Inv s') s.
Proof using L Hkeys.
  apply wp_locked. clear s. intros s Hs. unfold writeManualRecoveryEvidence, create_manual.
  controller_steps; try assumption. name_guard g Hid. apply wp_restore. intros [[completed details]|e] h;
    [|by apply (Inv_store s)].
  controller_steps; try (by apply (Inv_store s)).
  match goal with He : evidence _ _ _ _ = Ok ?e, Hg : verifyGuard _ = Ok _ |- _ =>
    destruct (evidence_valid _ _ _ _ _ Hg He) as (Hv & Hd & Hide); rename e into ev end.
  rewrite Hide, Hid. apply wp_create_evidence; [by apply (Inv_store s)|intros; by apply (Inv_store s)|].
  intros s1 Hs1 [l Hl]. controller_steps; try assumption.
  apply Inv_write; [done| |done]. apply dir_ok_manual; [by apply inv_dirs| |].
  - rewrite Hl. bool_inv. eapply (failed_rollback id (dir_of id s)); [by apply inv_dirs|eassumption|assumption].
  - eexists ev, _. split_and!; [done|done| |done]. destruct completed; by repeat constructor.
Qed.

Lemma perform_Inv a s : Inv s -> wp (perform a) (fun _ s' => Inv s') s.
Proof using L Hkeys.
  destruct a; cbn [perform];
    [apply arm_Inv|apply commitSuccess_Inv|apply disarm_Inv|apply evaluate_Inv| |apply manualRecover_Inv].
  intros Hs. apply wp_reads; [|exact Hs]. unfold read. respects_steps.
Qed.

Lemma steps_Inv s s' : rtc step s s' -> Inv s -> Inv s'.
Proof using L Hkeys.
  induction 1 as [|s s1 s2 Hs _ IH]; [done|]. intros Hi. apply IH.
  destruct Hs; [by apply (perform_Inv a)|by apply (Inv_store s)|by apply (Inv_store s)].
Qed.

Lemma reachable_Inv s : reachable s -> Inv s.
Proof using L Hkeys. intros [h Hr]. eapply steps_Inv; [exact Hr|apply init_Inv]. Qed.

(** ** Files and guards in every reachable state *)

(** the controller's files are written once: whatever actions run, and whatever happens to the
    host and the lock between them, no guard, marker, terminal record, evidence or generation record
    that is there is ever changed or removed. *)
Theorem files_created_once s s' : rtc step s s' -> store_le s s'.
Proof using. apply steps_le. Qed.



(** ** When the host is touched *)

(** The lock can be taken: it is free, unreadable, or held by a process that is gone. *)
Definition lock_free (env : Env) (s : State) : bool :=
  match self env with Some _ => negb (isLiveLock env (lock s)) | None => false end.

(** What evaluation decides from the files alone: the guard's generation is the latest, nothing
    terminal and no marker is recorded, and the deadline has passed. *)
Definition should_restore (env : Env) (id : string) (g : props json) (s : State) : bool :=
  lock_free env s && negb (generation_of g <? latestGeneration s) &&
  bool_decide (terminal_of (dir_of id s) = None) && bool_decide (success_json (dir_of id s) = None) &&
  negb (date_test (fun t => now env <? t) (prop "deadline" g)).

(** What the readers return in a consistent store. *)
Lemma verified_identifier g : verifyGuard (JObj g) = Ok g -> IDENTIFIER_PATTERN (id_of g) = true.
Proof using.
  intros (g' & Hv & (? & _ & [= ->])%bind_Ok)%bind_Ok.
  assert (Hc : assertGuardPayload (select GUARD_PAYLOAD_KEYS g) = Ok tt) by (by eapply verify_signed_check).
  clear Hv. rename Hc into Hv. unfold assertGuardPayload in Hv. apply bind_Ok in Hv as (? & _ & Hv). apply bind_Ok in Hv as (? & Hv & _).
  unfold assertCommonPayload in Hv. apply bind_Ok in Hv as (? & Hv & _).
  unfold assertIdentityPayload in Hv. apply bind_Ok in Hv as (? & _ & Hv).
  apply bind_Ok in Hv as (? & Hv%ensure_Ok & _). rewrite prop_select in Hv by by decided.
  unfold id_of. by destruct (prop "deploymentId" g).
Qed.

Lemma loadGuard_eq id g s :
  Inv s -> guard_json (dir_of id s) = Some (JObj g) -> loadGuard id s = (Ok g, s) /\ IDENTIFIER_PATTERN id = true.
Proof using.
  intros Hs Hg. destruct (ok_guard _ _ (inv_dirs _ Hs id) _ Hg) as (g' & Hv & Hid).
  pose proof (verifyGuard_same _ _ Hv) as [= <-]. pose proof (verified_identifier _ Hv) as Hp. rewrite Hid in Hp.
  split; [|done]. unfold loadGuard, readGuard. rewrite !bindM_eq. unfold lift, assertDeploymentId. rewrite Hp.
  cbn [require]. rewrite bindM_eq. cbn [get_state]. rewrite Hg. unfold mret, M_ret. by rewrite Hv.
Qed.

Lemma readVerifiedTerminal_eq id s :
  Inv s -> IDENTIFIER_PATTERN id = true ->
  readVerifiedTerminal id s =
    (Ok match terminal_of (dir_of id s) with Some (JObj t) => Some t | _ => None end, s).
Proof using.
  intros Hs Hp. unfold readVerifiedTerminal, readTerminalEvidence. rewrite !bindM_eq.
  unfold lift, assertDeploymentId. rewrite Hp. cbn [require gets].
  destruct (terminal_of (dir_of id s)) as [v|] eqn:Ht; [|done].
  destruct (terminal_file id _ v (inv_dirs _ Hs id) Ht) as (e & d & -> & Hv & _).
  cbn [truthy]. by rewrite Hv.
Qed.

Lemma loadValidMarker_eq g s :
  Inv s -> IDENTIFIER_PATTERN (id_of g) = true -> guard_json (dir_of (id_of g) s) = Some (JObj g) ->
  exists m, loadValidMarker g s = (Ok m, s) /\ (m = None <-> success_json (dir_of (id_of g) s) = None).
Proof using.
  intros Hs Hp Hg. unfold loadValidMarker, readSuccessMarker. rewrite !bindM_eq.
  unfold lift, assertDeploymentId. rewrite Hp. cbn [require gets].
  destruct (success_json _) as [v|] eqn:Hv; [|by exists None].
  destruct (ok_success _ _ (inv_dirs _ Hs (id_of g)) _ Hv) as (g' & m & Hg' & Hm).
  assert (g' = g) as -> by congruence.
  assert (truthy v = true) as ->; [|rewrite Hm; by exists (Some m)].
  unfold valid_marker in Hm. apply bind_Ok in Hm as (kvs & Hm & _).
  assert (v = JObj kvs) as -> by (by eapply verify_signed_same). done.
Qed.

Lemma wp_lock_cases {A} env (m : CM A) (Q : State -> Prop) s :
  (forall l s, Q (with_lock l s) <-> Q s) ->
  (lock_free env s = false -> Q s) ->
  (lock_free env s = true -> forall l, wp m (fun _ s' => Q s') (with_lock l s)) ->
  wp (withGlobalLock env m) (fun _ s' => Q s') s.
Proof using.
  intros HQ Hbusy Hfree. unfold wp, withGlobalLock, lock_free in *. destruct (self env) as [me|]; [|by apply Hbusy].
  destruct (acquire 2 env me (lock s)) as [l|e] eqn:Ha.
  - assert (Hl : negb (isLiveLock env (lock s)) = true).
    { cbn in Ha. destruct (lock s); cbn in *; try done. by destruct (bool_decide _). }
    specialize (Hfree Hl l). unfold wp in Hfree. destruct (m (with_lock l s)) as [r s1]. cbn in *.
    destruct (lock s1); [done|done|]. destruct (bool_decide _); [by apply HQ|done].
  - apply Hbusy. cbn in Ha. destruct (lock s); cbn in *; try done. by destruct (bool_decide _).
Qed.
(** The two ways an evaluation goes: the snapshot is restored and the outcome recorded, or nothing
    but evidence of another disposition is. *)
Definition rollback_body (env : Env) (g : props json) : CM ControllerStatus :=
  '(completed, details) ← restore g;
  record_disposition env g (if (completed : bool) then rolled_back else rollback_failed) details.

Lemma evaluate_shape env id g s (Q : State -> Prop) :
  Inv s -> guard_json (dir_of id s) = Some (JObj g) -> (forall l s, Q (with_lock l s) <-> Q s) ->
  (should_restore env id g s = true -> forall l, wp (rollback_body env g) (fun _ s' => Q s') (with_lock l s)) ->
  (should_restore env id g s = false -> Q s /\ forall l d details, (d ∉ rollbacks) ->
     wp (record_disposition env g d details) (fun _ s' => Q s') (with_lock l s)) ->
  wp (evaluate env id) (fun _ s' => Q s') s.
Proof using.
  intros Hs Hg HQ Ht Hf. apply wp_lock_cases; [done| |].
  { intros Hbusy. apply Hf. unfold should_restore. by rewrite Hbusy. }
  intros Hfree l. unfold should_restore in Ht, Hf. rewrite Hfree in Ht, Hf. cbn [andb] in Ht, Hf.
  assert (Hl : Inv (with_lock l s)) by (by apply (Inv_store s)).
  assert (Hid : id_of g = id).
  { destruct (ok_guard _ _ (inv_dirs _ Hs id) _ Hg) as (g' & Hv & Hid).
    by pose proof (verifyGuard_same _ _ Hv) as [= <-]. }
  destruct (loadGuard_eq id g _ Hl Hg) as [Hload Hp].
  pose proof (readVerifiedTerminal_eq id _ Hl Hp) as Hterm.
  destruct (loadValidMarker_eq g _ Hl ltac:(by rewrite Hid) ltac:(by rewrite Hid)) as (m & Hmark & Hm).
  rewrite Hid in Hm. apply wp_bind; eapply wp_run; [exact Hload|]; cbv beta iota.
  apply wp_bind, wp_gets; cbv beta iota.
  change (latestGeneration (with_lock l s)) with (latestGeneration s) in *.
  change (dir_of id (with_lock l s)) with (dir_of id s) in *.
  destruct (generation_of g <? latestGeneration s); [by apply Hf; [|decided]|]. cbn [negb andb] in Ht, Hf.
  apply wp_bind; eapply wp_run; [exact Hterm|]; cbv beta iota. clear Hload Hterm.
  destruct (terminal_of (dir_of id s)) as [v|] eqn:Hterm.
  { destruct (terminal_file id _ v (inv_dirs _ Hs id) Hterm) as (t & d & -> & _). apply wp_ret, HQ. by apply Hf. }
  apply wp_bind; eapply wp_run; [exact Hmark|]; cbv beta iota. destruct m as [m|].
  - rewrite (bool_decide_eq_false_2 (success_json _ = None)) in Hf by (intros E; by apply Hm in E).
    by apply Hf; [|decided].
  - rewrite (bool_decide_eq_true_2 (success_json _ = None)) in Ht, Hf by (by apply Hm).
    destruct (date_test _ _); [|by apply Ht].
    apply wp_bind, wp_reads; [apply readSuccessMarker_reads|].
    destruct (fst (readSuccessMarker id _)); [by apply Hf; [|decided]|]. apply HQ. by apply Hf.
Qed.

Lemma evaluate_host env id g s :
  Inv s -> guard_json (dir_of id s) = Some (JObj g) ->
  host (snd (evaluate env id s)) =
    if should_restore env id g s then snd (restoreSnapshot (host s) g) else host s.
Proof using.
  intros Hs Hg.
  assert (Hrec : forall d details s2, host (snd (record_disposition env g d details s2)) = host s2).
  { intros d details. by apply (record_disposition_frame (fun a b => host b = host a)). }
  apply (evaluate_shape env id g s (fun s' => host s' = if should_restore env id g s then _ else _) Hs Hg); [done|..].
  - intros -> l. unfold rollback_body. apply wp_bind. unfold wp, restore. cbn.
    destruct (restoreSnapshot (host s) g) as [[[c details]|e] h]; cbn; [|done]. by rewrite Hrec.
  - intros ->. split; [done|]. intros l d details _. unfold wp. by rewrite Hrec.
Qed.

(** Only an evaluation that restores creates the file of the rollback. *)
Definition same_rollback (s s' : State) : Prop := forall id, rollback_json (dir_of id s') = rollback_json (dir_of id s).

#[local] Instance same_rollback_preorder : PreOrder same_rollback.
Proof using. split; [by intros s id|]. intros a b c H1 H2 id. by rewrite H2. Qed.

Lemma create_file_same_rollback id get_ set_ v :
  (forall d, rollback_json (set_ v d) = rollback_json d) -> respects same_rollback (create_file id get_ set_ v).
Proof using.
  intros Hset s. apply (wp_use (create_file id get_ set_ v) (fun _ s' => same_rollback s s')).
  controller_steps; [by intros ?..|]. intros i. rewrite dir_of_write.
  destruct (decide (id = i)) as [<-|]; [apply Hset|done].
Qed.

Lemma create_generation_same_rollback g v : respects same_rollback (create_generation g v).
Proof using. intros s. by apply (wp_use _ (fun _ s' => same_rollback s s')), wp_create_generation. Qed.

#[local] Hint Resolve create_generation_same_rollback : respects.
#[local] Hint Extern 1 (respects same_rollback (create_file _ _ _ _)) =>
  apply create_file_same_rollback; reflexivity : respects.

Lemma evidence_disposition env g d details e :
  evidence env g d details = Ok e -> prop "disposition" e = JStr (disposition_name d).
Proof using. intros (? & _ & [= <-])%bind_Ok. reflexivity. Qed.

Lemma record_same_rollback env g d details :
  (d ∉ rollbacks) -> respects same_rollback (record_disposition env g d details).
Proof using.
  intros Hd s. apply (wp_use _ (fun _ s' => same_rollback s s')). unfold record_disposition.
  apply wp_bind, wp_lift; [|by intros ? _ ?]. intros e He. cbv beta iota.
  unfold writeEvidence, create_evidence. rewrite (evidence_disposition _ _ _ _ _ He).
  match goal with |- wp ?m _ _ => enough (Hm : respects same_rollback m) by exact (Hm s) end.
  destruct d; try (by destruct Hd; decided); cbn [disposition_name]; eval_tests; respects_steps.
Qed.

(** A disposition is recorded in the directory of its guard. *)
Lemma create_file_other id id' get_ set_ v s :
  id <> id' -> dir_of id' (snd (create_file id get_ set_ v s)) = dir_of id' s.
Proof using.
  intros Hne. apply (wp_use (create_file id get_ set_ v) (fun _ s' => dir_of id' s' = dir_of id' s)).
  controller_steps; [done..|]. by rewrite dir_of_write, decide_False.
Qed.

Lemma record_other env g d details id s :
  id <> id_of g -> dir_of id (snd (record_disposition env g d details s)) = dir_of id s.
Proof using.
  intros Hne. apply (wp_use _ (fun _ s' => dir_of id s' = dir_of id s)). unfold record_disposition.
  apply wp_bind, wp_lift; [|done]. intros e He. cbv beta iota.
  assert (Hid : id_of e = id_of g) by (apply bind_Ok in He as (? & _ & [= <-]); reflexivity).
  set (R := fun a b : State => dir_of id b = dir_of id a).
  assert (PreOrder R) by (split; [done|]; intros a b c ? ?; by transitivity (dir_of id b)).
  match goal with |- wp ?m _ _ => enough (Hm : respects R m) by exact (Hm s) end.
  unfold writeEvidence, create_evidence. rewrite Hid.
  assert (Hc : forall get_ set_ v, respects R (create_file (id_of g) get_ set_ v))
    by (intros get_ set_ v s'; by apply create_file_other).
  respects_steps; apply Hc.
Qed.

Lemma evaluate_unguarded env id s :
  guard_json (dir_of id s) = None -> store (snd (evaluate env id s)) = store s.
Proof using.
  intros Hg. apply (wp_lock_cases env _ (fun s' => store s' = store s) s); [done..|]. intros _ l.
  apply wp_bind, wp_loadGuard; [done|]. intros g Hg'. change (guard_json (dir_of id s) = Some (JObj g)) in Hg'.
  congruence.
Qed.

Lemma evaluate_marked env id i s :
  Inv s -> success_json (dir_of i s) <> None ->
  rollback_json (dir_of i (snd (evaluate env id s))) = rollback_json (dir_of i s).
Proof using.
  intros Hs Hm. destruct (guard_json (dir_of id s)) as [v|] eqn:Hg.
  2: { pose proof (evaluate_unguarded env id s Hg) as E. unfold dir_of. by rewrite E. }
  destruct (ok_guard _ _ (inv_dirs _ Hs id) _ Hg) as (g & Hv & Hid). pose proof (verifyGuard_same _ _ Hv) as ->.
  apply (evaluate_shape env id g s (fun s' => rollback_json (dir_of i s') = rollback_json (dir_of i s)) Hs Hg); [done|..].
  - intros Hr l. unfold should_restore in Hr. bool_inv.
    assert (i <> id_of g) by congruence. apply wp_bind, wp_restore. intros [[c details]|e] h; [|done].
    unfold wp. by rewrite record_other.
  - intros _. split; [done|]. intros l d details Hd. unfold wp. by rewrite (record_same_rollback env g d details Hd _ i).
Qed.

Lemma restore_same_rollback g : respects same_rollback (restore g).
Proof using. intros s. apply (wp_use _ (fun _ s' => same_rollback s s')), wp_restore. by intros ? ? ?. Qed.

Lemma perform_marked a s i :
  Inv s -> success_json (dir_of i s) <> None ->
  rollback_json (dir_of i (snd (perform a s))) = rollback_json (dir_of i s).
Proof using.
  intros Hs Hm. destruct a as [env input|env input|env id|env id|id|env id digest reason]; cbn [perform];
    [| | |by apply evaluate_marked| |].
  all: match goal with |- rollback_json (dir_of ?j (snd (?m _))) = _ => enough (Hr : respects same_rollback m) by apply Hr end.
  all: unfold arm, commitSuccess, disarm, read, manualRecover;
    try (apply withGlobalLock_respects; [typeclasses eauto|by intros ? ? ?|]).
  all: unfold writeGuard, writeSuccessMarker, writeManualRecoveryEvidence, create_evidence, create_manual.
  all: respects_steps; first [apply record_same_rollback; by decided|apply restore_same_rollback].
Qed.

(** C24: evaluation touches the host exactly when it should, and once: in a reachable state it calls
    [restoreSnapshot] of the directory's guard if the lock can be taken, the guard's generation is
    the latest, no terminal record and no success marker is there and the deadline has passed;
    otherwise the host is as it was. *)
Theorem evaluate_restores_exactly env id g s :
  reachable s -> guard_json (dir_of id s) = Some (JObj g) ->
  host (snd (evaluate env id s)) =
    if should_restore env id g s then snd (restoreSnapshot (host s) g) else host s.
Proof using L Hkeys. intros Hr. by apply evaluate_host, reachable_Inv. Qed.

(** C23: once the success of a deployment is committed it stays: whatever actions follow, the marker
    remains, evaluation of the deployment never touches the host again, and if no rollback had been
    recorded by then none ever is. *)
Theorem committed_never_rolled_back s s' id m :
  reachable s -> success_json (dir_of id s) = Some m -> rtc step s s' ->
  success_json (dir_of id s') = Some m /\
  (forall env, host (snd (evaluate env id s')) = host s') /\
  (rollback_json (dir_of id s) = None -> rollback_json (dir_of id s') = None).
Proof using L Hkeys.
  intros Hr Hm Hsteps. pose proof (reachable_Inv _ Hr) as Hs. pose proof (steps_Inv _ _ Hsteps Hs) as Hs'.
  assert (Hm' : success_json (dir_of id s') = Some m) by (by apply (le_dirs _ _ (steps_le _ _ Hsteps) id)).
  split_and!; [done| |].
  - intros env. destruct (ok_success _ _ (inv_dirs _ Hs' id) _ Hm') as (g & _ & Hg & _).
    rewrite (evaluate_host env id g s' Hs' Hg). unfold should_restore. rewrite Hm'.
    by rewrite (bool_decide_eq_false_2 (Some m = None)), andb_false_r by done.
  - clear Hm' Hs' Hr. induction Hsteps as [|s s1 s2 Hstep Hrest IH]; [done|]. intros Hn.
    assert (Hm1 : success_json (dir_of id s1) = Some m)
      by (by apply (le_dirs _ _ (steps_le _ _ (rtc_once _ _ Hstep)) id)).
    apply IH; [done|by eapply steps_Inv; [apply rtc_once|]|].
    destruct Hstep as [a s| |]; [|done..]. by rewrite perform_marked; [|done|rewrite Hm].
Qed.

(** arming again the deployment that is active writes nothing: the answer is [armed] for the
    same record and an error for another.  A generation record that a crash kept from being written
    is therefore not written by the retry. *)
Theorem arm_retry_writes_nothing env input r s :
  verifyGuard input = Ok r -> is_active (dir_of (id_of r) s) = true -> store (snd (arm env input s)) = store s.
Proof using.
  intros Hr Ha. apply (wp_lock_cases env _ (fun s' => store s' = store s) s); [done..|]. intros _ l.
  apply wp_bind; eapply wp_run; [unfold lift; by rewrite Hr|]. cbv beta iota.
  controller_steps; try done.
  match goal with Hb : bool_decide _ = false |- _ => apply bool_decide_eq_false in Hb; destruct Hb end.
  by apply active_elem.
Qed.

(** the break-glass action is fenced: it touches the host only if its reason is well formed, it
    names the snapshot of the guard, and the last terminal record is a failed rollback. *)
Theorem manualRecover_fenced env id digest reason s :
  host (snd (manualRecover env id digest reason s)) <> host s ->
  reason_ok reason = true /\
  exists g t, guard_json (dir_of id s) = Some (JObj g) /\ prop "snapshotDigest" g = JStr digest /\
    terminal_of (dir_of id s) = Some (JObj t) /\ prop "disposition" t = JStr "rollback_failed".
Proof using.
  intros Hh.
  enough (Hw : wp (manualRecover env id digest reason) (fun _ s' => host s' = host s \/
    (reason_ok reason = true /\
     exists g t, guard_json (dir_of id s) = Some (JObj g) /\ prop "snapshotDigest" g = JStr digest /\
       terminal_of (dir_of id s) = Some (JObj t) /\ prop "disposition" t = JStr "rollback_failed")) s)
    by (by destruct Hw).
  apply wp_lock_cases; [done|by left|]. intros _ l.
  apply wp_bind, wp_guardM; [|by left]. intros Hreason. cbv beta iota.
  apply wp_bind, wp_loadGuard; [by left|]. intros g Hg _. cbv beta iota.
  apply wp_bind, wp_guardM; [|by left]. intros Hd. cbv beta iota. bool_inv.
  apply wp_bind, wp_readVerifiedTerminal; [by left| |by left]. intros t Ht _. cbv beta iota.
  apply wp_bind, wp_guardM; [|by left]. intros Hf. bool_inv.
  unfold wp. right. split; [done|]. by exists g, t.
Qed.

(** The process that performs an action under the lock. *)
Definition action_env (a : action) : option Env :=
  match a with
  | Arm env _ | CommitSuccess env _ | Disarm env _ | Evaluate env _ | ManualRecover env _ _ _ => Some env
  | Read _ => None
  end.

Lemma locked_run {A} env me (m : CM A) s :
  self env = Some me -> respects (fun a b => lock b = lock a) m ->
  (isLiveLock env (lock s) = true -> withGlobalLock env m s = (Err controller_lock_busy, s)) /\
  (isLiveLock env (lock s) = false -> lock (snd (withGlobalLock env m s)) = NoLock).
Proof using.
  intros Hme Hm. unfold withGlobalLock. rewrite Hme. split; intros Hl.
  - cbn [acquire]. rewrite Hl. by destruct (lock s).
  - assert (acquire 2 env me (lock s) = Ok (Lock me)) as ->.
    { cbn [acquire]. rewrite Hl. by destruct (lock s). }
    specialize (Hm (with_lock (Lock me) s)). destruct (m _) as [r s1]. cbn in Hm. rewrite Hm.
    by rewrite bool_decide_eq_true_2.
Qed.

(** the actions exclude each other: while the lock is held by a live process every action but
    [read] is refused and changes nothing, and an action that runs, also over a lock left by a
    process that died, leaves no lock behind, whether it succeeds or throws. *)
Theorem actions_exclude_each_other a env me s :
  action_env a = Some env -> self env = Some me ->
  (isLiveLock env (lock s) = true -> perform a s = (Err controller_lock_busy, s)) /\
  (isLiveLock env (lock s) = false -> lock (snd (perform a s)) = NoLock).
Proof using.
  intros Ha Hme. destruct a; try discriminate; injection Ha as ->; cbn [perform];
    (apply (locked_run _ me); [exact Hme|]).
  all: match goal with |- respects ?R _ =>
    pose proof (record_disposition_frame R ltac:(done) ltac:(done)) as Hrec;
    pose proof (writeGuard_frame R ltac:(done) ltac:(done)) as Hwg;
    pose proof (writeSuccessMarker_frame R ltac:(done) ltac:(done)) as Hws;
    pose proof (writeManualRecoveryEvidence_frame R ltac:(done) ltac:(done)) as Hwm;
    assert (Hre : forall g, respects R (restore g))
      by (intros g s'; unfold restore; by destruct (restoreSnapshot (host s') g))
  end.
  all: respects_steps.
Qed.
End Invariant.
End Controller.

(** ** Witnesses *)

Section Witnesses.
#[local] Existing Instance toy_crypto.
#[local] Existing Instance toy_dates.

(** A host that counts the restorations. *)
#[local] Instance toy_host : FixedGuardHostAdapter nat := {|
  readPointers := fun _ _ => Ok toy_pointers;
  restoreSnapshot := fun n _ => (Ok (Nat.even n, [("attempt"%string, JNum (Z.of_nat n))]), S n)
|}.

Definition toy_options : Options toy_crypto := {|
  machineId := "m-1";
  babyAuthorityPublicKey := toy_private;
  controllerEvidencePrivateKey := toy_private;
  controllerEvidencePublicKey := toy_private;
  controllerSigningKeyId := "key-2"
|}.

Definition toy_lock (token_ : string) : LockIdentity :=
  {| token := token_; pid := 7; startTime := "1"; executable := "node" |}.

Definition toy_env (t : Z) : Env := {|
  now := t; self := Some (toy_lock "t1"); processIdentity := fun p => if p =? 7 then Some ("1", "node")%string else None
|}.

Definition toy_act (a : action) (s : State) : State := snd (perform toy_options a s).

Definition toy_armed : State := toy_act (Arm (toy_env 1000) (JObj (toy_guard "d-1" 1))) (init 0%nat).
Definition toy_committed : State := toy_act (CommitSuccess (toy_env 4000) (JObj (toy_marker "d-1" 1))) toy_armed.
Definition toy_odd : State := with_host 1%nat toy_armed.
Definition toy_failed : State := toy_act (Evaluate (toy_env 6000) "d-1") toy_odd.

Lemma toy_armed_reachable : reachable toy_options toy_armed.
Proof. exists 0%nat. apply rtc_once. exact (step_action toy_options _ (init 0%nat)). Qed.

Lemma toy_committed_reachable : reachable toy_options toy_committed.
Proof. destruct toy_armed_reachable as [h Hr]. exists h. eapply rtc_r; [exact Hr|]. exact (step_action toy_options _ toy_armed). Qed.

Lemma files_created_once_witness :
  rtc (step toy_options) toy_armed (toy_act (Evaluate (toy_env 6000) "d-1") toy_armed) /\
  store_le toy_armed (toy_act (Evaluate (toy_env 6000) "d-1") toy_armed).
Proof.
  assert (Hr : rtc (step toy_options) toy_armed (toy_act (Evaluate (toy_env 6000) "d-1") toy_armed))
    by (apply rtc_once; exact (step_action toy_options _ toy_armed)).
  split; [exact Hr|]. exact (files_created_once toy_options _ _ Hr).
Defined.



Lemma evaluate_restores_exactly_witness :
  should_restore (toy_env 6000) "d-1" (toy_guard "d-1" 1) toy_armed = true /\
  host (snd (evaluate toy_options (toy_env 6000) "d-1" toy_armed)) = 1%nat.
Proof.
  assert (H : should_restore (toy_env 6000) "d-1" (toy_guard "d-1" 1) toy_armed = true) by (vm_compute; reflexivity).
  split; [exact H|].
  pose proof (evaluate_restores_exactly toy_options toy_laws eq_refl (toy_env 6000) "d-1" (toy_guard "d-1" 1) toy_armed
    toy_armed_reachable ltac:(vm_compute; reflexivity)) as E.
  rewrite H in E. rewrite E. vm_compute. reflexivity.
Defined.

Lemma committed_never_rolled_back_witness :
  success_json (dir_of "d-1" toy_committed) = Some (JObj (toy_marker "d-1" 1)) /\
  host (snd (evaluate toy_options (toy_env 6000) "d-1" toy_committed)) = host toy_committed.
Proof.
  assert (H : success_json (dir_of "d-1" toy_committed) = Some (JObj (toy_marker "d-1" 1))) by (vm_compute; reflexivity).
  split; [exact H|].
  exact (proj1 (proj2 (committed_never_rolled_back toy_options toy_laws eq_refl toy_committed toy_committed "d-1" _
    toy_committed_reachable H (rtc_refl _ _))) (toy_env 6000)).
Defined.

(** The guard of [toy_armed] as a crash before the generation record leaves it: the retry answers
    [armed] and the record stays missing. *)
Definition toy_crashed : State := {|
  store := {| deployments := {[ "d-1"%string := with_guard (JObj (toy_guard "d-1" 1)) empty_dir ]}; generations := ∅ |};
  lock := Lock {| token := "t0"; pid := 3; startTime := "0"; executable := "node" |};
  host := 0%nat
|}.

Lemma arm_retry_writes_nothing_witness :
  is_ok (fst (arm toy_options (toy_env 1000) (JObj (toy_guard "d-1" 1)) toy_crashed)) = true /\
  store (snd (arm toy_options (toy_env 1000) (JObj (toy_guard "d-1" 1)) toy_crashed)) = store toy_crashed.
Proof.
  split; [vm_compute; reflexivity|].
  apply (arm_retry_writes_nothing toy_options (toy_env 1000) (JObj (toy_guard "d-1" 1)) (toy_guard "d-1" 1));
    vm_compute; reflexivity.
Defined.

Lemma manualRecover_fenced_witness :
  exists g t, guard_json (dir_of "d-1" toy_failed) = Some (JObj g) /\
    terminal_of (dir_of "d-1" toy_failed) = Some (JObj t) /\ prop "disposition" t = JStr "rollback_failed".
Proof.
  destruct (manualRecover_fenced toy_options (toy_env 7000) "d-1" (toy_sha "snapshot") "operator approved" toy_failed)
    as (_ & g & t & H1 & _ & H2 & H3).
  - vm_compute. discriminate.
  - exists g, t. split; [exact H1|]. split; [exact H2|exact H3].
Defined.

Lemma actions_exclude_each_other_witness :
  perform toy_options (Disarm (toy_env 1000) "d-1") (with_lock (Lock (toy_lock "t0")) toy_armed)
  = (Err controller_lock_busy, with_lock (Lock (toy_lock "t0")) toy_armed).
Proof.
  apply (proj1 (actions_exclude_each_other toy_options (Disarm (toy_env 1000) "d-1") (toy_env 1000) (toy_lock "t1")
    (with_lock (Lock (toy_lock "t0")) toy_armed) eq_refl eq_refl)).
  vm_compute. reflexivity.
Defined.
End Witnesses.
