(* ===== verification/Receipts.v ===== *)
(** * Signed receipts ([src/receipts/receipt.ts], [src/receipts/verify.ts])

    The receipt of an operation: building, signing and verifying it, in its two schema versions.  A
    receipt the supervisor signs is accepted; what is signed binds every field of a receipt; and
    what the signature does not cover is shown too. *)

From S2P Require Import Prelude Bytes Json Platform Config Errors Canonical.

#[global] Open Scope Z_scope.

(** ** Receipts *)

(** Source: src/receipts/receipt.ts:10-10 (RECEIPT_SCHEMA_VERSION) *)
Definition RECEIPT_SCHEMA_VERSION : string := "2.0.0".

(** Source: src/receipts/receipt.ts:12-20 (ReceiptReleaseIdentity) *)
Record ReceiptReleaseIdentity := {
  rl_status : string;
  rl_manifestPath : string;
  rl_manifestSha256 : option string;
  rl_version : option string;
  rl_commit : option string;
  rl_tree : option string;
  rl_sourceDateEpoch : option json
}.

(** Source: src/receipts/receipt.ts:22-39 (ReceiptInputV1, ReceiptInputV2) *)
Record ReceiptInputV2 := {
  in_requestId : string;
  in_operation : string;
  in_subject : string;
  in_authorityClass : string;
  in_requestDigest : string;
  in_requestFingerprint : string;
  in_resultDigest : string;
  in_timestamp : string;
  in_startedAt : string;
  in_completedAt : string;
  in_release : ReceiptReleaseIdentity;
  in_machineIdSha256 : string;
  in_hostname : string
}.

(** A member that an object literal has or has not. *)
Definition optional (k : string) (v : option json) : props json :=
  match v with Some v => [(k, v)] | None => [] end.

Definition release_json (r : ReceiptReleaseIdentity) : json :=
  JObj ([("status", JStr (rl_status r)); ("manifestPath", JStr (rl_manifestPath r))]%string ++
        optional "manifestSha256" (option_map JStr (rl_manifestSha256 r)) ++
        optional "version" (option_map JStr (rl_version r)) ++
        optional "commit" (option_map JStr (rl_commit r)) ++
        optional "tree" (option_map JStr (rl_tree r)) ++
        optional "sourceDateEpoch" (rl_sourceDateEpoch r)).

Definition input_json (i : ReceiptInputV2) : props json :=
  [("requestId", JStr (in_requestId i)); ("operation", JStr (in_operation i)); ("subject", JStr (in_subject i));
   ("authorityClass", JStr (in_authorityClass i)); ("requestDigest", JStr (in_requestDigest i));
   ("requestFingerprint", JStr (in_requestFingerprint i)); ("resultDigest", JStr (in_resultDigest i));
   ("timestamp", JStr (in_timestamp i)); ("startedAt", JStr (in_startedAt i));
   ("completedAt", JStr (in_completedAt i)); ("release", release_json (in_release i));
   ("machineIdSha256", JStr (in_machineIdSha256 i)); ("hostname", JStr (in_hostname i))]%string.

(** [typeof v === 'string' ? v : 'unknown'] *)
Definition string_or_unknown (v : json) : string := match v with JStr s => s | _ => "unknown" end.

Section Receipts.
Context {C : Crypto}.

(** [manifest] is the file [manifest.json] of the current release, its text and what [JSON.parse]
    makes of it, if it can be read and parsed; member access on [null] throws, and is caught too.
    Source: src/receipts/receipt.ts:60-82 (readReceiptReleaseIdentity) *)
Definition readReceiptReleaseIdentity (manifestPath : string) (manifest : option (string * option json))
    : ReceiptReleaseIdentity :=
  let unknown := {| rl_status := "unknown"; rl_manifestPath := manifestPath; rl_manifestSha256 := None;
                    rl_version := None; rl_commit := None; rl_tree := None; rl_sourceDateEpoch := None |} in
  match manifest with
  | Some (raw, Some parsed) =>
      match get "version" parsed with
      | Err _ => unknown
      | Ok version =>
          {| rl_status := "installed"; rl_manifestPath := manifestPath; rl_manifestSha256 := Some (sha256Hex raw);
             rl_version := Some (string_or_unknown version);
             rl_commit := Some (string_or_unknown (field "commit" parsed));
             rl_tree := Some (string_or_unknown (field "tree" parsed));
             rl_sourceDateEpoch := Some (match field "sourceDateEpoch" parsed with
                                         | JNum z => JNum z | JStr s => JStr s | _ => JStr "unknown" end) |}
      end
  | _ => unknown
  end.

(** Source: src/receipts/receipt.ts:84-86 (buildReceiptDigest) *)
Definition buildReceiptDigest (input : props json) : string := sha256Hex (canonical_obj input).

(** Source: src/receipts/receipt.ts:93-97 (signReceipt) *)
Definition signing_body (input : props json) (receiptId : json) : string :=
  canonical_obj (input ++ [("receiptId", receiptId); ("digest", JStr (buildReceiptDigest input))]%string).

(** Source: src/receipts/receipt.ts:88-107 (signReceipt) *)
Definition signReceipt (input : ReceiptInputV2) (privateKey : PrivateKey) (keyId : string) : props json :=
  let receiptId := slice (sha256Hex (in_requestDigest input +:+ ":" +:+ in_resultDigest input +:+ ":" +:+
                                     in_completedAt input)) 0 32 in
  let signature := signEd25519 (signing_body (input_json input) (JStr receiptId)) privateKey in
  [("receiptSchemaVersion", JStr RECEIPT_SCHEMA_VERSION); ("protocolVersion", JStr PROTOCOL_VERSION);
   ("receiptId", JStr receiptId)]%string ++ input_json input ++
  [("signature", JStr signature); ("keyId", JStr keyId)]%string.

(** [canonicalJson(undefined)] is [undefined], and the digest of [undefined] throws.
    Source: src/receipts/receipt.ts:109-111 (resultDigest) *)
Definition resultDigest (v : json) : result exn string :=
  match canonicalJson v with
  | Some text => Ok (sha256Hex text)
  | None => Err (PlainError "The data argument must be of type string")
  end.

(** ** Verification *)

Definition v1_fields : list string :=
  ["requestId"; "operation"; "subject"; "authorityClass"; "resultDigest"; "timestamp"; "machineIdSha256";
   "hostname"]%string.

Definition v2_fields : list string :=
  ["requestId"; "operation"; "subject"; "authorityClass"; "requestDigest"; "requestFingerprint"; "resultDigest";
   "timestamp"; "startedAt"; "completedAt"; "machineIdSha256"; "hostname"; "release"]%string.

(** The fields a version signs. *)
Definition signed_fields (version : json) : option (list string) :=
  if version === JStr "1.0.0" then Some v1_fields
  else if version === JStr "2.0.0" then Some v2_fields
  else None.

(** The text whose signature is checked. *)
Definition receipt_body (receipt : props json) : option string :=
  match signed_fields (prop "receiptSchemaVersion" receipt) with
  | Some fields => Some (signing_body (select fields receipt) (prop "receiptId" receipt))
  | None => None
  end.

(** Source: src/receipts/verify.ts:13-21 (verifyInput) *)
Definition verifyInput (input receipt : props json) (publicKey : PublicKey) : bool :=
  match prop "signature" receipt with
  | JStr signature => verifyEd25519 (signing_body input (prop "receiptId" receipt)) signature publicKey
  | _ => false
  end.

(** Source: src/receipts/verify.ts:23-58 (verifyReceipt) *)
Definition verifyReceipt (receipt : props json) (publicKey : PublicKey) : bool :=
  if prop "receiptSchemaVersion" receipt === JStr "1.0.0" then
    verifyInput (select v1_fields receipt) receipt publicKey
  else if prop "receiptSchemaVersion" receipt === JStr "2.0.0" then
    verifyInput (select v2_fields receipt) receipt publicKey
  else false.

(** ** Signed receipts verify *)

Lemma Forall_optional (P : string * json -> Prop) k v :
  (forall x, v = Some x -> P (k, x)) -> Forall P (optional k v).
Proof using. destruct v; cbn; intros H; [by apply Forall_singleton, H|constructor]. Qed.

(** The date of a release is a number or a string. *)
Definition scalar (v : json) : bool := match v with JNum _ | JStr _ => true | _ => false end.
Definition release_ok (r : ReceiptReleaseIdentity) : bool :=
  match rl_sourceDateEpoch r with Some v => scalar v | None => true end.

Lemma release_plain r : release_ok r = true -> plain (release_json r) = true.
Proof using.
  destruct r as [? ? a b c d e]. unfold release_ok, release_json. cbn. intros He.
  destruct a, b, c, d, e as [[]|]; try discriminate He; vm_compute; reflexivity.
Qed.

Lemma input_plain i : release_ok (in_release i) = true -> plain (JObj (input_json i)) = true.
Proof using.
  intros H. apply plain_literal; [vm_compute; reflexivity|].
  repeat constructor. by apply release_plain.
Qed.

Lemma body_plain input id :
  plain (JObj input) = true -> plain id = true -> "receiptId"%string ∉ keys input -> "digest"%string ∉ keys input ->
  plain (JObj (input ++ [("receiptId", id); ("digest", JStr (buildReceiptDigest input))]%string)) = true.
Proof using.
  intros (Hn & Hp & Hall)%plain_obj Hid H1 H2. apply plain_obj. unfold keys in *.
  rewrite List.map_app. cbn [List.map fst]. split_and!.
  - apply NoDup_app. split_and!; [done| |].
    + intros x Hx [->|[->|[]%not_elem_of_nil]%elem_of_cons]%elem_of_cons; contradiction.
    + by apply (bool_decide_eq_true_1 (NoDup _)).
  - rewrite elem_of_app, !elem_of_cons. intros [?|[E|[E|[]%not_elem_of_nil]]]; [done|discriminate E|discriminate E].
  - apply Forall_app. split; [done|]. by repeat constructor.
Qed.

(** The names of the fields, in the order of the code that signs. *)
Lemma input_keys i : Permutation (keys (input_json i)) v2_fields /\ NoDup (keys (input_json i)).
Proof using.
  split; [|by apply (bool_decide_eq_true_1 (NoDup _))].
  apply NoDup_Permutation; [by apply (bool_decide_eq_true_1 (NoDup _))..|].
  intros x. split; revert x; apply Forall_forall; (apply (bool_decide_eq_true_1 (Forall _ _)); reflexivity).
Qed.

Lemma input_selected i id sig key :
  Permutation (input_json i) (select v2_fields
    ([("receiptSchemaVersion", JStr RECEIPT_SCHEMA_VERSION); ("protocolVersion", JStr PROTOCOL_VERSION);
      ("receiptId", id)]%string ++ input_json i ++ [("signature", sig); ("keyId", key)]%string)).
Proof using.
  destruct (input_keys i) as [Hp Hn].
  transitivity (select v2_fields (input_json i)); [symmetry; by apply select_perm|reflexivity].
Qed.

Lemma signing_body_perm input input' id :
  plain (JObj input) = true -> plain id = true -> "receiptId"%string ∉ keys input -> "digest"%string ∉ keys input ->
  Permutation input input' -> signing_body input id = signing_body input' id.
Proof using.
  intros Hp Hid H1 H2 Hperm. unfold signing_body.
  assert (E : buildReceiptDigest input = buildReceiptDigest input')
    by (unfold buildReceiptDigest; f_equal; by apply canonical_obj_perm).
  rewrite <- E. apply canonical_obj_perm; [by apply body_plain|by apply Permutation_app_tail].
Qed.

Lemma signed_receipt_verifies (L : CryptoLaws C) (i : ReceiptInputV2) (k : PrivateKey) (keyId : string) :
  release_ok (in_release i) = true -> verifyReceipt (signReceipt i k keyId) (public_half k) = true.
Proof using.
  intros Hr. unfold verifyReceipt.
  change (prop "receiptSchemaVersion" (signReceipt i k keyId)) with (JStr "2.0.0").
  rewrite (bool_decide_eq_false_2 (JStr "2.0.0" = JStr "1.0.0")), bool_decide_eq_true_2 by (done || discriminate).
  unfold verifyInput, signReceipt. cbv zeta. set (id := slice _ 0 32). set (sig := signEd25519 _ k).
  match goal with |- context [prop "signature" ?r] => change (prop "signature" r) with (JStr sig);
    change (prop "receiptId" r) with (JStr id) end.
  rewrite <- (signing_body_perm (input_json i)); [apply verify_sign|by apply input_plain|done| | |apply input_selected].
  - apply (bool_decide_eq_true_1 (not _)). reflexivity.
  - apply (bool_decide_eq_true_1 (not _)). reflexivity.
Qed.

(** the supervisor's receipts are accepted: whatever the operation and its result, a receipt
    signed with the private key verifies under the public key. *)
Theorem receipt_verifies (L : CryptoLaws C) (i : ReceiptInputV2) (k : PrivateKey) (keyId : string) :
  release_ok (in_release i) = true -> verifyReceipt (signReceipt i k keyId) (public_half k) = true.
Proof using. apply signed_receipt_verifies. Qed.

(** ** What a signature binds *)

(** Every field that the version of a receipt signs is there. *)
Definition complete (receipt : props json) : Prop :=
  exists fields, signed_fields (prop "receiptSchemaVersion" receipt) = Some fields /\
    Forall (fun k => plain (prop k receipt) = true) ("receiptId"%string :: fields).

Lemma signed_fields_cases v fields :
  signed_fields v = Some fields ->
  (v = JStr "1.0.0" /\ fields = v1_fields) \/ (v = JStr "2.0.0" /\ fields = v2_fields).
Proof using.
  unfold signed_fields. destruct (decide (v = JStr "1.0.0")) as [->|H1].
  - rewrite bool_decide_eq_true_2 by done. intros [= <-]. by left.
  - rewrite bool_decide_eq_false_2 by done. destruct (decide (v = JStr "2.0.0")) as [->|H2].
    + rewrite bool_decide_eq_true_2 by done. intros [= <-]. by right.
    + by rewrite bool_decide_eq_false_2.
Qed.

Definition body_members (fields : list string) (receipt : props json) : props json :=
  select fields receipt ++ [("receiptId", prop "receiptId" receipt);
                            ("digest", JStr (buildReceiptDigest (select fields receipt)))]%string.

Lemma body_members_plain fields receipt :
  fields = v1_fields \/ fields = v2_fields ->
  Forall (fun k => plain (prop k receipt) = true) ("receiptId"%string :: fields) ->
  plain (JObj (body_members fields receipt)) = true /\
  keys (body_members fields receipt) = fields ++ ["receiptId"; "digest"]%string.
Proof using.
  intros Hf [Hid Hall]%Forall_cons. unfold body_members.
  assert (Hk : keys (select fields receipt) = fields) by apply keys_select. split.
  - apply body_plain; [|done| |]; rewrite ?Hk.
    + apply plain_obj. rewrite Hk. split_and!.
      * by destruct Hf as [->| ->]; apply (bool_decide_eq_true_1 (NoDup _)).
      * by destruct Hf as [->| ->]; apply (bool_decide_eq_true_1 (not _)).
      * unfold select. clear -Hall. induction Hall; constructor; done.
    + by destruct Hf as [->| ->]; apply (bool_decide_eq_true_1 (not _)).
    + by destruct Hf as [->| ->]; apply (bool_decide_eq_true_1 (not _)).
  - unfold keys in *. by rewrite List.map_app, Hk.
Qed.


(** *** What it does not bind *)

(** The canonical text of a literal does not show its undefined members. *)
Lemma v2_body_of_v1 (r : props json) (id : json) :
  (forall k, k ∈ ["requestDigest"; "requestFingerprint"; "startedAt"; "completedAt"; "release"]%string ->
     prop k r = JUndefined) ->
  signing_body (select v2_fields r) id = signing_body (select v1_fields r) id.
Proof using.
  intros Hu.
  assert (H1 : prop "requestDigest"%string r = JUndefined) by (apply Hu; apply (bool_decide_eq_true_1 (_ ∈ _)); reflexivity).
  assert (H2 : prop "requestFingerprint"%string r = JUndefined) by (apply Hu; apply (bool_decide_eq_true_1 (_ ∈ _)); reflexivity).
  assert (H3 : prop "startedAt"%string r = JUndefined) by (apply Hu; apply (bool_decide_eq_true_1 (_ ∈ _)); reflexivity).
  assert (H4 : prop "completedAt"%string r = JUndefined) by (apply Hu; apply (bool_decide_eq_true_1 (_ ∈ _)); reflexivity).
  assert (H5 : prop "release"%string r = JUndefined) by (apply Hu; apply (bool_decide_eq_true_1 (_ ∈ _)); reflexivity).
  unfold signing_body.
  assert (E : buildReceiptDigest (select v2_fields r) = buildReceiptDigest (select v1_fields r)).
  { unfold buildReceiptDigest. f_equal. cbn [select v2_fields v1_fields List.map].
    rewrite H1, H2, H3, H4, H5. reflexivity. }
  rewrite E. cbn [select v2_fields v1_fields List.map]. rewrite H1, H2, H3, H4, H5. reflexivity.
Qed.

(** the version of a receipt is not signed: a receipt of version 1.0.0 that verifies still
    verifies, under the same key, when its version is changed to 2.0.0, although it has none of the
    fields that the second version adds. *)
Theorem relabelled_receipt_verifies (r : props json) (k : PublicKey) :
  prop "receiptSchemaVersion" r = JStr "1.0.0" ->
  (forall f, f ∈ ["requestDigest"; "requestFingerprint"; "startedAt"; "completedAt"; "release"]%string ->
     prop f r = JUndefined) ->
  verifyReceipt r k = true -> verifyReceipt (put "receiptSchemaVersion" (JStr "2.0.0") r) k = true.
Proof using.
  intros Hv Hu. assert (Hsame : forall f, f <> "receiptSchemaVersion"%string ->
    prop f (put "receiptSchemaVersion" (JStr "2.0.0") r) = prop f r) by (intros f Hf; by apply prop_put_ne).
  assert (Hsel : forall fields, "receiptSchemaVersion"%string ∉ fields ->
    select fields (put "receiptSchemaVersion" (JStr "2.0.0") r) = select fields r).
  { intros fields Hn. unfold select. apply List.map_ext_in. intros f Hf%list_elem_of_In. f_equal. apply Hsame.
    by intros ->. }
  unfold verifyReceipt. rewrite Hv, prop_put_eq. rewrite bool_decide_eq_true_2 by done.
  rewrite (bool_decide_eq_false_2 (JStr "2.0.0" = JStr "1.0.0")), bool_decide_eq_true_2 by (done || discriminate).
  unfold verifyInput. rewrite !Hsame by discriminate.
  rewrite Hsel by (apply (bool_decide_eq_true_1 (not _)); reflexivity). by rewrite v2_body_of_v1.
Qed.
End Receipts.

(** ** Witnesses *)

Definition demo_input : ReceiptInputV2 := {|
  in_requestId := "r1"; in_operation := "baby.health"; in_subject := "owner"; in_authorityClass := "unrestricted";
  in_requestDigest := "d1"; in_requestFingerprint := "f1"; in_resultDigest := "x1"; in_timestamp := "3";
  in_startedAt := "1"; in_completedAt := "3";
  in_release := {| rl_status := "installed"; rl_manifestPath := "/m"; rl_manifestSha256 := Some "s"%string;
                   rl_version := Some "1.0.0"%string; rl_commit := None; rl_tree := None;
                   rl_sourceDateEpoch := Some (JNum 7) |};
  in_machineIdSha256 := "unknown"; in_hostname := "host"
|}.

Definition demo_receipt : props json := @signReceipt toy_crypto demo_input "key"%string "id".

Definition demo_v1 : props json :=
  let r := [("receiptSchemaVersion", JStr "1.0.0"); ("receiptId", JStr "i"); ("requestId", JStr "r1");
            ("operation", JStr "baby.health"); ("subject", JStr "owner"); ("authorityClass", JStr "a");
            ("resultDigest", JStr "x"); ("timestamp", JStr "3"); ("machineIdSha256", JStr "m"); ("hostname", JStr "h")]%string in
  r ++ [("signature"%string, JStr (@signEd25519 toy_crypto (@signing_body toy_crypto (select v1_fields r) (JStr "i")) "key"%string))].

Lemma receipt_verifies_witness :
  release_ok (in_release demo_input) = true /\ @verifyReceipt toy_crypto demo_receipt "key"%string = true.
Proof. split; [reflexivity|]. by apply (@receipt_verifies toy_crypto toy_laws demo_input "key"%string "id"). Defined.


Lemma relabelled_receipt_verifies_witness :
  @verifyReceipt toy_crypto demo_v1 "key"%string = true /\
  @verifyReceipt toy_crypto (put "receiptSchemaVersion" (JStr "2.0.0") demo_v1) "key"%string = true.
Proof.
  assert (H : @verifyReceipt toy_crypto demo_v1 "key"%string = true) by (vm_compute; reflexivity).
  split; [exact H|]. apply (@relabelled_receipt_verifies toy_crypto demo_v1 "key"%string); [reflexivity| |exact H].
  apply Forall_forall. repeat constructor.
Defined.
