(* ===== verification/Operations.v ===== *)
(** * The registry of the operations ([src/operations/registry.ts])

    The names of the operations, and which manager executes each. *)

From S2P Require Import Prelude Json Errors.

#[global] Open Scope Z_scope.

(** The managers an operation is given to; [Registry] answers itself. *)
Inductive Manager := GitHubRuntime | Deployments | Registry | Jobs | Files | Pty | Artifacts.

(** Source: src/deployment/service.ts:23-35 (RELEASE_OPERATIONS) *)
Definition RELEASE_OPERATIONS : list string :=
  ["baby.release.status"; "baby.release.build"; "baby.release.stage"; "baby.release.verify";
   "baby.release.activate"; "baby.release.rollback"; "baby.release.repair"; "baby.release.prune";
   "baby.selfhost.source.get"; "baby.selfhost.acceptance.run"; "baby.selfhost.evidence.get"]%string.

(** Source: src/delivery/service.ts:10-21 (DELIVERY_OPERATIONS) *)
Definition DELIVERY_OPERATIONS : list string :=
  ["baby.delivery.plan"; "baby.delivery.execute"; "baby.delivery.get"; "baby.delivery.list";
   "baby.delivery.events"; "baby.delivery.verify"; "baby.delivery.cancel"; "baby.delivery.rollback";
   "baby.delivery.repair"; "baby.delivery.evidence.get"]%string.

(** The cases of the [switch], by manager.
    Source: src/operations/registry.ts:129-184 (executeOperation) *)
Definition switch_cases : list (Manager * list string) :=
  [(Registry, ["baby.describe"; "baby.health"]);
   (Jobs, ["baby.exec"; "baby.shell"; "baby.job.get"; "baby.job.list"; "baby.job.wait"; "baby.job.cancel";
           "baby.job.stream.read"]);
   (Files, ["baby.file.stat"; "baby.file.read"; "baby.file.write"; "baby.file.replace"; "baby.file.patch";
            "baby.file.copy"; "baby.file.move"; "baby.file.remove"; "baby.file.list"]);
   (Pty, ["baby.pty.create"; "baby.pty.input"; "baby.pty.resize"; "baby.pty.read"; "baby.pty.close"]);
   (Artifacts, ["baby.artifact.create"; "baby.artifact.begin"; "baby.artifact.upload"; "baby.artifact.finalize";
                "baby.artifact.abort"; "baby.artifact.download"; "baby.artifact.list"; "baby.artifact.get"])]%string.

(** Source: src/operations/registry.ts:117-129 (executeOperation) *)
Definition routed (operation : string) : option Manager :=
  if bool_decide (operation ∈ ["baby.github.describe"; "baby.github.remote.verify"]%string) then Some GitHubRuntime
  else if bool_decide (operation ∈ RELEASE_OPERATIONS ++ DELIVERY_OPERATIONS) then Some Deployments
  else option_map fst (List.find (fun c => bool_decide (operation ∈ snd c)) switch_cases).

(** [run m] is what the manager [m] returns or throws.
    Source: src/operations/registry.ts:112-195 (executeOperation) *)
Definition executeOperation (run : Manager -> result exn json) (operation : string) : result exn json :=
  match routed operation with
  | Some m => run m
  | None => Err (OperationError "unknown_operation" ("Unknown operation: " +:+ operation) false
                   (JObj [("operation"%string, JStr operation)]) false)
  end.
