(* ===== verification/Server.v ===== *)
(** * The supervisor ([src/server.ts])

    What happens to the bytes of a connection and to an authenticated request: the handshake, the
    dispatch of an operation, its signed response and the replay store, composed from the frame
    reader, the authenticator, the replay store and the receipts.  Handlers run concurrently: the
    part of a handler up to its first [await] is one step, the part after it another, and the steps
    of the requests in flight come in any order; the managers that execute operations are outcomes
    that a step is given. *)

From Stdlib Require Import Sorted.
From S2P Require Import Prelude Bytes Json Platform Errors Config Frame Canonical ReplayStore Auth Receipts Operations.

#[global] Open Scope Z_scope.

(** ** One request *)

(** What the client is sent: the response of an operation or of a stored one, or an error. *)
Inductive reply :=
| Answered (response : json)
| Replayed (response : json)
| Refused (code message : string) (retryable : bool) (details : json).

(** The [catch] of the handler.
    Source: src/server.ts:201-214 (handleRequest) *)
Definition caught (err : exn) : reply :=
  match err with
  | IdempotentReplay v => Replayed v
  | AuthError code message retryable details => Refused code message retryable details
  | _ => Refused "operation_failed" (default "Operation failed"%string (message_of err)) true JUndefined
  end.

(** The payload of an error frame.
    Source: src/server.ts:217-227 (sendError) *)
Definition error_payload (requestId code message : string) (retryable : bool) (details : json) : json :=
  JObj ([("requestId", JStr requestId); ("code", JStr code); ("message", JStr message);
         ("retryable", JBool retryable)]%string ++
        (if truthy details then [("details"%string, details)] else [])).

(** The frame a reply is sent in: its type and its JSON payload.
    Source: src/server.ts:198-213 (handleRequest) *)
Definition reply_frame (requestId : string) (r : reply) : FrameType * json :=
  match r with
  | Answered v | Replayed v => (Response, v)
  | Refused code message retryable details => (Error, error_payload requestId code message retryable details)
  end.

(** A request whose operation runs: it is past its authentication. *)
Record Flight := { fl_auth : AuthenticatedRequest; fl_startedAt : string }.

(** The supervisor: its replay store, the requests whose operations run, and, for the proofs, the
    identifiers of the operations it started, with the time. *)
Record Daemon := { rs : ReplayStore; inflight : list Flight; started : list (Z * string) }.

Section Supervisor.
Context {C : Crypto} {Dt : Dates}.
Context (config : RuntimeConfig) (host : Host) (publicKey previousPublicKey : option PublicKey)
  (privateKey : option PrivateKey).

(** The end of [dispatch] before anything is stored: the result or the normalized error, and the
    receipt if the supervisor has a key.
    Source: src/operations/registry.ts:70-103 (dispatch) *)
Definition respond (auth : AuthenticatedRequest) (startedAt completedAt : string)
    (release : ReceiptReleaseIdentity) (outcome : result exn json) : result exn json :=
  let request := au_payload auth in
  let operation := rq_operation request in
  let res := match outcome with
             | Ok v => v
             | Err e => normalizeOperationError e operation (rq_requestId request)
             end in
  let response := [("requestId", JStr (rq_requestId request)); ("operation", JStr operation); ("result", res)]%string in
  match privateKey with
  | None => Ok (JObj response)
  | Some key =>
      digest ← resultDigest res;
      let machineId := getMachineIdSha256 (machine_id host) in
      let input := {|
        in_requestId := rq_requestId request; in_operation := operation; in_subject := au_subject auth;
        in_authorityClass := au_authorityClass auth; in_requestDigest := au_hash auth;
        in_requestFingerprint := au_fingerprint auth; in_resultDigest := digest; in_timestamp := completedAt;
        in_startedAt := startedAt; in_completedAt := completedAt; in_release := release;
        in_machineIdSha256 := (if truthy_str machineId then machineId else "unknown"%string);
        in_hostname := hostname host |} in
      Ok (JObj (response ++ [("receipt"%string, JObj (signReceipt input key (supervisorReceiptKeyId config)))]))
  end.

(** The whole end of [dispatch]; [jobs] is what [pruneJobs] returns or throws.
    Source: src/operations/registry.ts:70-110 (dispatch) *)
Definition complete (now : Z) (fails : option io_step) (flight : Flight) (release : ReceiptReleaseIdentity)
    (run : Manager -> result exn json) (jobs : result exn unit) : RM json :=
  let auth := fl_auth flight in
  let request := au_payload auth in
  response ← lift (respond auth (fl_startedAt flight) (to_iso now) release
                     (executeOperation run (rq_operation request)));
  storeIdempotentResponse config now (au_hash auth) response (Some (rq_requestId request)) (Some (au_fingerprint auth));;
  persist fails;;
  lift jobs;;
  mret response.

(** *** The steps of the supervisor *)

Inductive event :=
| Arrive (now : Z) (fails : option io_step) (peerUid : option Z) (request : RequestPayload)
| Finish (now : Z) (fails : option io_step) (i : nat) (release : ReceiptReleaseIdentity)
    (run : Manager -> result exn json) (jobs : result exn unit)
| Restart (now : Z).

Definition time_of (e : event) : Z :=
  match e with Arrive now _ _ _ => now | Finish now _ _ _ _ _ => now | Restart now => now end.

(** A request arrives: it is authenticated, and its operation starts.
    Source: src/server.ts:194-197 (handleRequest) *)
Definition arrive (now : Z) (fails : option io_step) (peerUid : option Z) (request : RequestPayload)
    (d : Daemon) : option reply * Daemon :=
  match authenticate config host publicKey previousPublicKey now fails peerUid request (rs d) with
  | (Ok auth, s) =>
      (None, {| rs := s; inflight := inflight d ++ [{| fl_auth := auth; fl_startedAt := to_iso now |}];
                started := started d ++ [(now, rq_requestId request)] |})
  | (Err e, s) => (Some (caught e), {| rs := s; inflight := inflight d; started := started d |})
  end.

(** An operation ends: its response is stored and sent.
    Source: src/server.ts:197-214 (handleRequest) *)
Definition finish (now : Z) (fails : option io_step) (i : nat) (release : ReceiptReleaseIdentity)
    (run : Manager -> result exn json) (jobs : result exn unit) (d : Daemon) : option reply * Daemon :=
  match inflight d !! i with
  | None => (None, d)
  | Some flight =>
      let '(r, s) := complete now fails flight release run jobs (rs d) in
      (Some (match r with Ok v => Answered v | Err e => caught e end),
       {| rs := s; inflight := delete i (inflight d); started := started d |})
  end.

(** A new process reads the file; the operations of the old one are gone.
    Source: src/server.ts:39-44 (constructor) *)
Definition restart (d : Daemon) : Daemon := {| rs := open_store (disk (rs d)); inflight := []; started := started d |}.

Definition step (d : Daemon) (e : event) : option reply * Daemon :=
  match e with
  | Arrive now fails peerUid request => arrive now fails peerUid request d
  | Finish now fails i release run jobs => finish now fails i release run jobs d
  | Restart now => (None, restart d)
  end.

Definition steps (d : Daemon) (l : list event) : Daemon := fold_left (fun d e => snd (step d e)) l d.

Definition fresh : Daemon := {| rs := open_store Absent; inflight := []; started := [] |}.
End Supervisor.

(** ** What a handler does to the replay store *)

(** The identifiers that a call stores a response for satisfy [P]. *)
Definition stores_for (P : string -> Prop) (o : op) : Prop :=
  match o with
  | op_storeIdempotentResponse _ _ rid _ => exists r, given rid = Some r /\ P r
  | _ => True
  end.

(** Every change a handler makes is made by calls of the methods of the store. *)
Definition by_calls (config : RuntimeConfig) (now : Z) (P : string -> Prop) (s s' : ReplayStore) : Prop :=
  exists ops, Forall (stores_for P) ops /\ s' = ReplayStore.run config (List.map (pair now) ops) s.

#[global] Instance by_calls_preorder config now P : PreOrder (by_calls config now P).
Proof.
  split.
  - intros s. exists []. by split; [constructor|].
  - intros s1 s2 s3 (l & Hl & ->) (k & Hk & ->). exists (l ++ k). split; [by apply Forall_app|].
    unfold ReplayStore.run. by rewrite List.map_app, fold_left_app.
Qed.

Lemma one_call config now P o s : stores_for P o -> by_calls config now P s (exec config s (now, o)).
Proof. intros Ho. exists [o]. by split; [constructor; [|constructor]|]. Qed.

Lemma getIdempotentResponse_calls config now P h : respects (by_calls config now P) (getIdempotentResponse config now h).
Proof. intros s. by apply (one_call config now P (op_getIdempotentResponse h) s). Qed.

Lemma checkSemantic_calls config now P rid fp : respects (by_calls config now P) (checkSemantic config now rid fp).
Proof. intros s. by apply (one_call config now P (op_checkSemantic rid fp) s). Qed.

Lemma tryCommitNonce_calls config now P n : respects (by_calls config now P) (tryCommitNonce config now n).
Proof. intros s. by apply (one_call config now P (op_tryCommitNonce n) s). Qed.

Lemma reserveSemantic_calls config now P rid fp h : respects (by_calls config now P) (reserveSemantic config now rid fp h).
Proof. intros s. by apply (one_call config now P (op_reserveSemantic rid fp h) s). Qed.

Lemma persist_calls config now P fails : respects (by_calls config now P) (persist fails).
Proof. intros s. by apply (one_call config now P (op_persist fails) s). Qed.

Lemma store_calls config now (P : string -> Prop) h resp rid r fp :
  given rid = Some r -> P r -> respects (by_calls config now P) (storeIdempotentResponse config now h resp rid fp).
Proof. intros Hr HP s. apply (one_call config now P (op_storeIdempotentResponse h resp rid fp) s). by exists r. Qed.

#[export] Hint Resolve getIdempotentResponse_calls checkSemantic_calls tryCommitNonce_calls reserveSemantic_calls
  persist_calls : respects.

Lemma given_nonempty s : s <> ""%string -> given (Some s) = Some s.
Proof. intros H. unfold given, truthy_str. by rewrite bool_decide_eq_false_2. Qed.

Lemma by_calls_invariant config now P (I : ReplayStore -> Prop) s s' :
  (forall s o, stores_for P o -> I s -> I (exec config s (now, o))) -> by_calls config now P s s' -> I s -> I s'.
Proof.
  intros Hstep (ops & Hops & ->). apply (run_invariant config I (fun o => fst o = now /\ stores_for P (snd o))).
  - intros s0 [now' o] [E Ho]. cbn [fst snd] in *. subst now'. by apply Hstep.
  - apply Forall_forall. intros [now' o] (o' & [= <- <-] & Hin)%list_elem_of_In%in_map_iff. split; [done|].
    rewrite Forall_forall in Hops. by apply Hops, list_elem_of_In.
Qed.

(** *** Entries that stay *)

(** The entry of an identifier: it is not older than [t], and [Q] holds of it. *)
Definition keeps_entry (rid : string) (t : Z) (Q : IdempotencyEntry -> Prop) (d : StoreData) : Prop :=
  exists e, List.find (fun c => requestId c === Some rid) (idempotency d) = Some e /\ t <= storedAt e /\ Q e.

(** What a round through the file does not change. *)
Definition survives (Q : IdempotencyEntry -> Prop) : Prop := forall e, Q e -> Q (reparse_entry e).


Lemma find_snoc {A} (p : A -> bool) l x y : List.find p l = Some x -> List.find p (l ++ [y]) = Some x.
Proof. induction l as [|z l IH]; [done|]. cbn. by destruct (p z). Qed.

Lemma find_insert_other {A} (p : A -> bool) l (i : nat) x y z :
  l !! i = Some x -> p x = false -> p y = false -> List.find p l = Some z -> List.find p (<[i := y]> l) = Some z.
Proof.
  revert i. induction l as [|w l IH]; intros [|i]; cbn; [done|done| |].
  - intros [= ->] -> Hy. by rewrite Hy.
  - intros Hi Hx Hy. destruct (p w); [done|]. by apply IH.
Qed.

Lemma keeps_entry_pruned c now rid t Q d :
  now - t < idempotencyRetentionMs c -> keeps_entry rid t Q d -> keeps_entry rid t Q (pruned c now d).
Proof.
  intros Hl (e & Hf & Ht & Hq). exists e. split_and!; [|done|done]. apply find_filter; [done|]. apply Z.ltb_lt. lia.
Qed.

Lemma keeps_entry_id rid t Q d : keeps_entry rid t Q d -> rid ∈ omap requestId (idempotency d).
Proof.
  intros (e & Hf%find_some & _). destruct Hf as [Hin Hr]. bool_inv. apply list_elem_of_omap. exists e.
  split; [by apply list_elem_of_In|done].
Qed.

Lemma answered_keeps_entry now h resp rid r fp rid0 t Q d :
  given rid = Some r -> r <> rid0 -> keeps_entry rid0 t Q d ->
  keeps_entry rid0 t Q (with_idempotency (answered now h resp rid fp (idempotency d)) d).
Proof.
  intros Hg Hne (e & Hf & Ht & Hq). exists e. split_and!; [|done|done]. cbn [idempotency with_idempotency].
  unfold answered. rewrite Hg. destruct (findIndex _ _) as [i|] eqn:Hi; [|by apply find_snoc].
  apply findIndex_Some in Hi as (x & Hx & Hp). bool_inv.
  eapply find_insert_other; [exact Hx| | |exact Hf]; apply bool_decide_eq_false_2; [congruence|].
  cbn [answer requestId]. congruence.
Qed.

Lemma exec_keeps_entry c rid t Q s now o :
  survives Q -> now - t < idempotencyRetentionMs c -> stores_for (fun r => r <> rid) o ->
  durably (keeps_entry rid t Q) s -> durably (keeps_entry rid t Q) (exec c s (now, o)).
Proof.
  intros HQ Hl Ho Hk. pose proof Hk as [Hd Hf]. pose proof (keeps_entry_pruned c now rid t Q _ Hl Hd) as Hp.
  destruct o as [m|m|h|rid' fp|rid' fp h|h resp rid' fp|fails|]; unfold exec; cbn [fst snd];
    try (apply (durably_intro _ s); [exact Hk|reflexivity|exact Hp]).
  - destruct (tryCommitNonce_cases c now m s) as (s' & Hdk & [(-> & Hs & _)|(-> & _ & _ & Hs)]);
      apply (durably_intro _ s); cbn [snd]; rewrite ?Hs; done.
  - destruct (reserveSemantic_cases c now rid' fp h s) as (r & s' & -> & Hdk & [(_ & Hs & _)|(_ & _ & _ & Hs)]);
      apply (durably_intro _ s); cbn [snd]; rewrite ?Hs; try done.
    destruct Hp as (e & He & Hr). exists e. split; [by apply find_snoc|done].
  - rewrite storeIdempotentResponse_eq. apply (durably_intro _ s); [done|done|]. destruct Ho as (r & Hg & Hne).
    by apply (answered_keeps_entry now h resp rid' r).
  - apply durably_persist; [|done]. intros d (e & He & Ht & Hq). exists (reparse_entry e).
    change (idempotency (load (written d))) with (List.map reparse_entry (idempotency d)). rewrite find_reparse, He. split_and!; [done|done|by apply HQ].
  - by split.
Qed.

(** ** The steps *)

Section SupervisorProofs.
Context {C : Crypto} {Dt : Dates}.
Context (config : RuntimeConfig) (host : Host) (publicKey previousPublicKey : option PublicKey)
  (privateKey : option PrivateKey).
Context (retains : 0 < nonceRetentionMs config).

Abbreviation authenticate := (authenticate config host publicKey previousPublicKey).
Abbreviation step := (step config host publicKey previousPublicKey privateKey).
Abbreviation steps := (steps config host publicKey previousPublicKey privateKey).

Lemma authenticate_calls now fails peerUid request P :
  respects (by_calls config now P) (authenticate now fails peerUid request).
Proof using. unfold Auth.authenticate, commit_request. respects_steps. Qed.

Lemma complete_calls now fails flight release run jobs :
  rq_requestId (au_payload (fl_auth flight)) <> ""%string ->
  respects (by_calls config now (eq (rq_requestId (au_payload (fl_auth flight)))))
    (complete config host privateKey now fails flight release run jobs).
Proof using.
  intros Hid. unfold complete. apply respects_bind; [typeclasses eauto|auto with respects|intros response].
  apply respects_bind; [typeclasses eauto|by eapply store_calls; [apply given_nonempty|]|intros _]. respects_steps.
Qed.

(** The identifiers of the requests that arrive are not empty. *)
Definition identified (e : event) : Prop :=
  match e with Arrive _ _ _ r => rq_requestId r <> ""%string | _ => True end.

Definition flight_id (f : Flight) : string := rq_requestId (au_payload (fl_auth f)).

(** What is in flight was authenticated. *)
Definition flights_accepted (d : Daemon) : Prop :=
  Forall (fun f => flight_id f <> ""%string /\ fl_auth f = accepted config (au_payload (fl_auth f))) (inflight d).

Lemma authenticate_accepted now fails peerUid request s auth s' :
  authenticate now fails peerUid request s = (Ok auth, s') ->
  auth = accepted config request /\ fails = None /\ unused config now (accepted config request) s /\
  data s' = committed now (accepted config request) (pruned config now (data s)) /\ disk s' = written (data s').
Proof using retains.
  intros H. destruct (authenticate_cases config host publicKey previousPublicKey retains now fails peerUid request s)
    as (x & s0 & He & [(Hx & _)|(_ & Hu & Hd & [(-> & -> & _ & Hw)|(_ & Hx)])]); rewrite He in H; injection H as ? ?;
    subst; done.
Qed.

Lemma step_accepted d e : identified e -> flights_accepted d -> flights_accepted (snd (step d e)).
Proof using retains.
  unfold flights_accepted. intros Hid Hd. destruct e as [now fails peerUid request|now fails i release run jobs|now];
    cbn [Server.step snd restart inflight]; [| |constructor].
  - unfold arrive. destruct (authenticate now fails peerUid request (rs d)) as [[auth|e] s] eqn:Ha; cbn [snd inflight]; [|done].
    apply Forall_app. split; [done|]. apply Forall_singleton. unfold flight_id. cbn [fl_auth].
    apply authenticate_accepted in Ha as (-> & _). done.
  - unfold finish. destruct (inflight d !! i) as [flight|] eqn:Hi; [|done].
    destruct (complete _ _ _ _ _ _ _ _ _ _) as [r s]. cbn [snd inflight]. by apply Forall_delete.
Qed.

(** The identifiers that a step may store a response for. *)
Definition finishes (d : Daemon) (e : event) (rid : string) : Prop :=
  match e with
  | Finish _ _ i _ _ _ => exists f, inflight d !! i = Some f /\ rid = flight_id f
  | _ => False
  end.

Lemma by_calls_weaken now (P Q : string -> Prop) s s' :
  (forall r, P r -> Q r) -> by_calls config now P s s' -> by_calls config now Q s s'.
Proof using.
  clear. intros Hpq (ops & Hops & ->). exists ops. split; [|done]. eapply Forall_impl; [exact Hops|].
  intros [] H; try exact H. destruct H as (r & Hr & HP). exists r. split; [done|by apply Hpq].
Qed.

Lemma step_calls d e :
  flights_accepted d ->
  by_calls config (time_of e) (fun r => r <> ""%string /\ finishes d e r) (rs d) (rs (snd (step d e))) \/
  rs (snd (step d e)) = open_store (disk (rs d)).
Proof using.
  intros Hd. destruct e as [now fails peerUid request|now fails i release run jobs|now]; cbn [Server.step time_of]; [left|left|by right].
  - unfold arrive. pose proof (authenticate_calls now fails peerUid request
      (fun r => r <> ""%string /\ finishes d (Arrive now fails peerUid request) r) (rs d)) as H.
    by destruct (authenticate now fails peerUid request (rs d)) as [[auth|e] s].
  - unfold finish. destruct (inflight d !! i) as [flight|] eqn:Hi; [|reflexivity].
    assert (Hid : flight_id flight <> ""%string) by (eapply Forall_lookup_1 in Hd as [Hd _]; [exact Hd|exact Hi]).
    pose proof (complete_calls now fails flight release run jobs Hid (rs d)) as H.
    destruct (complete _ _ _ _ _ _ _ _ _ _) as [r s]. cbn [snd rs] in *. revert H. apply by_calls_weaken.
    intros ? <-. split; [done|]. by exists flight.
Qed.

Lemma step_invariant (I : ReplayStore -> Prop) d e :
  flights_accepted d ->
  (forall s o, stores_for (fun r => r <> ""%string /\ finishes d e r) o -> I s -> I (exec config s (time_of e, o))) ->
  (forall s, I s -> I (open_store (disk s))) -> I (rs d) -> I (rs (snd (step d e))).
Proof using.
  intros Hd Hcall Hopen Hi. destruct (step_calls d e Hd) as [Hc| ->]; [|by apply Hopen].
  by apply (by_calls_invariant _ _ _ I _ _ Hcall Hc).
Qed.

(** A step keeps what the store knows of an identifier. *)
Lemma step_keeps_id d e rid t :
  flights_accepted d -> t <= time_of e -> time_of e - t < idempotencyRetentionMs config ->
  durably (keeps_id rid t) (rs d) -> durably (keeps_id rid t) (rs (snd (step d e))).
Proof using.
  intros Hd Ht Hl. apply step_invariant; [done| |intros s [_ ?]; by split].
  intros s o Ho. apply exec_keeps_id. cbn [fst snd]. split_and!; [done|done|].
  destruct o; try done. cbn in *. destruct Ho as (r & -> & _). done.
Qed.

(** Starts of one identifier are as far apart as its retention. *)
Definition apart (a b : Z * string) : Prop := snd a = snd b -> idempotencyRetentionMs config <= fst b - fst a.

Definition starts_known (now : Z) (d : Daemon) : Prop :=
  flights_accepted d /\ ForallOrdPairs apart (started d) /\
  Forall (fun x => fst x <= now /\
    (now - fst x < idempotencyRetentionMs config -> durably (keeps_id (snd x) (fst x)) (rs d))) (started d).

Lemma ForallOrdPairs_snoc {A} (R : A -> A -> Prop) l x :
  ForallOrdPairs R l -> Forall (fun y => R y x) l -> ForallOrdPairs R (l ++ [x]).
Proof using.
  clear. induction 1 as [|y l Hy Hl IH]; cbn; intros Hx; [repeat constructor|]. apply Forall_cons in Hx as [H1 H2].
  constructor; [|by apply IH]. apply Forall_app. split; [done|by apply Forall_singleton].
Qed.

Lemma step_started d e :
  started (snd (step d e)) = started d \/
  exists now peerUid r s', e = Arrive now None peerUid r /\
    authenticate now None peerUid r (rs d) = (Ok (accepted config r), s') /\
    rs (snd (step d e)) = s' /\ started (snd (step d e)) = started d ++ [(now, rq_requestId r)].
Proof using retains.
  destruct e as [now fails peerUid request|now fails i release run jobs|now]; cbn [Server.step snd restart started]; [| |by left].
  - unfold arrive. destruct (authenticate now fails peerUid request (rs d)) as [[auth|e] s] eqn:Ha; [|by left]. right.
    destruct (authenticate_cases config host publicKey previousPublicKey retains now fails peerUid request (rs d))
      as (x & s0 & He & [(Hx & _)|(_ & _ & _ & [(-> & -> & _)|(_ & Hx)])]); rewrite He in Ha; injection Ha as ? ?; subst; try done.
    exists now, peerUid, request, s. done.
  - left. unfold finish. destruct (inflight d !! i) as [flight|]; [|done].
    by destruct (complete _ _ _ _ _ _ _ _ _ _) as [r s].
Qed.

Lemma step_starts_known d e now :
  now <= time_of e -> identified e -> starts_known now d -> starts_known (time_of e) (snd (step d e)).
Proof using retains.
  intros Hle Hid (Hf & Hp & Hk).
  assert (Hk' : Forall (fun x => fst x <= time_of e /\ (time_of e - fst x < idempotencyRetentionMs config ->
    durably (keeps_id (snd x) (fst x)) (rs (snd (step d e))))) (started d)).
  { eapply Forall_impl; [exact Hk|]. intros x [Hx Hkeep]. split; [lia|]. intros Hl. apply step_keeps_id; [done|lia|lia|].
    apply Hkeep. lia. }
  split; [by apply step_accepted|].
  destruct (step_started d e) as [->|(t & peerUid & r & s' & -> & Ha & Hs' & ->)]; [done|].
  cbn [time_of] in *. split.
  - apply ForallOrdPairs_snoc; [done|]. rewrite Forall_forall in *. intros [t0 rid] Hin E. cbn [fst snd] in *. subst rid.
    apply Z.nlt_ge. intros Hl. destruct (Hk _ Hin) as [Ht0 Hkeep]. cbn [fst snd] in *.
    destruct (Hkeep ltac:(lia)) as [Hm _].
    destruct (authenticate_cases config host publicKey previousPublicKey retains t None peerUid r (rs d))
      as (x & s0 & He & [(Hx & _)|(_ & (_ & Hu & _) & _)]); rewrite He in Ha; injection Ha as ? ?; subst; [done|].
    apply Hu. cbn [accepted au_payload].
    apply (keeps_id_pruned config t) in Hm as (en & Hin' & Hr' & _); [|lia]. apply list_elem_of_omap. by exists en.
  - apply Forall_app. split; [done|]. apply Forall_singleton. cbn [fst snd]. split; [lia|]. intros _. rewrite Hs'.
    destruct (authenticate_cases config host publicKey previousPublicKey retains t None peerUid r (rs d))
      as (x & s0 & He & [(Hx & _)|(_ & _ & Hd & [(_ & _ & _ & Hdk)|(Hx & _)])]); rewrite He in Ha; injection Ha as -> ->; [done| |done].
    assert (Hin : keeps_id (rq_requestId r) t (data s')).
    { rewrite Hd. eexists. split_and!; [apply elem_of_app; right; by left|done|cbn; lia]. }
    split; [done|]. rewrite Hdk. destruct Hin as (en & Hin & Hr' & Hs0). exists (reparse_entry en). split; [|done].
    cbn. apply list_elem_of_In, in_map, list_elem_of_In. done.
Qed.

(** *** Identifiers whose entry stays *)

(** The store keeps an entry for the identifier, and no operation that would replace it runs. *)
Definition settled (rid : string) (t : Z) (Q : IdempotencyEntry -> Prop) (d : Daemon) : Prop :=
  flights_accepted d /\ Forall (fun f => flight_id f <> rid) (inflight d) /\ durably (keeps_entry rid t Q) (rs d).

Lemma kept_is_rejected rid t Q now fails peerUid r s :
  durably (keeps_entry rid t Q) s -> now - t < idempotencyRetentionMs config -> rq_requestId r = rid ->
  is_ok (fst (authenticate now fails peerUid r s)) = false.
Proof using retains.
  intros [Hk _] Hl Hr. destruct (authenticate now fails peerUid r s) as [[a|e] s'] eqn:Ha; [|done].
  apply authenticate_accepted in Ha as (_ & _ & (_ & Hu & _) & _). exfalso. apply Hu. cbn [accepted au_payload].
  rewrite Hr. by apply (keeps_entry_id rid t Q), keeps_entry_pruned.
Qed.

Lemma settled_step rid t Q d e :
  survives Q -> identified e -> time_of e - t < idempotencyRetentionMs config ->
  settled rid t Q d -> settled rid t Q (snd (step d e)).
Proof using retains.
  intros HQ Hid Hl (Ha & Hf & Hk). split_and!; [by apply step_accepted| |].
  - destruct e as [now fails peerUid r|now fails i release run jobs|now]; cbn [Server.step]; [| |constructor].
    + unfold arrive. destruct (authenticate now fails peerUid r (rs d)) as [[a|e] s'] eqn:Hr; [|done].
      cbn [snd inflight]. apply Forall_app. split; [done|]. apply Forall_singleton. unfold flight_id. cbn [fl_auth].
      intros E. pose proof (kept_is_rejected rid t Q now fails peerUid r (rs d) Hk Hl) as Hn. rewrite Hr in Hn.
      apply authenticate_accepted in Hr as (-> & _). by discriminate Hn.
    + unfold finish. destruct (inflight d !! i) as [f|]; [|done].
      destruct (complete _ _ _ _ _ _ _ _ _ _) as [x s]. cbn [snd inflight]. by apply Forall_delete.
  - revert Hk. apply step_invariant; [done| |intros s [_ ?]; by split].
    intros s o Ho. apply exec_keeps_entry; [done|done|]. destruct o; try done. destruct Ho as (r & Hg & _ & Hfin).
    exists r. split; [done|]. intros ->. destruct e; try done. destruct Hfin as (f & Hi & ->).
    by apply (Forall_lookup_1 _ _ _ _ Hf Hi).
Qed.

Lemma settled_steps rid t Q trace d :
  survives Q -> Forall identified trace -> Forall (fun e => time_of e - t < idempotencyRetentionMs config) trace ->
  settled rid t Q d -> settled rid t Q (steps d trace).
Proof using retains.
  intros HQ Hid Hl. revert d. induction trace as [|e trace IH]; intros d Hd; [done|].
  apply Forall_cons in Hid as [He Hid], Hl as [Hle Hl]. cbn [Server.steps fold_left]. apply IH; [done|done|].
  by apply settled_step.
Qed.

Lemma steps_accepted trace d : Forall identified trace -> flights_accepted d -> flights_accepted (steps d trace).
Proof using retains.
  intros Hid. revert d. induction Hid as [|e trace He _ IH]; intros d Hd; [done|]. apply IH. by apply step_accepted.
Qed.

Lemma getIdempotentResponse_eq now h s : exists v,
  getIdempotentResponse config now h s = (Ok v, snd (prune config now s)) /\
  (v = JUndefined \/ exists c, c ∈ idempotency (data s) /\ requestHash c = h /\ v = response c).
Proof using.
  clear. eexists. split; [reflexivity|].
  change (data (prune config now s).2) with (pruned config now (data s)).
  destruct (List.find _ _) as [c|] eqn:Hc; [right|by left]. exists c. apply find_some in Hc as [Hin Hh].
  apply filter_In in Hin as [Hin _]. bool_inv. split_and!; [by apply list_elem_of_In|done|done].
Qed.

(** What the store answers to the text of a request, and to its identifier. *)
Lemma settled_answer rid t Q now fails peerUid r d :
  settled rid t Q d -> now - t < idempotencyRetentionMs config -> rq_requestId r = rid ->
  authentic config host publicKey previousPublicKey now peerUid r ->
  exists x s' e, step d (Arrive now fails peerUid r) =
      (Some x, {| rs := s'; inflight := inflight d; started := started d |}) /\ Q e /\
    ((exists c, c ∈ idempotency (data (rs d)) /\ requestHash c = au_hash (accepted config r) /\
        response c <> JUndefined /\ x = Replayed (response c)) \/
     forall f, fingerprint e = Some f -> f <> ""%string ->
       x = if f !== au_fingerprint (accepted config r) then
             Refused "idempotency_conflict" "The request ID was already used with a different logical operation or payload"
               false (JObj [("requestId", JStr rid); ("existingFingerprint", JStr f);
                            ("receivedFingerprint", JStr (au_fingerprint (accepted config r)))]%string)
           else if (status e === Some pending) || (response e === JUndefined) then
             Refused "idempotency_in_progress" "The exact logical request is already in progress" true
               (JObj [("requestId", JStr rid); ("fingerprint", JStr (au_fingerprint (accepted config r)))]%string)
           else Replayed (response e)).
Proof using retains.
  intros (_ & _ & Hk & _) Hl Hr Ha. destruct (keeps_entry_pruned _ now _ _ _ _ Hl Hk) as (e & Hf & _ & HQ).
  pose proof (proj2 (verify_request_Ok config host publicKey previousPublicKey now peerUid r (accepted config r))
    (conj Ha eq_refl)) as Hv.
  unfold step, Server.step, arrive, Auth.authenticate. unfold mbind, M_bind, lift. rewrite Hv. unfold commit_request.
  destruct (getIdempotentResponse_eq now (au_hash (accepted config r)) (rs d)) as (v & Hg & Hv').
  unfold mbind at 1, M_bind at 1. rewrite Hg. set (s1 := snd (prune config now (rs d))).
  destruct (v !== JUndefined) eqn:Ev; bool_inv.
  { do 3 eexists. split_and!; [reflexivity|exact HQ|]. left. destruct Hv' as [|(c & Hin & Hh & ->)]; [done|].
    by exists c. }
  unfold mbind at 1, M_bind at 1. rewrite checkSemantic_eq. change (data s1) with (pruned config now (data (rs d))).
  rewrite pruned_idem. unfold semantic_state. cbn [accepted au_payload]. rewrite Hr, Hf.
  destruct (fingerprint e) as [f|] eqn:Hfp; cbn [truthy_str]; [|do 3 eexists; split_and!; [reflexivity|exact HQ|right; intros f E; congruence]].
  destruct (truthy_str f) eqn:Htf; cbn [negb];
    [|do 3 eexists; split_and!; [reflexivity|exact HQ|right; intros f' E Hne; rewrite Hfp in E; injection E as <-;
       apply truthy_str_spec in Hne; congruence]].
  do 3 eexists. split_and!; [|exact HQ|right; intros f' E _; rewrite Hfp in E; injection E as <-; reflexivity].
  destruct (f !== au_fingerprint (accepted config r)); [done|].
  destruct (status e === Some pending); [done|]. cbn [orb].
  destruct (decide (response e = JUndefined)) as [Hu|Hu];
    [rewrite (bool_decide_eq_true_2 _ Hu)|rewrite (bool_decide_eq_false_2 _ Hu)]; done.
Qed.

End SupervisorProofs.

Section SupervisorTheorems.
Context {C : Crypto} {Dt : Dates}.
Context (config : RuntimeConfig) (host : Host) (publicKey previousPublicKey : option PublicKey)
  (privateKey : option PrivateKey).
Context (retains : 0 < nonceRetentionMs config).

Lemma steps_starts_known trace now d :
  StronglySorted Z.le (now :: List.map time_of trace) -> Forall identified trace ->
  starts_known config now d ->
  exists now', starts_known config now' (steps config host publicKey previousPublicKey privateKey d trace).
Proof using retains.
  revert now d. induction trace as [|e trace IH]; intros now d Hs Hid Hk; [by exists now|].
  cbn [List.map] in Hs. inversion Hs as [|? ? Hs' Hle]; subst. apply Forall_cons in Hid as [He Hid], Hle as [Hle _].
  cbn [steps fold_left]. apply (IH (time_of e)); [done|done|].
  by apply (step_starts_known config host publicKey previousPublicKey privateKey retains d e now).
Qed.

(** A response that was stored, or its image after rounds through the file. *)
Definition copy_of (v x : json) : Prop := exists n, x = Nat.iter n reparse v.

Definition completed_entry (fp : string) (v : json) (e : IdempotencyEntry) : Prop :=
  fingerprint e = Some fp /\ status e = Some completed /\ response e <> JUndefined /\ copy_of v (response e).

Definition pending_entry (fp : string) (e : IdempotencyEntry) : Prop :=
  fingerprint e = Some fp /\ status e = Some pending.

Lemma completed_survives fp v : survives (completed_entry fp v).
Proof using.
  clear. intros e (Hf & Hs & Hd & n & Hn). split_and!; [done|done|by apply reparse_defined|].
  exists (S n). exact (f_equal reparse Hn).
Qed.

Lemma pending_survives fp : survives (pending_entry fp).
Proof using. by intros e []. Qed.

Lemma fingerprint_nonempty (L : CryptoLaws C) r : au_fingerprint (accepted config r) <> ""%string.
Proof using.
  clear -L. cbn [accepted au_fingerprint]. unfold semanticRequestFingerprint. intros E.
  pose proof (sha256Hex_digest (default ""%string (canonicalJson (JObj (semantic_doc (semantic_input r)))))) as H.
  unfold canonical_obj in E. rewrite E in H. discriminate H.
Qed.

Lemma respond_object (auth : AuthenticatedRequest) startedAt completedAt release outcome v :
  respond config host privateKey auth startedAt completedAt release outcome = Ok v -> exists kvs, v = JObj kvs.
Proof using.
  unfold respond. destruct privateKey; [|intros [= <-]; by eexists]. destruct (resultDigest _); [|done].
  intros [= <-]. by eexists.
Qed.

(** What the store has of the request once its response is sent. *)
Lemma complete_stored now fails flight release run jobs v s s' :
  rq_requestId (au_payload (fl_auth flight)) <> ""%string -> au_fingerprint (fl_auth flight) <> ""%string ->
  complete config host privateKey now fails flight release run jobs s = (Ok v, s') ->
  respond config host privateKey (fl_auth flight) (fl_startedAt flight) (to_iso now) release
    (executeOperation run (rq_operation (au_payload (fl_auth flight)))) = Ok v /\
  durably (keeps_entry (rq_requestId (au_payload (fl_auth flight))) now
    (completed_entry (au_fingerprint (fl_auth flight)) v)) s'.
Proof using.
  intros Hid Hfp H. unfold complete in H. apply bindM_Ok in H as (response & s1 & [= Hr <-] & H).
  apply bindM_Ok in H as ([] & s2 & Hst & H). rewrite storeIdempotentResponse_eq in Hst. injection Hst as <-.
  apply bindM_Ok in H as ([] & s3 & Hp & H). apply bindM_Ok in H as ([] & s4 & [= _ <-] & [= <- <-]).
  split; [done|]. destruct (respond_object _ _ _ _ _ _ Hr) as [kvs ->].
  unfold persist in Hp. cbn [dirty negb] in Hp. destruct fails as [[]|]; try discriminate Hp. injection Hp as <-.
  set (l := answered _ _ _ _ _ _). assert (Hl : List.find (fun c => ReplayStore.requestId c ===
      Some (rq_requestId (au_payload (fl_auth flight)))) l = Some (answer now (au_hash (fl_auth flight)) (JObj kvs)
      (Some (rq_requestId (au_payload (fl_auth flight)))) (Some (au_fingerprint (fl_auth flight))))) by by apply find_answered.
  assert (Hq : completed_entry (au_fingerprint (fl_auth flight)) (JObj kvs) (answer now (au_hash (fl_auth flight)) (JObj kvs)
      (Some (rq_requestId (au_payload (fl_auth flight)))) (Some (au_fingerprint (fl_auth flight))))).
  { split_and!; [by apply given_nonempty|done|done|by exists O]. }
  split; cbn [data disk].
  - by eexists.
  - eexists. split; [|split; [|by apply completed_survives]].
    + change (idempotency (load (written (with_idempotency l (pruned config now (data s)))))) with (List.map reparse_entry l).
      by rewrite find_reparse, Hl.
    + done.
Qed.

(** What the store has of a request whose operation starts. *)
Lemma accepted_reserved (L : CryptoLaws C) now fails peerUid r s a s' :
  authenticate config host publicKey previousPublicKey now fails peerUid r s = (Ok a, s') ->
  durably (keeps_entry (rq_requestId r) now (pending_entry (au_fingerprint (accepted config r)))) s'.
Proof using retains.
  intros H. apply (authenticate_accepted config host publicKey previousPublicKey retains) in H as (_ & _ & (_ & Hu & _) & Hd & Hw).
  set (e := reservation now (rq_requestId r) (au_fingerprint (accepted config r)) (au_hash (accepted config r))).
  assert (Hf : List.find (fun c => ReplayStore.requestId c === Some (rq_requestId r)) (idempotency (data s')) = Some e).
  { rewrite Hd. cbn [committed idempotency accepted au_payload]. rewrite find_app_None by by apply rid_omap.
    cbn [List.find reservation ReplayStore.requestId]. by rewrite bool_decide_eq_true_2. }
  split; [|rewrite Hw]; eexists.
  - split; [exact Hf|]. split; [cbn; lia|done].
  - change (idempotency (load (written (data s')))) with (List.map reparse_entry (idempotency (data s'))).
    rewrite find_reparse, Hf. split; [done|]. split; [cbn; lia|done].
Qed.

(** The digest of [undefined] throws before anything is stored. *)
Lemma finish_undefined key now fails i release run jobs d flight :
  privateKey = Some key -> inflight d !! i = Some flight ->
  executeOperation run (rq_operation (au_payload (fl_auth flight))) = Ok JUndefined ->
  exists message, step config host publicKey previousPublicKey privateKey d (Finish now fails i release run jobs) =
    (Some (Refused "operation_failed" message true JUndefined),
     {| rs := rs d; inflight := delete i (inflight d); started := started d |}).
Proof using.
  intros Hkey Hi Hrun. cbn [step]. unfold finish. rewrite Hi. unfold complete, mbind at 1, M_bind at 1, lift at 1, respond.
  rewrite Hrun, Hkey. by eexists.
Qed.

(** What the receipt of a response binds. *)
Definition receipt_of (auth : AuthenticatedRequest) (res : json) (receipt : props json) : Prop :=
  prop "requestId" receipt = JStr (rq_requestId (au_payload auth)) /\
  prop "operation" receipt = JStr (rq_operation (au_payload auth)) /\
  prop "subject" receipt = JStr (expectedSubject config) /\
  prop "requestDigest" receipt = JStr (au_hash auth) /\
  prop "requestFingerprint" receipt = JStr (au_fingerprint auth) /\
  resultDigest res = match prop "resultDigest" receipt with JStr digest => Ok digest | _ => Err (PlainError "") end.



(** an operation without a result is never answered: when the supervisor has a receipt key, an
    operation that returns [undefined] ends in an error that says it may be tried again, but its
    identifier stays reserved, so that every later authentic request with the same identifier and
    meaning is told that the operation is in progress until the reservation expires, whatever
    happens in between. *)
Theorem undefined_result_sticks (L : CryptoLaws C) key before now0 peer0 r0 d1 now1 fails1 release run jobs after
    now fails peerUid r :
  let d0 := steps config host publicKey previousPublicKey privateKey fresh before in
  privateKey = Some key -> Forall identified before -> rq_requestId r0 <> ""%string ->
  step config host publicKey previousPublicKey privateKey d0 (Arrive now0 None peer0 r0) = (None, d1) ->
  Forall (fun f => flight_id f <> rq_requestId r0) (inflight d0) ->
  executeOperation run (rq_operation r0) = Ok JUndefined ->
  let '(answer1, d2) := step config host publicKey previousPublicKey privateKey d1
    (Finish now1 fails1 (length (inflight d0)) release run jobs) in
  (exists message, answer1 = Some (Refused "operation_failed" message true JUndefined)) /\ rs d2 = rs d1 /\
  (Forall identified after -> Forall (fun e => time_of e - now0 < idempotencyRetentionMs config) after ->
   now - now0 < idempotencyRetentionMs config ->
   rq_requestId r = rq_requestId r0 -> au_fingerprint (accepted config r) = au_fingerprint (accepted config r0) ->
   authentic config host publicKey previousPublicKey now peerUid r ->
   let d3 := steps config host publicKey previousPublicKey privateKey d2 after in
   (forall c, c ∈ idempotency (data (rs d3)) -> requestHash c = au_hash (accepted config r) -> response c = JUndefined) ->
   exists details d4, step config host publicKey previousPublicKey privateKey d3 (Arrive now fails peerUid r) =
     (Some (Refused "idempotency_in_progress" "The exact logical request is already in progress" true details), d4)).
Proof using retains.
  cbv zeta. intros Hkey Hb Hne Harr Hother Hrun. set (d0 := steps config host publicKey previousPublicKey privateKey fresh before) in *.
  assert (Hacc : flights_accepted config d0) by (apply steps_accepted; [done|done|constructor]).
  cbn [step] in Harr. unfold arrive in Harr.
  destruct (authenticate _ _ _ _ _ _ _ _ _) as [[a|e] s] eqn:Ha; [|by destruct e]. injection Harr as <-.
  pose proof (accepted_reserved L _ _ _ _ _ _ _ Ha) as Hk.
  apply (authenticate_accepted config host publicKey previousPublicKey retains) in Ha as (-> & _).
  set (d1 := {| rs := s; inflight := inflight d0 ++ _; started := _ |}).
  destruct (finish_undefined key now1 fails1 (length (inflight d0)) release run jobs d1
    {| fl_auth := accepted config r0; fl_startedAt := to_iso now0 |}) as [message Hfin];
    [done|by apply list_lookup_middle|done|].
  rewrite Hfin. subst d1. cbn [rs started inflight]. rewrite delete_middle, app_nil_r.
  split_and!; [by eexists|done|]. intros Hid Hl Hnow Hr Hfp Hauth Hfree.
  set (d2 := {| rs := s; inflight := inflight d0; started := _ |}) in *.
  assert (Hset : settled config (rq_requestId r0) now0 (pending_entry (au_fingerprint (accepted config r0)))
    (steps config host publicKey previousPublicKey privateKey d2 after))
    by (apply settled_steps; [done|apply pending_survives|done|done|done]).
  destruct (settled_answer config host publicKey previousPublicKey privateKey retains _ _ _ now fails peerUid r _
    Hset Hnow Hr Hauth) as (x & s' & e & Hstep & (Hf & Hs) & Hx).
  rewrite Hstep. destruct Hx as [(c & Hin & Hh & Hd & _)|Hx]; [by destruct Hd; apply Hfree|].
  rewrite (Hx _ Hf) by by apply fingerprint_nonempty. rewrite Hfp, Hs, !bool_decide_eq_true_2 by done.
  by do 2 eexists.
Qed.

(** every response of a supervisor with a receipt key proves itself: it holds the result of the
    operation, or the error it ended in, and a receipt that verifies under the public half of the
    key and carries the identifier, the operation, the signed text and the meaning of the request
    and the digest of exactly this result. *)
Theorem answer_carries_receipt (L : CryptoLaws C) key before now fails i release run jobs flight v d :
  let d1 := steps config host publicKey previousPublicKey privateKey fresh before in
  privateKey = Some key -> Forall identified before -> inflight d1 !! i = Some flight -> release_ok release = true ->
  step config host publicKey previousPublicKey privateKey d1 (Finish now fails i release run jobs) = (Some (Answered v), d) ->
  exists res receipt,
    v = JObj [("requestId", JStr (flight_id flight)); ("operation", JStr (rq_operation (au_payload (fl_auth flight))));
              ("result", res); ("receipt", JObj receipt)]%string /\
    (executeOperation run (rq_operation (au_payload (fl_auth flight))) = Ok res \/
     exists e, executeOperation run (rq_operation (au_payload (fl_auth flight))) = Err e /\
       res = normalizeOperationError e (rq_operation (au_payload (fl_auth flight))) (flight_id flight)) /\
    verifyReceipt receipt (public_half key) = true /\ receipt_of (fl_auth flight) res receipt.
Proof using retains.
  cbv zeta. intros Hkey Hb Hi Hrel Hfin.
  assert (Hacc : flights_accepted config (steps config host publicKey previousPublicKey privateKey fresh before))
    by (apply steps_accepted; [done|done|constructor]).
  pose proof (Forall_lookup_1 _ _ _ _ Hacc Hi) as [_ Hflight].
  cbn [step] in Hfin. unfold finish in Hfin. rewrite Hi in Hfin.
  destruct (complete _ _ _ _ _ _ _ _ _ _) as [[w|e] s] eqn:Hc; [|by destruct e].
  injection Hfin as <- <-. unfold complete in Hc. apply bindM_Ok in Hc as (response & s1 & [= Hr <-] & Hc).
  apply bindM_Ok in Hc as ([] & s2 & _ & Hc). apply bindM_Ok in Hc as ([] & s3 & _ & Hc).
  apply bindM_Ok in Hc as ([] & s4 & _ & [= -> _]).
  unfold respond in Hr. rewrite Hkey in Hr. apply bind_Ok in Hr as (digest & Hdig & [= <-]).
  do 2 eexists. split; [reflexivity|]. split_and!.
  - destruct (executeOperation _ _) as [x|e]; [by left|right; by exists e].
  - apply signed_receipt_verifies. done.
  - unfold receipt_of. rewrite Hflight. split_and!; try reflexivity. by rewrite <- Hflight.
Qed.
End SupervisorTheorems.

(** ** Witnesses *)

Section Witnesses.
#[local] Existing Instance toy_crypto.
#[local] Existing Instance toy_dates.

Definition toy_private : option PrivateKey := Some "sk"%string.

Definition toy_arrival (now : Z) (n rid : string) : event :=
  Arrive now None (Some 997) (toy_request n (pretty now) rid).

Definition toy_release : ReceiptReleaseIdentity := readReceiptReleaseIdentity "/manifest.json" None.

Definition toy_result (v : json) : event := Finish 3000 None 0 toy_release (fun _ => Ok v) (Ok tt).

Abbreviation toy_steps := (steps default_config toy_host toy_key None toy_private).
Abbreviation toy_step := (step default_config toy_host toy_key None toy_private).

(** The same identifier on two connections, the second time after the retention. *)
Definition toy_twice : list event := [toy_arrival 2000 "n-1" "r-1"; Restart 2500; toy_arrival 3000 "n-2" "r-1";
  toy_arrival (2000 + idempotencyRetentionMs default_config) "n-3" "r-1"].


Definition toy_first : AuthenticatedRequest := accepted default_config (toy_request "n-1" "2000" "r-1").

Definition toy_answer : option reply * Daemon :=
  toy_step (toy_steps fresh [toy_arrival 2000 "n-1" "r-1"]) (toy_result (JStr "ok")).
Definition toy_response : json := match fst toy_answer with Some (Answered v) => v | _ => JNull end.

Lemma toy_answered : toy_answer = (Some (Answered toy_response), snd toy_answer).
Proof. vm_compute. exact eq_refl. Qed.

Lemma toy_authentic now n rid :
  is_ok (verify_request default_config toy_host toy_key None now (Some 997) (toy_request n (pretty now) rid)) = true ->
  authentic default_config toy_host toy_key None now (Some 997) (toy_request n (pretty now) rid).
Proof.
  intros H. destruct (verify_request _ _ _ _ _ _ _) as [a|] eqn:E; [|discriminate H].
  by apply verify_request_Ok in E as [? _].
Qed.


Definition toy_undefined : option reply * Daemon :=
  toy_step (snd (toy_step fresh (toy_arrival 2000 "n-1" "r-1")))
    (Finish 3000 None 0 toy_release (fun _ => Ok JUndefined) (Ok tt)).

Lemma undefined_result_sticks_witness :
  exists details d, toy_step (toy_steps (snd toy_undefined) [Restart 4000]) (toy_arrival 5000 "n-2" "r-1") =
    (Some (Refused "idempotency_in_progress" "The exact logical request is already in progress" true details), d).
Proof.
  assert (Hne : rq_requestId (toy_request "n-1" (pretty 2000) "r-1") <> ""%string) by discriminate.
  assert (Harr : toy_step fresh (toy_arrival 2000 "n-1" "r-1") = (None, snd (toy_step fresh (toy_arrival 2000 "n-1" "r-1"))))
    by (vm_compute; exact eq_refl).
  pose proof (undefined_result_sticks default_config toy_host toy_key None toy_private toy_retains toy_laws
    "sk"%string [] 2000 (Some 997) (toy_request "n-1" (pretty 2000) "r-1")
    (snd (toy_step fresh (toy_arrival 2000 "n-1" "r-1"))) 3000 None toy_release (fun _ => Ok JUndefined) (Ok tt)
    [Restart 4000] 5000 None (Some 997) (toy_request "n-2" (pretty 5000) "r-1")
    eq_refl (List.Forall_nil _) Hne Harr (List.Forall_nil _) eq_refl) as H.
  cbv zeta in H. change (length (inflight (toy_steps fresh []))) with O in H.
  fold toy_undefined in H. destruct toy_undefined as [a d] eqn:E.
  apply (proj2 (proj2 H)); clear H.
  - repeat constructor.
  - repeat constructor.
  - reflexivity.
  - reflexivity.
  - vm_compute. exact eq_refl.
  - apply (toy_authentic 5000 "n-2" "r-1"). vm_compute. exact eq_refl.
  - replace d with (snd toy_undefined) by by rewrite E. clear E.
    apply (proj1 (Forall_forall (fun c => requestHash c = _ -> response c = JUndefined) _)).
    apply (bool_decide_eq_true_1 (Forall _ _)). vm_compute. exact eq_refl.
Defined.

Lemma answer_carries_receipt_witness :
  exists res receipt,
    toy_response = JObj [("requestId", JStr "r-1"); ("operation", JStr "baby.health"); ("result", res);
                         ("receipt", JObj receipt)]%string /\
    (executeOperation (fun _ => Ok (JStr "ok")) "baby.health" = Ok res \/
     exists e, executeOperation (fun _ => Ok (JStr "ok")) "baby.health" = Err e /\
       res = normalizeOperationError e "baby.health" "r-1") /\
    verifyReceipt receipt (@public_half _ toy_laws "sk"%string) = true /\ receipt_of default_config toy_first res receipt.
Proof.
  refine (answer_carries_receipt default_config toy_host toy_key None toy_private toy_retains toy_laws "sk"%string
    [toy_arrival 2000 "n-1" "r-1"] 3000 None 0 toy_release (fun _ => Ok (JStr "ok")) (Ok tt)
    {| fl_auth := toy_first; fl_startedAt := "2000" |} toy_response (snd toy_answer) eq_refl _ _ eq_refl toy_answered).
  - repeat constructor; discriminate.
  - vm_compute. exact eq_refl.
Defined.
End Witnesses.
