(* ===== verification/Connection.v ===== *)
(** * One connection ([src/server.ts], [handleConnection])

    The handshake and the dispatch of the frames of one socket.  A handler of a [data] event walks
    the frames of its chunk and stops at each request until the operation has ended; the socket may
    deliver more chunks meanwhile, whose handlers share the reader and the flag of the handshake.
    What a handler does to the socket, or to the rest of the supervisor, is a list of actions. *)

From S2P Require Import Prelude Bytes Json Errors Config Frame.

#[global] Open Scope Z_scope.

Inductive action :=
| SendError (requestId code message : string)
| SendWelcome (requestId : string)
| SendPong (requestId : string)
| HandleRequest (payload : buffer) (negotiatedAlgorithm : option string)
| Destroy.

#[global] Instance action_eq_dec : EqDecision action.
Proof. solve_decision. Defined.

(** A connection: the reader, the two variables of the closure, and the frames that each suspended
    handler has left. *)
Record Connection := {
  reader : FrameReaderState;
  handshaken : bool;
  negotiatedAlgorithm : option string;
  suspended : list (list DecodedFrame);
  destroyed : bool
}.

(** Source: src/server.ts:104-106 (handleConnection) *)
Definition connected : Connection := {|
  reader := createFrameReader; handshaken := false; negotiatedAlgorithm := None; suspended := []; destroyed := false
|}.

Definition nil_uuid : string := "00000000-0000-0000-0000-000000000000".

(** The [code] and the [message] of the errors of the reader. *)
Definition protocol_error (e : ProtocolError) : string * string :=
  match e with
  | truncated_frame => ("truncated_frame", "Frame header truncated")
  | invalid_magic => ("invalid_magic", "Invalid frame magic")
  | frame_too_large => ("frame_too_large", "Frame payload exceeds maximum size")
  | RangeError => ("protocol_error", "The value is out of range")
  | OutOfFuel => ("protocol_error", "")
  end%string.

(** [v.includes('ed25519')] on a value of unknown type: arrays and strings have the method. *)
Definition includes_ed25519 (v : json) : result exn bool :=
  match v with
  | JArr l => Ok (existsb (fun x => x === JStr "ed25519") l)
  | JStr s => Ok (includes s "ed25519")
  | JUndefined | JNull => Err (PlainError ("Cannot read properties of " +:+ js_String v))
  | _ => Err (PlainError "includes is not a function")
  end.

Section Connection.
(** [JSON.parse] of the text of a payload: the value, or the message of the [SyntaxError]. *)
Context (parse : buffer -> result exn json).
Context (config : RuntimeConfig).

(** The [catch] of the handler.
    Source: src/server.ts:163-168 (handleConnection) *)
Definition crashed (code message : string) : list action := [SendError nil_uuid code message; Destroy].

Definition with_handshake (c : Connection) : Connection := {|
  reader := reader c; handshaken := true; negotiatedAlgorithm := Some "ed25519"%string;
  suspended := suspended c; destroyed := destroyed c
|}.

Definition with_destroyed (c : Connection) : Connection := {|
  reader := reader c; handshaken := handshaken c; negotiatedAlgorithm := negotiatedAlgorithm c;
  suspended := suspended c; destroyed := true
|}.

Definition with_suspended (l : list (list DecodedFrame)) (c : Connection) : Connection := {|
  reader := reader c; handshaken := handshaken c; negotiatedAlgorithm := negotiatedAlgorithm c;
  suspended := l; destroyed := destroyed c
|}.

Definition with_reader (r : FrameReaderState) (c : Connection) : Connection := {|
  reader := r; handshaken := handshaken c; negotiatedAlgorithm := negotiatedAlgorithm c;
  suspended := suspended c; destroyed := destroyed c
|}.

(** The algorithms of a [Hello].
    Source: src/server.ts:118-119 (handleConnection) *)
Definition hello_supported (payload : buffer) : result exn bool :=
  hello ← parse payload;
  algorithms ← get "supportedAlgorithms" hello;
  includes_ed25519 algorithms.

(** The loop over the frames of a chunk, up to the first request.
    Source: src/server.ts:111-168 (handleConnection) *)
Fixpoint walk (c : Connection) (frames : list DecodedFrame) : list action * Connection :=
  match frames with
  | [] => ([], c)
  | frame :: rest =>
      let id := Frame.requestId (header frame) in
      let type := frameType (header frame) in
      if negb (handshaken c) then
        if type !== FrameType_code Hello then
          ([SendError id "handshake_required" "Hello required"; Destroy], with_destroyed c)
        else
          match hello_supported (payload frame) with
          | Err e => (crashed "protocol_error" (default "Unknown protocol error"%string (message_of e)), with_destroyed c)
          | Ok false => ([SendError id "unsupported_algorithm" "Ed25519 is required"; Destroy], with_destroyed c)
          | Ok true =>
              let '(actions, c') := walk (with_handshake c) rest in
              (SendWelcome id :: actions, c')
          end
      else if type === FrameType_code Request then
        ([HandleRequest (payload frame) (negotiatedAlgorithm c)], with_suspended (suspended c ++ [rest]) c)
      else if type === FrameType_code Ping then
        let '(actions, c') := walk c rest in (SendPong id :: actions, c')
      else if type === FrameType_code Cancel then walk c rest
      else
        let '(actions, c') := walk c rest in
        (SendError id "unsupported_frame" ("Unsupported frame type: " +:+ pretty type) :: actions, c')
  end.

(** A destroyed socket delivers nothing more.
    Source: src/server.ts:108-169 (handleConnection) *)
Definition on_data (chunk : buffer) (c : Connection) : list action * Connection :=
  if destroyed c then ([], c) else
  let '(frames, r) := feedFrames (reader c) chunk (maxFrameSize config) in
  let c := with_reader r c in
  match frames with
  | Ok frames => walk c frames
  | Err e => (crashed (fst (protocol_error e)) (snd (protocol_error e)), with_destroyed c)
  end.

(** The request a suspended handler waits for has ended, normally or by throwing.
    Source: src/server.ts:147-168 (handleConnection) *)
Definition resume (i : nat) (ended : result exn unit) (c : Connection) : list action * Connection :=
  match suspended c !! i with
  | None => ([], c)
  | Some rest =>
      let c := with_suspended (delete i (suspended c)) c in
      match ended with
      | Ok _ => walk c rest
      | Err e => (crashed "protocol_error" (default "Unknown protocol error"%string (message_of e)), with_destroyed c)
      end
  end.

Inductive event := Data (chunk : buffer) | Ended (i : nat) (ended : result exn unit).

Definition step (c : Connection) (e : event) : list action * Connection :=
  match e with
  | Data chunk => on_data chunk c
  | Ended i ended => resume i ended c
  end.

(** The actions of a sequence of events, in order. *)
Fixpoint steps (c : Connection) (l : list event) : list action * Connection :=
  match l with
  | [] => ([], c)
  | e :: l =>
      let '(actions, c) := step c e in
      let '(actions', c) := steps c l in
      (actions ++ actions', c)
  end.

(** ** The handshake comes first *)

(** The actions a client may see: one [Welcome], and what is served only after it.  [b] says
    whether the handshake is done. *)
Fixpoint polite (b : bool) (l : list action) : option bool :=
  match l with
  | [] => Some b
  | SendWelcome _ :: l => if b then None else polite true l
  | HandleRequest _ alg :: l => if b && bool_decide (alg = Some "ed25519"%string) then polite b l else None
  | SendPong _ :: l => if b then polite b l else None
  | _ :: l => polite b l
  end.

Lemma polite_app b l k b' : polite b l = Some b' -> polite b (l ++ k) = polite b' k.
Proof using.
  revert b. induction l as [|a l IH]; intros b; cbn [polite app]; [by intros [= ->]|].
  destruct a; try apply IH; destruct b; cbn; try done; try apply IH. by case_bool_decide; [apply IH|].
Qed.

Lemma polite_served b l b' i payload alg :
  polite b l = Some b' -> l !! i = Some (HandleRequest payload alg) ->
  alg = Some "ed25519"%string /\ (b = true \/ exists j id, (j < i)%nat /\ l !! j = Some (SendWelcome id)).
Proof using.
  revert b i. induction l as [|a l IH]; intros b [|i]; cbn [polite lookup list_lookup]; try done.
  - intros H [= ->]. destruct b; cbn in H; [|done]. case_bool_decide; [|done]. split; [done|by left].
  - intros H Hi. assert (Hnext : forall b0, (b0 = b \/ exists id, a = SendWelcome id) -> polite b0 l = Some b' ->
      alg = Some "ed25519"%string /\ (b = true \/ exists j id, (j < S i)%nat /\ (a :: l) !! j = Some (SendWelcome id))).
    { intros b0 Hb H0. destruct (IH b0 i H0 Hi) as [Ha [->|(j & id & Hj & Hid)]]; (split; [done|]).
      - destruct Hb as [<-|[id ->]]; [by left|]. right. exists O, id. split; [lia|done].
      - right. exists (S j), id. split; [lia|done]. }
    destruct a; cbn in H; try (apply (Hnext b); [by left|done]).
    + destruct b; [done|]. apply (Hnext true); [right; by eexists|done].
    + destruct b; [|done]. apply (Hnext true); [by left|done].
    + destruct b; [|done]. case_bool_decide; [|done]. apply (Hnext true); [by left|done].
Qed.

Lemma polite_welcomes b l b' :
  polite b l = Some b' ->
  (length (List.filter (fun a => match a with SendWelcome _ => true | _ => false end) l) <= if b then 0 else 1)%nat.
Proof using.
  clear. revert b. induction l as [|a l IH]; intros b; cbn [polite List.filter]; [destruct b; cbn; lia|].
  destruct a; try apply IH; destruct b; cbn; try done.
  - intros H. apply IH in H. lia.
  - apply (IH true).
  - case_bool_decide; [apply (IH true)|done].
Qed.

(** The algorithm is negotiated by the handshake. *)
Definition negotiated (c : Connection) : Prop :=
  handshaken c = true -> negotiatedAlgorithm c = Some "ed25519"%string.

Lemma walk_polite frames c :
  negotiated c -> polite (handshaken c) (fst (walk c frames)) = Some (handshaken (snd (walk c frames))) /\
    negotiated (snd (walk c frames)).
Proof using.
  revert c. induction frames as [|f frames IH]; intros c Hc; [done|]. cbn [walk].
  destruct (handshaken c) eqn:Hh; cbn [negb].
  - specialize (IH c Hc). rewrite Hh in IH. specialize (Hc Hh).
    destruct (frameType (header f) === FrameType_code Request).
    { cbn. rewrite Hc, bool_decide_eq_true_2, Hh by done. split; [done|]. by intros _. }
    destruct (frameType (header f) === FrameType_code Ping); [|destruct (frameType (header f) === FrameType_code Cancel); [done|]];
      destruct (walk c frames) as [l c']; cbn in *; done.
  - destruct (frameType (header f) !== FrameType_code Hello); [cbn; by rewrite Hh|].
    destruct (hello_supported (payload f)) as [[]|e]; [|cbn; by rewrite Hh|cbn; by rewrite Hh].
    specialize (IH (with_handshake c) (fun _ => eq_refl)). destruct (walk (with_handshake c) frames) as [l c']. done.
Qed.

Lemma step_polite c e :
  negotiated c -> polite (handshaken c) (fst (step c e)) = Some (handshaken (snd (step c e))) /\
    negotiated (snd (step c e)).
Proof using.
  intros Hc. destruct e as [chunk|i ended]; cbn [step].
  - unfold on_data. destruct (destroyed c); [done|].
    destruct (feedFrames (reader c) chunk (maxFrameSize config)) as [[frames|e] r]; [|done].
    by apply (walk_polite frames (with_reader r c)).
  - unfold resume. destruct (suspended c !! i) as [rest|]; [|done]. destruct ended as [u|e]; [|done].
    by apply (walk_polite rest (with_suspended (delete i (suspended c)) c)).
Qed.

Lemma steps_polite trace c :
  negotiated c -> polite (handshaken c) (fst (steps c trace)) = Some (handshaken (snd (steps c trace))).
Proof using.
  revert c. induction trace as [|e trace IH]; intros c Hc; [done|]. cbn [steps].
  destruct (step_polite c e Hc) as [Hp Hn]. destruct (step c e) as [l c']. cbn [fst snd] in *.
  specialize (IH c' Hn). destruct (steps c' trace) as [k c'']. cbn [fst snd] in *. by rewrite (polite_app _ _ _ _ Hp).
Qed.

(** ** Every request is served once *)

Definition handled (l : list action) : list buffer :=
  omap (fun a => match a with HandleRequest p _ => Some p | _ => None end) l.

Definition requests (frames : list DecodedFrame) : list buffer :=
  omap (fun f => if frameType (header f) === FrameType_code Request then Some (payload f) else None) frames.

(** What a connection has been sent and has not handled yet. *)
Definition waiting (c : Connection) : list buffer := concat (List.map requests (suspended c)).

Lemma waiting_snoc c rest : waiting (with_suspended (suspended c ++ [rest]) c) = waiting c ++ requests rest.
Proof using. unfold waiting. cbn. rewrite List.map_app, concat_app. cbn [List.map concat]. by rewrite app_nil_r. Qed.

Lemma waiting_delete c i rest :
  suspended c !! i = Some rest -> Permutation (waiting c) (requests rest ++ waiting (with_suspended (delete i (suspended c)) c)).
Proof using.
  intros Hi. unfold waiting. cbn [with_suspended suspended].
  assert (E : Permutation (suspended c) (rest :: delete i (suspended c))) by by apply delete_Permutation.
  rewrite <- !flat_map_concat_map. exact (Permutation_flat_map requests E).
Qed.

(** With the handshake done, walking the frames serves or keeps each request. *)
Lemma walk_serves frames c :
  handshaken c = true ->
  Permutation (handled (fst (walk c frames)) ++ waiting (snd (walk c frames))) (requests frames ++ waiting c) /\
  handshaken (snd (walk c frames)) = true /\ destroyed (snd (walk c frames)) = destroyed c /\
  reader (snd (walk c frames)) = reader c.
Proof using.
  intros Hh. induction frames as [|f frames IH]; [done|]. cbn [walk]. rewrite Hh. cbn [negb].
  unfold requests. cbn [omap list_omap]. fold (requests frames).
  destruct (frameType (header f) === FrameType_code Request) eqn:Hr.
  - cbn [fst snd handled omap list_omap]. rewrite waiting_snoc. split_and!; try done. cbn. constructor. apply Permutation_app_comm.
  - destruct (frameType (header f) === FrameType_code Ping); [|destruct (frameType (header f) === FrameType_code Cancel); [done|]];
      destruct (walk c frames) as [l c']; done.
Qed.

(** The events of a connection whose chunks are [chunks] and whose requests all end normally. *)
Fixpoint delivers (trace : list event) (chunks : list buffer) : Prop :=
  match trace with
  | [] => chunks = []
  | Data chunk :: trace => match chunks with c :: chunks => c = chunk /\ delivers trace chunks | [] => False end
  | Ended _ (Ok _) :: trace => delivers trace chunks
  | Ended _ (Err _) :: _ => False
  end.

Lemma steps_serve trace chunks c fs r :
  handshaken c = true -> destroyed c = false -> delivers trace chunks ->
  feed_chunks (maxFrameSize config) (reader c) chunks = (Ok fs, r) ->
  Permutation (handled (fst (steps c trace)) ++ waiting (snd (steps c trace))) (requests fs ++ waiting c) /\
  destroyed (snd (steps c trace)) = false.
Proof using.
  revert chunks c fs. induction trace as [|e trace IH]; intros chunks c fs Hh Hd Ht Hf.
  { cbn in Ht. subst chunks. cbn in Hf. injection Hf as <- _. done. }
  cbn [steps]. destruct e as [chunk|i [u|e]]; [| |done].
  - destruct chunks as [|ch chunks]; [done|]. destruct Ht as [-> Ht]. cbn [feed_chunks] in Hf. cbn [step]. unfold on_data.
    rewrite Hd. destruct (feedFrames (reader c) chunk (maxFrameSize config)) as [[gs|] r1]; [|done].
    destruct (feed_chunks (maxFrameSize config) r1 chunks) as [[hs|] r2] eqn:Hg; [|done]. injection Hf as <- <-.
    destruct (walk_serves gs (with_reader r1 c) Hh) as (Hp & Hh' & Hd' & Hr').
    destruct (walk (with_reader r1 c) gs) as [l c']. cbn [fst snd] in *.
    destruct (IH chunks c' hs Hh' ltac:(by rewrite Hd') Ht) as [Hq Hdd]; [by rewrite Hr'|].
    destruct (steps c' trace) as [k c'']. cbn [fst snd] in *. split; [|done]. unfold handled, requests in *.
    rewrite !omap_app, <- !app_assoc, Hq, Permutation_app_swap_app. rewrite Hp.
    change (waiting (with_reader r1 c)) with (waiting c). apply Permutation_app_swap_app.
  - cbn [step]. unfold resume. destruct (suspended c !! i) as [rest|] eqn:Hi.
    + destruct (walk_serves rest (with_suspended (delete i (suspended c)) c) Hh) as (Hp & Hh' & Hd' & Hr').
      destruct (walk (with_suspended (delete i (suspended c)) c) rest) as [l c']. cbn [fst snd] in *.
      destruct (IH chunks c' fs Hh' ltac:(by rewrite Hd') Ht) as [Hq Hdd]; [by rewrite Hr'|].
      destruct (steps c' trace) as [k c'']. cbn [fst snd] in *. split; [|done]. unfold handled in *.
      rewrite omap_app, <- app_assoc, Hq, Permutation_app_swap_app, Hp, <- waiting_delete by done. done.
    + destruct (IH chunks c fs Hh Hd Ht Hf) as [Hq Hdd]. by destruct (steps c trace) as [k c''].
Qed.

Definition greets (f : DecodedFrame) : Prop :=
  frameType (header f) = FrameType_code Hello /\ hello_supported (payload f) = Ok true.

Lemma walk_greets f frames c :
  handshaken c = false -> greets f ->
  walk c (f :: frames) = (SendWelcome (Frame.requestId (header f)) :: fst (walk (with_handshake c) frames),
                          snd (walk (with_handshake c) frames)).
Proof using.
  intros Hh [Ht Hs]. cbn [walk]. rewrite Hh, Ht, bool_decide_eq_true_2, Hs by done. cbn [negb].
  by destruct (walk (with_handshake c) frames).
Qed.

Lemma steps_greet trace chunks c f fs r :
  handshaken c = false -> destroyed c = false -> suspended c = [] -> greets f -> delivers trace chunks ->
  feed_chunks (maxFrameSize config) (reader c) chunks = (Ok (f :: fs), r) ->
  Permutation (handled (fst (steps c trace)) ++ waiting (snd (steps c trace))) (requests fs) /\
  destroyed (snd (steps c trace)) = false.
Proof using.
  revert chunks c. induction trace as [|e trace IH]; intros chunks c Hh Hd Hn Hg Ht Hf; [cbn in Ht; subst chunks; discriminate Hf|].
  cbn [steps]. destruct e as [chunk|i [u|e]]; [| |done].
  - destruct chunks as [|ch chunks]; [done|]. destruct Ht as [-> Ht]. cbn [feed_chunks] in Hf. cbn [step]. unfold on_data.
    rewrite Hd. destruct (feedFrames (reader c) chunk (maxFrameSize config)) as [[gs|] r1]; [|done].
    destruct (feed_chunks (maxFrameSize config) r1 chunks) as [[hs|] r2] eqn:Hc; [|done].
    destruct gs as [|g gs].
    + cbn in Hf. injection Hf as -> <-. cbn [walk].
      destruct (IH chunks (with_reader r1 c) Hh Hd Hn Hg Ht Hc) as [Hp Hdd].
      by destruct (steps (with_reader r1 c) trace) as [k c''].
    + cbn in Hf. injection Hf as -> <- <-. rewrite walk_greets by done. set (c1 := with_handshake (with_reader r1 c)).
      destruct (walk_serves gs c1 eq_refl) as (Hp & Hh' & Hd' & Hr').
      destruct (walk c1 gs) as [l c']. cbn [fst snd] in *.
      destruct (steps_serve trace chunks c' hs r2 Hh' ltac:(by rewrite Hd') Ht) as [Hq Hdd]; [by rewrite Hr'|].
      destruct (steps c' trace) as [k c'']. cbn [fst snd] in *. split; [|done]. unfold handled, requests in *.
      cbn [app omap list_omap]. rewrite !omap_app, <- !app_assoc, Hq, Permutation_app_swap_app, Hp.
      unfold waiting, c1. cbn [with_handshake with_reader suspended]. rewrite Hn. cbn [List.map concat].
      rewrite app_nil_r. apply Permutation_app_comm.
  - cbn [step]. unfold resume. rewrite (lookup_ge_None_2 (suspended c) i) by (rewrite Hn; cbn; lia).
    destruct (IH chunks c Hh Hd Hn Hg Ht Hf) as [Hp Hdd]. by destruct (steps c trace) as [k c''].
Qed.

(** the handshake comes first: whatever bytes a client sends, in whatever chunks, and whenever
    its requests end, a request reaches the authenticator only after the client was sent the one
    [Welcome] of the connection, and with Ed25519 as the negotiated algorithm. *)
Theorem handshake_first (trace : list event) :
  let actions := fst (steps connected trace) in
  (length (List.filter (fun a => match a with SendWelcome _ => true | _ => false end) actions) <= 1)%nat /\
  forall i payload alg, actions !! i = Some (HandleRequest payload alg) ->
    alg = Some "ed25519"%string /\ exists j id, (j < i)%nat /\ actions !! j = Some (SendWelcome id).
Proof using.
  cbv zeta. pose proof (steps_polite trace connected ltac:(discriminate)) as Hp. split.
  - revert Hp. cbn [handshaken connected]. clear. generalize (handshaken (snd (steps connected trace))).
    generalize (fst (steps connected trace)). intros l b'. apply polite_welcomes.
  - intros i payload alg Hi. destruct (polite_served _ _ _ _ _ _ Hp Hi) as [Ha [Hb|H]]; [discriminate Hb|by split].
Qed.

End Connection.

(** ** Witnesses *)

Definition toy_hello : sent :=
  {| s_type := Hello; s_id := List.map Z.of_nat (seq 0 16); s_flags := 0; s_version := 1; s_payload := [123; 125] |}.

(** A parser that knows one text. *)
Definition toy_parse (b : buffer) : result exn json :=
  if bool_decide (b = [123; 125]) then Ok (JObj [("supportedAlgorithms"%string, JArr [JStr "ed25519"])])
  else Err (PlainError "Unexpected token").

Definition toy_stream : list buffer :=
  match result_mapM encode_sent [toy_hello; ping; request; request] with Ok l => l | Err _ => [] end.

Definition toy_chunks : list buffer :=
  [take 5 (concat toy_stream); take 80 (drop 5 (concat toy_stream)); drop 85 (concat toy_stream)].

Definition toy_trace : list event :=
  List.map Data toy_chunks ++ [Ended 0 (Ok tt)].

