(* ===== verification/ArchiveContract.v ===== *)
(** * The release archive contract ([src/release/archive-contract.ts])

    The manifest of a release, its checks and limits, octal numbers and file modes, shared by the
    writer ([Tar.v]) and the extractor ([Extractor.v]). *)

From S2P Require Import Prelude Bytes Json Platform.

#[global] Open Scope Z_scope.

(** [DeploymentError('deployment_invalid')], an [Error] without a code, an error of [node:fs]. *)
Inductive ArchiveError := deployment_invalid | plain_error | system_error.

#[global] Instance ArchiveError_eq_dec : EqDecision ArchiveError.
Proof. solve_decision. Defined.

Abbreviation AR A := (result ArchiveError A).

(** [if (!b) fail(...)]. *)
Definition ensure (b : bool) : AR unit := require b deployment_invalid.

Lemma ensured b u : ensure b = Ok u <-> b = true.
Proof. apply require_Ok. Qed.

Lemma ensure_bind {A} (b : bool) (f : unit -> AR A) a : (ensure b ≫= f) = Ok a <-> b = true /\ f tt = Ok a.
Proof. apply require_bind. Qed.

(** ** Octal numbers *)

Definition octal_char (c : ascii) : bool := in_range "0" "7" c.
Definition octal_digit (d : Z) : ascii := char_of_code (48 + d).

(** [value.toString(8)]; 18 digits hold every safe integer. *)
Fixpoint octal_loop (fuel : nat) (v : Z) (acc : list ascii) : list ascii :=
  match fuel with
  | O => acc
  | S fuel =>
      let acc := octal_digit (v mod 8) :: acc in
      if v <? 8 then acc else octal_loop fuel (v / 8) acc
  end.

Definition toString8 (v : Z) : list ascii := octal_loop 18 v [].

(** [Number.parseInt(s, 8)] of a string of octal digits. *)
Definition parseInt8 (l : list ascii) : Z := fold_left (fun acc c => acc * 8 + (code c - 48)) l 0.

(** [s.padStart(n, '0')] *)
Definition padStart0 (n : nat) (l : list ascii) : list ascii := replicate (n - length l) "0"%char ++ l.

(** ** Modes *)

(** Source: src/release/archive-contract.ts:65-74 (parseMode) *)
Definition parseMode (mode : string) : AR Z :=
  match chars mode with
  | c :: digits =>
      _ ← ensure (bool_decide (c = "0"%char) && (length digits =? 3)%nat && forallb octal_char digits);
      let parsed := parseInt8 (c :: digits) in
      _ ← ensure (Z.land parsed 3584 =? 0);
      Ok parsed
  | [] => Err deployment_invalid
  end.

(** Source: src/release/archive-contract.ts:76-81 (formatMode) *)
Definition formatMode (mode : Z) : AR string :=
  _ ← ensure ((0 <=? mode) && (Z.land mode (Z.lnot 511) =? 0));
  Ok (of_chars ("0"%char :: padStart0 3 (toString8 mode))).

(** ** Manifests *)

(** Source: src/release/archive-contract.ts:15-15 (type) *)
Inductive entry_type := file | directory.

#[global] Instance entry_type_eq_dec : EqDecision entry_type.
Proof. solve_decision. Defined.

(** Source: src/release/archive-contract.ts:13-19 (ReleaseFileEntry) *)
Record ReleaseFileEntry := { path : string; type : entry_type; mode : string; size : Z; digest : string }.

#[global] Instance ReleaseFileEntry_eq_dec : EqDecision ReleaseFileEntry.
Proof. solve_decision. Defined.

(** Source: src/release/archive-contract.ts:21-29 (StrictArchiveDeclaration) *)
Record StrictArchiveDeclaration := {
  format : string;
  archive_digest : string;
  compressedSize : Z;
  decompressedSize : Z;
  memberCount : Z;
  topLevelPrefix : string;
  strictProfile : string
}.

(** Source: src/release/archive-contract.ts:31-40 (ExtractableReleaseManifest) *)
Record ExtractableReleaseManifest := {
  schemaVersion : string;
  product : string;
  repository : string;
  releaseVersion : string;
  sourceDateEpoch : Z;
  nodeVersion : string;
  archive : StrictArchiveDeclaration;
  files : list ReleaseFileEntry
}.

(** Source: src/release/archive-contract.ts:42-47 (StrictArchiveLimits) *)
Record StrictArchiveLimits := {
  maxCompressedBytes : Z;
  maxDecompressedBytes : Z;
  maxFileBytes : Z;
  maxMembers : Z
}.

(** Source: src/release/archive-contract.ts:49-54 (DEFAULT_STRICT_ARCHIVE_LIMITS) *)
Definition DEFAULT_STRICT_ARCHIVE_LIMITS : StrictArchiveLimits := {|
  maxCompressedBytes := 512 * 1024 * 1024;
  maxDecompressedBytes := 1024 * 1024 * 1024;
  maxFileBytes := 256 * 1024 * 1024;
  maxMembers := 20000
|}.

(** Source: src/release/archive-contract.ts:5-5 (STRICT_ARCHIVE_PROFILE) *)
Definition STRICT_ARCHIVE_PROFILE : string := "baby-quirt-bounded-link-free-v2".
(** Source: src/release/archive-contract.ts:6-6 (PINNED_NODE_VERSION) *)
Definition PINNED_NODE_VERSION : string := "24.18.0".

(** The class [[A-Za-z0-9._@/-]]. *)
Definition path_char (c : ascii) : bool := is_alnum c || one_of "._@/-" c.
Definition name_char (c : ascii) : bool := is_alnum c || one_of "._-" c.

Definition is_dots (part : string) : bool := bool_decide (part = ".."%string).

(** No slash first, no component [..], no backslash, only characters of the class.
    Source: src/release/archive-contract.ts:9-9 (SAFE_RELATIVE_PATH) *)
Definition SAFE_RELATIVE_PATH (s : string) : bool :=
  negb (bool_decide (s = ""%string)) && negb (startsWith s "/") &&
  negb (existsb is_dots (Bytes.split "/"%char s)) && negb (includes s "\") && all_chars path_char s.

(** Source: src/release/archive-contract.ts:10-10 (SAFE_PREFIX) *)
Definition SAFE_PREFIX (s : string) : bool :=
  match rev (chars s) with
  | c :: r =>
      bool_decide (c = "/"%char) &&
      match rev r with d :: l => is_alnum d && forallb name_char l | [] => false end
  | [] => false
  end.

(** What is left of a string after digits, one at least. *)
Definition after_digits (l : list ascii) : option (list ascii) :=
  let d := take_while is_digit l in
  if (length d =? 0)%nat then None else Some (drop (length d) l).

Definition after_dot (l : list ascii) : option (list ascii) :=
  match l with c :: l => if bool_decide (c = "."%char) then Some l else None | [] => None end.

Definition after_numbers (l : list ascii) : option (list ascii) :=
  l ← after_digits l; l ← after_dot l; l ← after_digits l; l ← after_dot l; after_digits l.

(** Source: src/release/archive-contract.ts:11-11 (VERSION) *)
Definition VERSION (s : string) : bool :=
  match after_numbers (chars s) with
  | None => false
  | Some [] => true
  | Some (c :: l) =>
      bool_decide (c = "-"%char) && negb (length l =? 0)%nat &&
      forallb (fun c => is_alnum c || one_of ".-" c) l
  end.

(** Source: src/release/archive-contract.ts:56-63 (assertReleaseVersion) *)
Definition assertReleaseVersion (version : string) : AR unit :=
  ensure (VERSION version && (version !== "0.2.1"%string) && (version !== "0.2.2"%string)).

(** A component that is empty, [.] or [..]. *)
Definition bad_part (part : string) : bool :=
  (part === ""%string) || (part === "."%string) || (part === ".."%string).

(** Source: src/release/archive-contract.ts:83-102 (assertReleaseFileEntry) *)
Definition assertReleaseFileEntry (entry : ReleaseFileEntry) : AR unit :=
  _ ← ensure (SAFE_RELATIVE_PATH (path entry) && negb (startsWith (path entry) "/") &&
              negb (endsWith (path entry) "/") && negb (existsb bad_part (Bytes.split "/"%char (path entry))));
  _ ← parseMode (mode entry);
  _ ← ensure (isSafeInteger (size entry) && (0 <=? size entry));
  _ ← ensure (DIGEST_PATTERN (digest entry));
  ensure (negb (bool_decide (type entry = directory) && negb (size entry =? 0))).

Definition expectedRepository (product : string) : string :=
  if product === "baby-quirt-controller"%string then "StealthEyeLLC/baby-quirt"
  else "StealthEyeLLC/" +:+ product.

(** The three sizes of an archive declaration. *)
Definition bounded (z limit : Z) : bool := isSafeInteger z && (0 <? z) && (z <=? limit).

Definition declaration_ok (a : StrictArchiveDeclaration) : bool :=
  (format a === "tar.gz"%string) && (strictProfile a === STRICT_ARCHIVE_PROFILE) &&
  DIGEST_PATTERN (archive_digest a) && SAFE_PREFIX (topLevelPrefix a).

(** The loop over the files: each entry is checked, bounded and new. *)
Fixpoint expected_files (limits : StrictArchiveLimits) (l : list ReleaseFileEntry)
    (expected : gmap string ReleaseFileEntry) : AR (gmap string ReleaseFileEntry) :=
  match l with
  | [] => Ok expected
  | entry :: l =>
      _ ← assertReleaseFileEntry entry;
      _ ← ensure (size entry <=? maxFileBytes limits);
      _ ← ensure (bool_decide (expected !! path entry = None));
      expected_files limits l (<[path entry := entry]> expected)
  end.

(** Source: src/release/archive-contract.ts:104-163 (validateExtractableManifest) *)
Definition validateExtractableManifest (manifest : ExtractableReleaseManifest) (limits : StrictArchiveLimits)
    : AR (gmap string ReleaseFileEntry) :=
  let a := archive manifest in
  _ ← ensure (schemaVersion manifest === "2.0.0"%string);
  _ ← ensure (repository manifest === expectedRepository (product manifest));
  _ ← assertReleaseVersion (releaseVersion manifest);
  _ ← ensure (nodeVersion manifest === PINNED_NODE_VERSION);
  _ ← ensure (isSafeInteger (sourceDateEpoch manifest) && (0 <=? sourceDateEpoch manifest));
  _ ← ensure (declaration_ok a);
  _ ← ensure (bounded (compressedSize a) (maxCompressedBytes limits) &&
              bounded (decompressedSize a) (maxDecompressedBytes limits) &&
              bounded (memberCount a) (maxMembers limits));
  expected ← expected_files limits (files manifest) ∅;
  _ ← ensure (memberCount a =? Z.of_nat (base.size expected) + 1);
  Ok expected.

(** ** Octal numbers are read back *)

Abbreviation octal_step := (fun acc c => acc * 8 + (code c - 48)).

Lemma code_octal_digit d : 0 <= d < 8 -> code (octal_digit d) = 48 + d.
Proof. intros Hd. apply code_char_of_code. unfold is_byte. lia. Qed.

Lemma octal_char_digit d : 0 <= d < 8 -> octal_char (octal_digit d) = true.
Proof. intros Hd. revert d Hd. apply (range_check 8 (fun d => octal_char (octal_digit d))). reflexivity. Qed.

Lemma octal_loop_value fuel v acc :
  0 <= v < 8 ^ Z.of_nat (S fuel) ->
  fold_left octal_step (octal_loop (S fuel) v acc) 0 = fold_left octal_step acc v.
Proof.
  revert v acc. induction fuel as [|fuel IH]; intros v acc Hv.
  - cbn [octal_loop]. replace (v <? 8) with true by (symmetry; apply Z.ltb_lt; cbn in Hv; lia).
    cbn [fold_left]. rewrite code_octal_digit by (apply Z.mod_pos_bound; lia).
    rewrite Z.mod_small by (cbn in Hv; lia). f_equal. lia.
  - cbn [octal_loop]. pose proof (Z.mod_pos_bound v 8 ltac:(lia)) as Hm. destruct (v <? 8) eqn:Hlt.
    + apply Z.ltb_lt in Hlt. cbn [fold_left]. rewrite code_octal_digit by done.
      rewrite Z.mod_small by lia. f_equal. lia.
    + cbn [octal_loop] in IH. rewrite IH.
      * cbn [fold_left]. rewrite code_octal_digit by done. f_equal. pose proof (Z.div_mod v 8). lia.
      * rewrite Nat2Z.inj_succ, Z.pow_succ_r in Hv by lia.
        split; [apply Z.div_pos; lia|apply Z.div_lt_upper_bound; lia].
Qed.

Lemma octal_loop_chars fuel v acc :
  0 <= v -> forallb octal_char acc = true -> forallb octal_char (octal_loop fuel v acc) = true.
Proof.
  revert v acc. induction fuel as [|fuel IH]; intros v acc Hv Hacc; [done|]. cbn [octal_loop].
  assert (forallb octal_char (octal_digit (v mod 8) :: acc) = true).
  { cbn. rewrite octal_char_digit by (apply Z.mod_pos_bound; lia). done. }
  destruct (v <? 8); [done|]. apply IH; [apply Z.div_pos; lia|done].
Qed.

Lemma octal_loop_length fuel v acc n :
  0 <= v < 8 ^ Z.of_nat n -> (0 < n)%nat -> (length (octal_loop fuel v acc) <= n + length acc)%nat.
Proof.
  revert v acc n. induction fuel as [|fuel IH]; intros v acc n Hv Hn; cbn [octal_loop]; [lia|].
  destruct (v <? 8) eqn:Hlt; [cbn; lia|]. apply Z.ltb_ge in Hlt. destruct n as [|n]; [lia|].
  rewrite Nat2Z.inj_succ, Z.pow_succ_r in Hv by lia.
  destruct n as [|n]; [cbn in Hv; lia|].
  etransitivity; [apply (IH _ _ (S n)); [|lia]|cbn; lia].
  split; [apply Z.div_pos; lia|apply Z.div_lt_upper_bound; lia].
Qed.

Lemma toString8_chars v : 0 <= v -> forallb octal_char (toString8 v) = true.
Proof. intros Hv. by apply octal_loop_chars. Qed.

Lemma padStart0_chars n l : forallb octal_char l = true -> forallb octal_char (padStart0 n l) = true.
Proof.
  intros Hl. unfold padStart0. rewrite forallb_app, Hl, andb_true_r. apply forallb_forall.
  intros c Hc%list_elem_of_In. by apply elem_of_replicate in Hc as [-> _].
Qed.

Lemma parseInt8_pad n l : parseInt8 (padStart0 n l) = parseInt8 l.
Proof.
  unfold parseInt8, padStart0. rewrite fold_left_app. f_equal.
  induction (n - length l)%nat as [|k IH]; [done|]. exact IH.
Qed.

(** Reading back a padded octal number gives the number. *)
Lemma parseInt8_toString8 n v : 0 <= v < 2 ^ 53 -> parseInt8 (padStart0 n (toString8 v)) = v.
Proof.
  intros Hv. rewrite parseInt8_pad. unfold parseInt8, toString8.
  rewrite octal_loop_value; [done|]. change (8 ^ Z.of_nat 18) with (2 ^ 54). lia.
Qed.

Lemma padStart0_length n v : 0 <= v < 8 ^ Z.of_nat n -> (0 < n)%nat -> length (padStart0 n (toString8 v)) = n.
Proof.
  intros Hv Hn. unfold padStart0, toString8. rewrite length_app, length_replicate.
  pose proof (octal_loop_length 18 v [] n Hv Hn). cbn [length] in *. lia.
Qed.

Lemma mode_bits m : 0 <= m -> Z.land m (Z.lnot 511) = 0 <-> m < 512.
Proof.
  intros Hm. change (Z.land m (Z.lnot 511)) with (Z.land m (Z.lnot (Z.ones 9))).
  rewrite <- Z.ldiff_land, Z.ldiff_ones_r, Z.shiftl_mul_pow2, Z.shiftr_div_pow2 by lia.
  change (2 ^ 9) with 512. pose proof (Z.div_mod m 512). pose proof (Z.mod_pos_bound m 512). lia.
Qed.

(** A mode the writer formats is the mode the extractor parses. *)
Definition mode_reread (m : Z) : bool :=
  match formatMode m with Ok s => bool_decide (parseMode s = Ok m) | Err _ => false end.

Lemma parseMode_formatMode m s : formatMode m = Ok s -> parseMode s = Ok m.
Proof.
  intros Hs. pose proof Hs as Hf. unfold formatMode in Hf.
  rewrite ensure_bind, andb_true_iff, Z.leb_le, Z.eqb_eq in Hf. destruct Hf as [[Hm Hb] _].
  apply mode_bits in Hb; [|done].
  assert (H : mode_reread m = true) by (apply (range_check 512 mode_reread); [vm_compute; reflexivity|lia]).
  unfold mode_reread in H. rewrite Hs in H. by apply bool_decide_eq_true in H.
Qed.

Lemma formatMode_Ok m : 0 <= m < 512 -> exists s, formatMode m = Ok s.
Proof.
  intros Hm. unfold formatMode. rewrite (proj2 (mode_bits m ltac:(lia)) ltac:(lia)).
  replace (0 <=? m) with true by (symmetry; apply Z.leb_le; lia). by eexists.
Qed.
