(* ===== verification/Tar.v ===== *)
(** * The ustar format ([src/release/deterministic-archive.ts], [parseHeader] of
    [src/release/strict-extractor.ts])

    The deterministic writer and the strict header parser.  A header the writer produces is parsed
    to what was written, and the archive of a tree does not depend on the order in which the
    directories list their names. *)

From S2P Require Import Prelude Bytes Json Platform ArchiveContract.

#[global] Open Scope Z_scope.

(** ** Fields of a header *)

(** Source: src/release/deterministic-archive.ts:102-106 (writeString) *)
Definition writeString (header : buffer) (value : string) (offset length_ : nat) : AR buffer :=
  let encoded := ascii_bytes value in
  _ ← require (negb (length_ <? length encoded)%nat) plain_error;
  Ok (copy encoded header offset).

Definition nul : ascii := char_of_code 0.

(** Source: src/release/deterministic-archive.ts:108-113 (writeOctal) *)
Definition writeOctal (header : buffer) (value : Z) (offset length_ : nat) : AR buffer :=
  _ ← require (isSafeInteger value && negb (value <? 0)) plain_error;
  let encoded := padStart0 (length_ - 1) (toString8 value) in
  _ ← require (negb (length_ - 1 <? length encoded)%nat) plain_error;
  writeString header (of_chars (encoded ++ [nul])) offset length_.

(** The loop over the slashes, from the last one; [index] counts the characters still to look at. *)
Fixpoint split_loop (l : list ascii) (index : nat) : AR (string * string) :=
  match index with
  | O => Err plain_error
  | S i =>
      if bool_decide (l !! index = Some "/"%char) && (index <=? 155)%nat &&
         (length l - S index <=? 100)%nat
      then Ok (of_chars (drop (S index) l), of_chars (take index l))
      else split_loop l i
  end.

(** The name and the prefix.
    Source: src/release/deterministic-archive.ts:115-126 (splitUstarPath) *)
Definition splitUstarPath (path : string) : AR (string * string) :=
  if (String.length path <=? 100)%nat then Ok (path, ""%string)
  else split_loop (chars path) (String.length path - 1).

(** The argument of [tarHeader]. *)
Record HeaderInput := { h_path : string; h_type : entry_type; h_mode : Z; h_size : Z; h_mtime : Z }.

Definition sum (b : buffer) : Z := fold_left Z.add b 0.

(** [header.fill(0x20, 148, 156)] *)
Definition blank_checksum (header : buffer) : buffer := copy (replicate 8 32) header 148.

Definition ustar : string := of_chars (chars "ustar" ++ [nul]).

(** Source: src/release/deterministic-archive.ts:128-155 (tarHeader) *)
Definition tarHeader (input : HeaderInput) : AR buffer :=
  let path := if bool_decide (h_type input = directory) && negb (endsWith (h_path input) "/")
              then h_path input +:+ "/" else h_path input in
  '(name, prefix) ← splitUstarPath path;
  let header := alloc 512 in
  header ← writeString header name 0 100;
  header ← writeOctal header (h_mode input) 100 8;
  header ← writeOctal header 0 108 8;
  header ← writeOctal header 0 116 8;
  header ← writeOctal header (if bool_decide (h_type input = directory) then 0 else h_size input) 124 12;
  header ← writeOctal header (h_mtime input) 136 12;
  let header := blank_checksum header in
  let header := copy [if bool_decide (h_type input = directory) then 53 else 48] header 156 in
  header ← writeString header ustar 257 6;
  header ← writeString header "00" 263 2;
  header ← writeString header prefix 345 155;
  let checksumText := padStart0 6 (toString8 (sum header)) in
  writeString header (of_chars (checksumText ++ [nul; " "%char])) 148 8.

(** ** The archive of a tree *)

(** What [readdir] and [lstat] show of a source tree; names are listed in any order. *)
Inductive source_node :=
| SFile (st_mode : Z) (content : buffer)
| SDirectory (st_mode : Z) (children : list (string * source_node))
| SLink
| SSpecial.

(** The content of a file is kept in place of its absolute path.
    Source: src/release/deterministic-archive.ts:26-33 (SourceEntry) *)
Record SourceEntry := {
  e_path : string;
  e_type : entry_type;
  e_mode : Z;
  e_size : Z;
  e_digest : string;
  e_content : buffer
}.

(** Source: src/release/deterministic-archive.ts:35-39 (assertAsciiPath) *)
Definition assertAsciiPath (path : string) : AR unit :=
  require (negb (bool_decide (path = ""%string)) && all_chars path_char path && negb (includes path "//")) plain_error.

Definition path_join (base name : string) : string :=
  if bool_decide (base = ""%string) then name else base +:+ "/" +:+ name.

Fixpoint collect {A} (l : list (AR (list A))) : AR (list A) :=
  match l with
  | [] => Ok []
  | r :: l => x ← r; y ← collect l; Ok (x ++ y)
  end.

(** The parts of a release tree: the identity of each entry. *)
Definition byPath (entries : list SourceEntry) : list SourceEntry :=
  List.map snd (sort_by str_ltb (List.map (fun e => (e_path e, e)) entries)).

Section Writer.
Context {C : Crypto}.

(** Source: src/release/deterministic-archive.ts:41-55 (hashFile) *)
Definition hashFile (content : buffer) : string := sha256Hex (byte_string content).

(** The entries of one name of a directory and of what is below it.
    Source: src/release/deterministic-archive.ts:60-95 (visit) *)
Fixpoint visit (relativePath : string) (node : source_node) : AR (list SourceEntry) :=
  _ ← assertAsciiPath relativePath;
  match node with
  | SLink | SSpecial => Err plain_error
  | SFile m content =>
      _ ← require (Z.land m 3584 =? 0) plain_error;
      Ok [{| e_path := relativePath; e_type := file; e_mode := Z.land m 511;
             e_size := Z.of_nat (length content); e_digest := hashFile content; e_content := content |}]
  | SDirectory m children =>
      _ ← require (Z.land m 3584 =? 0) plain_error;
      let visited := List.map (fun kv => (fst kv, visit (path_join relativePath (fst kv)) (snd kv))) children in
      below ← collect (List.map snd (sort_by str_ltb visited));
      Ok ({| e_path := relativePath; e_type := directory; e_mode := Z.land m 511; e_size := 0;
             e_digest := hashFile []; e_content := [] |} :: below)
  end.

(** Source: src/release/deterministic-archive.ts:57-100 (enumerate) *)
Definition enumerate (children : props source_node) : AR (list SourceEntry) :=
  entries ← collect (List.map snd (sort_by str_ltb (List.map (fun kv => (fst kv, visit (fst kv) (snd kv))) children)));
  Ok (byPath entries).

Definition padding (size : Z) : Z := (512 - size mod 512) mod 512.

(** One member: its header, its bytes, its padding. *)
Definition tar_member (topLevelPrefix : string) (epoch : Z) (entry : SourceEntry) : AR buffer :=
  header ← tarHeader {| h_path := topLevelPrefix +:+ "/" +:+ e_path entry; h_type := e_type entry;
                        h_mode := e_mode entry; h_size := e_size entry; h_mtime := epoch |};
  Ok (header ++ (if bool_decide (e_type entry = file)
                 then e_content entry ++ alloc (Z.to_nat (padding (e_size entry))) else [])).

Fixpoint tar_members (topLevelPrefix : string) (epoch : Z) (entries : list SourceEntry) : AR buffer :=
  match entries with
  | [] => Ok []
  | e :: entries =>
      m ← tar_member topLevelPrefix epoch e;
      rest ← tar_members topLevelPrefix epoch entries;
      Ok (m ++ rest)
  end.

(** What is piped into [gzip]: the root, the members and two zero blocks. *)
Definition tar_stream (topLevelPrefix : string) (epoch : Z) (entries : list SourceEntry) : AR buffer :=
  root ← tarHeader {| h_path := topLevelPrefix; h_type := directory; h_mode := 493; h_size := 0; h_mtime := epoch |};
  members ← tar_members topLevelPrefix epoch entries;
  Ok (root ++ members ++ alloc 1024).

Definition release_files (entries : list SourceEntry) : AR (list ReleaseFileEntry) :=
  result_mapM (fun e =>
    m ← formatMode (e_mode e);
    Ok {| path := e_path e; type := e_type e; mode := m; size := e_size e; digest := e_digest e |}) entries.

Definition top_level_name (s : string) : bool :=
  match chars s with c :: l => is_alnum c && forallb name_char l | [] => false end.

(** [node:zlib]: the compressed bytes, and the chunks that decompressing them delivers. *)
Class Gzip := { gzip : buffer -> buffer; gunzip : buffer -> option (list buffer) }.
Class GzipLaws (G : Gzip) := gunzip_gzip : forall b, exists chunks, gunzip (gzip b) = Some chunks /\ concat chunks = b.

(** The archive file, its declaration and the files.
    Source: src/release/deterministic-archive.ts:185-275 (createDeterministicTarGz) *)
Definition createDeterministicTarGz {G : Gzip} (children : props source_node) (prefix : string) (epoch : Z)
    : AR (buffer * StrictArchiveDeclaration * list ReleaseFileEntry) :=
  _ ← require (top_level_name prefix) plain_error;
  _ ← require (isSafeInteger epoch && negb (epoch <? 0)) plain_error;
  entries ← enumerate children;
  tar ← tar_stream prefix epoch entries;
  let bytes := gzip tar in
  files ← release_files entries;
  Ok (bytes,
      {| format := "tar.gz"; archive_digest := hashFile bytes; compressedSize := Z.of_nat (length bytes);
         decompressedSize := Z.of_nat (length tar); memberCount := Z.of_nat (length entries) + 1;
         topLevelPrefix := prefix +:+ "/"; strictProfile := STRICT_ARCHIVE_PROFILE |},
      files).
End Writer.

(** ** Parsing a header *)

(** Source: src/release/strict-extractor.ts:35-43 (ParsedHeader) *)
Record ParsedHeader := {
  p_path : string; p_mode : Z; p_uid : Z; p_gid : Z; p_size : Z; p_mtime : Z; p_type : entry_type
}.

Fixpoint drop_while {A} (p : A -> bool) (l : list A) : list A :=
  match l with [] => [] | x :: l' => if p x then drop_while p l' else l end.

Fixpoint span {A} (p : A -> bool) (l : list A) : list A :=
  match l with [] => [] | x :: l' => if p x then x :: span p l' else [] end.

Definition nonzero (b : Z) : bool := negb (b =? 0).
Definition zero (b : Z) : bool := b =? 0.
Definition printable (b : Z) : bool := (32 <=? b) && (b <=? 126).

(** Source: src/release/strict-extractor.ts:60-71 (readTextField) *)
Definition readTextField (header : buffer) (offset length_ : nat) : AR string :=
  let field := subarray header offset (offset + length_) in
  let content := span nonzero field in
  _ ← ensure (forallb zero (drop (S (length content)) field));
  _ ← ensure (forallb printable content);
  Ok (to_ascii content).

Definition blank (c : ascii) : bool := bool_decide (c = nul) || bool_decide (c = " "%char).
Definition strip_end (p : ascii -> bool) (l : list ascii) : list ascii := rev (drop_while p (rev l)).

(** Source: src/release/strict-extractor.ts:73-81 (readOctal) *)
Definition readOctal (header : buffer) (offset length_ : nat) : AR Z :=
  let field := subarray header offset (offset + length_) in
  _ ← ensure (negb (128 <=? List.nth 0 field 0));
  let value := drop_while (fun c => bool_decide (c = " "%char)) (strip_end blank (chars (to_ascii field))) in
  _ ← ensure (negb (length value =? 0)%nat && forallb octal_char value);
  let parsed := parseInt8 value in
  _ ← ensure (isSafeInteger parsed);
  Ok parsed.

(** Source: src/release/strict-extractor.ts:83-91 (verifyChecksum) *)
Definition verifyChecksum (header : buffer) : AR unit :=
  let checksumText := List.filter (fun c => negb (blank c)) (chars (to_ascii (subarray header 148 156))) in
  _ ← ensure ((1 <=? length checksumText)%nat && (length checksumText <=? 6)%nat && forallb octal_char checksumText);
  ensure (sum (blank_checksum header) =? parseInt8 checksumText).

(** [path.slice(0, -1)] of a path that ends with a slash. *)
Definition without_slash (path : string) : string :=
  if endsWith path "/" then slice path 0 (String.length path - 1) else path.

Definition safe_part (part : string) : bool :=
  negb (bad_part part) && all_chars (fun c => is_alnum c || one_of "._@-" c) part.

(** The tests on the path, and the path without its last slash. *)
Definition checked_path (path : string) : AR string :=
  _ ← ensure (negb (bool_decide (path = ""%string)) && negb (includes path "\") &&
              negb (existsb (fun c => bool_decide (c = nul)) (chars path)) &&
              negb (startsWith path "/") && negb (includes path "//"));
  _ ← ensure (forallb safe_part (Bytes.split "/"%char (without_slash path)));
  Ok (without_slash path).

Definition typeflag (b : Z) : AR entry_type :=
  if b =? 53 then Ok directory else if (b =? 48) || (b =? 0) then Ok file else Err deployment_invalid.

(** Source: src/release/strict-extractor.ts:93-148 (parseHeader) *)
Definition parseHeader (header : buffer) : AR ParsedHeader :=
  _ ← verifyChecksum header;
  _ ← ensure (bool_decide (subarray header 257 263 = ascii_bytes ustar));
  _ ← ensure (bool_decide (subarray header 263 265 = ascii_bytes "00"));
  _ ← ensure (forallb zero (subarray header 500 512));
  _ ← ensure (forallb zero (subarray header 157 257));
  name ← readTextField header 0 100;
  prefix ← readTextField header 345 155;
  let path := if bool_decide (prefix = ""%string) then name else prefix +:+ "/" +:+ name in
  withoutDirectorySlash ← checked_path path;
  ty ← typeflag (List.nth 156 header 0);
  _ ← ensure (negb (bool_decide (ty = directory) && negb (endsWith path "/")));
  _ ← ensure (negb (bool_decide (ty = file) && endsWith path "/"));
  mode ← readOctal header 100 8;
  uid ← readOctal header 108 8;
  gid ← readOctal header 116 8;
  size ← readOctal header 124 12;
  mtime ← readOctal header 136 12;
  _ ← ensure (Z.land mode (Z.lnot 511) =? 0);
  _ ← ensure ((uid =? 0) && (gid =? 0));
  _ ← ensure (negb (bool_decide (ty = directory) && negb (size =? 0)));
  Ok {| p_path := withoutDirectorySlash; p_mode := mode; p_uid := uid; p_gid := gid; p_size := size;
        p_mtime := mtime; p_type := ty |}.

(** ** A written header is parsed to what was written *)

Definition oct_text (n : nat) (v : Z) : list ascii := padStart0 (n - 1) (toString8 v) ++ [nul].

Lemma ascii_bytes_of_chars l : ascii_bytes (of_chars l) = List.map code l.
Proof. unfold ascii_bytes. by rewrite chars_of_chars. Qed.

Lemma writeString_Ok h v off n h' :
  writeString h v off n = Ok h' -> h' = copy (ascii_bytes v) h off /\ (String.length v <= n)%nat.
Proof.
  unfold writeString. intros [Hl [= <-]]%require_bind. apply negb_true_iff, Nat.ltb_ge in Hl.
  by rewrite length_ascii_bytes in Hl.
Qed.

Lemma writeOctal_Ok h v off n h' :
  (1 < n)%nat -> writeOctal h v off n = Ok h' ->
  h' = copy (List.map code (oct_text n v)) h off /\ length (oct_text n v) = n /\ 0 <= v < 2 ^ 53.
Proof.
  intros Hn. unfold writeOctal. intros [Hv [Hl Hw]%require_bind]%require_bind.
  apply writeString_Ok in Hw as [-> _]. rewrite ascii_bytes_of_chars. split; [done|].
  apply andb_true_iff in Hv as [Hs Hz]. unfold isSafeInteger in Hs.
  apply andb_true_iff in Hs as [_ Hs]. apply Z.ltb_lt in Hs. apply negb_true_iff, Z.ltb_ge in Hz.
  split; [|done]. apply negb_true_iff, Nat.ltb_ge in Hl. unfold oct_text. rewrite length_app. cbn [length].
  unfold padStart0 in *. rewrite length_app, length_replicate in *. lia.
Qed.

Lemma octal_ascii c : octal_char c = true -> is_ascii c.
Proof.
  unfold octal_char, in_range, is_ascii. rewrite andb_true_iff, !Z.leb_le. change (code "7"%char) with 55. lia.
Qed.

Lemma oct_text_ascii n v : 0 <= v -> Forall is_ascii (oct_text n v).
Proof.
  intros Hv. apply Forall_app. split; [|by repeat constructor]. apply Forall_forall. intros c Hc.
  apply octal_ascii. pose proof (padStart0_chars (n - 1) _ (toString8_chars v Hv)) as H.
  rewrite forallb_forall in H. by apply H, list_elem_of_In.
Qed.

Lemma to_ascii_codes l : Forall is_ascii l -> to_ascii (List.map code l) = of_chars l.
Proof.
  intros H. rewrite <- ascii_bytes_of_chars. apply to_ascii_bytes. by rewrite chars_of_chars.
Qed.

Lemma octal_not_blank c : octal_char c = true -> blank c = false.
Proof.
  intros H. apply orb_false_iff. split; apply bool_decide_eq_false; intros ->; discriminate.
Qed.

Lemma drop_while_none {A} (p : A -> bool) l : (forall x k, l = x :: k -> p x = false) -> drop_while p l = l.
Proof. destruct l as [|x l]; [done|]. intros H. cbn. by rewrite (H x l). Qed.

(** What [readOctal] finds in a field that [writeOctal] wrote. *)
Lemma readOctal_field h off n v :
  (1 < n)%nat -> 0 <= v < 2 ^ 53 -> length (oct_text n v) = n ->
  subarray h off (off + n) = List.map code (oct_text n v) -> readOctal h off n = Ok v.
Proof.
  intros Hn Hv Hl Hf. unfold readOctal. rewrite Hf, to_ascii_codes by (apply oct_text_ascii; lia).
  rewrite chars_of_chars.
  set (digits := padStart0 (n - 1) (toString8 v)).
  assert (Hd : forallb octal_char digits = true) by (apply padStart0_chars, toString8_chars; lia).
  assert (Hlen : (0 < length digits)%nat) by (unfold oct_text in Hl; fold digits in Hl; rewrite length_app in Hl; cbn [length] in Hl; lia).
  assert (Hs : strip_end blank (oct_text n v) = digits).
  { unfold strip_end, oct_text. rewrite rev_app_distr. cbn [rev app drop_while].
    change (blank nul) with true. cbn iota. rewrite drop_while_none; [apply rev_involutive|].
    intros c k Hc. apply octal_not_blank. rewrite forallb_forall in Hd. apply Hd. apply in_rev. fold digits in Hc.
    rewrite Hc. by left. }
  rewrite Hs. rewrite drop_while_none.
  2: { intros c k Hc. apply bool_decide_eq_false. intros ->. rewrite Hc in Hd. discriminate. }
  assert (H0 : (128 <=? List.nth 0 (List.map code (oct_text n v)) 0) = false).
  { apply Z.leb_gt. unfold oct_text. fold digits. destruct digits as [|c k]; [cbn in Hlen; lia|].
    cbn [app List.map List.nth]. cbn in Hd. apply andb_true_iff in Hd as [Hc _]. by apply octal_ascii in Hc. }
  rewrite H0, Hd. replace (length digits =? 0)%nat with false by (symmetry; apply Nat.eqb_neq; lia).
  cbn [negb andb ensure require mbind result_bind].
  assert (Hp : parseInt8 digits = v) by (apply parseInt8_toString8; lia). rewrite Hp.
  assert (isSafeInteger v = true) as ->; [|done].
  unfold isSafeInteger. apply andb_true_iff. rewrite !Z.ltb_lt. lia.
Qed.

(** What [readTextField] finds in a field that [writeString] wrote. *)
Definition printable_char (c : ascii) : bool := printable (code c).

Lemma span_all {A} (p : A -> bool) l k :
  forallb p l = true -> (forall x k', k = x :: k' -> p x = false) -> span p (l ++ k) = l.
Proof.
  intros Hl Hk. induction l as [|x l IH]; cbn in *.
  - destruct k as [|y k]; [done|]. cbn. by rewrite (Hk y k).
  - apply andb_true_iff in Hl as [-> Hl]. by rewrite IH.
Qed.

Lemma printable_ascii c : printable_char c = true -> is_ascii c /\ nonzero (code c) = true.
Proof.
  unfold printable_char, printable, is_ascii, nonzero. rewrite andb_true_iff, !Z.leb_le, negb_true_iff, Z.eqb_neq. lia.
Qed.

Lemma readTextField_field h off n s :
  all_chars printable_char s = true -> (String.length s <= n)%nat ->
  subarray h off (off + n) = ascii_bytes s ++ alloc (n - String.length s) -> readTextField h off n = Ok s.
Proof.
  intros Hs Hl Hf. unfold readTextField. rewrite Hf.
  assert (Hall : forall c, In c (chars s) -> printable_char c = true) by (by apply forallb_forall).
  assert (Hspan : span nonzero (ascii_bytes s ++ alloc (n - String.length s)) = ascii_bytes s).
  { apply span_all.
    - apply forallb_forall. intros b (c & <- & Hc)%in_map_iff. by apply printable_ascii, Hall.
    - intros b k Hb. destruct (n - String.length s)%nat; [done|]. by injection Hb as <- _. }
  rewrite Hspan.
  assert (Hz : forallb zero (drop (S (length (ascii_bytes s))) (ascii_bytes s ++ alloc (n - String.length s))) = true).
  { rewrite drop_app_ge by lia. apply forallb_forall. intros b Hb%list_elem_of_In. unfold alloc in Hb.
    rewrite drop_replicate in Hb. by apply elem_of_replicate in Hb as [-> _]. }
  rewrite Hz. assert (Hp : forallb printable (ascii_bytes s) = true).
  { apply forallb_forall. intros b (c & <- & Hc)%in_map_iff. by apply Hall. }
  rewrite Hp. cbn [ensure require mbind result_bind]. f_equal. apply to_ascii_bytes. apply Forall_forall.
  intros c Hc%list_elem_of_In. by apply printable_ascii, Hall.
Qed.

(** *** Paths *)

(** The components of a path the extractor accepts. *)
Definition safe_path (p : string) : bool := forallb safe_part (Bytes.split "/"%char p).

Definition path_or_slash (c : ascii) : bool := is_alnum c || one_of "._@-" c || bool_decide (c = "/"%char).

Lemma safe_path_parts p l : safe_path p = true -> l ∈ split_at "/"%char [] (chars p) ->
  l <> [] /\ forallb (fun c => is_alnum c || one_of "._@-" c) l = true.
Proof.
  unfold safe_path, Bytes.split. rewrite forallb_forall. intros H Hl.
  specialize (H (of_chars l) (in_map of_chars _ _ (proj1 (list_elem_of_In _ _) Hl))).
  unfold safe_part, bad_part, all_chars in H. apply andb_true_iff in H as [Hb Ha]. rewrite chars_of_chars in Ha.
  split; [|done]. intros ->. discriminate.
Qed.

Lemma safe_path_chars p : safe_path p = true -> forallb path_or_slash (chars p) = true.
Proof.
  intros H. apply forallb_forall. intros c Hc. unfold path_or_slash.
  destruct (split_at_cover "/"%char [] (chars p) c) as [->|(l & Hl & Hcl)].
  - by apply list_elem_of_In.
  - by rewrite orb_true_r.
  - destruct (safe_path_parts p l H Hl) as [_ Ha]. rewrite forallb_forall in Ha.
    rewrite (Ha c) by (by apply list_elem_of_In). done.
Qed.

Lemma safe_path_nonempty p : safe_path p = true -> p <> ""%string.
Proof. intros H ->. discriminate. Qed.

Lemma safe_path_no_double p a b : safe_path p = true -> chars p = a ++ "/"%char :: "/"%char :: b -> False.
Proof.
  intros H Hp. assert (Hin : [] ∈ split_at "/"%char [] (chars p)).
  { rewrite Hp, split_at_app. apply elem_of_app. right. cbn. rewrite bool_decide_eq_true_2 by done. by left. }
  by destruct (safe_path_parts p _ H Hin).
Qed.

Lemma safe_path_first p l : safe_path p = true -> chars p = "/"%char :: l -> False.
Proof.
  intros H Hp. assert (Hin : [] ∈ split_at "/"%char [] (chars p)).
  { rewrite Hp. cbn. rewrite bool_decide_eq_true_2 by done. by left. }
  by destruct (safe_path_parts p _ H Hin).
Qed.

Lemma safe_path_last p : safe_path p = true -> endsWith p "/" = false.
Proof.
  intros H. apply not_true_is_false. intros [l Hl]%endsWith_slash.
  assert (Hin : [] ∈ split_at "/"%char [] (chars p)).
  { rewrite Hl, split_at_app. apply elem_of_app. right. by left. }
  by destruct (safe_path_parts p _ H Hin).
Qed.

Lemma without_slash_dir p : without_slash (p +:+ "/") = p.
Proof.
  unfold without_slash. assert (H : endsWith (p +:+ "/") "/" = true).
  { apply endsWith_slash. exists (chars p). by rewrite chars_app. }
  rewrite H. unfold slice. rewrite Nat.sub_0_r. apply chars_inj. rewrite chars_of_chars.
  rewrite <- length_chars, chars_app, length_app. cbn [drop length chars].
  rewrite drop_0. by rewrite take_app_length' by lia.
Qed.

Lemma without_slash_file p : endsWith p "/" = false -> without_slash p = p.
Proof. unfold without_slash. by intros ->. Qed.

(** The path in a header: a directory's ends with a slash. *)
Definition header_path (t : entry_type) (p : string) : string :=
  if bool_decide (t = directory) then p +:+ "/" else p.

Lemma without_slash_header t p : safe_path p = true -> without_slash (header_path t p) = p.
Proof.
  intros H. unfold header_path. destruct (bool_decide _); [apply without_slash_dir|].
  by apply without_slash_file, safe_path_last.
Qed.

Lemma header_path_chars t p : safe_path p = true -> forallb path_or_slash (chars (header_path t p)) = true.
Proof.
  intros H%safe_path_chars. unfold header_path. destruct (bool_decide _); [|done].
  by rewrite chars_app, forallb_app, H.
Qed.

Lemma path_or_slash_printable c : path_or_slash c = true -> printable_char c = true.
Proof.
  unfold path_or_slash, is_alnum, is_digit, is_lower, is_upper, in_range, one_of, printable_char, printable.
  intros H. assert (Hr : forall d, bool_decide (d = c) = true -> printable (code d) = true -> printable (code c) = true)
    by (by intros d ->%bool_decide_eq_true).
  change (code "0"%char) with 48 in *. change (code "9"%char) with 57 in *. change (code "a"%char) with 97 in *.
  change (code "z"%char) with 122 in *. change (code "A"%char) with 65 in *. change (code "Z"%char) with 90 in *.
  apply orb_true_iff in H as [[H|H]%orb_true_iff|H].
  - rewrite !orb_true_iff, !andb_true_iff, !Z.leb_le in H. rewrite andb_true_iff, !Z.leb_le. lia.
  - apply existsb_exists in H as (d & Hd & E). apply (Hr d E).
    assert (Ha : forallb (fun d => printable (code d)) (chars "._@-") = true) by reflexivity.
    rewrite forallb_forall in Ha. by apply Ha.
  - by apply bool_decide_eq_true in H as ->.
Qed.

Lemma checked_path_Ok t p : safe_path p = true -> checked_path (header_path t p) = Ok p.
Proof.
  intros H. pose proof (header_path_chars t p H) as Hc. rewrite forallb_forall in Hc.
  unfold checked_path. rewrite without_slash_header by done.
  change (forallb safe_part (Bytes.split "/"%char p)) with (safe_path p). rewrite H.
  assert (Hsl : chars (header_path t p) = chars p ++ (if bool_decide (t = directory) then ["/"%char] else []))
    by (unfold header_path; destruct (bool_decide _); by rewrite ?chars_app, ?app_nil_r).
  assert (bool_decide (header_path t p = ""%string) = false) as ->.
  { apply bool_decide_eq_false. intros E. rewrite E in Hsl. cbn in Hsl. symmetry in Hsl.
    apply app_eq_nil in Hsl as [Hp _]. apply (safe_path_nonempty p H). by apply chars_inj. }
  assert (includes (header_path t p) "\" = false) as ->.
  { apply not_true_is_false. intros (a & b & E)%includes_chars.
    assert (path_or_slash "\"%char = true) as Hb by (apply Hc; rewrite E; apply in_app_iff; right; by left). discriminate. }
  assert (existsb (fun c => bool_decide (c = nul)) (chars (header_path t p)) = false) as ->.
  { apply not_true_is_false. intros (c & Hin & Hn)%existsb_exists. apply bool_decide_eq_true in Hn as ->.
    specialize (Hc _ Hin). discriminate. }
  assert (startsWith (header_path t p) "/" = false) as ->.
  { apply not_true_is_false. intros [r Hr]%prefix_chars. rewrite Hsl in Hr.
    destruct (chars p) as [|c l] eqn:Ep; [by apply (safe_path_nonempty p H), chars_inj|].
    cbn in Hr. injection Hr as -> _. by apply (safe_path_first p l H). }
  assert (includes (header_path t p) "//" = false) as ->; [|done].
  apply not_true_is_false. intros (a & b & E)%includes_chars. rewrite Hsl in E. cbn [chars app] in E.
  destruct (bool_decide (t = directory)).
  - destruct b as [|x b] using rev_ind.
    + assert (chars p = a ++ ["/"%char]) as Hp.
      { apply (app_inj_tail (chars p) (a ++ ["/"%char]) "/"%char "/"%char). rewrite E. by rewrite <- app_assoc. }
      pose proof (safe_path_last p H) as Hl. assert (endsWith p "/" = true) as Hx by (apply endsWith_slash; by exists a).
      congruence.
    + assert (chars p = a ++ "/"%char :: "/"%char :: b) as Hp.
      { apply (app_inj_tail (chars p) (a ++ "/"%char :: "/"%char :: b) "/"%char x). rewrite E. by rewrite <- app_assoc. }
      by apply (safe_path_no_double p a b H).
  - rewrite app_nil_r in E. by apply (safe_path_no_double p a b H).
Qed.

(** The name and the prefix make up the path. *)
Definition joined (name prefix : string) : string :=
  if bool_decide (prefix = ""%string) then name else prefix +:+ "/" +:+ name.

Lemma split_loop_Ok l i name prefix :
  split_loop l i = Ok (name, prefix) -> (i < length l)%nat ->
  of_chars l = joined name prefix /\ (String.length name <= 100)%nat /\ (String.length prefix <= 155)%nat.
Proof.
  induction i as [|i IH]; cbn [split_loop]; [done|]. intros Hs Hi.
  destruct (_ && _ && _) eqn:Hb in Hs; [|by apply IH; [|lia]]. clear IH.
  apply andb_true_iff in Hb as [[Hc H155]%andb_true_iff H100].
  apply bool_decide_eq_true in Hc. apply Nat.leb_le in H155, H100. injection Hs as <- <-.
  rewrite <- !length_chars, !chars_of_chars, length_drop, length_take. split; [|lia].
  unfold joined. rewrite bool_decide_eq_false_2.
  - apply chars_inj. rewrite !chars_app, !chars_of_chars. cbn [chars app].
    rewrite <- (take_drop_middle l (S i) _ Hc) at 1. done.
  - intros E. apply (f_equal chars) in E. rewrite chars_of_chars in E. apply (f_equal length) in E.
    rewrite length_take in E. change (length (chars "")) with 0%nat in E. lia.
Qed.

Lemma splitUstarPath_Ok p name prefix :
  splitUstarPath p = Ok (name, prefix) ->
  p = joined name prefix /\ (String.length name <= 100)%nat /\ (String.length prefix <= 155)%nat.
Proof.
  unfold splitUstarPath. destruct (String.length p <=? 100)%nat eqn:Hl.
  - intros [= <- <-]. apply Nat.leb_le in Hl. split; [done|]. cbn [String.length]. lia.
  - intros H. apply Nat.leb_gt in Hl. apply split_loop_Ok in H as (H & ? & ?); [|rewrite length_chars; lia].
    by rewrite of_chars_chars in H.
Qed.

Lemma joined_chars (q : ascii -> bool) name prefix :
  forallb q (chars (joined name prefix)) = true ->
  all_chars q name = true /\ all_chars q prefix = true.
Proof.
  unfold joined, all_chars. destruct (bool_decide (prefix = ""%string)) eqn:E.
  - apply bool_decide_eq_true in E as ->. done.
  - rewrite !chars_app, !forallb_app, !andb_true_iff. tauto.
Qed.

(** *** Components *)

(** [l.join('/')] *)
Fixpoint join (l : list string) : string :=
  match l with
  | [] => ""%string
  | [s] => s
  | s :: l => s +:+ "/" +:+ join l
  end.

(** [path.split('/')] *)
Definition components (path : string) : list string := Bytes.split "/"%char path.

(** The name of a file: not empty, no slash. *)
Definition is_name (s : string) : Prop := s <> ""%string /\ ("/"%char ∉ chars s).

Lemma join_path_cons s l : l <> [] -> join (s :: l) = s +:+ "/" +:+ join l.
Proof. by destruct l. Qed.

Lemma join_app q l : q <> [] -> l <> [] -> join (q ++ l) = join q +:+ "/" +:+ join l.
Proof.
  intros Hq Hl. induction q as [|s q IH]; [done|]. destruct (decide (q = [])) as [->|Hne].
  - cbn [app]. by rewrite join_path_cons.
  - cbn [app]. rewrite !join_path_cons by (done || by destruct q). rewrite IH by done.
    apply chars_inj. rewrite !chars_app. by rewrite <- !app_assoc.
Qed.

Lemma components_join l : l <> [] -> Forall is_name l -> components (join l) = l.
Proof.
  unfold components, Bytes.split. intros Hl Hn. induction Hn as [|s l [_ Hs] Hn IH]; [done|].
  destruct (decide (l = [])) as [->|Hne].
  - cbn [join]. rewrite split_at_none by done. cbn. by rewrite of_chars_chars.
  - rewrite join_path_cons, !chars_app by done. change (chars "/" ++ chars (join l)) with ("/"%char :: chars (join l)).
    rewrite split_at_app, split_at_none by done. cbn [rev app List.map]. rewrite of_chars_chars. f_equal. by apply IH.
Qed.

Lemma join_nonempty l : l <> [] -> Forall is_name l -> join l <> ""%string.
Proof.
  intros Hl Hn E. pose proof (components_join l Hl Hn) as Hc. rewrite E in Hc. change (components "") with [""%string] in Hc.
  subst l. apply Forall_singleton in Hn as [Hn _]. done.
Qed.

Lemma path_join_join base s : Forall is_name base -> path_join (join base) s = join (base ++ [s]).
Proof.
  intros Hb. unfold path_join. destruct (decide (base = [])) as [->|Hne]; [by rewrite bool_decide_eq_true_2|].
  rewrite bool_decide_eq_false_2 by by apply join_nonempty. by rewrite join_app.
Qed.

Lemma str_ltb_app s t : t <> ""%string -> str_ltb s (s +:+ t) = true.
Proof.
  intros Ht. unfold str_ltb. rewrite chars_app. induction (chars s) as [|c l IH]; cbn.
  - destruct t; [done|]. done.
  - by rewrite Z.eqb_refl, IH, orb_true_r.
Qed.

(** A path comes after the paths of the directories above it. *)
Lemma str_ltb_join q l : q <> [] -> l <> [] -> str_ltb (join q) (join (q ++ l)) = true.
Proof. intros Hq Hl. rewrite join_app by done. by apply str_ltb_app. Qed.

(** *** The layout of a header *)

Lemma length_copy_512 src t off : length t = 512%nat -> (off + length src <= 512)%nat -> length (copy src t off) = 512%nat.
Proof. intros Ht Hs. rewrite length_copy; lia. Qed.

Lemma codes_byte l : Forall is_byte (List.map code l).
Proof. induction l; constructor; [apply code_byte|done]. Qed.

Lemma sum_from c z : fold_left Z.add c z = z + fold_left Z.add c 0.
Proof.
  revert z. induction c as [|x c IH]; intros z; cbn [fold_left]; [lia|].
  rewrite (IH (z + x)), (IH (0 + x)). lia.
Qed.

Lemma sum_app b c : sum (b ++ c) = sum b + sum c.
Proof. unfold sum. by rewrite fold_left_app, sum_from. Qed.

Lemma sum_bound b : Forall is_byte b -> 0 <= sum b <= 255 * Z.of_nat (length b).
Proof.
  induction 1 as [|x b Hx Hb IH]; [done|]. change (x :: b) with ([x] ++ b). rewrite sum_app, length_app.
  unfold is_byte in Hx. change (sum [x]) with (0 + x). cbn [length]. lia.
Qed.

Lemma subarray_nil b i j : (j <= i)%nat -> subarray b i j = [].
Proof. intros H. unfold subarray. by replace (j - i)%nat with 0%nat by lia. Qed.

Lemma other_512 src t off i j :
  length t = 512%nat -> (off + length src <= 512)%nat -> (j <= off \/ off + length src <= i)%nat ->
  subarray (copy src t off) i j = subarray t i j.
Proof. intros Ht Hs Hd. apply subarray_copy_other; lia. Qed.

Lemma same_512 src t off j :
  length t = 512%nat -> (off + length src <= j <= 512)%nat ->
  subarray (copy src t off) off j = src ++ subarray t (off + length src) j.
Proof. intros Ht Hj. apply subarray_copy_same; lia. Qed.

Section Layout.
Context (name prefix : string) (md sz mt : Z) (flag : Z).
Context (Hname : (String.length name <= 100)%nat) (Hprefix : (String.length prefix <= 155)%nat)
  (Hmd : length (oct_text 8 md) = 8%nat) (Hsz : length (oct_text 12 sz) = 12%nat)
  (Hmt : length (oct_text 12 mt) = 12%nat)
  (Vmd : 0 <= md < 2 ^ 53) (Vsz : 0 <= sz < 2 ^ 53) (Vmt : 0 <= mt < 2 ^ 53) (Hflag : 0 <= flag < 256).

Definition octal_field (n : nat) (v : Z) : buffer := List.map code (oct_text n v).

Definition numbers : buffer :=
  copy (octal_field 12 mt) (copy (octal_field 12 sz) (copy (octal_field 8 0) (copy (octal_field 8 0)
    (copy (octal_field 8 md) (copy (ascii_bytes name) (alloc 512) 0) 100) 108) 116) 124) 136.

(** The header before its checksum. *)
Definition unsummed : buffer :=
  copy (ascii_bytes prefix) (copy (ascii_bytes "00") (copy (ascii_bytes ustar)
    (copy [flag] (blank_checksum numbers) 156) 257) 263) 345.

Definition checksum_text : list ascii := padStart0 6 (toString8 (sum unsummed)) ++ [nul; " "%char].
Definition summed : buffer := copy (List.map code checksum_text) unsummed 148.

Ltac field_length :=
  unfold octal_field, blank_checksum; rewrite ?length_ascii_bytes, ?List.length_map, ?length_replicate;
  rewrite ?Hmd, ?Hsz, ?Hmt; cbn [length String.length replicate]; try lia;
  change (length (oct_text 8 0)) with 8%nat; change (String.length ustar) with 6%nat; lia.
Ltac len512 := repeat (apply length_copy_512; [|field_length]); apply length_replicate.

Lemma unsummed_length : length unsummed = 512%nat.
Proof using Hname Hprefix Hmd Hsz Hmt. unfold unsummed, blank_checksum, numbers. len512. Qed.

Lemma unsummed_byte : Forall is_byte unsummed.
Proof using Hflag.
  clear -Hflag.
  unfold unsummed, blank_checksum, numbers, octal_field. repeat apply copy_byte.
  all: try apply ascii_bytes_byte; try apply codes_byte; try apply alloc_byte.
  - by apply Forall_singleton.
  - apply Forall_replicate. unfold is_byte. lia.
Qed.

Lemma checksum_length : length checksum_text = 8%nat.
Proof using Hname Hprefix Hmd Hsz Hmt Hflag.
  unfold checksum_text. pose proof (sum_bound _ unsummed_byte) as Hs. rewrite unsummed_length in Hs.
  rewrite length_app, padStart0_length; [done| |lia]. change (8 ^ Z.of_nat 6) with 262144. lia.
Qed.

Lemma summed_length : length summed = 512%nat.
Proof using Hname Hprefix Hmd Hsz Hmt Hflag.
  apply length_copy_512; [apply unsummed_length|]. rewrite List.length_map, checksum_length. lia.
Qed.

(** Reads a field: the later writes are skipped, then the write is met. *)
Ltac other_field :=
  rewrite other_512; [|solve [len512]|field_length|first [left; field_length|right; field_length]].
Ltac this_field := rewrite same_512; [|solve [len512]|field_length].
Ltac background := rewrite subarray_alloc by field_length.

Ltac skip_checksum :=
  unfold summed; rewrite other_512; [|apply unsummed_length|rewrite List.length_map, checksum_length; lia
    |rewrite List.length_map, checksum_length; lia];
  unfold unsummed.
(** The field at an offset, once the later writes are skipped. *)
Ltac read_field :=
  unfold blank_checksum, numbers; repeat other_field; try this_field; try background;
  rewrite ?length_ascii_bytes; try (rewrite subarray_nil by field_length; rewrite app_nil_r).

Lemma read_name : subarray summed 0 100 = ascii_bytes name ++ alloc (100 - String.length name).
Proof using Hname Hprefix Hmd Hsz Hmt Hflag. skip_checksum. read_field. done. Qed.

Lemma read_prefix : subarray summed 345 500 = ascii_bytes prefix ++ alloc (155 - String.length prefix).
Proof using Hname Hprefix Hmd Hsz Hmt Hflag.
  skip_checksum. this_field. rewrite length_ascii_bytes. read_field. done.
Qed.

Lemma read_end : subarray summed 500 512 = alloc 12.
Proof using Hname Hprefix Hmd Hsz Hmt Hflag. skip_checksum. read_field. done. Qed.

Lemma read_link : subarray summed 157 257 = alloc 100.
Proof using Hname Hprefix Hmd Hsz Hmt Hflag. skip_checksum. read_field. done. Qed.

Lemma read_ustar : subarray summed 257 263 = ascii_bytes ustar.
Proof using Hname Hprefix Hmd Hsz Hmt Hflag. skip_checksum. read_field. done. Qed.

Lemma read_version : subarray summed 263 265 = ascii_bytes "00".
Proof using Hname Hprefix Hmd Hsz Hmt Hflag. skip_checksum. read_field. done. Qed.

Lemma read_md : subarray summed 100 108 = octal_field 8 md.
Proof using Hname Hprefix Hmd Hsz Hmt Hflag. skip_checksum. read_field. done. Qed.

Lemma read_uid : subarray summed 108 116 = octal_field 8 0.
Proof using Hname Hprefix Hmd Hsz Hmt Hflag. skip_checksum. read_field. done. Qed.

Lemma read_gid : subarray summed 116 124 = octal_field 8 0.
Proof using Hname Hprefix Hmd Hsz Hmt Hflag. skip_checksum. read_field. done. Qed.

Lemma read_sz : subarray summed 124 136 = octal_field 12 sz.
Proof using Hname Hprefix Hmd Hsz Hmt Hflag. skip_checksum. read_field. done. Qed.

Lemma read_mt : subarray summed 136 148 = octal_field 12 mt.
Proof using Hname Hprefix Hmd Hsz Hmt Hflag. skip_checksum. read_field. done. Qed.

Lemma read_flag : List.nth 156 summed 0 = flag.
Proof using Hname Hprefix Hmd Hsz Hmt Hflag.
  unfold summed. rewrite nth_copy_other; [|rewrite unsummed_length, List.length_map, checksum_length; lia
    |rewrite List.length_map, checksum_length; lia].
  unfold unsummed. do 3 (rewrite nth_copy_other;
    [|match goal with |- (_ <= length ?t)%nat => assert (Hl : length t = 512%nat) by len512 end; rewrite Hl; field_length
     |left; lia]).
  apply nth_copy_same. assert (Hl : length (blank_checksum numbers) = 512%nat) by (unfold blank_checksum, numbers; len512).
  rewrite Hl. lia.
Qed.

Lemma read_blanks : subarray unsummed 148 156 = replicate 8 32.
Proof using Hname Hprefix Hmd Hsz Hmt. unfold unsummed. read_field. done. Qed.

Lemma read_checksum : subarray summed 148 156 = List.map code checksum_text.
Proof using Hname Hprefix Hmd Hsz Hmt Hflag.
  unfold summed. rewrite same_512; [|apply unsummed_length|rewrite List.length_map, checksum_length; lia].
  rewrite List.length_map, checksum_length. by rewrite subarray_nil, app_nil_r by lia.
Qed.

Lemma blank_summed : blank_checksum summed = unsummed.
Proof using Hname Hprefix Hmd Hsz Hmt Hflag.
  unfold blank_checksum. rewrite <- read_blanks. unfold summed.
  replace 156%nat with (148 + length (List.map code checksum_text))%nat
    by (rewrite List.length_map, checksum_length; lia).
  apply copy_restore. rewrite unsummed_length, List.length_map, checksum_length. lia.
Qed.

Lemma checksum_verifies : verifyChecksum summed = Ok tt.
Proof using Hname Hprefix Hmd Hsz Hmt Hflag.
  unfold verifyChecksum. rewrite read_checksum, blank_summed.
  pose proof (sum_bound _ unsummed_byte) as Hs. rewrite unsummed_length in Hs.
  assert (Ha : Forall is_ascii checksum_text).
  { apply Forall_app. split; [|by repeat constructor]. apply Forall_forall. intros c Hc. apply octal_ascii.
    pose proof (padStart0_chars 6 _ (toString8_chars (sum unsummed) (proj1 Hs))) as H.
    rewrite forallb_forall in H. by apply H, list_elem_of_In. }
  rewrite to_ascii_codes, chars_of_chars by done.
  assert (Hd : forallb octal_char (padStart0 6 (toString8 (sum unsummed))) = true)
    by (apply padStart0_chars, toString8_chars; lia).
  assert (Hf : List.filter (fun c => negb (blank c)) checksum_text = padStart0 6 (toString8 (sum unsummed))).
  { unfold checksum_text. rewrite List.filter_app. cbn [List.filter]. change (blank nul) with true.
    change (blank " "%char) with true. cbn [negb]. rewrite app_nil_r.
    generalize Hd. generalize (padStart0 6 (toString8 (sum unsummed))). clear. induction l as [|c l IH]; [done|].
    cbn. intros [Hc Hl]%andb_true_iff. rewrite octal_not_blank by done. cbn. by rewrite IH. }
  rewrite Hf, Hd, padStart0_length; [|change (8 ^ Z.of_nat 6) with 262144; lia|lia].
  cbn [Nat.leb andb ensure require mbind result_bind]. rewrite parseInt8_toString8 by lia. by rewrite Z.eqb_refl.
Qed.
End Layout.

Lemma tarHeader_layout t p m sz mt h :
  safe_path p = true ->
  tarHeader {| h_path := p; h_type := t; h_mode := m; h_size := sz; h_mtime := mt |} = Ok h ->
  let size := if bool_decide (t = directory) then 0 else sz in
  exists name prefix, header_path t p = joined name prefix /\
    h = summed name prefix m size mt (if bool_decide (t = directory) then 53 else 48) /\
    (String.length name <= 100)%nat /\ (String.length prefix <= 155)%nat /\
    length (oct_text 8 m) = 8%nat /\ length (oct_text 12 size) = 12%nat /\ length (oct_text 12 mt) = 12%nat /\
    0 <= m < 2 ^ 53 /\ 0 <= size < 2 ^ 53 /\ 0 <= mt < 2 ^ 53.
Proof.
  intros Hp. unfold tarHeader. cbn [h_path h_type h_mode h_size h_mtime].
  rewrite (safe_path_last p Hp). cbn [negb]. rewrite andb_true_r.
  change (if bool_decide (t = directory) then p +:+ "/" else p) with (header_path t p).
  intros ([name prefix] & Hs & H)%bind_Ok. apply splitUstarPath_Ok in Hs as (Hj & Hn & Hx).
  apply bind_Ok in H as (h1 & [-> _]%writeString_Ok & H).
  apply bind_Ok in H as (h2 & (-> & Hm & Vm)%writeOctal_Ok & H); [|lia].
  apply bind_Ok in H as (h3 & (-> & _)%writeOctal_Ok & H); [|lia].
  apply bind_Ok in H as (h4 & (-> & _)%writeOctal_Ok & H); [|lia].
  apply bind_Ok in H as (h5 & (-> & Hz & Vz)%writeOctal_Ok & H); [|lia].
  apply bind_Ok in H as (h6 & (-> & Ht & Vt)%writeOctal_Ok & H); [|lia].
  apply bind_Ok in H as (h7 & [-> _]%writeString_Ok & H). apply bind_Ok in H as (h8 & [-> _]%writeString_Ok & H).
  apply bind_Ok in H as (h9 & [-> _]%writeString_Ok & H). apply writeString_Ok in H as [-> _].
  exists name, prefix. split; [exact Hj|]. split.
  { rewrite ascii_bytes_of_chars. unfold summed, checksum_text, unsummed, numbers, octal_field. reflexivity. }
  split_and!; assumption || lia.
Qed.

Lemma ensure_true {A} b (f : unit -> AR A) : b = true -> (ensure b ≫= f) = f tt.
Proof. by intros ->. Qed.

(** What parsing finds in a header whose fields are known. *)
Lemma parse_fields h t p name prefix m size mt :
  verifyChecksum h = Ok tt -> subarray h 257 263 = ascii_bytes ustar -> subarray h 263 265 = ascii_bytes "00" ->
  subarray h 500 512 = alloc 12 -> subarray h 157 257 = alloc 100 ->
  readTextField h 0 100 = Ok name -> readTextField h 345 155 = Ok prefix ->
  List.nth 156 h 0 = (if bool_decide (t = directory) then 53 else 48) ->
  readOctal h 100 8 = Ok m -> readOctal h 108 8 = Ok 0 -> readOctal h 116 8 = Ok 0 ->
  readOctal h 124 12 = Ok size -> readOctal h 136 12 = Ok mt ->
  safe_path p = true -> header_path t p = joined name prefix -> 0 <= m < 512 -> (t = directory -> size = 0) ->
  parseHeader h = Ok {| p_path := p; p_mode := m; p_uid := 0; p_gid := 0; p_size := size; p_mtime := mt; p_type := t |}.
Proof.
  intros H1 H2 H3 H4 H5 H6 H7 H8 H9 H10 H11 H12 H13 Hp Hj Hm Hs.
  unfold parseHeader. rewrite H1, H2, H3, H4, H5. cbn [mbind result_bind].
  do 4 (rewrite ensure_true by (try reflexivity; by apply bool_decide_eq_true_2)).
  rewrite H6, H7. cbn [mbind result_bind].
  change (if bool_decide (prefix = ""%string) then name else prefix +:+ "/" +:+ name) with (joined name prefix).
  rewrite <- Hj, checked_path_Ok, H8 by done. cbn [mbind result_bind].
  assert (Htf : typeflag (if bool_decide (t = directory) then 53 else 48) = Ok t) by (by destruct t).
  rewrite Htf. cbn [mbind result_bind].
  assert (Hend : endsWith (header_path t p) "/" = bool_decide (t = directory)).
  { unfold header_path. destruct (bool_decide (t = directory)).
    - apply endsWith_slash. exists (chars p). by rewrite chars_app.
    - by apply safe_path_last. }
  rewrite Hend. do 2 (rewrite ensure_true by (by destruct t)).
  rewrite H9, H10, H11, H12, H13. cbn [mbind result_bind].
  rewrite ensure_true by (apply Z.eqb_eq, mode_bits; lia). rewrite ensure_true by reflexivity.
  rewrite ensure_true; [done|]. destruct t; [done|]. by rewrite Hs.
Qed.

Lemma header_parsed t p m sz mt h :
  safe_path p = true -> m < 512 ->
  tarHeader {| h_path := p; h_type := t; h_mode := m; h_size := sz; h_mtime := mt |} = Ok h ->
  length h = 512%nat /\ forallb zero h = false /\
  parseHeader h = Ok {| p_path := p; p_mode := m; p_uid := 0; p_gid := 0;
                        p_size := if bool_decide (t = directory) then 0 else sz; p_mtime := mt; p_type := t |}.
Proof.
  intros Hp Hm512 H.
  destruct (tarHeader_layout _ _ _ _ _ _ Hp H)
    as (name & prefix & Hj & Hh & Hn & Hx & Hm & Hz & Ht & Vm & Vz & Vt). clear H.
  set (size := if bool_decide (t = directory) then 0 else sz) in *.
  assert (Hflag : 0 <= (if bool_decide (t = directory) then 53 else 48) < 256) by (destruct (bool_decide _); lia).
  pose proof (header_path_chars t p Hp) as Hc. rewrite Hj in Hc. apply joined_chars in Hc as [Hcn Hcx].
  assert (Hpr : forall s, all_chars path_or_slash s = true -> all_chars printable_char s = true).
  { intros s Hs. unfold all_chars in *. rewrite forallb_forall in *. intros c Hin. by apply path_or_slash_printable, Hs. }
  pose proof (summed_length name prefix m size mt _ Hn Hx Hm Hz Ht Hflag) as Hlen.
  pose proof (read_flag name prefix m size mt _ Hn Hx Hm Hz Ht Hflag) as Hf.
  pose proof (checksum_verifies name prefix m size mt _ Hn Hx Hm Hz Ht Hflag) as H1.
  pose proof (read_ustar name prefix m size mt _ Hn Hx Hm Hz Ht Hflag) as H2.
  pose proof (read_version name prefix m size mt _ Hn Hx Hm Hz Ht Hflag) as H3.
  pose proof (read_end name prefix m size mt _ Hn Hx Hm Hz Ht Hflag) as H4.
  pose proof (read_link name prefix m size mt _ Hn Hx Hm Hz Ht Hflag) as H5.
  pose proof (read_name name prefix m size mt _ Hn Hx Hm Hz Ht Hflag) as H6.
  pose proof (read_prefix name prefix m size mt _ Hn Hx Hm Hz Ht Hflag) as H7.
  pose proof (read_md name prefix m size mt _ Hn Hx Hm Hz Ht Hflag) as H9.
  pose proof (read_uid name prefix m size mt _ Hn Hx Hm Hz Ht Hflag) as H10.
  pose proof (read_gid name prefix m size mt _ Hn Hx Hm Hz Ht Hflag) as H11.
  pose proof (read_sz name prefix m size mt _ Hn Hx Hm Hz Ht Hflag) as H12.
  pose proof (read_mt name prefix m size mt _ Hn Hx Hm Hz Ht Hflag) as H13.
  rewrite <- Hh in *. clear Hh. split; [exact Hlen|]. split.
  { apply not_true_is_false. intros Hz0. rewrite forallb_forall in Hz0.
    assert (Hin : In (List.nth 156 h 0) h) by (apply nth_In; lia).
    rewrite Hf in Hin. apply Hz0 in Hin. unfold zero in Hin. destruct (bool_decide _); discriminate. }
  apply (parse_fields h t p name prefix m size mt); try assumption; try lia.
  - by apply readTextField_field; [apply Hpr| |].
  - by apply readTextField_field; [apply Hpr| |].
  - apply readOctal_field; [lia|done..].
  - apply readOctal_field; [lia|lia|done..].
  - apply readOctal_field; [lia|lia|done..].
  - apply readOctal_field; [lia|done..].
  - apply readOctal_field; [lia|done..].
  - intros ->. done.
Qed.

(** the strict parser reads back every header the writer produces: a header is one block of 512
    bytes, not all zero, and parsing it gives the path, the type, the permission bits, the size (0
    for a directory) and the time that were written, with owner and group 0. *)
Theorem header_roundtrip t p m sz mt h :
  safe_path p = true -> m < 512 ->
  tarHeader {| h_path := p; h_type := t; h_mode := m; h_size := sz; h_mtime := mt |} = Ok h ->
  length h = 512%nat /\ forallb zero h = false /\
  parseHeader h = Ok {| p_path := p; p_mode := m; p_uid := 0; p_gid := 0;
                        p_size := if bool_decide (t = directory) then 0 else sz; p_mtime := mt; p_type := t |}.
Proof. apply header_parsed. Qed.

Lemma header_roundtrip_witness :
  exists h,
    tarHeader {| h_path := "app/bin"; h_type := directory; h_mode := 493; h_size := 7; h_mtime := 1700000000 |} = Ok h /\
    length h = 512%nat /\ forallb zero h = false /\
    parseHeader h = Ok {| p_path := "app/bin"; p_mode := 493; p_uid := 0; p_gid := 0; p_size := 0;
                          p_mtime := 1700000000; p_type := directory |}.
Proof.
  eexists. split; [vm_compute; reflexivity|].
  apply (header_roundtrip directory "app/bin" 493 7 1700000000); [reflexivity|lia|vm_compute; reflexivity].
Defined.

(** ** An executable instance *)

(** The bytes are stored as they are, and delivered in two chunks. *)
Definition toy_gzip : Gzip := {| gzip := fun b => b; gunzip := fun b => Some [take 700 b; drop 700 b] |}.

#[global] Instance toy_gzip_laws : GzipLaws toy_gzip.
Proof. intros b. eexists. split; [reflexivity|]. cbn. by rewrite app_nil_r, take_drop. Qed.
