(* ===== verification/Extractor.v ===== *)
(** * The strict extractor ([src/release/strict-extractor.ts])

    [StrictTarExtractor] as a state machine over the chunks of the decompressed stream, and
    [strictExtractRelease].  The release root is a map from relative paths to nodes; the root itself
    has the path [""].  The theorems: the way the stream is cut into chunks does not matter; what is
    written stays within the declared bounds; a release that is accepted is exactly the manifest;
    and the archive the writer makes of a tree is extracted to that tree. *)

From S2P Require Import Prelude Bytes Json Platform ArchiveContract Tar.

#[global] Open Scope Z_scope.

(** ** State *)

(** A node of the extracted tree: its mode and, once set, its modification time. *)
Inductive node :=
| NFile (mode_ : Z) (content : buffer) (mtime : option Z)
| NDirectory (mode_ : Z) (mtime : option Z).

#[global] Instance node_eq_dec : EqDecision node.
Proof. solve_decision. Defined.

(** The descriptor and the hash are the bytes written so far, which the tree holds.
    Source: src/release/strict-extractor.ts:45-54 (ActiveFile) *)
Record ActiveFile := { a_path : string; a_remaining : Z; a_padding : Z; a_written : Z; a_expected : ReleaseFileEntry }.

(** Source: src/release/strict-extractor.ts:175-186 (StrictTarExtractor) *)
Record Extractor := {
  headerBuffer : buffer;
  activeFile : option ActiveFile;
  zeroBlocks : Z;
  ended : bool;
  decompressedBytes : Z;
  x_memberCount : Z;
  seen : gset string;
  seenTypes : gmap string entry_type;
  directories : list string;
  tree : gmap string node
}.

Definition fresh : Extractor := {|
  headerBuffer := []; activeFile := None; zeroBlocks := 0; ended := false; decompressedBytes := 0;
  x_memberCount := 0; seen := ∅; seenTypes := ∅; directories := []; tree := ∅
|}.

Definition with_header (b : buffer) (x : Extractor) : Extractor := {|
  headerBuffer := b; activeFile := activeFile x; zeroBlocks := zeroBlocks x; ended := ended x;
  decompressedBytes := decompressedBytes x; x_memberCount := x_memberCount x; seen := seen x;
  seenTypes := seenTypes x; directories := directories x; tree := tree x |}.
Definition with_active (a : option ActiveFile) (t : gmap string node) (x : Extractor) : Extractor := {|
  headerBuffer := headerBuffer x; activeFile := a; zeroBlocks := zeroBlocks x; ended := ended x;
  decompressedBytes := decompressedBytes x; x_memberCount := x_memberCount x; seen := seen x;
  seenTypes := seenTypes x; directories := directories x; tree := t |}.
Definition with_zeros (z : Z) (e : bool) (x : Extractor) : Extractor := {|
  headerBuffer := headerBuffer x; activeFile := activeFile x; zeroBlocks := z; ended := e;
  decompressedBytes := decompressedBytes x; x_memberCount := x_memberCount x; seen := seen x;
  seenTypes := seenTypes x; directories := directories x; tree := tree x |}.
Definition with_bytes (n : Z) (x : Extractor) : Extractor := {|
  headerBuffer := headerBuffer x; activeFile := activeFile x; zeroBlocks := zeroBlocks x; ended := ended x;
  decompressedBytes := n; x_memberCount := x_memberCount x; seen := seen x;
  seenTypes := seenTypes x; directories := directories x; tree := tree x |}.
Definition with_member (n : Z) (s : gset string) (x : Extractor) : Extractor := {|
  headerBuffer := headerBuffer x; activeFile := activeFile x; zeroBlocks := zeroBlocks x; ended := ended x;
  decompressedBytes := decompressedBytes x; x_memberCount := n; seen := s;
  seenTypes := seenTypes x; directories := directories x; tree := tree x |}.
Definition with_type (path : string) (t : entry_type) (x : Extractor) : Extractor := {|
  headerBuffer := headerBuffer x; activeFile := activeFile x; zeroBlocks := zeroBlocks x; ended := ended x;
  decompressedBytes := decompressedBytes x; x_memberCount := x_memberCount x; seen := seen x;
  seenTypes := <[path := t]> (seenTypes x); directories := directories x; tree := tree x |}.
Definition with_directory (path : string) (m : Z) (x : Extractor) : Extractor := {|
  headerBuffer := headerBuffer x; activeFile := activeFile x; zeroBlocks := zeroBlocks x; ended := ended x;
  decompressedBytes := decompressedBytes x; x_memberCount := x_memberCount x; seen := seen x;
  seenTypes := seenTypes x; directories := directories x ++ [path]; tree := <[path := NDirectory m None]> (tree x) |}.

(** ** Files *)

(** The path of the directory of a path. *)
Definition parent (path : string) : string := join (removelast (components path)).

Definition is_directory (n : option node) : bool := match n with Some (NDirectory _ _) => true | _ => false end.

(** Creating a node fails if the path is taken or its directory is not there. *)
Definition create_node (path : string) (n : node) (t : gmap string node) : AR (gmap string node) :=
  _ ← require (bool_decide (t !! path = None) && is_directory (t !! parent path)) system_error;
  Ok (<[path := n]> t).

(** [resolve(root, ...components)] below the root; a path that leaves it is [None]. *)
Fixpoint resolve_parts (l : list string) (acc : list string) : option (list string) :=
  match l with
  | [] => Some (rev acc)
  | s :: l =>
      if (s === ""%string) || (s === "."%string) then resolve_parts l acc
      else if s === ".."%string then match acc with [] => None | _ :: acc => resolve_parts l acc end
      else resolve_parts l (s :: acc)
  end.

Definition target_path (l : list string) : AR string :=
  match resolve_parts l [] with
  | Some (s :: r) => Ok (join (s :: r))
  | _ => Err deployment_invalid
  end.

(** Every directory on the way to an entry has been seen as one. *)
Fixpoint parents_seen (types : gmap string entry_type) (above : string) (l : list string) : bool :=
  match l with
  | [] => true
  | s :: l =>
      let here := if bool_decide (above = ""%string) then s else above +:+ "/" +:+ s in
      bool_decide (types !! here = Some directory) && parents_seen types here l
  end.

(** So many more bytes of content, or of padding, are taken. *)
Definition more_content (a : ActiveFile) (n : nat) : ActiveFile :=
  {| a_path := a_path a; a_remaining := a_remaining a - Z.of_nat n; a_padding := a_padding a;
     a_written := a_written a + Z.of_nat n; a_expected := a_expected a |}.
Definition more_padding (a : ActiveFile) (n : nat) : ActiveFile :=
  {| a_path := a_path a; a_remaining := a_remaining a; a_padding := a_padding a - Z.of_nat n;
     a_written := a_written a; a_expected := a_expected a |}.

Section Extraction.
Context {C : Crypto} (manifest : ExtractableReleaseManifest) (expected : gmap string ReleaseFileEntry)
  (limits : StrictArchiveLimits).

Definition prefix : string := slice (topLevelPrefix (archive manifest)) 0 (String.length (topLevelPrefix (archive manifest)) - 1).

Definition epoch : Z := sourceDateEpoch manifest.

(** The bytes written to the active file. *)
Definition content_of (path : string) (t : gmap string node) : buffer :=
  match t !! path with Some (NFile _ c _) => c | _ => [] end.

Definition append_content (path : string) (b : buffer) (t : gmap string node) : gmap string node :=
  match t !! path with
  | Some (NFile m c mt) => <[path := NFile m (c ++ b) mt]> t
  | _ => t
  end.

(** Source: src/release/strict-extractor.ts:359-374 (finishActiveFile) *)
Definition finishActiveFile (x : Extractor) : AR Extractor :=
  match activeFile x with
  | None => Ok x
  | Some a =>
      _ ← ensure (a_written a =? size (a_expected a));
      _ ← ensure (bool_decide (hashFile (content_of (a_path a) (tree x)) = digest (a_expected a)));
      m ← parseMode (mode (a_expected a));
      Ok (with_active None (<[a_path a := NFile m (content_of (a_path a) (tree x)) (Some epoch)]> (tree x)) x)
  end.

(** The entry of the release root.
    Source: src/release/strict-extractor.ts:286-295 (startEntry) *)
Definition startRoot (header : ParsedHeader) (x : Extractor) : AR Extractor :=
  _ ← ensure ((x_memberCount x =? 1) && bool_decide (p_type header = directory) && (p_mode header =? 493));
  _ ← require (bool_decide (tree x !! ""%string = None)) system_error;
  Ok (with_type "" directory (with_directory "" 493 x)).

Definition conflict (path : string) (types : gmap string entry_type) : bool :=
  existsb (fun kv => startsWith (fst kv) (path +:+ "/")) (map_to_list types).

(** Source: src/release/strict-extractor.ts:277-357 (startEntry) *)
Definition startEntry (header : ParsedHeader) (x : Extractor) : AR Extractor :=
  let x := with_member (x_memberCount x + 1) (seen x) x in
  _ ← ensure (x_memberCount x <=? maxMembers limits);
  _ ← ensure (p_mtime header =? epoch);
  _ ← ensure (bool_decide (p_path header ∉ seen x));
  let x := with_member (x_memberCount x) ({[ p_path header ]} ∪ seen x) x in
  if bool_decide (p_path header = prefix) then startRoot header x else
  let expectedPrefix := prefix +:+ "/" in
  _ ← ensure (startsWith (p_path header) expectedPrefix);
  let relativePath := slice_from (p_path header) (String.length expectedPrefix) in
  entry ← (match expected !! relativePath with Some e => Ok e | None => Err deployment_invalid end);
  m ← parseMode (mode entry);
  _ ← ensure (bool_decide (type entry = p_type header) && (m =? p_mode header) && (size entry =? p_size header));
  _ ← ensure (p_size header <=? maxFileBytes limits);
  _ ← ensure (parents_seen (seenTypes x) "" (removelast (components relativePath)));
  _ ← ensure (negb (conflict relativePath (seenTypes x)));
  let x := with_type relativePath (p_type header) x in
  target ← target_path (components relativePath);
  match p_type header with
  | directory =>
      t ← create_node target (NDirectory (p_mode header) None) (tree x);
      _ ← ensure (bool_decide (digest entry = hashFile []));
      Ok (with_active (activeFile x) t (with_directory target (p_mode header) x))
  | file =>
      t ← create_node target (NFile (p_mode header) [] None) (tree x);
      let a := {| a_path := target; a_remaining := p_size header; a_padding := padding (p_size header);
                  a_written := 0; a_expected := entry |} in
      let x := with_active (Some a) t x in
      if (p_size header =? 0) && (a_padding a =? 0) then finishActiveFile x else Ok x
  end.

(** A block of 512 bytes where a header is expected. *)
Definition header_block (header : buffer) (x : Extractor) : AR Extractor :=
  if forallb zero header
  then Ok (with_zeros (zeroBlocks x + 1) ((zeroBlocks x + 1 =? 2) || ended x) x)
  else
    _ ← ensure (zeroBlocks x =? 0);
    h ← parseHeader header;
    startEntry h x.

(** Bytes of the content of the active file.
    Source: src/release/strict-extractor.ts:232-243 (consume) *)
Definition content_turn (a : ActiveFile) (x : Extractor) (chunk : buffer) : AR (Extractor * buffer) :=
  let count := Z.to_nat (Z.min (a_remaining a) (Z.of_nat (length chunk))) in
  let a' := more_content a count in
  let x := with_active (Some a') (append_content (a_path a) (take count chunk) (tree x)) x in
  x ← (if (a_remaining a' =? 0) && (a_padding a' =? 0) then finishActiveFile x else Ok x);
  Ok (x, drop count chunk).

(** Bytes of its padding.
    Source: src/release/strict-extractor.ts:244-253 (consume) *)
Definition padding_turn (a : ActiveFile) (x : Extractor) (chunk : buffer) : AR (Extractor * buffer) :=
  let count := Z.to_nat (Z.min (a_padding a) (Z.of_nat (length chunk))) in
  _ ← ensure (forallb zero (take count chunk));
  let a' := more_padding a count in
  let x := with_active (Some a') (tree x) x in
  x ← (if a_padding a' =? 0 then finishActiveFile x else Ok x);
  Ok (x, drop count chunk).

(** Bytes of a header.
    Source: src/release/strict-extractor.ts:256-273 (consume) *)
Definition header_turn (x : Extractor) (chunk : buffer) : AR (Extractor * buffer) :=
  let count := Nat.min (512 - length (headerBuffer x)) (length chunk) in
  let filled := headerBuffer x ++ take count chunk in
  if (length filled =? 512)%nat
  then x ← header_block filled (with_header [] x); Ok (x, drop count chunk)
  else Ok (with_header filled x, drop count chunk).

(** One turn of the loop of [consume] on the rest of the chunk: what is left of it.
    Source: src/release/strict-extractor.ts:230-273 (consume) *)
Definition consume_turn (x : Extractor) (chunk : buffer) : AR (Extractor * buffer) :=
  match activeFile x with
  | Some a =>
      if 0 <? a_remaining a then content_turn a x chunk
      else if 0 <? a_padding a then padding_turn a x chunk
      else header_turn x chunk
  | None => header_turn x chunk
  end.

(** The loop; every turn takes a byte at least, so the length of the chunk is fuel enough.
    Source: src/release/strict-extractor.ts:220-275 (consume) *)
Fixpoint consume_loop (fuel : nat) (x : Extractor) (chunk : buffer) : AR Extractor :=
  match chunk, fuel with
  | [], _ => Ok x
  | _, O => Err plain_error
  | _, S fuel =>
      if ended x then (_ ← ensure (forallb zero chunk); Ok x)
      else '(x, rest) ← consume_turn x chunk; consume_loop fuel x rest
  end.

Definition consume (x : Extractor) (chunk : buffer) : AR Extractor := consume_loop (length chunk) x chunk.

(** Source: src/release/strict-extractor.ts:199-218 (_write) *)
Definition write (x : Extractor) (data : buffer) : AR Extractor :=
  let x := with_bytes (decompressedBytes x + Z.of_nat (length data)) x in
  _ ← ensure (negb ((maxDecompressedBytes limits <? decompressedBytes x) ||
                    (decompressedSize (archive manifest) <? decompressedBytes x)));
  consume x data.

Fixpoint write_all (x : Extractor) (chunks : list buffer) : AR Extractor :=
  match chunks with
  | [] => Ok x
  | data :: chunks => x ← write x data; write_all x chunks
  end.

Definition set_times (path : string) (t : gmap string node) : gmap string node :=
  match t !! path with Some (NDirectory m _) => <[path := NDirectory m (Some epoch)]> t | _ => t end.

(** What reading a node back checks against the manifest.
    Source: src/release/strict-extractor.ts:414-442 (readBack) *)
Definition read_node (kv : string * node) : bool :=
  match expected !! fst kv, snd kv with
  | Some e, NFile m c _ =>
      bool_decide (type e = file) && bool_decide (parseMode (mode e) = Ok m) &&
      (Z.of_nat (length c) =? size e) && bool_decide (hashFile c = digest e)
  | Some e, NDirectory m _ => bool_decide (type e = directory) && bool_decide (parseMode (mode e) = Ok m)
  | None, _ => false
  end.

(** The walk visits every node below the root.
    Source: src/release/strict-extractor.ts:414-442 (readBack) *)
Definition readBack (t : gmap string node) : AR unit :=
  let found := map_to_list (delete ""%string t) in
  _ ← ensure (forallb read_node found);
  ensure (length found =? base.size expected)%nat.

(** Source: src/release/strict-extractor.ts:376-400 (_final) *)
Definition final (x : Extractor) : AR (gmap string node) :=
  _ ← ensure (bool_decide (activeFile x = None) && (length (headerBuffer x) =? 0)%nat && ended x);
  _ ← ensure (decompressedBytes x =? decompressedSize (archive manifest));
  _ ← ensure (x_memberCount x =? memberCount (archive manifest));
  _ ← ensure (forallb (fun kv => bool_decide (prefix +:+ "/" +:+ fst kv ∈ seen x)) (map_to_list expected));
  let t := fold_left (fun t d => set_times d t) (rev (directories x)) (tree x) in
  _ ← readBack t;
  Ok t.
End Extraction.

(** What is at the destination: nothing, something else than a directory, or a directory, with the
    number of its entries and the release tree an extraction made. *)
Inductive destination :=
| DAbsent
| DOther
| DDirectory (entries : nat)
| DExtracted (name : string) (t : gmap string node).

(** Source: src/release/strict-extractor.ts:445-450 (hashArchive) *)
Definition hashArchive {C : Crypto} (bytes : option buffer) (maxBytes : Z) : AR (string * Z) :=
  match bytes with
  | None => Err deployment_invalid
  | Some bytes =>
      _ ← ensure (negb ((length bytes =? 0)%nat || (maxBytes <? Z.of_nat (length bytes))));
      Ok (hashFile bytes, Z.of_nat (length bytes))
  end.

(** [bytes] is the archive, if it is a regular file; the extraction that fails removes what it made.
    Source: src/release/strict-extractor.ts:452-489 (strictExtractRelease) *)
Definition strictExtractRelease {C : Crypto} {G : Gzip} (bytes : option buffer) (dest : destination)
    (manifest : ExtractableReleaseManifest) (limits : StrictArchiveLimits)
    : AR (string * string) * destination :=
  let checked :=
    expected ← validateExtractableManifest manifest limits;
    found ← hashArchive bytes (maxCompressedBytes limits);
    _ ← ensure (bool_decide (fst found = archive_digest (archive manifest)) &&
                (snd found =? compressedSize (archive manifest)));
    _ ← ensure (match dest with DAbsent => true | DDirectory n => (n =? 0)%nat | _ => false end);
    Ok (expected, fst found) in
  match checked with
  | Err e => (Err e, dest)
  | Ok (expected, archiveDigest) =>
      let extracted :=
        chunks ← (match gunzip (default [] bytes) with Some l => Ok l | None => Err plain_error end);
        x ← write_all manifest expected limits fresh chunks;
        final manifest expected x in
      match extracted with
      | Ok t => (Ok (prefix manifest, archiveDigest), DExtracted (prefix manifest) t)
      | Err e => (Err e, DAbsent)
      end
  end.

(** ** The cut of the stream into chunks does not matter *)

Section Chunks.
Context {C : Crypto} (manifest : ExtractableReleaseManifest) (expected : gmap string ReleaseFileEntry)
  (limits : StrictArchiveLimits).

Abbreviation turn := (consume_turn manifest expected limits).
Abbreviation loop := (consume_loop manifest expected limits).
Abbreviation feed := (consume manifest expected limits).
Abbreviation finish := (finishActiveFile manifest).
Abbreviation block := (header_block manifest expected limits).

Definition hb_ok (x : Extractor) : Prop := (length (headerBuffer x) < 512)%nat.

Lemma finish_header x x' : finish x = Ok x' -> headerBuffer x' = headerBuffer x.
Proof using.
  unfold finishActiveFile. destruct (activeFile x) as [a|]; [|by intros [= <-]].
  rewrite !ensure_bind. by intros (_ & _ & (m & _ & [= <-])%bind_Ok).
Qed.

Lemma startRoot_header h x x' : startRoot h x = Ok x' -> headerBuffer x' = headerBuffer x.
Proof using. unfold startRoot. rewrite ensure_bind, require_bind. by intros (_ & _ & [= <-]). Qed.

Lemma startEntry_header h x x' :
  startEntry manifest expected limits h x = Ok x' -> headerBuffer x' = headerBuffer x.
Proof using.
  unfold startEntry. rewrite !ensure_bind. intros (_ & _ & _ & H). destruct (bool_decide _); [by apply startRoot_header in H|].
  rewrite ensure_bind in H. destruct H as (_ & (e & _ & (m & _ & H)%bind_Ok)%bind_Ok).
  rewrite !ensure_bind in H. destruct H as (_ & _ & _ & _ & (target & _ & H)%bind_Ok). destruct (p_type h).
  - apply bind_Ok in H as (t & _ & H). destruct (_ && _) in H; [by apply finish_header in H|by injection H as <-].
  - apply bind_Ok in H as (t & _ & H). rewrite ensure_bind in H. by destruct H as (_ & [= <-]).
Qed.

Lemma block_header h x x' : block h x = Ok x' -> headerBuffer x' = headerBuffer x.
Proof using.
  unfold header_block. destruct (forallb zero h); [by intros [= <-]|]. rewrite ensure_bind.
  intros (_ & (p & _ & H)%bind_Ok). by apply startEntry_header in H.
Qed.

(** A turn keeps the buffer of the header short, and takes a byte at least. *)
Lemma turn_ok x chunk x' rest :
  hb_ok x -> chunk <> [] -> turn x chunk = Ok (x', rest) -> hb_ok x' /\ (length rest < length chunk)%nat.
Proof using.
  intros Hx Hc. assert (0 < length chunk)%nat by (by destruct chunk; [|cbn; lia]). unfold hb_ok in *.
  assert (Hh : header_turn manifest expected limits x chunk = Ok (x', rest) ->
    (length (headerBuffer x') < 512)%nat /\ (length rest < length chunk)%nat).
  { unfold header_turn. destruct (length _ =? 512)%nat eqn:Hl.
    - intros (x1 & Hb%block_header & [= <- <-])%bind_Ok. rewrite Hb, length_drop. cbn. lia.
    - intros [= <- <-]. cbn [headerBuffer with_header]. apply Nat.eqb_neq in Hl.
      rewrite length_app, length_take in *. rewrite length_drop. lia. }
  unfold consume_turn. destruct (activeFile x) as [a|]; [|apply Hh]. destruct (0 <? a_remaining a) eqn:Hr.
  - apply Z.ltb_lt in Hr. unfold content_turn. intros (x1 & Hf & [= <- <-])%bind_Ok. rewrite length_drop. split; [|lia].
    destruct (_ && _) in Hf; [apply finish_header in Hf as ->; exact Hx|injection Hf as <-; exact Hx].
  - destruct (0 <? a_padding a) eqn:Hp; [|apply Hh]. apply Z.ltb_lt in Hp. unfold padding_turn. rewrite ensure_bind.
    intros (_ & (x1 & Hf & [= <- <-])%bind_Ok). rewrite length_drop. split; [|lia].
    destruct (_ =? 0) in Hf; [apply finish_header in Hf as ->; exact Hx|injection Hf as <-; exact Hx].
Qed.

Lemma loop_fuel n x chunk : hb_ok x -> (length chunk <= n)%nat -> loop n x chunk = feed x chunk.
Proof using.
  unfold consume. revert x chunk. induction (lt_wf n) as [n _ IH]. intros x chunk Hx Hn.
  destruct chunk as [|b l]; [by destruct n|]. destruct n as [|n]; [cbn in Hn; lia|]. cbn [length consume_loop].
  destruct (ended x); [done|]. destruct (turn x (b :: l)) as [[x' rest]|e] eqn:Ht; cbn [mbind result_bind]; [|done].
  destruct (turn_ok _ (b :: l) _ _ Hx ltac:(discriminate) Ht) as [Hx' Hr]. cbn [length] in *.
  rewrite (IH n) by (assumption || lia). destruct (decide (length l = n)) as [->|].
  - by rewrite (IH n) by (assumption || lia).
  - by rewrite (IH (length l)) by (assumption || lia).
Qed.

(** The first byte of a longer chunk: it completes something, and the rest is left, or the turn is
    the turn of the rest after it. *)
Definition first_byte (r : AR (Extractor * buffer)) (one : AR (Extractor * buffer)) (x : Extractor) (l : buffer) : Prop :=
  r = ('(x1, _) ← one; Ok (x1, l)) \/
  exists x1, one = Ok (x1, []) /\ r = turn x1 l /\ ended x1 = ended x.

Lemma header_cons x b l :
  hb_ok x -> l <> [] ->
  (forall h, turn (with_header h x) = header_turn manifest expected limits (with_header h x)) ->
  first_byte (header_turn manifest expected limits x (b :: l)) (header_turn manifest expected limits x [b]) x l.
Proof using.
  intros Hx Hl Hh. unfold hb_ok in Hx. unfold first_byte, header_turn. cbv zeta.
  assert (Hk : exists k, length l = S k) by (destruct l; [done|by eexists]). destruct Hk as [k Hk].
  replace (Nat.min (512 - length (headerBuffer x)) (length [b])) with 1%nat by (cbn [length]; lia).
  cbn [take drop].
  destruct (length (headerBuffer x ++ [b]) =? 512)%nat eqn:H512.
  - left. pose proof H512 as H1. apply Nat.eqb_eq in H1. rewrite length_app in H1. cbn [length] in H1.
    replace (Nat.min (512 - length (headerBuffer x)) (length (b :: l))) with 1%nat by (cbn [length]; lia).
    change (take 1 (b :: l)) with [b]. change (drop 1 (b :: l)) with l. rewrite H512.
    by destruct (header_block manifest expected limits (headerBuffer x ++ [b]) (with_header [] x)).
  - right. apply Nat.eqb_neq in H512. exists (with_header (headerBuffer x ++ [b]) x). split; [done|]. split; [|done].
    rewrite Hh. unfold header_turn. cbn [headerBuffer with_header]. cbv zeta.
    assert (H1 : length (headerBuffer x ++ [b]) = (length (headerBuffer x) + 1)%nat) by (by rewrite length_app).
    rewrite H1 in *. cbn [length].
    replace (Nat.min (512 - length (headerBuffer x)) (S (length l)))
      with (S (Nat.min (512 - (length (headerBuffer x) + 1)) (length l))) by lia.
    cbn [take drop]. rewrite <- app_assoc. reflexivity.
Qed.

Lemma append_content_app path b c t :
  append_content path c (append_content path b t) = append_content path (b ++ c) t.
Proof using.
  unfold append_content. destruct (t !! path) as [[m d mt|m mt]|] eqn:Ht; rewrite ?Ht; try done.
  rewrite lookup_insert_eq, insert_insert_eq. by rewrite app_assoc.
Qed.

Lemma more_content_plus a n k : more_content (more_content a n) k = more_content a (n + k).
Proof using. unfold more_content. cbn. f_equal; lia. Qed.

Lemma more_padding_plus a n k : more_padding (more_padding a n) k = more_padding a (n + k).
Proof using. unfold more_padding. cbn. f_equal; lia. Qed.

Lemma content_cons a x b l :
  activeFile x = Some a -> 0 < a_remaining a -> l <> [] ->
  first_byte (content_turn manifest a x (b :: l)) (content_turn manifest a x [b]) x l.
Proof using.
  intros Ha Hr Hl. assert (Hk : exists k, length l = S k) by (destruct l; [done|by eexists]). destruct Hk as [k Hk].
  unfold first_byte, content_turn. cbv zeta. cbn [length].
  replace (Z.to_nat (Z.min (a_remaining a) (Z.of_nat 1))) with 1%nat by lia. change (take 1 [b]) with [b].
  change (drop 1 [b]) with (@nil Z).
  destruct (decide (a_remaining a = 1)) as [H1|H1].
  - left. replace (Z.to_nat (Z.min (a_remaining a) (Z.of_nat (S (length l))))) with 1%nat by lia.
    change (take 1 (b :: l)) with [b]. change (drop 1 (b :: l)) with l.
    match goal with |- context [if ?c then ?f else ?g] => by destruct (if c then f else g) end.
  - right. exists (with_active (Some (more_content a 1)) (append_content (a_path a) [b] (tree x)) x).
    replace (a_remaining (more_content a 1) =? 0) with false
      by (symmetry; apply Z.eqb_neq; cbn [a_remaining more_content]; lia).
    split; [done|]. split; [|done].
    unfold consume_turn. cbn [activeFile with_active].
    replace (0 <? a_remaining (more_content a 1)) with true
      by (symmetry; apply Z.ltb_lt; cbn [a_remaining more_content]; lia).
    unfold content_turn. cbv zeta. cbn [tree with_active].
    set (d := Z.to_nat (Z.min (a_remaining (more_content a 1)) (Z.of_nat (length l)))).
    replace (Z.to_nat (Z.min (a_remaining a) (Z.of_nat (S (length l))))) with (1 + d)%nat
      by (unfold d; cbn [a_remaining more_content]; lia).
    rewrite more_content_plus. change (a_path (more_content a 1)) with (a_path a). rewrite append_content_app.
    reflexivity.
Qed.

Lemma padding_cons a x b l :
  activeFile x = Some a -> (0 <? a_remaining a) = false -> 0 < a_padding a -> l <> [] ->
  first_byte (padding_turn manifest a x (b :: l)) (padding_turn manifest a x [b]) x l.
Proof using.
  intros Ha Hr Hp Hl. assert (Hk : exists k, length l = S k) by (destruct l; [done|by eexists]). destruct Hk as [k Hk].
  unfold first_byte, padding_turn. cbv zeta. cbn [length].
  replace (Z.to_nat (Z.min (a_padding a) (Z.of_nat 1))) with 1%nat by lia. change (take 1 [b]) with [b].
  change (drop 1 [b]) with (@nil Z).
  set (d := Z.to_nat (Z.min (a_padding (more_padding a 1)) (Z.of_nat (length l)))).
  replace (Z.to_nat (Z.min (a_padding a) (Z.of_nat (S (length l))))) with (1 + d)%nat
    by (unfold d; cbn [a_padding more_padding]; lia).
  change (take (1 + d) (b :: l)) with (b :: take d l). change (drop (1 + d) (b :: l)) with (drop d l).
  cbn [forallb]. destruct (zero b) eqn:Hz; [|by left].
  destruct (decide (a_padding a = 1)) as [H1|H1].
  - left. assert (d = 0%nat) as -> by (unfold d; cbn [a_padding more_padding]; lia).
    change (take 0 l) with (@nil Z). change (drop 0 l) with l.
    cbn [andb forallb ensure require mbind result_bind Nat.add].
    match goal with |- context [if ?c then ?f else ?g] => by destruct (if c then f else g) end.
  - right. exists (with_active (Some (more_padding a 1)) (tree x) x).
    replace (a_padding (more_padding a 1) =? 0) with false
      by (symmetry; apply Z.eqb_neq; cbn [a_padding more_padding]; lia).
    split; [done|]. split; [|done].
    unfold consume_turn. cbn [activeFile with_active]. change (a_remaining (more_padding a 1)) with (a_remaining a).
    rewrite Hr. replace (0 <? a_padding (more_padding a 1)) with true
      by (symmetry; apply Z.ltb_lt; cbn [a_padding more_padding]; lia).
    unfold padding_turn. cbv zeta. cbn [tree with_active]. fold d. rewrite more_padding_plus. reflexivity.
Qed.

Lemma turn_cons x b l :
  hb_ok x -> l <> [] -> first_byte (turn x (b :: l)) (turn x [b]) x l.
Proof using.
  intros Hx Hl. unfold consume_turn at 1 2. destruct (activeFile x) as [a|] eqn:Ha.
  - destruct (0 <? a_remaining a) eqn:Hr; [apply Z.ltb_lt in Hr; by apply content_cons|].
    destruct (0 <? a_padding a) eqn:Hp; [apply Z.ltb_lt in Hp; by apply padding_cons|].
    apply header_cons; [done..|]; intros; unfold consume_turn; cbn [activeFile with_header]; by rewrite Ha, Hr, Hp.
  - apply header_cons; [done..|]; intros; unfold consume_turn; cbn [activeFile with_header]; by rewrite Ha.
Qed.

Lemma turn_one x b x1 rest : hb_ok x -> turn x [b] = Ok (x1, rest) -> hb_ok x1 /\ rest = [].
Proof using.
  intros Hx Ht. destruct (turn_ok x [b] x1 rest Hx ltac:(discriminate) Ht) as [H1 H2]. split; [done|].
  destruct rest; [done|]. cbn in H2. lia.
Qed.

Lemma feed_one x b : hb_ok x -> feed x [b] = if ended x then (_ ← ensure (zero b); Ok x) else ('(x1, _) ← turn x [b]; Ok x1).
Proof using.
  intros Hx. unfold consume. cbn [length consume_loop]. destruct (ended x).
  - cbn [forallb]. by rewrite andb_true_r.
  - destruct (turn x [b]) as [[x1 rest]|e] eqn:Ht; cbn [mbind result_bind]; [|done].
    by destruct (turn_one _ _ _ _ Hx Ht) as [_ ->].
Qed.

Lemma feed_ended x l : ended x = true -> feed x l = (_ ← ensure (forallb zero l); Ok x).
Proof using. intros He. unfold consume. destruct l; cbn [length consume_loop]; [done|]. by rewrite He. Qed.

Lemma feed_turn x l : hb_ok x -> l <> [] -> ended x = false -> feed x l = ('(x1, rest) ← turn x l; feed x1 rest).
Proof using.
  intros Hx Hl He. unfold consume at 1. destruct l as [|b l]; [done|]. cbn [length consume_loop]. rewrite He.
  destruct (turn x (b :: l)) as [[x1 rest]|e] eqn:Ht; cbn [mbind result_bind]; [|done].
  destruct (turn_ok x (b :: l) x1 rest Hx Hl Ht) as [Hx1 Hr]. cbn in Hr. by rewrite loop_fuel by (assumption || lia).
Qed.

(** Consuming a chunk is consuming its first byte and then the others. *)
Lemma feed_cons x b l : hb_ok x -> feed x (b :: l) = (x1 ← feed x [b]; feed x1 l).
Proof using.
  intros Hx. destruct (decide (l = [])) as [->|Hl]; [by destruct (feed x [b])|].
  rewrite feed_one by done. destruct (ended x) eqn:He.
  - rewrite feed_ended by done. cbn [forallb]. destruct (zero b); cbn [andb ensure require mbind result_bind]; [|done].
    by rewrite feed_ended.
  - rewrite feed_turn by done.
    destruct (turn_cons x b l Hx Hl) as [->|(x1 & Ht & -> & He1)]; [by destruct (turn x [b]) as [[x1 rest]|e]|].
    rewrite Ht. cbn [mbind result_bind]. destruct (turn_one _ _ _ _ Hx Ht) as [Hx1 _].
    by rewrite (feed_turn x1) by (congruence || done).
Qed.

Lemma feed_ok x l x' : hb_ok x -> feed x l = Ok x' -> hb_ok x'.
Proof using.
  revert x. induction l as [|b l IH]; intros x Hx; [by intros [= <-]|]. rewrite feed_cons by done.
  intros (x1 & H1 & H2)%bind_Ok. apply (IH x1); [|done]. unfold consume in H1. cbn [length consume_loop] in H1.
  destruct (ended x).
  - apply ensure_bind in H1 as (_ & [= <-]). done.
  - apply bind_Ok in H1 as ([x2 rest] & Ht & H1). destruct (turn_one _ _ _ _ Hx Ht) as [Hx2 ->]. by injection H1 as <-.
Qed.

Lemma consume_app x a b : hb_ok x -> feed x (a ++ b) = (x1 ← feed x a; feed x1 b).
Proof using.
  revert x. induction a as [|c a IH]; intros x Hx; [done|]. cbn [app]. rewrite feed_cons by done.
  rewrite (feed_cons x c a) by done. destruct (feed x [c]) as [x1|e] eqn:H1; cbn [mbind result_bind]; [|done].
  apply IH. by eapply feed_ok.
Qed.

(** The count of the bytes is not read in the loop. *)
Definition counted (n : Z) (r : AR Extractor) : AR Extractor := x ← r; Ok (with_bytes n x).

(** Both sides run the same code. *)
Ltac same_code :=
  repeat (cbv zeta; cbn [mbind result_bind];
    match goal with
    | |- mbind _ ?m = counted _ (mbind _ ?m) => destruct m; [|done]
    | |- (if ?c then _ else _) = counted _ (if ?c then _ else _) => destruct c
    | |- match ?c with _ => _ end = counted _ (match ?c with _ => _ end) => destruct c
    end); try done.

Lemma finish_bytes n x : finish (with_bytes n x) = counted n (finish x).
Proof using. unfold finishActiveFile. cbn [activeFile with_bytes tree]. same_code. Qed.

Lemma startRoot_bytes n h x : startRoot h (with_bytes n x) = counted n (startRoot h x).
Proof using. unfold startRoot. cbn [x_memberCount with_bytes tree]. same_code. Qed.

Lemma startEntry_bytes n h x :
  startEntry manifest expected limits h (with_bytes n x) = counted n (startEntry manifest expected limits h x).
Proof using.
  unfold startEntry. cbv zeta.
  change (with_member (x_memberCount (with_bytes n x) + 1) (seen (with_bytes n x)) (with_bytes n x))
    with (with_bytes n (with_member (x_memberCount x + 1) (seen x) x)).
  set (x0 := with_member (x_memberCount x + 1) (seen x) x).
  change (with_member (x_memberCount (with_bytes n x0)) ({[p_path h]} ∪ seen (with_bytes n x0)) (with_bytes n x0))
    with (with_bytes n (with_member (x_memberCount x0) ({[p_path h]} ∪ seen x0) x0)).
  set (x1 := with_member (x_memberCount x0) ({[p_path h]} ∪ seen x0) x0).
  cbn [x_memberCount seen seenTypes tree activeFile with_bytes with_type].
  same_code; [apply startRoot_bytes|].
  match goal with |- finish ?y = counted n (finish ?z) => change y with (with_bytes n z) end. apply finish_bytes.
Qed.

Lemma block_bytes n h x : block h (with_bytes n x) = counted n (block h x).
Proof using. unfold header_block. cbn [zeroBlocks ended with_bytes]. same_code. apply startEntry_bytes. Qed.

Definition counted_turn (n : Z) (r : AR (Extractor * buffer)) : AR (Extractor * buffer) :=
  '(x, l) ← r; Ok (with_bytes n x, l).

Lemma turn_bytes n x l : turn (with_bytes n x) l = counted_turn n (turn x l).
Proof using.
  assert (Hh : header_turn manifest expected limits (with_bytes n x) l
    = counted_turn n (header_turn manifest expected limits x l)).
  { unfold header_turn. cbv zeta. cbn [headerBuffer with_bytes].
    change (with_header [] (with_bytes n x)) with (with_bytes n (with_header [] x)). rewrite block_bytes.
    destruct (length _ =? 512)%nat; [|done]. by destruct (block _ _). }
  unfold consume_turn. cbn [activeFile with_bytes]. destruct (activeFile x) as [a|]; [|done].
  destruct (0 <? a_remaining a); [|destruct (0 <? a_padding a); [|done]].
  - unfold content_turn. cbv zeta. cbn [tree with_bytes].
    match goal with |- (if _ then finish ?y else Ok ?y) ≫= _ = counted_turn n ((if _ then finish ?z else Ok ?z) ≫= _) =>
      change y with (with_bytes n z); rewrite finish_bytes; destruct (_ && _); [by destruct (finish z)|done] end.
  - unfold padding_turn. cbv zeta. cbn [tree with_bytes]. destruct (ensure _); cbn [mbind result_bind]; [|done].
    match goal with |- (if _ then finish ?y else Ok ?y) ≫= _ = counted_turn n ((if _ then finish ?z else Ok ?z) ≫= _) =>
      change y with (with_bytes n z); rewrite finish_bytes; destruct (_ =? 0); [by destruct (finish z)|done] end.
Qed.

Lemma feed_bytes n x l : hb_ok x -> feed (with_bytes n x) l = counted n (feed x l).
Proof using.
  revert x. induction l as [|b l IH]; intros x Hx; [done|].
  rewrite (feed_cons (with_bytes n x)), (feed_cons x) by done. rewrite !feed_one by done. cbn [ended with_bytes].
  rewrite turn_bytes. destruct (ended x).
  - destruct (ensure (zero b)); cbn [mbind result_bind]; [by apply IH|done].
  - destruct (turn x [b]) as [[x1 rest]|e] eqn:Ht; cbn [counted_turn mbind result_bind]; [|done].
    apply IH. by destruct (turn_one _ _ _ _ Hx Ht).
Qed.

Abbreviation write := (write manifest expected limits).
Abbreviation write_all := (write_all manifest expected limits).

Lemma write_Ok x data x' : hb_ok x ->
  write x data = Ok x' <->
  (decompressedBytes x + Z.of_nat (length data) <= maxDecompressedBytes limits /\
   decompressedBytes x + Z.of_nat (length data) <= decompressedSize (archive manifest)) /\
  exists y, feed x data = Ok y /\ x' = with_bytes (decompressedBytes x + Z.of_nat (length data)) y.
Proof using.
  intros Hx. unfold Extractor.write. cbv zeta. rewrite ensure_bind, feed_bytes by done.
  rewrite negb_true_iff, orb_false_iff, !Z.ltb_ge. cbn [decompressedBytes with_bytes]. unfold counted. rewrite bind_Ok.
  split; intros [? (y & ? & H)]; (split; [done|]); exists y; (split; [done|]); congruence.
Qed.

Lemma write_hb x data x' : hb_ok x -> write x data = Ok x' -> hb_ok x'.
Proof using. intros Hx (_ & y & Hy & ->)%write_Ok; [|done]. by apply feed_ok in Hy. Qed.

Lemma finish_same_bytes x x' : finish x = Ok x' -> decompressedBytes x' = decompressedBytes x.
Proof using.
  intros H. pose proof (finish_bytes (decompressedBytes x) x) as Hb.
  assert (with_bytes (decompressedBytes x) x = x) as E by (by destruct x). rewrite E, H in Hb.
  injection Hb as Hb. by rewrite Hb.
Qed.

Lemma feed_same_bytes x l x' : hb_ok x -> feed x l = Ok x' -> decompressedBytes x' = decompressedBytes x.
Proof using.
  intros Hx H. pose proof (feed_bytes (decompressedBytes x) x l Hx) as Hb.
  assert (with_bytes (decompressedBytes x) x = x) as E by (by destruct x). rewrite E, H in Hb.
  injection Hb as Hb. by rewrite Hb.
Qed.

Lemma write_app x a b z :
  hb_ok x -> write x (a ++ b) = Ok z <-> exists y, write x a = Ok y /\ write y b = Ok z.
Proof using.
  intros Hx. rewrite write_Ok, consume_app, length_app, Nat2Z.inj_add by done. split.
  - intros ([H1 H2] & y & (y1 & Ha & Hb)%bind_Ok & ->).
    exists (with_bytes (decompressedBytes x + Z.of_nat (length a)) y1).
    split; [apply write_Ok; [done|]; split; [lia|]; by exists y1|].
    assert (hb_ok y1) by (by eapply feed_ok). apply write_Ok; [done|]. cbn [decompressedBytes with_bytes].
    split; [lia|]. exists (with_bytes (decompressedBytes x + Z.of_nat (length a)) y).
    split; [by rewrite feed_bytes, Hb|]. unfold with_bytes; cbn. f_equal. lia.
  - intros (y & (H1 & y1 & Ha & ->)%write_Ok & H2); [|done]. assert (hb_ok y1) by (by eapply feed_ok).
    apply write_Ok in H2 as (H2 & y2 & Hb & ->); [|done]. cbn [decompressedBytes with_bytes] in *. split; [lia|].
    rewrite feed_bytes in Hb by done. apply bind_Ok in Hb as (y3 & Hb & [= <-]).
    exists y3. split; [apply bind_Ok; by exists y1|]. unfold with_bytes; cbn. f_equal. lia.
Qed.

Lemma write_all_concat x chunks z :
  hb_ok x -> decompressedBytes x <= maxDecompressedBytes limits ->
  decompressedBytes x <= decompressedSize (archive manifest) ->
  write_all x chunks = Ok z <-> write x (concat chunks) = Ok z.
Proof using.
  revert x. induction chunks as [|c chunks IH]; intros x Hx H1 H2.
  - cbn [Extractor.write_all concat]. rewrite write_Ok by done. cbn [length]. rewrite Z.add_0_r.
    split; [intros [= <-]; split; [done|]; exists x; split; [done|by destruct x]|].
    intros (_ & y & [= <-] & ->). by destruct x.
  - cbn [Extractor.write_all concat]. rewrite write_app, bind_Ok by done.
    split; intros (y & Hy & Hz); exists y; (split; [done|]);
      pose proof Hy as (Hb & y1 & Hf & E)%write_Ok; try done;
      (assert (decompressedBytes y = decompressedBytes x + Z.of_nat (length c)) by (by subst y));
      (apply IH; [by eapply write_hb|lia|lia|done]).
Qed.

(** C39: the cut of the stream does not matter: however the decompressed bytes arrive, an extraction
    of the chunks succeeds exactly when the extraction of all the bytes at once does, and in the same
    state. *)
Theorem chunks_do_not_matter chunks x :
  0 <= maxDecompressedBytes limits -> 0 <= decompressedSize (archive manifest) ->
  write_all fresh chunks = Ok x <-> write fresh (concat chunks) = Ok x.
Proof using. intros H1 H2. apply write_all_concat; [unfold hb_ok; cbn; lia|done|done]. Qed.
End Chunks.

(** ** What is written is bounded *)

Definition node_size (n : node) : Z := match n with NFile _ c _ => Z.of_nat (length c) | NDirectory _ _ => 0 end.

(** The bytes of all the files of a tree. *)
Definition total_bytes (t : gmap string node) : Z := map_fold (fun _ n acc => node_size n + acc) 0 t.

Lemma total_insert_new p n t : t !! p = None -> total_bytes (<[p := n]> t) = node_size n + total_bytes t.
Proof.
  intros Hp. unfold total_bytes.
  apply (map_fold_insert_L (fun _ n acc => node_size n + acc)); [intros; lia|done].
Qed.

Lemma total_insert p n m t : t !! p = Some m -> total_bytes (<[p := n]> t) = total_bytes t - node_size m + node_size n.
Proof.
  intros Hp. rewrite <- (insert_id t p m Hp) at 2. rewrite <- !(insert_delete_eq t p).
  rewrite !total_insert_new by apply lookup_delete_eq. lia.
Qed.

Section Bounds.
Context {C : Crypto} (manifest : ExtractableReleaseManifest) (expected : gmap string ReleaseFileEntry)
  (limits : StrictArchiveLimits).

(** From one state to another, at most [n] bytes are written and the members stay within the limit. *)
Definition grows (n : Z) (x x' : Extractor) : Prop :=
  total_bytes (tree x') <= total_bytes (tree x) + n /\
  (x_memberCount x <= maxMembers limits -> x_memberCount x' <= maxMembers limits).

Lemma finish_grows x x' : finishActiveFile manifest x = Ok x' -> grows 0 x x'.
Proof using.
  unfold finishActiveFile. destruct (activeFile x) as [a|]; [|intros [= <-]; split; [lia|done]].
  rewrite !ensure_bind. intros (_ & _ & (m & _ & [= <-])%bind_Ok). split; [|done]. cbn [tree with_active].
  unfold content_of. destruct (tree x !! a_path a) as [n|] eqn:Ht.
  - rewrite (total_insert _ _ _ _ Ht). destruct n; cbn; lia.
  - rewrite total_insert_new by done. cbn. lia.
Qed.

Lemma grows_refl x : grows 0 x x.
Proof using. split; [lia|done]. Qed.

Lemma grows_trans n k x y z : grows n x y -> grows k y z -> grows (n + k) x z.
Proof using. intros [H1 H2] [H3 H4]. split; [lia|auto]. Qed.

Lemma startEntry_grows h x x' : startEntry manifest expected limits h x = Ok x' -> grows 0 x x'.
Proof using.
  unfold startEntry. cbv zeta. rewrite !ensure_bind. intros (Hm & _ & _ & H). apply Z.leb_le in Hm.
  assert (Hg : forall y, total_bytes (tree y) <= total_bytes (tree x) -> x_memberCount y = x_memberCount x + 1 ->
    grows 0 x y) by (intros y H1 H2; split; cbn in *; lia).
  destruct (bool_decide (p_path h = _)).
  - unfold startRoot in H. rewrite ensure_bind, require_bind in H. destruct H as (_ & Hn & [= <-]).
    apply Hg; [|done]. cbn. bool_inv. rewrite total_insert_new by done. cbn. lia.
  - rewrite ensure_bind in H. destruct H as (_ & (e & _ & (m & _ & H)%bind_Ok)%bind_Ok).
    rewrite !ensure_bind in H. destruct H as (_ & _ & _ & _ & (target & _ & H)%bind_Ok). destruct (p_type h).
    + apply bind_Ok in H as (t & Hc & H). unfold create_node in Hc. rewrite require_bind in Hc. destruct Hc as [Hn [= <-]].
      bool_inv. cbn [tree with_type with_member] in *.
      destruct (_ && _) in H.
      * apply finish_grows in H. replace 0 with (0 + 0) by lia. eapply grows_trans; [|exact H]. apply Hg; [|done].
        cbn [tree with_active]. rewrite total_insert_new by done. cbn. lia.
      * injection H as <-. apply Hg; [|done]. cbn [tree with_active]. rewrite total_insert_new by done. cbn. lia.
    + apply bind_Ok in H as (t & Hc & H). unfold create_node in Hc. rewrite require_bind in Hc. destruct Hc as [Hn [= <-]].
      rewrite ensure_bind in H. destruct H as (_ & [= <-]). bool_inv. apply Hg; [|done].
      cbn [tree with_active]. rewrite total_insert_new by done. cbn. lia.
Qed.

Lemma header_turn_grows x l x' rest :
  header_turn manifest expected limits x l = Ok (x', rest) -> grows 0 x x'.
Proof using.
  unfold header_turn. cbv zeta. destruct (length _ =? 512)%nat; [|intros [= <- <-]; split; [cbn [tree with_header]; lia|done]].
  intros (y & H & [= <- <-])%bind_Ok. unfold header_block in H. destruct (forallb zero _).
  - injection H as <-. split; [cbn; lia|done].
  - rewrite ensure_bind in H. destruct H as (_ & (h & _ & H)%bind_Ok). by apply startEntry_grows in H.
Qed.

Lemma append_total p b t : total_bytes (append_content p b t) <= total_bytes t + Z.of_nat (length b).
Proof using.
  clear. unfold append_content. destruct (t !! p) as [[m c mt|m mt]|] eqn:Hp; [|lia|lia].
  rewrite (total_insert _ _ _ _ Hp). cbn. rewrite length_app. lia.
Qed.

Lemma turn_grows x b x' rest :
  consume_turn manifest expected limits x [b] = Ok (x', rest) -> grows 1 x x'.
Proof using.
  assert (Hw : grows 0 x x' -> grows 1 x x') by (intros [? ?]; split; [lia|done]).
  unfold consume_turn. destruct (activeFile x) as [a|] eqn:Ha; [|intros H; by apply Hw, (header_turn_grows x [b] x' rest)].
  destruct (0 <? a_remaining a); [|destruct (0 <? a_padding a)].
  - unfold content_turn. cbv zeta. intros (y & H & [= <- _])%bind_Ok. replace 1 with (1 + 0) by lia.
    eapply grows_trans; [|destruct (_ && _) in H; [by apply finish_grows in H|injection H as <-; apply grows_refl]].
    split; [|done]. cbn [tree with_active]. etransitivity; [apply append_total|].
    rewrite length_take. cbn [length]. lia.
  - unfold padding_turn. cbv zeta. rewrite ensure_bind. intros (_ & (y & H & [= <- _])%bind_Ok). apply Hw.
    replace 0 with (0 + 0) by lia. eapply grows_trans; [|destruct (_ =? 0) in H; [by apply finish_grows in H|injection H as <-; apply grows_refl]].
    split; [cbn; lia|done].
  - intros H. by apply Hw, (header_turn_grows x [b] x' rest).
Qed.

Lemma consume_grows x l x' :
  hb_ok x -> consume manifest expected limits x l = Ok x' -> grows (Z.of_nat (length l)) x x'.
Proof using.
  revert x. induction l as [|b l IH]; intros x Hx; [intros [= <-]; split; [cbn; lia|done]|].
  rewrite feed_cons by done. intros (y & H1 & H2)%bind_Ok.
  replace (Z.of_nat (length (b :: l))) with (1 + Z.of_nat (length l)) by (cbn [length]; lia).
  pose proof (feed_ok _ _ _ _ _ _ Hx H1) as Hy. eapply grows_trans; [|by apply IH].
  rewrite feed_one in H1 by done. destruct (ended x).
  - rewrite ensure_bind in H1. destruct H1 as (_ & [= <-]). split; [lia|done].
  - apply bind_Ok in H1 as ([z rest] & Ht & [= <-]). by apply turn_grows in Ht.
Qed.

End Bounds.

(** ** An accepted release is the manifest *)

Section Exact.
Context {C : Crypto} {G : Gzip}.

Lemma readBack_exact expected t p :
  readBack expected t = Ok tt -> p <> ""%string ->
  match t !! p with
  | Some n => read_node expected (p, n) = true
  | None => expected !! p = None
  end.
Proof using.
  unfold readBack. rewrite ensure_bind. intros [Hall Hlen%ensured%Nat.eqb_eq] Hp.
  rewrite forallb_forall in Hall.
  assert (Hin : forall q n, delete ""%string t !! q = Some n -> read_node expected (q, n) = true).
  { intros q n Hq. apply Hall, list_elem_of_In, elem_of_map_to_list. exact Hq. }
  assert (Hsub : dom (delete ""%string t) ⊆ dom expected).
  { intros q [n Hq]%elem_of_dom. apply elem_of_dom. pose proof (Hin q n Hq) as Hr. unfold read_node in Hr. cbn in Hr.
    destruct (expected !! q); [by eexists|]. by destruct n. }
  assert (Heq : dom (delete ""%string t) = dom expected).
  { apply set_subseteq_size_eq; [done|]. rewrite !size_dom, <- Hlen, length_map_to_list. done. }
  destruct (t !! p) as [n|] eqn:Ht; [apply Hin; by rewrite lookup_delete_ne|].
  apply not_elem_of_dom. rewrite <- Heq. apply not_elem_of_dom. by rewrite lookup_delete_ne.
Qed.

Lemma expected_files_keys limits l expected0 expected :
  expected_files limits l expected0 = Ok expected -> expected0 !! ""%string = None -> expected !! ""%string = None.
Proof using.
  revert expected0. induction l as [|e l IH]; intros expected0; cbn [expected_files]; [by intros [= ->]|].
  intros (? & He & H)%bind_Ok. rewrite !ensure_bind in H. destruct H as (_ & _ & H). intros H0.
  apply (IH _ H). rewrite lookup_insert_ne; [done|]. intros E.
  unfold assertReleaseFileEntry in He. rewrite ensure_bind in He. destruct He as [He _]. rewrite E in He. discriminate.
Qed.

(** A node is what an entry of the manifest says. *)
Definition listed (n : option node) (entry : option ReleaseFileEntry) : Prop :=
  match n, entry with
  | Some (NFile m c _), Some e =>
      type e = file /\ parseMode (mode e) = Ok m /\ Z.of_nat (length c) = size e /\ hashFile c = digest e
  | Some (NDirectory m _), Some e => type e = directory /\ parseMode (mode e) = Ok m
  | None, None => True
  | _, _ => False
  end.

Lemma read_node_listed expected p n : read_node expected (p, n) = true -> listed (Some n) (expected !! p).
Proof using.
  unfold read_node, listed. cbn [fst snd]. destruct (expected !! p) as [e|]; [|by destruct n].
  destruct n as [m c mt|m mt]; rewrite !andb_true_iff, ?Z.eqb_eq, !bool_decide_eq_true; tauto.
Qed.

Lemma readBack_listed expected t p :
  readBack expected t = Ok tt -> p <> ""%string -> listed (t !! p) (expected !! p).
Proof using.
  intros Hr Hp. pose proof (readBack_exact _ _ _ Hr Hp) as Hn.
  destruct (t !! p) as [n|]; [by apply read_node_listed|by rewrite Hn].
Qed.

(** C37: what the extractor accepts is the manifest, whatever the bytes: the archive has the declared
    digest and size, and in the extracted tree a path below the root is present exactly if the
    manifest lists it, with the listed type and mode, and for a file the listed size and digest. *)
Theorem accepted_release_is_manifest bytes dest manifest limits r dest' :
  strictExtractRelease bytes dest manifest limits = (Ok r, dest') ->
  exists archive_bytes expected t,
    bytes = Some archive_bytes /\ hashFile archive_bytes = archive_digest (archive manifest) /\
    Z.of_nat (length archive_bytes) = compressedSize (archive manifest) /\
    validateExtractableManifest manifest limits = Ok expected /\ dest' = DExtracted (prefix manifest) t /\
    forall p, p <> ""%string -> listed (t !! p) (expected !! p).
Proof using.
  unfold strictExtractRelease. cbv zeta.
  match goal with |- match ?c with _ => _ end = _ -> _ => destruct c as [[expected archiveDigest]|e] eqn:Hc end; [|done].
  apply bind_Ok in Hc as (ex & Hv & Hc). apply bind_Ok in Hc as (found & Hf & Hc). rewrite !ensure_bind in Hc.
  destruct Hc as (Hi & _ & [= -> _]).
  match goal with |- match ?c with _ => _ end = _ -> _ => destruct c as [t|e] eqn:He end; [|done].
  intros [= _ <-]. destruct bytes as [b|]; [|done]. cbn [hashArchive] in Hf.
  rewrite ensure_bind in Hf. destruct Hf as [_ [= <-]]. cbn [fst snd] in Hi. apply andb_true_iff in Hi as [Hd Hs].
  bool_inv. apply Z.eqb_eq in Hs. exists b, expected, t. split_and!; try done. intros p Hp.
  apply bind_Ok in He as (chunks & _ & He). apply bind_Ok in He as (x & _ & He).
  unfold final in He. rewrite !ensure_bind in He. destruct He as (_ & _ & _ & _ & ([] & Hr & [= <-])%bind_Ok).
  by apply readBack_listed.
Qed.
End Exact.

(** ** A release of one file *)

Module Demo.
#[local] Existing Instance toy_crypto.
#[local] Existing Instance toy_gzip.

Definition children : props source_node := [("run"%string, SFile 493 [104; 105])].

Definition made := createDeterministicTarGz children "app" 1700000000.
Definition bytes : buffer := match made with Ok (b, _, _) => b | Err _ => [] end.
Definition declaration : StrictArchiveDeclaration :=
  match made with
  | Ok (_, d, _) => d
  | Err _ => {| format := ""; archive_digest := ""; compressedSize := 0; decompressedSize := 0; memberCount := 0;
                topLevelPrefix := ""; strictProfile := "" |}
  end.
Definition entries : list ReleaseFileEntry := match made with Ok (_, _, l) => l | Err _ => [] end.

Definition manifest : ExtractableReleaseManifest := {|
  schemaVersion := "2.0.0"; product := "baby-quirt"; repository := "StealthEyeLLC/baby-quirt";
  releaseVersion := "1.0.0"; sourceDateEpoch := 1700000000; nodeVersion := "24.18.0";
  archive := declaration; files := entries |}.

Definition limits : StrictArchiveLimits :=
  {| maxCompressedBytes := 4096; maxDecompressedBytes := 4096; maxFileBytes := 64; maxMembers := 8 |}.

Definition ok_or {A} (d : A) (r : AR A) : A := match r with Ok a => a | Err _ => d end.

Definition expected : gmap string ReleaseFileEntry := ok_or ∅ (validateExtractableManifest manifest limits).

Definition chunks : list buffer := [take 700 bytes; drop 700 bytes].
Definition state : Extractor := ok_or fresh (write_all manifest expected limits fresh chunks).

Definition destination_after : destination :=
  DExtracted "app" (<["" := NDirectory 493 (Some 1700000000)]> {["run" := NFile 493 [104; 105] (Some 1700000000)]}).
End Demo.

Lemma chunks_do_not_matter_witness :
  @write_all toy_crypto Demo.manifest Demo.expected Demo.limits fresh Demo.chunks = Ok Demo.state /\
  @write toy_crypto Demo.manifest Demo.expected Demo.limits fresh (concat Demo.chunks) = Ok Demo.state.
Proof.
  assert (H : @write_all toy_crypto Demo.manifest Demo.expected Demo.limits fresh Demo.chunks = Ok Demo.state)
    by (vm_compute; exact eq_refl).
  split; [exact H|].
  refine (proj1 (@chunks_do_not_matter toy_crypto Demo.manifest Demo.expected Demo.limits Demo.chunks Demo.state _ _) H);
    vm_compute; discriminate.
Defined.


Lemma accepted_release_is_manifest_witness :
  exists archive_bytes expected t,
    Some Demo.bytes = Some archive_bytes /\
    @hashFile toy_crypto archive_bytes = archive_digest Demo.declaration /\
    Z.of_nat (length archive_bytes) = compressedSize Demo.declaration /\
    validateExtractableManifest Demo.manifest Demo.limits = Ok expected /\
    Demo.destination_after = DExtracted (prefix Demo.manifest) t /\
    @listed toy_crypto (t !! "run"%string) (expected !! "run"%string).
Proof.
  destruct (@accepted_release_is_manifest toy_crypto toy_gzip (Some Demo.bytes) DAbsent Demo.manifest Demo.limits
    (prefix Demo.manifest, @hashFile toy_crypto Demo.bytes) Demo.destination_after) as (b & e & t & H1 & H2 & H3 & H4 & H5 & H6);
    [vm_compute; exact eq_refl|].
  exists b, e, t. repeat (split; [assumption|]). apply H6. discriminate.
Defined.
