(* ===== verification/Release.v ===== *)
(** * A release survives the archive

    The deterministic writer ([Tar.v]) followed by the strict extractor ([Extractor.v]): the archive
    that the writer makes of a source tree is accepted, and the extracted tree is the source tree. *)

From Stdlib Require Import Sorted.
From S2P Require Import Prelude Bytes Json Platform ArchiveContract Tar Extractor.

#[global] Open Scope Z_scope.

(** ** Source trees *)

(** The node at a path below a node. *)
Fixpoint node_at (n : source_node) (parts : list string) : option source_node :=
  match parts with
  | [] => Some n
  | s :: parts =>
      match n with
      | SDirectory _ children =>
          match List.find (fun kv => fst kv === s) children with
          | Some kv => node_at (snd kv) parts
          | None => None
          end
      | _ => None
      end
  end.

(** A file system: the names of a directory are distinct, not empty and without slashes. *)
Fixpoint named (n : source_node) : Prop :=
  match n with
  | SDirectory _ children =>
      NoDup (List.map fst children) /\
      foldr (fun kv P => (is_name (fst kv) /\ named (snd kv)) /\ P) True children
  | _ => True
  end.

Section Source_ind.
Context (P : source_node -> Prop) (Hfile : forall m c, P (SFile m c)) (Hlink : P SLink) (Hspecial : P SSpecial)
  (Hdirectory : forall m children, Forall (fun kv => P (snd kv)) children -> P (SDirectory m children)).

Fixpoint source_nested_ind (n : source_node) : P n :=
  match n with
  | SFile m c => Hfile m c
  | SLink => Hlink
  | SSpecial => Hspecial
  | SDirectory m children =>
      Hdirectory m children
        ((fix go (l : list (string * source_node)) : Forall (fun kv => P (snd kv)) l :=
            match l with
            | [] => List.Forall_nil _
            | kv :: l => List.Forall_cons _ kv l (source_nested_ind (snd kv)) (go l)
            end) children)
  end.
End Source_ind.

Lemma named_child m children s n : named (SDirectory m children) -> (s, n) ∈ children -> is_name s /\ named n.
Proof.
  cbn [named]. intros [_ H] Hin. induction children as [|kv l IH]; [by apply not_elem_of_nil in Hin|].
  cbn in H. destruct H as [H1 H2]. apply elem_of_cons in Hin as [<-|Hin]; [done|by apply IH].
Qed.

Lemma find_child m children s n :
  named (SDirectory m children) -> (s, n) ∈ children -> List.find (fun kv => fst kv === s) children = Some (s, n).
Proof.
  cbn [named]. intros [Hnd _] Hin. induction children as [|kv l IH]; [by apply not_elem_of_nil in Hin|].
  cbn in Hnd. apply NoDup_cons in Hnd as [Hx Hnd]. cbn [List.find].
  apply elem_of_cons in Hin as [<-|Hin]; [by rewrite bool_decide_eq_true_2|].
  rewrite bool_decide_eq_false_2; [by apply IH|]. intros E. apply Hx. rewrite E.
  apply list_elem_of_In, in_map_iff. exists (s, n). split; [done|by apply list_elem_of_In].
Qed.

Lemma found_child (children : props source_node) s kv :
  List.find (fun kv => fst kv === s) children = Some kv -> kv ∈ children /\ fst kv = s.
Proof. intros [H1 H2]%find_Some_elem. split; [done|by apply bool_decide_eq_true in H2]. Qed.

Lemma node_at_names n parts k : named n -> node_at n parts = Some k -> Forall is_name parts /\ named k.
Proof.
  revert n. induction parts as [|s parts IH]; intros n Hn; cbn [node_at]; [by intros [= <-]|].
  destruct n as [| m children | |]; try done. destruct (List.find _ children) as [[s' n]|] eqn:Hf; [|done].
  apply found_child in Hf as [Hin <-]. destruct (named_child _ _ _ _ Hn Hin) as [Hs Hc].
  intros H. destruct (IH _ Hc H). split; [by constructor|done].
Qed.

Lemma node_at_app n p q : node_at n (p ++ q) = (k ← node_at n p; node_at k q).
Proof.
  revert n. induction p as [|s p IH]; intros n; [done|]. cbn [app node_at].
  destruct n as [| m children | |]; try done. destruct (List.find _ children); [apply IH|done].
Qed.

(** ** The entries of a tree *)

Section Entries.
Context {C : Crypto}.

(** The entry of a node. *)
Definition entry_of (path : string) (n : source_node) : SourceEntry :=
  match n with
  | SFile m content =>
      {| e_path := path; e_type := file; e_mode := Z.land m 511; e_size := Z.of_nat (length content);
         e_digest := hashFile content; e_content := content |}
  | SDirectory m _ =>
      {| e_path := path; e_type := directory; e_mode := Z.land m 511; e_size := 0;
         e_digest := hashFile []; e_content := [] |}
  | _ => {| e_path := path; e_type := file; e_mode := 0; e_size := 0; e_digest := ""; e_content := [] |}
  end.

Definition regular (n : source_node) : bool := match n with SFile _ _ | SDirectory _ _ => true | _ => false end.

Lemma collect_Ok {A} (l : list (AR (list A))) x :
  collect l = Ok x ->
  (forall r, r ∈ l -> exists y, r = Ok y /\ forall a, a ∈ y -> a ∈ x) /\ (forall a, a ∈ x -> exists y, Ok y ∈ l /\ a ∈ y).
Proof using.
  revert x. induction l as [|r l IH]; intros x; cbn [collect].
  - intros [= <-]. split; [intros r H; by apply not_elem_of_nil in H|intros a H; by apply not_elem_of_nil in H].
  - intros (y & -> & (z & Hz & [= <-])%bind_Ok)%bind_Ok. destruct (IH z Hz) as [H1 H2]. split.
    + intros r' [->|Hr]%elem_of_cons; [exists y; split; [done|intros; apply elem_of_app; by left]|].
      destruct (H1 r' Hr) as (y' & -> & Hy). exists y'. split; [done|]. intros a Ha. apply elem_of_app. right. by apply Hy.
    + intros a [Ha|Ha]%elem_of_app; [exists y; split; [by left|done]|].
      destruct (H2 a Ha) as (y' & Hy & ?). exists y'. split; [by right|done].
Qed.

(** The entries below a directory: those of its children, whatever the order. *)
Lemma collect_children {A} (f : string -> source_node -> AR (list A)) (children : props source_node) x :
  collect (List.map snd (sort_by str_ltb (List.map (fun kv => (fst kv, f (fst kv) (snd kv))) children))) = Ok x ->
  (forall s n, (s, n) ∈ children -> exists y, f s n = Ok y /\ forall a, a ∈ y -> a ∈ x) /\
  (forall a, a ∈ x -> exists s n y, (s, n) ∈ children /\ f s n = Ok y /\ a ∈ y).
Proof using.
  intros [H1 H2]%collect_Ok.
  assert (Hin : forall r, r ∈ List.map snd (sort_by str_ltb (List.map (fun kv => (fst kv, f (fst kv) (snd kv))) children)) <->
    exists s n, (s, n) ∈ children /\ r = f s n).
  { intros r. rewrite list_elem_of_In, in_map_iff. split.
    - intros (kv & <- & Hk%list_elem_of_In). rewrite sort_by_perm in Hk.
      apply list_elem_of_In, in_map_iff in Hk as ([s n] & <- & Hk%list_elem_of_In). by exists s, n.
    - intros (s & n & Hk & ->). exists (s, f s n). split; [done|]. apply list_elem_of_In. rewrite sort_by_perm.
      apply list_elem_of_In, in_map_iff. exists (s, n). split; [done|by apply list_elem_of_In]. }
  split.
  - intros s n Hk. apply H1, Hin. by exists s, n.
  - intros a (y & Hy & Ha)%H2. apply Hin in Hy as (s & n & Hk & E). by exists s, n, y.
Qed.

Lemma visit_complete n base l parts k :
  named n -> base <> [] -> Forall is_name base -> visit (join base) n = Ok l -> node_at n parts = Some k ->
  regular k = true /\ entry_of (join (base ++ parts)) k ∈ l.
Proof using.
  revert n base l. induction parts as [|s parts IH]; intros n base l Hn Hne Hb Hv; cbn [node_at].
  - intros [= <-]. rewrite app_nil_r. destruct n; cbn [visit] in Hv; apply bind_Ok in Hv as (_ & _ & Hv); try done;
      apply require_bind in Hv as [_ Hv].
    + injection Hv as <-. split; [done|by left].
    + apply bind_Ok in Hv as (below & _ & [= <-]). split; [done|by left].
  - destruct n as [| m children | |]; try done. destruct (List.find _ children) as [[s' n]|] eqn:Hf; [|done].
    apply found_child in Hf as [Hin E]. cbn in E. subst s'. destruct (named_child _ _ _ _ Hn Hin) as [Hs Hc].
    cbn [snd]. intros Hk. cbn [visit] in Hv. apply bind_Ok in Hv as (_ & _ & Hv). apply require_bind in Hv as [_ Hv].
    apply bind_Ok in Hv as (below & Hbelow & [= <-]).
    apply (collect_children (fun s n => visit (path_join (join base) s) n)) in Hbelow as [H1 _].
    destruct (H1 s n Hin) as (y & Hy & Hsub). rewrite path_join_join in Hy by done.
    destruct (IH n (base ++ [s]) y Hc) as [Hr Ha]; try done.
    { by destruct base. }
    { apply Forall_app. split; [done|by apply Forall_singleton]. }
    split; [done|]. right. apply Hsub. by rewrite <- app_assoc in Ha.
Qed.

Lemma visit_sound n : forall base l e,
  named n -> base <> [] -> Forall is_name base -> visit (join base) n = Ok l -> e ∈ l ->
  exists parts k, node_at n parts = Some k /\ regular k = true /\ e = entry_of (join (base ++ parts)) k.
Proof using.
  induction n as [m c| | |m children IH] using source_nested_ind; intros base l e Hn Hne Hb Hv He;
    cbn [visit] in Hv; apply bind_Ok in Hv as (_ & _ & Hv); try done; apply require_bind in Hv as [_ Hv].
  - injection Hv as <-. apply list_elem_of_singleton in He as ->. exists [], (SFile m c). by rewrite app_nil_r.
  - apply bind_Ok in Hv as (below & Hbelow & [= <-]). apply elem_of_cons in He as [->|He].
    + exists [], (SDirectory m children). by rewrite app_nil_r.
    + apply (collect_children (fun s n => visit (path_join (join base) s) n)) in Hbelow as [_ H2].
      destruct (H2 e He) as (s & n & y & Hin & Hy & Hey). destruct (named_child _ _ _ _ Hn Hin) as [Hs Hc].
      rewrite path_join_join in Hy by done. rewrite Forall_forall in IH.
      destruct (IH (s, n) Hin (base ++ [s]) y e) as (parts & k & Hk & Hr & ->); try done.
      { by destruct base. }
      { apply Forall_app. split; [done|by apply Forall_singleton]. }
      exists (s :: parts), k. cbn [node_at]. rewrite (find_child m children s n Hn Hin). by rewrite <- app_assoc.
Qed.

(** *** Order *)

Definition not_after (a b : SourceEntry) : Prop := str_ltb (e_path b) (e_path a) = false.

Lemma insert_sorted (kv : string * SourceEntry) l :
  StronglySorted (fun a b => str_ltb (fst b) (fst a) = false) l ->
  StronglySorted (fun a b => str_ltb (fst b) (fst a) = false) (insert_by str_ltb kv l).
Proof using.
  induction 1 as [|a l Hs IH Ha]; cbn [insert_by]; [by repeat constructor|].
  destruct (str_ltb (fst kv) (fst a)) eqn:Hlt.
  - constructor; [by constructor|]. constructor; [by apply str_ltb_asym|]. rewrite List.Forall_forall in *.
    intros b Hb. destruct (str_ltb (fst b) (fst kv)) eqn:Hb'; [|done].
    pose proof (Ha b Hb) as E. by rewrite (str_ltb_trans _ _ _ Hb' Hlt) in E.
  - constructor; [done|]. rewrite List.Forall_forall in *. intros b Hb%list_elem_of_In.
    rewrite insert_by_perm in Hb. apply elem_of_cons in Hb as [->|Hb]; [done|]. by apply Ha, list_elem_of_In.
Qed.

Lemma byPath_sorted l : StronglySorted not_after (byPath l).
Proof using.
  unfold byPath, sort_by.
  assert (H : StronglySorted (fun a b => str_ltb (fst b) (fst a) = false)
      (foldr (insert_by str_ltb) [] (List.map (fun e => (e_path e, e)) l)) /\
    Forall (fun kv => fst kv = e_path (snd kv)) (foldr (insert_by str_ltb) [] (List.map (fun e => (e_path e, e)) l))).
  { induction l as [|e l [IH1 IH2]]; [by split; constructor|]. cbn [List.map foldr].
    split; [by apply insert_sorted|]. rewrite insert_by_perm. by constructor. }
  destruct H as [H1 H2]. induction H1 as [|a k Hs IH Ha]; [constructor|]. cbn [List.map].
  apply Forall_cons in H2 as [E H2]. constructor; [by apply IH|].
  rewrite List.Forall_forall in *. intros b (kv & <- & Hb)%in_map_iff. unfold not_after.
  rewrite <- E, <- (H2 kv Hb). by apply Ha.
Qed.

Lemma byPath_perm l : Permutation (byPath l) l.
Proof using.
  unfold byPath. rewrite sort_by_perm, List.map_map. cbn. by rewrite List.map_id.
Qed.

(** What comes before the path of an entry is before the entry. *)
Lemma sorted_before done e rest f :
  StronglySorted not_after (done ++ e :: rest) -> f ∈ done ++ e :: rest ->
  str_ltb (e_path f) (e_path e) = true -> f ∈ done.
Proof using.
  intros Hs Hf Hlt. apply elem_of_app in Hf as [Hf|Hf]; [done|]. exfalso.
  apply elem_of_cons in Hf as [->|Hf]; [by rewrite str_ltb_irrefl in Hlt|].
  induction done as [|d l IH]; cbn in Hs.
  - inversion Hs as [|? ? _ H]; subst. rewrite List.Forall_forall in H.
    specialize (H f (proj1 (list_elem_of_In _ _) Hf)). unfold not_after in H. congruence.
  - inversion Hs; subst. by apply IH.
Qed.

Lemma sorted_after done e rest f :
  StronglySorted not_after (done ++ e :: rest) -> f ∈ done -> str_ltb (e_path e) (e_path f) = false.
Proof using.
  intros Hs Hf. induction done as [|d l IH]; [by apply not_elem_of_nil in Hf|]. cbn in Hs.
  inversion Hs as [|? ? Hs' H]; subst. apply elem_of_cons in Hf as [->|Hf]; [|by apply IH].
  rewrite List.Forall_forall in H. apply (H e). apply in_app_iff. right. by left.
Qed.

Lemma enumerate_spec children l :
  named (SDirectory 0 children) -> enumerate children = Ok l ->
  (forall parts k, parts <> [] -> node_at (SDirectory 0 children) parts = Some k ->
     regular k = true /\ entry_of (join parts) k ∈ l) /\
  (forall e, e ∈ l -> exists parts k, parts <> [] /\ node_at (SDirectory 0 children) parts = Some k /\
     regular k = true /\ e = entry_of (join parts) k) /\
  StronglySorted not_after l.
Proof using.
  intros Hn. unfold enumerate. intros (x & Hx & [= <-])%bind_Ok.
  apply (collect_children visit) in Hx as [H1 H2]. split_and!; [| |apply byPath_sorted].
  - intros [|s parts] k Hp; [done|]. cbn [node_at]. destruct (List.find _ children) as [[s' n]|] eqn:Hf; [|done].
    apply found_child in Hf as [Hin E]. cbn in E. subst s'. destruct (named_child _ _ _ _ Hn Hin) as [Hs Hc]. cbn [snd].
    intros Hk. destruct (H1 s n Hin) as (y & Hy & Hsub).
    destruct (visit_complete n [s] y parts k Hc) as [Hr He]; try done; [by apply Forall_singleton|].
    split; [done|]. rewrite byPath_perm. by apply Hsub.
  - intros e He. rewrite byPath_perm in He. destruct (H2 e He) as (s & n & y & Hin & Hy & Hey).
    destruct (named_child _ _ _ _ Hn Hin) as [Hs Hc].
    destruct (visit_sound n [s] y e Hc) as (parts & k & Hk & Hr & ->); try done; [by apply Forall_singleton|].
    exists (s :: parts), k. cbn [node_at]. by rewrite (find_child 0 children s n Hn Hin).
Qed.
End Entries.

(** ** The manifest of the writer *)

Lemma expected_files_spec limits l m0 m :
  expected_files limits l m0 = Ok m ->
  NoDup (List.map path l) /\ (forall e, e ∈ l -> m0 !! path e = None) /\
  (forall e, e ∈ l -> assertReleaseFileEntry e = Ok tt /\ size e <= maxFileBytes limits /\ m !! path e = Some e) /\
  (forall p, p ∉ List.map path l -> m !! p = m0 !! p) /\
  base.size m = (base.size m0 + length l)%nat.
Proof.
  revert m0. induction l as [|e l IH]; intros m0; cbn [expected_files].
  - intros [= <-]. split_and!; [constructor|intros e H; by apply not_elem_of_nil in H..|done|cbn; lia].
  - intros ([] & Ha & H)%bind_Ok. rewrite !ensure_bind in H. destruct H as (Hs & Hn & H).
    apply Z.leb_le in Hs. apply bool_decide_eq_true in Hn. destruct (IH _ H) as (H1 & H2 & H3 & H4 & H5).
    assert (Hx : path e ∉ List.map path l).
    { intros (e' & E & He)%list_elem_of_In%in_map_iff. pose proof (H2 e' ltac:(by apply list_elem_of_In)) as Hl.
      by rewrite E, lookup_insert in Hl; destruct (decide _). }
    cbn [List.map]. split_and!.
    + by constructor.
    + intros e' [->|He]%elem_of_cons; [done|]. pose proof (H2 e' He) as Hl.
      destruct (decide (path e = path e')) as [E|E]; [by rewrite <- E|by rewrite lookup_insert_ne in Hl].
    + intros e' [->|He]%elem_of_cons; [|by apply H3]. split_and!; [done|done|].
      rewrite H4 by done. by rewrite lookup_insert_eq.
    + intros p Hp. rewrite not_elem_of_cons in Hp. destruct Hp as [Hp1 Hp2].
      rewrite H4 by done. by rewrite lookup_insert_ne.
    + rewrite H5. rewrite map_size_insert_None by done. cbn [length]. lia.
Qed.

Definition file_of (e : SourceEntry) (m : string) : ReleaseFileEntry :=
  {| path := e_path e; type := e_type e; mode := m; size := e_size e; digest := e_digest e |}.

(** The manifest lists an entry as the writer describes it. *)
Definition listed_entry (expected : gmap string ReleaseFileEntry) (limits : StrictArchiveLimits) (e : SourceEntry) : Prop :=
  exists m, formatMode (e_mode e) = Ok m /\ expected !! e_path e = Some (file_of e m) /\
    assertReleaseFileEntry (file_of e m) = Ok tt /\ e_size e <= maxFileBytes limits.

Lemma release_files_spec entries files limits expected :
  release_files entries = Ok files -> expected_files limits files ∅ = Ok expected ->
  NoDup (List.map e_path entries) /\ (forall e, e ∈ entries -> listed_entry expected limits e) /\
  (forall p, p ∉ List.map e_path entries -> expected !! p = None) /\ base.size expected = length entries.
Proof.
  intros Hr (H1 & _ & H3 & H4 & H5)%expected_files_spec. unfold release_files in Hr. apply result_mapM_Ok in Hr.
  assert (Hp : List.map path files = List.map e_path entries /\
    forall e, e ∈ entries -> exists m, formatMode (e_mode e) = Ok m /\ file_of e m ∈ files).
  { clear -Hr. induction Hr as [|e f entries files Hf Hr [IH1 IH2]]; [split; [done|intros e H; by apply not_elem_of_nil in H]|].
    apply bind_Ok in Hf as (m & Hm & [= <-]). cbn [List.map path]. rewrite IH1. split; [done|].
    intros e' [->|He]%elem_of_cons; [exists m; split; [done|by left]|].
    destruct (IH2 e' He) as (m' & ? & ?). exists m'. split; [done|by right]. }
  destruct Hp as [Hp Hm]. rewrite Hp in *. split_and!; [done| | |].
  - intros e He. destruct (Hm e He) as (m & Hf & Hin). destruct (H3 _ Hin) as (Ha & Hs & Hl). by exists m.
  - intros p Hn. rewrite H4 by done. apply lookup_empty.
  - rewrite H5, map_size_empty. cbn. by rewrite <- (List.length_map path), Hp, List.length_map.
Qed.

(** ** Paths *)

Lemma join_chars (q : ascii -> bool) l :
  all_chars q (join l) = true -> Forall (fun s => all_chars q s = true) l.
Proof.
  unfold all_chars. induction l as [|s l IH]; [constructor|]. destruct (decide (l = [])) as [->|Hne].
  - intros H. by apply Forall_singleton.
  - rewrite join_path_cons, !chars_app, !forallb_app, !andb_true_iff by done. intros (H1 & _ & H2).
    constructor; [done|by apply IH].
Qed.

Lemma join_split acc l : join (List.map of_chars (split_at "/"%char acc l)) = of_chars (rev acc ++ l).
Proof.
  revert acc. induction l as [|c l IH]; intros acc; cbn [split_at]; [by rewrite app_nil_r|].
  destruct (bool_decide (c = "/"%char)) eqn:Hc.
  - apply bool_decide_eq_true in Hc as ->. cbn [List.map]. rewrite join_path_cons.
    + rewrite IH. cbn [rev app]. by rewrite (of_chars_app (rev acc) ("/"%char :: l)).
    + intros E%map_eq_nil. by apply split_at_nonempty in E.
  - rewrite IH. cbn [rev]. by rewrite <- app_assoc.
Qed.

Lemma join_components p : join (components p) = p.
Proof. unfold components, Bytes.split. rewrite join_split. apply of_chars_chars. Qed.

Lemma path_char_part c : path_char c = true -> c <> "/"%char -> is_alnum c || one_of "._@-" c = true.
Proof.
  unfold path_char, one_of. destruct (is_alnum c); [done|]. cbn. intros H Hc.
  rewrite (bool_decide_eq_false_2 ("/"%char = c)) in H by congruence. by rewrite orb_false_l in H.
Qed.

(** The components of a listed path. *)
Lemma listed_parts e parts :
  assertReleaseFileEntry e = Ok tt -> path e = join parts -> parts <> [] -> Forall is_name parts ->
  components (path e) = parts /\ Forall (fun s => safe_part s = true) parts.
Proof.
  intros Ha Hp Hne Hn. unfold assertReleaseFileEntry in Ha. rewrite ensure_bind in Ha. destruct Ha as [Ha _].
  apply andb_true_iff in Ha as [[[Hs _]%andb_true_iff _]%andb_true_iff Hb]. unfold SAFE_RELATIVE_PATH in Hs.
  apply andb_true_iff in Hs as [_ Hc]. change (Bytes.split "/"%char (path e)) with (components (path e)) in Hb.
  rewrite Hp in *. rewrite components_join in * by done. split; [done|].
  apply join_chars in Hc. rewrite negb_true_iff, existsb_false in Hb. rewrite Forall_forall in *.
  intros s Hin. unfold safe_part. rewrite (Hb s Hin). cbn [negb andb]. specialize (Hc s Hin).
  destruct (Hn s Hin) as [_ Hsl]. unfold all_chars in *. rewrite forallb_forall in *. intros c Hcin.
  apply path_char_part; [by apply Hc|]. intros ->. by apply Hsl, list_elem_of_In.
Qed.

Lemma safe_parts_resolve l acc :
  Forall (fun s => safe_part s = true) l -> resolve_parts l acc = Some (rev acc ++ l).
Proof.
  intros H. revert acc. induction H as [|s l Hs Hl IH]; intros acc; cbn [resolve_parts]; [by rewrite app_nil_r|].
  unfold safe_part, bad_part in Hs. apply andb_true_iff in Hs as [Hs _].
  apply negb_true_iff, orb_false_iff in Hs as [[H1 H2]%orb_false_iff H3]. rewrite H1, H2, H3. cbn [orb].
  rewrite IH. cbn [rev]. by rewrite <- app_assoc.
Qed.

Lemma target_join l : l <> [] -> Forall (fun s => safe_part s = true) l -> target_path l = Ok (join l).
Proof. intros Hl Hs. unfold target_path. rewrite safe_parts_resolve by done. by destruct l. Qed.

(** The names of a release are safe below its prefix, which is a name. *)
Lemma prefix_name p : top_level_name p = true -> is_name p /\ safe_part p = true.
Proof.
  unfold top_level_name. destruct p as [|c p]; [done|]. cbn [chars]. intros [Hc Hp]%andb_true_iff.
  assert (Hn : forall d, name_char d = true -> is_alnum d || one_of "._@-" d = true).
  { unfold name_char, one_of. intros d. destruct (is_alnum d); [done|]. cbn. intros H. rewrite !orb_true_iff in *. tauto. }
  rewrite forallb_forall in Hp. split; [split|].
  - discriminate.
  - cbn [chars]. rewrite not_elem_of_cons. split; [intros <-; discriminate|].
    intros Hin%list_elem_of_In. specialize (Hp _ Hin). discriminate.
  - unfold safe_part. apply andb_true_iff. split.
    + unfold bad_part. apply negb_true_iff. rewrite !orb_false_iff, !bool_decide_eq_false.
      split_and!; intros [=]; subst; discriminate.
    + unfold all_chars. cbn [chars forallb]. rewrite Hc. apply forallb_forall. intros d Hd. by apply Hn, Hp.
Qed.

Lemma safe_below p parts :
  top_level_name p = true -> parts <> [] -> Forall is_name parts -> Forall (fun s => safe_part s = true) parts ->
  p +:+ "/" +:+ join parts = join (p :: parts) /\ safe_path (p +:+ "/" +:+ join parts) = true.
Proof.
  intros [Hn Hs]%prefix_name Hne Hp Hsafe. rewrite join_path_cons by done. split; [done|].
  rewrite <- join_path_cons by done. unfold safe_path. change (forallb safe_part (components (join (p :: parts))) = true).
  rewrite components_join by (done || by constructor). cbn [forallb]. rewrite Hs. apply forallb_forall.
  rewrite Forall_forall in Hsafe. intros s Hin. by apply Hsafe, list_elem_of_In.
Qed.

(** The checks of [startEntry] on the directories above an entry. *)
Lemma parents_seen_join types q l :
  Forall is_name (q ++ l) ->
  (forall a b, l = a ++ b -> a <> [] -> types !! join (q ++ a) = Some directory) -> parents_seen types (join q) l = true.
Proof.
  revert q. induction l as [|s l IH]; intros q Hn H; [done|]. cbn [parents_seen].
  change (if bool_decide (join q = ""%string) then s else join q +:+ "/" +:+ s) with (path_join (join q) s).
  rewrite path_join_join by by apply Forall_app in Hn as [? _].
  apply andb_true_iff. split; [apply bool_decide_eq_true; by apply (H [s] l)|].
  apply IH; [by rewrite <- app_assoc|]. intros a b -> Ha. rewrite <- app_assoc. by apply (H (s :: a) b).
Qed.

(** ** Reading a member *)

Lemma land_511 m : 0 <= Z.land m 511 < 512.
Proof. change 511 with (Z.ones 9). rewrite Z.land_ones by lia. apply Z.mod_pos_bound. lia. Qed.

Section Inserts.
Context {A : Type} (f : SourceEntry -> A).

Definition inserts (l : list SourceEntry) (m : gmap string A) : gmap string A :=
  fold_left (fun t e => <[e_path e := f e]> t) l m.

Lemma inserts_snoc l e m : inserts (l ++ [e]) m = <[e_path e := f e]> (inserts l m).
Proof using. unfold inserts. by rewrite fold_left_app. Qed.

Lemma inserts_other l m p : p ∉ List.map e_path l -> inserts l m !! p = m !! p.
Proof using.
  revert m. induction l as [|e l IH]; intros m Hp; [done|]. cbn [List.map] in Hp. rewrite not_elem_of_cons in Hp.
  destruct Hp as [H1 H2]. cbn. change (inserts l (<[e_path e := f e]> m) !! p = m !! p). rewrite IH by done.
  by rewrite lookup_insert_ne.
Qed.

Lemma inserts_elem l m e : NoDup (List.map e_path l) -> e ∈ l -> inserts l m !! e_path e = Some (f e).
Proof using.
  revert m. induction l as [|e' l IH]; intros m; [intros _ H; by apply not_elem_of_nil in H|].
  cbn [List.map]. intros [Hx Hn]%NoDup_cons [->|He]%elem_of_cons.
  - change (inserts l (<[e_path e' := f e']> m) !! e_path e' = Some (f e')). rewrite inserts_other by done.
    by rewrite lookup_insert_eq.
  - change (inserts l (<[e_path e' := f e']> m) !! e_path e = Some (f e)). by apply IH.
Qed.

Lemma inserts_inv l m p a :
  inserts l m !! p = Some a -> (m !! p = Some a /\ p ∉ List.map e_path l) \/ exists e, e ∈ l /\ e_path e = p /\ f e = a.
Proof using.
  induction l as [|e l IH] using rev_ind; [intros H; left; split; [done|apply not_elem_of_nil]|].
  rewrite inserts_snoc, List.map_app. destruct (decide (e_path e = p)) as [<-|Hne].
  - rewrite lookup_insert_eq. intros [= <-]. right. exists e. split; [apply elem_of_app; right; by left|done].
  - rewrite lookup_insert_ne by done. intros [[H1 H2]|(e' & He & H)]%IH.
    + left. split; [done|]. rewrite elem_of_app. intros [?|H%list_elem_of_singleton]; [done|by symmetry in H].
    + right. exists e'. split; [apply elem_of_app; by left|done].
Qed.
End Inserts.

Section Reading.
Context {C : Crypto} (manifest : ExtractableReleaseManifest) (expected : gmap string ReleaseFileEntry)
  (limits : StrictArchiveLimits).

Abbreviation feed := (Extractor.consume manifest expected limits).
Abbreviation pfx := (Extractor.prefix manifest).

(** A whole header is read as a block. *)
Lemma feed_header x h :
  headerBuffer x = [] -> activeFile x = None -> ended x = false -> length h = 512%nat ->
  feed x h = header_block manifest expected limits h x.
Proof using.
  intros Hb Ha He Hl. rewrite feed_turn; [|unfold hb_ok; rewrite Hb; cbn; lia|by intros ->|done].
  unfold consume_turn. rewrite Ha. unfold header_turn. cbv zeta. rewrite Hb. change (512 - length [])%nat with 512%nat.
  rewrite Hl, Nat.min_id. cbn [app]. rewrite take_ge, drop_ge, Hl, Nat.eqb_refl by lia.
  assert (with_header [] x = x) as -> by (rewrite <- Hb; by destruct x).
  by destruct (header_block manifest expected limits h x).
Qed.

(** Content that is all there. *)
Lemma feed_content x a c :
  headerBuffer x = [] -> activeFile x = Some a -> ended x = false -> a_remaining a = Z.of_nat (length c) -> c <> [] ->
  let y := with_active (Some (more_content a (length c))) (append_content (a_path a) c (tree x)) x in
  feed x c = if a_padding a =? 0 then finishActiveFile manifest y else Ok y.
Proof using.
  intros Hb Ha He Hr Hc y. assert (0 < length c)%nat by (by destruct c; [|cbn; lia]).
  rewrite feed_turn; [|unfold hb_ok; rewrite Hb; cbn; lia|done|done].
  unfold consume_turn. rewrite Ha, Hr. replace (0 <? Z.of_nat (length c)) with true by (symmetry; apply Z.ltb_lt; lia).
  unfold content_turn. cbv zeta. rewrite Hr, Z.min_id, Nat2Z.id, take_ge, drop_ge by lia. fold y.
  unfold more_content at 1 2. cbn [a_remaining a_padding]. rewrite Hr, Z.sub_diag, Z.eqb_refl. cbn [andb].
  destruct (a_padding a =? 0); [|done]. by destruct (finishActiveFile manifest y).
Qed.

Lemma feed_padding x a n :
  headerBuffer x = [] -> activeFile x = Some a -> ended x = false -> a_remaining a = 0 ->
  a_padding a = Z.of_nat n -> (0 < n)%nat ->
  feed x (alloc n) = finishActiveFile manifest (with_active (Some (more_padding a n)) (tree x) x).
Proof using.
  intros Hb Ha He Hr Hp Hn. rewrite feed_turn; [|unfold hb_ok; rewrite Hb; cbn; lia|by destruct n; [lia|]|done].
  unfold consume_turn. rewrite Ha, Hr. change (0 <? 0) with false. cbn iota.
  rewrite Hp. replace (0 <? Z.of_nat n) with true by (symmetry; apply Z.ltb_lt; lia).
  unfold padding_turn. cbv zeta. unfold alloc. rewrite Hp, length_replicate, Z.min_id, Nat2Z.id.
  rewrite take_ge, drop_ge by by rewrite length_replicate.
  assert (forallb zero (replicate n 0) = true) as ->.
  { apply forallb_forall. intros b Hin%list_elem_of_In. by apply elem_of_replicate in Hin as [-> _]. }
  cbn [ensure require mbind result_bind]. unfold more_padding at 1. cbn [a_padding].
  rewrite Hp, Z.sub_diag, Z.eqb_refl.
  by destruct (finishActiveFile manifest (with_active (Some (more_padding a n)) (tree x) x)).
Qed.

(** *** The states between two members *)

Definition node_of (e : SourceEntry) : node :=
  match e_type e with
  | file => NFile (e_mode e) (e_content e) (Some (epoch manifest))
  | directory => NDirectory (e_mode e) None
  end.

Definition is_dir (e : SourceEntry) : bool := bool_decide (e_type e = directory).

Definition seen_of (l : list SourceEntry) : gset string :=
  fold_left (fun s e => {[pfx +:+ "/" +:+ e_path e]} ∪ s) l ({[pfx]} ∪ ∅).

Definition state_of (b : Z) (done : list SourceEntry) : Extractor := {|
  headerBuffer := []; activeFile := None; zeroBlocks := 0; ended := false; decompressedBytes := b;
  x_memberCount := 1 + Z.of_nat (length done);
  seen := seen_of done;
  seenTypes := inserts e_type done {["" := directory]};
  directories := ""%string :: List.map e_path (List.filter is_dir done);
  tree := inserts node_of done {["" := NDirectory 493 None]}
|}.

Lemma seen_of_elem l s : s ∈ seen_of l <-> s = pfx \/ exists e, e ∈ l /\ s = pfx +:+ "/" +:+ e_path e.
Proof using.
  unfold seen_of. induction l as [|e l IH] using rev_ind.
  - cbn. rewrite elem_of_union, elem_of_singleton. split; [intros [->|H%elem_of_empty]; [by left|done]|].
    intros [->|(e & H%not_elem_of_nil & _)]; [by left|done].
  - rewrite fold_left_app. cbn [fold_left]. rewrite elem_of_union, elem_of_singleton, IH. split.
    + intros [->|[->|(e' & He & ->)]]; [right; exists e; split; [apply elem_of_app; right; by left|done]|by left|].
      right. exists e'. split; [apply elem_of_app; by left|done].
    + intros [->|(e' & He & ->)]; [right; by left|]. apply elem_of_app in He as [He|He%list_elem_of_singleton].
      * right. right. by exists e'.
      * subst e'. by left.
Qed.

Lemma state_snoc b done e :
  state_of b (done ++ [e]) = {|
    headerBuffer := []; activeFile := None; zeroBlocks := 0; ended := false; decompressedBytes := b;
    x_memberCount := 1 + Z.of_nat (length done) + 1;
    seen := {[pfx +:+ "/" +:+ e_path e]} ∪ seen_of done;
    seenTypes := <[e_path e := e_type e]> (inserts e_type done {["" := directory]});
    directories := (""%string :: List.map e_path (List.filter is_dir done)) ++ (if is_dir e then [e_path e] else []);
    tree := <[e_path e := node_of e]> (inserts node_of done {["" := NDirectory 493 None]}) |}.
Proof using.
  unfold state_of. rewrite !inserts_snoc, length_app, Nat2Z.inj_add, Z.add_assoc. unfold seen_of.
  rewrite fold_left_app. cbn [fold_left length]. f_equal. rewrite List.filter_app, List.map_app. cbn [List.filter].
  by destruct (is_dir e).
Qed.

Lemma entry_of_facts path k :
  regular k = true ->
  e_path (entry_of path k) = path /\ 0 <= e_mode (entry_of path k) < 512 /\
  e_digest (entry_of path k) = hashFile (e_content (entry_of path k)) /\
  e_size (entry_of path k) = Z.of_nat (length (e_content (entry_of path k))) /\
  (e_type (entry_of path k) = directory -> e_content (entry_of path k) = []).
Proof using. destruct k; cbn; try done; intros _; (split_and!; [done|apply land_511|apply land_511|done..]). Qed.

(** *** One member *)

Context (children : props source_node) (entries : list SourceEntry).
Context (Htop : top_level_name pfx = true) (Hroot : named (SDirectory 0 children))
  (Henum : enumerate children = Ok entries) (Hmax : Z.of_nat (length entries) + 1 <= maxMembers limits)
  (Hnodup : NoDup (List.map e_path entries)) (Hlisted : forall e, e ∈ entries -> listed_entry expected limits e).

(** Where an entry comes from. *)
Lemma entry_origin e :
  e ∈ entries ->
  exists parts k, parts <> [] /\ node_at (SDirectory 0 children) parts = Some k /\ regular k = true /\
    e = entry_of (join parts) k /\ e_path e = join parts /\ Forall is_name parts /\ components (e_path e) = parts /\
    Forall (fun s => safe_part s = true) parts.
Proof using Hroot Henum Hlisted.
  intros He. destruct (enumerate_spec _ _ Hroot Henum) as (_ & H & _).
  destruct (H e He) as (parts & k & Hne & Hk & Hr & E). exists parts, k.
  destruct (node_at_names _ _ _ Hroot Hk) as [Hn _]. destruct (entry_of_facts (join parts) k Hr) as [Hp _].
  rewrite <- E in Hp. destruct (Hlisted e He) as (m & _ & _ & Ha & _).
  destruct (listed_parts (file_of e m) parts Ha Hp Hne Hn). done.
Qed.

Lemma entry_facts e :
  e ∈ entries -> 0 <= e_mode e < 512 /\ e_digest e = hashFile (e_content e) /\
  e_size e = Z.of_nat (length (e_content e)) /\ (e_type e = directory -> e_content e = []) /\ e_path e <> ""%string.
Proof using Hroot Henum Hlisted.
  intros (parts & k & Hne & _ & Hr & E & Hp & Hn & _)%entry_origin.
  destruct (entry_of_facts (join parts) k Hr) as (_ & H). rewrite <- E in H. split_and!; try tauto.
  rewrite Hp. by apply join_nonempty.
Qed.

(** The directories above an entry come before it. *)
Lemma entry_parents done e rest a b :
  entries = done ++ e :: rest -> components (e_path e) = a ++ b -> a <> [] -> b <> [] ->
  exists d, d ∈ done /\ e_path d = join a /\ e_type d = directory.
Proof using Hroot Henum Hlisted.
  intros Hs Hc Ha Hb. assert (He : e ∈ entries) by (rewrite Hs; apply elem_of_app; right; by left).
  destruct (entry_origin e He) as (parts & k & _ & Hk & _ & _ & Hp & Hn & Hc' & _).
  rewrite Hc in Hc'. subst parts. rewrite node_at_app in Hk.
  destruct (node_at (SDirectory 0 children) a) as [d|] eqn:Hd; [|done]. cbn in Hk.
  destruct (enumerate_spec _ _ Hroot Henum) as (H1 & _ & Hsort). destruct (H1 a d Ha Hd) as [Hr Hin].
  assert (Ht : e_type (entry_of (join a) d) = directory) by (destruct b; [done|]; by destruct d).
  exists (entry_of (join a) d). split_and!; [|by apply entry_of_facts|done]. rewrite Hs in Hsort, Hin.
  eapply sorted_before; [exact Hsort|exact Hin|].
  destruct (entry_of_facts (join a) d Hr) as [-> _]. rewrite Hp. by apply str_ltb_join.
Qed.

Lemma done_nodup done e rest :
  entries = done ++ e :: rest -> NoDup (List.map e_path done) /\ e_path e ∉ List.map e_path done.
Proof using Hnodup.
  intros Hs. rewrite Hs, List.map_app in Hnodup. apply NoDup_app in Hnodup as (H1 & H2 & _). split; [done|].
  intros H. apply (H2 _ H). by left.
Qed.

Lemma done_not_root done e rest : entries = done ++ e :: rest -> ""%string ∉ List.map e_path done.
Proof using Hroot Henum Hlisted.
  intros Hs (d & Hd & Hin)%list_elem_of_In%in_map_iff. apply list_elem_of_In in Hin.
  assert (d ∈ entries) by (rewrite Hs; apply elem_of_app; by left).
  by destruct (entry_facts d) as (_ & _ & _ & _ & ?).
Qed.

Definition member_path (e : SourceEntry) : string := pfx +:+ "/" +:+ e_path e.

Lemma member_path_inj d e : member_path d = member_path e -> e_path d = e_path e.
Proof using.
  unfold member_path. intros H%(f_equal chars). rewrite !chars_app in H.
  apply app_inv_head in H. cbn in H. injection H as H. by apply chars_inj.
Qed.

Lemma member_path_not_prefix e : member_path e <> pfx.
Proof using.
  clear. unfold member_path. intros H%(f_equal (fun s => length (chars s))). rewrite !chars_app, !length_app in H.
  cbn [chars length] in H. lia.
Qed.

Lemma member_relative e :
  startsWith (member_path e) (pfx +:+ "/") = true /\
  slice_from (member_path e) (String.length (pfx +:+ "/")) = e_path e.
Proof using.
  assert (E : chars (member_path e) = chars (pfx +:+ "/") ++ chars (e_path e))
    by (unfold member_path; rewrite !chars_app; by rewrite <- app_assoc).
  split; [apply prefix_chars; by exists (chars (e_path e))|].
  unfold slice_from. rewrite E, <- length_chars, drop_app_length. apply of_chars_chars.
Qed.

(** The header of a member, as it is parsed. *)
Definition header_of (e : SourceEntry) : ParsedHeader := {|
  p_path := member_path e; p_mode := e_mode e; p_uid := 0; p_gid := 0;
  p_size := if bool_decide (e_type e = directory) then 0 else e_size e; p_mtime := epoch manifest; p_type := e_type e |}.

Lemma header_size e : e ∈ entries -> p_size (header_of e) = e_size e.
Proof using Hroot Henum Hlisted.
  intros (_ & _ & Hs & Hd & _)%entry_facts. cbn. destruct (e_type e) eqn:Ht; [done|].
  rewrite Hs, Hd by done. done.
Qed.

Lemma new_member done e rest :
  entries = done ++ e :: rest -> member_path e ∉ seen_of done.
Proof using Hnodup.
  intros Hs [H|(d & Hd & H)]%seen_of_elem; [by apply member_path_not_prefix in H|].
  apply member_path_inj in H. destruct (done_nodup _ _ _ Hs) as [_ Hx]. apply Hx. rewrite H.
  by apply list_elem_of_In, in_map, list_elem_of_In.
Qed.

Abbreviation types_of := (fun done => inserts e_type done {["" := directory]}).
Abbreviation tree_of := (fun done => inserts node_of done {["" := NDirectory 493 None]}).

Lemma no_conflict done e rest :
  entries = done ++ e :: rest -> conflict (e_path e) (types_of done) = false.
Proof using Hroot Henum Hlisted.
  intros Hs. unfold conflict. apply existsb_false. intros [s t] Hin%elem_of_map_to_list. cbn [fst].
  apply not_true_is_false. intros (r & Hr)%prefix_chars. apply inserts_inv in Hin as [[H0 _]|(d & Hd & <- & _)].
  - apply lookup_singleton_Some in H0 as [<- _]. rewrite chars_app in Hr. cbn in Hr.
    by destruct (chars (e_path e)).
  - destruct (enumerate_spec _ _ Hroot Henum) as (_ & _ & Hsort). rewrite Hs in Hsort.
    pose proof (sorted_after _ _ _ _ Hsort Hd) as Hlt. rewrite chars_app, <- app_assoc in Hr.
    assert (E : e_path d = e_path e +:+ of_chars ("/"%char :: r)).
    { apply chars_inj. rewrite Hr, chars_app, chars_of_chars. done. }
    rewrite E, str_ltb_app in Hlt by done. done.
Qed.

Lemma parents_ok done e rest :
  entries = done ++ e :: rest -> parents_seen (types_of done) "" (removelast (components (e_path e))) = true.
Proof using Hroot Henum Hlisted Hnodup.
  intros Hs. assert (He : e ∈ entries) by (rewrite Hs; apply elem_of_app; right; by left).
  destruct (entry_origin e He) as (parts & k & Hne & _ & _ & _ & _ & Hn & Hc & _). rewrite Hc.
  destruct parts as [|s parts _] using rev_ind; [done|]. rewrite removelast_last.
  apply (parents_seen_join _ [] parts); [cbn; by apply Forall_app in Hn as [? _]|].
  intros a b E Ha. cbn [app]. destruct (entry_parents done e rest a (b ++ [s])) as (d & Hd & Hp & Ht); try done.
  - by rewrite Hc, E, <- app_assoc.
  - by destruct b.
  - rewrite <- Hp, <- Ht. apply inserts_elem; [|done]. by eapply done_nodup.
Qed.

Lemma create_ok done e rest n :
  entries = done ++ e :: rest -> create_node (e_path e) n (tree_of done) = Ok (<[e_path e := n]> (tree_of done)).
Proof using Hroot Henum Hlisted Hnodup.
  intros Hs. assert (He : e ∈ entries) by (rewrite Hs; apply elem_of_app; right; by left).
  destruct (done_nodup _ _ _ Hs) as [Hd Hx]. destruct (entry_facts e He) as (_ & _ & _ & _ & Hr).
  unfold create_node. assert (Hn : tree_of done !! e_path e = None).
  { cbn beta. rewrite inserts_other by done. by apply lookup_singleton_ne. }
  rewrite Hn, bool_decide_eq_true_2 by done.
  assert (Hp : is_directory (tree_of done !! parent (e_path e)) = true); [|by rewrite Hp].
  destruct (entry_origin e He) as (parts & k & Hne & _ & _ & _ & _ & _ & Hc & _). unfold parent. rewrite Hc.
  destruct parts as [|s parts _] using rev_ind; [done|]. rewrite removelast_last. destruct (decide (parts = [])) as [->|Hp].
  - cbn [join]. rewrite inserts_other by by eapply done_not_root. by rewrite lookup_singleton_eq.
  - destruct (entry_parents done e rest parts [s]) as (d & Hin & Hj & Ht); try done.
    rewrite <- Hj, inserts_elem by done. unfold node_of. by rewrite Ht.
Qed.

(** The state once the checks of [startEntry] have passed, and the file it opens. *)
Definition entered (b : Z) (done : list SourceEntry) (e : SourceEntry) : Extractor :=
  with_type (e_path e) (e_type e)
    (with_member (1 + Z.of_nat (length done) + 1) ({[member_path e]} ∪ seen_of done) (state_of b done)).

Definition opened (e : SourceEntry) (m : string) : ActiveFile := {|
  a_path := e_path e; a_remaining := e_size e; a_padding := padding (e_size e); a_written := 0;
  a_expected := file_of e m |}.

Definition writing (b : Z) (done : list SourceEntry) (e : SourceEntry) (a : ActiveFile) (c : buffer) : Extractor :=
  with_active (Some a) (<[e_path e := NFile (e_mode e) c None]> (tree_of done)) (entered b done e).

Lemma startEntry_ok b done e rest m :
  entries = done ++ e :: rest -> formatMode (e_mode e) = Ok m -> expected !! e_path e = Some (file_of e m) ->
  e_size e <= maxFileBytes limits ->
  startEntry manifest expected limits (header_of e) (state_of b done) =
    match e_type e with
    | directory => Ok (state_of b (done ++ [e]))
    | file =>
        let y := writing b done e (opened e m) [] in
        if (e_size e =? 0) && (padding (e_size e) =? 0) then finishActiveFile manifest y else Ok y
    end.
Proof using Hroot Henum Hlisted Hnodup Hmax.
  intros Hs Hm Hx Hsize. assert (He : e ∈ entries) by (rewrite Hs; apply elem_of_app; right; by left).
  destruct (entry_facts e He) as (_ & Hdig & _ & Hdir & _).
  destruct (entry_origin e He) as (parts & k & Hne & _ & _ & _ & Hp & _ & Hc & Hsafe).
  destruct (member_relative e) as [Hstart Hrel].
  unfold startEntry. cbv zeta. rewrite header_size by done. cbn [p_path p_mode p_mtime p_type header_of].
  change (seen (with_member (x_memberCount (state_of b done) + 1) (seen (state_of b done)) (state_of b done)))
    with (seen_of done).
  rewrite ensure_true by (apply Z.leb_le; cbn [x_memberCount with_member state_of]; rewrite Hs, length_app in Hmax;
    cbn [length] in Hmax; lia).
  rewrite ensure_true by apply Z.eqb_refl.
  rewrite ensure_true by (apply bool_decide_eq_true; by eapply new_member).
  rewrite bool_decide_eq_false_2 by apply member_path_not_prefix.
  rewrite ensure_true by done. rewrite Hrel, Hx. cbn [mbind result_bind mode file_of type size].
  rewrite (parseMode_formatMode _ _ Hm). cbn [mbind result_bind].
  rewrite ensure_true by (rewrite bool_decide_eq_true_2, !Z.eqb_refl; done).
  rewrite ensure_true by by apply Z.leb_le.
  cbn [seenTypes with_member with_type state_of tree].
  rewrite ensure_true by by eapply parents_ok. rewrite ensure_true by by erewrite no_conflict.
  rewrite Hc, target_join, <- Hp by done. cbn [mbind result_bind].
  destruct (e_type e) eqn:Ht.
  - erewrite create_ok by exact Hs. cbn [mbind result_bind]. unfold writing, entered, opened. by rewrite Ht.
  - erewrite create_ok by exact Hs. cbn [mbind result_bind].
    rewrite ensure_true by (apply bool_decide_eq_true; cbn [digest file_of]; by rewrite Hdig, Hdir).
    rewrite state_snoc. unfold node_of, is_dir. rewrite Ht. rewrite bool_decide_eq_true_2 by done. reflexivity.
Qed.

(** Closing the file leaves the state after the member. *)
Lemma finish_ok b done e m a :
  e ∈ entries -> e_type e = file -> formatMode (e_mode e) = Ok m ->
  a_path a = e_path e -> a_written a = e_size e -> a_expected a = file_of e m ->
  finishActiveFile manifest (writing b done e a (e_content e)) = Ok (state_of b (done ++ [e])).
Proof using Hroot Henum Hlisted.
  intros He Ht Hm Hp Hw Hx. destruct (entry_facts e He) as (_ & Hdig & _).
  unfold finishActiveFile, writing. cbn [activeFile tree with_active]. rewrite Hp, Hw, Hx.
  assert (content_of (e_path e) (<[e_path e := NFile (e_mode e) (e_content e) None]> (tree_of done)) = e_content e) as ->
    by (unfold content_of; by rewrite lookup_insert_eq).
  rewrite ensure_true by apply Z.eqb_refl. rewrite ensure_true by by apply bool_decide_eq_true.
  cbn [mode file_of]. rewrite (parseMode_formatMode _ _ Hm). cbn [mbind result_bind].
  rewrite insert_insert_eq, state_snoc. unfold node_of, is_dir. rewrite Ht, bool_decide_eq_false_2 by done.
  rewrite app_nil_r. unfold entered, with_type. by rewrite Ht.
Qed.

Lemma writing_more b done e a a' c d :
  with_active (Some a') (append_content (e_path e) d (tree (writing b done e a c))) (writing b done e a c)
    = writing b done e a' (c ++ d).
Proof using.
  unfold writing. cbn [tree with_active]. unfold append_content. rewrite lookup_insert_eq, insert_insert_eq. done.
Qed.

Lemma state_hb b done : hb_ok (state_of b done).
Proof using. clear. unfold hb_ok. cbn. lia. Qed.

(** The content of a file and its padding. *)
Lemma feed_body b done e m :
  e ∈ entries -> e_type e = file -> formatMode (e_mode e) = Ok m -> e_content e <> [] ->
  feed (writing b done e (opened e m) []) (e_content e ++ alloc (Z.to_nat (padding (e_size e))))
    = Ok (state_of b (done ++ [e])).
Proof using Hroot Henum Hlisted.
  intros He Ht Hm Hne. destruct (entry_facts e He) as (_ & _ & Hsz & _).
  assert (Hok : forall a c, hb_ok (writing b done e a c)) by (intros; apply state_hb).
  assert (Hpad : 0 <= padding (e_size e) < 512) by (unfold padding; clear; apply Z.mod_pos_bound; lia).
  rewrite consume_app by done.
  rewrite (feed_content _ (opened e m)) by done. cbv zeta. change (a_path (opened e m)) with (e_path e).
  rewrite writing_more. cbn [app]. cbn [a_padding opened].
  set (a := more_content (opened e m) (length (e_content e))).
  assert (Ha : a_written a = e_size e /\ a_remaining a = 0) by (cbn; rewrite Hsz; clear; split; lia).
  destruct (padding (e_size e) =? 0) eqn:Hp.
  - apply Z.eqb_eq in Hp. rewrite Hp, (finish_ok b done e m) by (done || apply Ha). done.
  - apply Z.eqb_neq in Hp. cbn [mbind result_bind]. rewrite (feed_padding _ a).
    + change (finishActiveFile manifest (writing b done e (more_padding a (Z.to_nat (padding (e_size e)))) (e_content e))
        = Ok (state_of b (done ++ [e]))).
      by apply (finish_ok b done e m); try apply Ha.
    + done.
    + done.
    + done.
    + apply Ha.
    + cbn. clear -Hpad. lia.
    + clear -Hpad Hp. lia.
Qed.

(** Feeding a member moves to the state after it. *)
Lemma feed_member b done e rest bytes :
  entries = done ++ e :: rest -> tar_member pfx (epoch manifest) e = Ok bytes ->
  feed (state_of b done) bytes = Ok (state_of b (done ++ [e])).
Proof using All.
  intros Hs Hb. assert (He : e ∈ entries) by (rewrite Hs; apply elem_of_app; right; by left).
  destruct (entry_facts e He) as (Hmode & Hdig & Hsz & Hdir & Hne).
  destruct (entry_origin e He) as (parts & k & Hpne & _ & _ & _ & Hp & Hn & Hc & Hsafe).
  destruct (Hlisted e He) as (m & Hm & Hx & _ & Hmaxf).
  unfold tar_member in Hb. apply bind_Ok in Hb as (h & Hh & [= <-]).
  destruct (safe_below pfx parts Htop Hpne Hn Hsafe) as [_ Hsp]. rewrite <- Hp in Hsp.
  destruct (header_parsed _ _ _ _ _ _ Hsp (proj2 Hmode) Hh) as (Hl & Hz & Hparse).
  assert (Hstart : feed (state_of b done) h = startEntry manifest expected limits (header_of e) (state_of b done)).
  { rewrite feed_header by done. unfold header_block. rewrite Hz, ensure_true, Hparse by done. done. }
  erewrite startEntry_ok in Hstart by eassumption.
  pose proof (state_hb b done) as Hok.
  rewrite consume_app, Hstart by done. clear Hstart Hh Hparse.
  destruct (e_type e) eqn:Ht; cbn [bool_decide]; [|done].
  rewrite bool_decide_eq_true_2 by done. cbv zeta.
  destruct (e_content e) as [|c0 c] eqn:Hcont.
  - cbn [length] in Hsz. rewrite Hsz. change ((Z.of_nat 0 =? 0) && (padding (Z.of_nat 0) =? 0)) with true. cbn iota.
    change (Z.to_nat (padding (Z.of_nat 0))) with 0%nat. rewrite <- Hcont.
    rewrite (finish_ok b done e m) by done. cbn [mbind result_bind]. by rewrite Hcont.
  - rewrite <- Hcont. replace (e_size e =? 0) with false; [apply feed_body; [done..|by rewrite Hcont]|].
    symmetry. apply Z.eqb_neq. rewrite Hsz. clear. cbn [length]. lia.
Qed.

Lemma feed_members b done rest bytes :
  entries = done ++ rest -> tar_members pfx (epoch manifest) rest = Ok bytes ->
  feed (state_of b done) bytes = Ok (state_of b entries).
Proof using All.
  revert done bytes. induction rest as [|e rest IH]; intros done bytes Hs; cbn [tar_members].
  - intros [= <-]. by rewrite Hs, app_nil_r.
  - intros (m & Hm & (r & Hr & [= <-])%bind_Ok)%bind_Ok. rewrite consume_app by apply state_hb.
    rewrite (feed_member b done e rest m Hs Hm). cbn [mbind result_bind].
    apply IH; [by rewrite <- app_assoc|done].
Qed.

Lemma feed_root b h :
  tarHeader {| h_path := pfx; h_type := directory; h_mode := 493; h_size := 0; h_mtime := epoch manifest |} = Ok h ->
  feed (with_bytes b fresh) h = Ok (state_of b []).
Proof using Htop Hmax.
  intros Hh. destruct (prefix_name pfx Htop) as [Hn Hs].
  assert (Hsafe : safe_path pfx = true).
  { unfold safe_path. change (Bytes.split "/"%char pfx) with (components (join [pfx])).
    rewrite components_join by (done || by apply Forall_singleton). cbn. by rewrite Hs. }
  destruct (header_parsed _ _ 493 _ _ _ Hsafe ltac:(reflexivity) Hh) as (Hl & Hz & Hp). clear Hh.
  rewrite feed_header by done. unfold header_block. rewrite Hz, ensure_true, Hp by done. cbn [mbind result_bind].
  rewrite bool_decide_eq_true_2 by done. unfold startEntry. cbv zeta. cbn [p_path p_mtime p_mode p_type].
  rewrite ensure_true by (apply Z.leb_le; cbn [x_memberCount with_member with_bytes fresh]; clear -Hmax; lia).
  rewrite ensure_true by apply Z.eqb_refl. rewrite ensure_true by done.
  rewrite bool_decide_eq_true_2 by done. reflexivity.
Qed.

Lemma zeros_alloc n : forallb zero (alloc n) = true.
Proof using. clear. apply forallb_forall. intros b Hin%list_elem_of_In. by apply elem_of_replicate in Hin as [-> _]. Qed.

Lemma feed_end b : feed (state_of b entries) (alloc 1024) = Ok (with_zeros 2 true (state_of b entries)).
Proof using.
  replace (alloc 1024) with (alloc 512 ++ alloc 512) by (unfold alloc; by rewrite <- replicate_add).
  assert (Hl : length (alloc 512) = 512%nat) by apply length_replicate.
  rewrite consume_app by apply state_hb. rewrite feed_header by done. unfold header_block.
  rewrite zeros_alloc. cbn [mbind result_bind]. rewrite feed_header by done. unfold header_block.
  by rewrite zeros_alloc.
Qed.

(** The whole stream leads to the state with every entry. *)
Lemma feed_stream_state tar b :
  tar_stream pfx (epoch manifest) entries = Ok tar ->
  feed (with_bytes b fresh) tar = Ok (with_zeros 2 true (state_of b entries)).
Proof using All.
  unfold tar_stream. intros (h & Hh & (m & Hm & [= <-])%bind_Ok)%bind_Ok.
  rewrite consume_app by (unfold hb_ok; clear; cbn; lia). rewrite (feed_root b h Hh). cbn [mbind result_bind].
  rewrite consume_app by apply state_hb. rewrite (feed_members b [] entries m eq_refl Hm). cbn [mbind result_bind].
  apply feed_end.
Qed.

(** *** The tree at the end *)

Definition final_node (e : SourceEntry) : node :=
  match e_type e with
  | file => NFile (e_mode e) (e_content e) (Some (epoch manifest))
  | directory => NDirectory (e_mode e) (Some (epoch manifest))
  end.

Lemma times_lookup l t p :
  fold_left (fun t d => set_times manifest d t) l t !! p =
    match t !! p with
    | Some (NDirectory m mt) => Some (NDirectory m (if bool_decide (p ∈ l) then Some (epoch manifest) else mt))
    | n => n
    end.
Proof using.
  revert t. induction l as [|d l IH]; intros t; cbn [fold_left].
  - by destruct (t !! p) as [[|]|].
  - rewrite IH. assert (E : set_times manifest d t !! p = match t !! p with
      | Some (NDirectory m mt) => Some (NDirectory m (if bool_decide (p = d) then Some (epoch manifest) else mt)) | n => n end).
    { unfold set_times. destruct (decide (p = d)) as [->|Hne].
      - destruct (t !! d) as [[|]|] eqn:Hd; rewrite ?Hd; try done. rewrite bool_decide_eq_true_2 by done.
        by rewrite lookup_insert_eq.
      - destruct (t !! d) as [[|]|]; rewrite ?lookup_insert_ne by done;
          destruct (t !! p) as [[|]|]; try done; by rewrite bool_decide_eq_false_2. }
    rewrite E. destruct (t !! p) as [[|m mt]|]; try done. do 2 f_equal.
    destruct (decide (p ∈ l)) as [H|H]; [rewrite !bool_decide_eq_true_2; [done|by right|done]|].
    rewrite (bool_decide_eq_false_2 (p ∈ l)) by done. destruct (decide (p = d)) as [->|Hne].
    + rewrite !bool_decide_eq_true_2; [done|by left|done].
    + rewrite !bool_decide_eq_false_2; [done|by rewrite not_elem_of_cons|done].
Qed.

Definition final_tree : gmap string node :=
  fold_left (fun t d => set_times manifest d t) (rev (directories (state_of 0 entries))) (tree_of entries).

Lemma final_root : final_tree !! ""%string = Some (NDirectory 493 (Some (epoch manifest))).
Proof using Hroot Henum Hlisted.
  unfold final_tree. rewrite times_lookup, inserts_other.
  - rewrite lookup_singleton_eq, bool_decide_eq_true_2; [done|].
    apply list_elem_of_In. rewrite <- in_rev. by left.
  - intros (d & Hd & Hin)%list_elem_of_In%in_map_iff. apply list_elem_of_In in Hin.
    by destruct (entry_facts d Hin) as (_ & _ & _ & _ & ?).
Qed.

Lemma final_entry e : e ∈ entries -> final_tree !! e_path e = Some (final_node e).
Proof using Hnodup.
  intros He. unfold final_tree. rewrite times_lookup, inserts_elem by done. unfold node_of, final_node.
  destruct (e_type e) eqn:Ht; [done|]. rewrite bool_decide_eq_true_2; [done|].
  apply list_elem_of_In. rewrite <- in_rev. right. apply in_map, filter_In. split; [by apply list_elem_of_In|].
  unfold is_dir. by rewrite Ht.
Qed.

Lemma final_none p : p <> ""%string -> p ∉ List.map e_path entries -> final_tree !! p = None.
Proof using.
  intros Hp Hn. unfold final_tree. rewrite times_lookup, inserts_other by done. by rewrite lookup_singleton_ne.
Qed.

Lemma final_read_back :
  (forall p, p ∉ List.map e_path entries -> expected !! p = None) -> readBack expected final_tree = Ok tt.
Proof using Hroot Henum Hlisted Hnodup.
  intros Hnone. unfold readBack.
  assert (Hin : forall p n, delete ""%string final_tree !! p = Some n -> exists e, e ∈ entries /\ p = e_path e /\ n = final_node e).
  { intros p n Hp. apply lookup_delete_Some in Hp as [Hp Hn].
    destruct (decide (p ∈ List.map e_path entries)) as [Hi|Hi]; [|by rewrite final_none in Hn].
    apply list_elem_of_In, in_map_iff in Hi as (e & <- & He%list_elem_of_In). rewrite final_entry in Hn by done.
    exists e. split_and!; congruence. }
  rewrite ensure_true.
  - apply ensured, Nat.eqb_eq. rewrite length_map_to_list, <- !size_dom. f_equal. apply set_eq. intros p.
    rewrite !elem_of_dom. split.
    + intros [n (e & He & -> & _)%Hin]. destruct (Hlisted e He) as (m & _ & -> & _). done.
    + intros [f Hf]. destruct (decide (p ∈ List.map e_path entries)) as [Hi|Hi]; [|by rewrite Hnone in Hf].
      apply list_elem_of_In, in_map_iff in Hi as (e & <- & He%list_elem_of_In).
      destruct (entry_facts e He) as (_ & _ & _ & _ & Hne). rewrite lookup_delete_ne by congruence.
      by rewrite final_entry.
  - apply forallb_forall. intros [p n] Hi%list_elem_of_In%elem_of_map_to_list.
    destruct (Hin p n Hi) as (e & He & -> & ->). unfold read_node. cbn [fst snd].
    destruct (Hlisted e He) as (m & Hm & -> & _). destruct (entry_facts e He) as (_ & Hd & Hs & _).
    unfold final_node. cbn [type mode size digest file_of].
    destruct (e_type e); rewrite !bool_decide_eq_true_2 by (done || by apply parseMode_formatMode); cbn [andb]; [|done].
    by rewrite Hs, Z.eqb_refl.
Qed.

Lemma final_ok :
  (forall p, p ∉ List.map e_path entries -> expected !! p = None) ->
  memberCount (archive manifest) = Z.of_nat (length entries) + 1 ->
  Extractor.final manifest expected (with_zeros 2 true (state_of (decompressedSize (archive manifest)) entries))
    = Ok final_tree.
Proof using Hroot Henum Hlisted Hnodup.
  intros Hnone Hcount. unfold final.
  rewrite ensure_true by done. rewrite ensure_true by apply Z.eqb_refl.
  rewrite ensure_true by (apply Z.eqb_eq; rewrite Hcount; cbn [x_memberCount with_zeros state_of]; clear; lia).
  rewrite ensure_true.
  - change (fold_left (fun t d => set_times manifest d t) _ _) with final_tree. by rewrite final_read_back.
  - apply forallb_forall. intros [p f] Hi%list_elem_of_In%elem_of_map_to_list. apply bool_decide_eq_true. cbn [fst].
    destruct (decide (p ∈ List.map e_path entries)) as [Hp|Hp]; [|by rewrite Hnone in Hi].
    apply list_elem_of_In, in_map_iff in Hp as (e & <- & He%list_elem_of_In). apply seen_of_elem. right. by exists e.
Qed.

(** The extracted form of a node. *)
Definition extracted (n : source_node) : option node :=
  match n with
  | SFile m content => Some (NFile (Z.land m 511) content (Some (epoch manifest)))
  | SDirectory m _ => Some (NDirectory (Z.land m 511) (Some (epoch manifest)))
  | _ => None
  end.

Lemma final_is_source p :
  p <> ""%string -> final_tree !! p = (n ← node_at (SDirectory 0 children) (components p); extracted n).
Proof using Hroot Henum Hlisted Hnodup.
  intros Hp. destruct (enumerate_spec _ _ Hroot Henum) as (H1 & _ & _).
  destruct (node_at (SDirectory 0 children) (components p)) as [n|] eqn:Hn; cbn [mbind option_bind].
  - assert (Hne : components p <> [])
      by (unfold components, Bytes.split; intros E%map_eq_nil; by apply split_at_nonempty in E).
    destruct (H1 _ _ Hne Hn) as [Hr He]. destruct (node_at_names _ _ _ Hroot Hn) as [Hnames _].
    pose proof (final_entry _ He) as Hf. destruct (entry_of_facts (join (components p)) n Hr) as [Hpath _].
    rewrite Hpath, join_components in Hf. rewrite Hf. by destruct n.
  - apply final_none; [done|]. intros (e & <- & He)%list_elem_of_In%in_map_iff. apply list_elem_of_In in He.
    destruct (entry_origin e He) as (parts & k & _ & Hk & _ & _ & _ & _ & Hc & _). congruence.
Qed.
End Reading.

(** ** The round trip *)

Section Roundtrip.
Context {C : Crypto} {G : Gzip} {GL : GzipLaws G}.

Lemma prefix_declared manifest p : topLevelPrefix (archive manifest) = p +:+ "/" -> Extractor.prefix manifest = p.
Proof using.
  intros E. unfold Extractor.prefix. rewrite E. pose proof (without_slash_dir p) as H. unfold without_slash in H.
  assert (Hs : endsWith (p +:+ "/") "/" = true) by (apply endsWith_slash; exists (chars p); by rewrite chars_app).
  by rewrite Hs in H.
Qed.

(** C35: a release survives the archive.  If a manifest carries the declaration and the files that the
    writer returned for a source tree, and passes validation, then the strict extractor accepts the
    archive the writer made, into an absent or an empty directory, and what it leaves there is the
    source tree: the same paths, with the same contents, permission bits and kinds, and the epoch of
    the release as time. *)
Theorem archive_roundtrip children pfx e0 bytes declaration entry_list manifest limits expected dest :
  named (SDirectory 0 children) ->
  createDeterministicTarGz children pfx e0 = Ok (bytes, declaration, entry_list) ->
  archive manifest = declaration -> files manifest = entry_list -> sourceDateEpoch manifest = e0 ->
  validateExtractableManifest manifest limits = Ok expected ->
  dest = DAbsent \/ dest = DDirectory 0 ->
  exists t,
    strictExtractRelease (Some bytes) dest manifest limits =
      (Ok (pfx, archive_digest declaration), DExtracted pfx t) /\
    t !! ""%string = Some (NDirectory 493 (Some e0)) /\
    forall p, p <> ""%string -> t !! p = (n ← node_at (SDirectory 0 children) (components p); extracted manifest n).
Proof using GL.
  intros Hroot Hmade Ha Hfiles He Hv Hdest. unfold createDeterministicTarGz in Hmade.
  rewrite !require_bind in Hmade. destruct Hmade as (Htop & _ & (entries & Henum & Hmade)%bind_Ok).
  apply bind_Ok in Hmade as (tar & Htar & (fs & Hfs & [= <- <- <-])%bind_Ok).
  pose proof Hv as Hv0. unfold validateExtractableManifest in Hv. cbv zeta in Hv. rewrite !ensure_bind in Hv.
  destruct Hv as (_ & _ & (_ & _ & Hv)%bind_Ok). rewrite !ensure_bind in Hv.
  destruct Hv as (_ & _ & _ & Hb & (ex & Hex & Hv)%bind_Ok). rewrite ensure_bind in Hv. destruct Hv as (_ & [= ->]).
  rewrite Hfiles in Hex. destruct (release_files_spec _ _ _ _ Hfs Hex) as (Hnodup & Hlisted & Hnone & _).
  rewrite Ha in Hb. cbn [compressedSize decompressedSize memberCount] in Hb.
  unfold bounded in Hb. rewrite !andb_true_iff, !Z.ltb_lt, !Z.leb_le in Hb. destruct Hb as [[[[_ Hb1] Hb2] [[_ Hb3] Hb4]] [_ Hb5]].
  assert (Hpfx : Extractor.prefix manifest = pfx) by (apply prefix_declared; by rewrite Ha).
  assert (Hep : epoch manifest = e0) by exact He.
  rewrite <- Hpfx in Htop. rewrite <- Hpfx, <- Hep in Htar. rewrite <- Hep.
  exists (final_tree manifest entries). split_and!.
  - unfold strictExtractRelease. rewrite Hv0. cbn [mbind result_bind hashArchive].
    rewrite ensure_true.
    2: { apply negb_true_iff, orb_false_iff. rewrite Nat.eqb_neq, Z.ltb_ge. clear -Hb1 Hb2. lia. }
    cbn [mbind result_bind fst snd]. rewrite Ha. cbn [archive_digest compressedSize].
    rewrite ensure_true by (rewrite bool_decide_eq_true_2, Z.eqb_refl; done).
    rewrite ensure_true by (by destruct Hdest as [->| ->]).
    change (default [] (Some (gzip tar))) with (gzip tar).
    destruct (gunzip_gzip tar) as (chunks & Hg & Hc). rewrite Hg. cbn [mbind result_bind].
    assert (Hw : write_all manifest expected limits fresh chunks
      = Ok (with_zeros 2 true (state_of manifest (decompressedSize (archive manifest)) entries))).
    { apply write_all_concat; [unfold hb_ok; clear; cbn; lia|rewrite ?Ha; cbn; clear -Hb3 Hb4; lia|rewrite ?Ha; cbn; clear -Hb3; lia|].
      rewrite Hc. apply write_Ok; [unfold hb_ok; clear; cbn; lia|].
      rewrite Ha. cbn [decompressedBytes fresh decompressedSize]. split; [clear -Hb4; lia|].
      exists (with_zeros 2 true (state_of manifest 0 entries)). split; [|done].
      apply (feed_stream_state manifest expected limits children entries Htop Hroot Henum Hb5 Hnodup Hlisted tar 0 Htar). }
    rewrite Hw. cbn [mbind result_bind].
    rewrite (final_ok manifest expected limits children entries) by (done || by rewrite Ha).
    by rewrite Hpfx.
  - by apply (final_root manifest expected limits children entries).
  - by apply (final_is_source manifest expected limits children entries).
Qed.
End Roundtrip.

(** ** The archive depends on the tree only *)

(** The same tree, its directories listed in any order. *)
Inductive same_source : source_node -> source_node -> Prop :=
| same_node n : same_source n n
| same_directory m l k k' :
    Permutation l k -> Forall2 (fun x y => fst x = fst y /\ same_source (snd x) (snd y)) k k' ->
    same_source (SDirectory m l) (SDirectory m k').

Lemma visited_same {A} (f g : string * source_node -> A) l k k' :
  NoDup (List.map fst l) -> Permutation l k ->
  Forall2 (fun x y => fst x = fst y /\ f x = g y) k k' ->
  sort_by str_ltb (List.map (fun kv => (fst kv, f kv)) l) = sort_by str_ltb (List.map (fun kv => (fst kv, g kv)) k').
Proof.
  intros Hn Hp Hf.
  assert (E : List.map (fun kv => (fst kv, f kv)) k = List.map (fun kv => (fst kv, g kv)) k').
  { clear -Hf. induction Hf as [|x y k k' [H1 H2] Hf IH]; [done|]. cbn [List.map]. by rewrite H1, H2, IH. }
  rewrite <- E. apply sort_by_unique; [apply str_ltb_asym|apply str_ltb_trans|apply str_ltb_total| |by apply Permutation_map].
  unfold keys. rewrite List.map_map. exact Hn.
Qed.

Lemma same_children {A} (f : string * source_node -> A) l k k' :
  Permutation l k -> Forall2 (fun x y => fst x = fst y /\ same_source (snd x) (snd y)) k k' ->
  (forall s n n', (s, n) ∈ l -> same_source n n' -> f (s, n) = f (s, n')) ->
  Forall2 (fun x y => fst x = fst y /\ f x = f y) k k'.
Proof.
  intros Hp Hf H. assert (Hk : forall s n, (s, n) ∈ k -> (s, n) ∈ l) by (intros s n; by rewrite Hp).
  clear Hp. induction Hf as [|[s n] [s' n'] k k' [E Hs] Hf IH]; [constructor|]. cbn in E, Hs. subst s'. constructor.
  - split; [done|]. apply H; [apply Hk; by left|done].
  - apply IH. intros s' m Hin. apply Hk. by right.
Qed.

Section Deterministic.
Context {C : Crypto} {G : Gzip}.

Lemma visit_same n : forall n' rel, named n -> same_source n n' -> visit rel n = visit rel n'.
Proof using.
  induction n as [m c| | |m l IH] using source_nested_ind; intros n' rel Hn Hs; inversion Hs as [|? ? k k' Hp Hf]; subst; try done.
  cbn [visit].
  rewrite (visited_same (fun kv => visit (path_join rel (fst kv)) (snd kv)) (fun kv => visit (path_join rel (fst kv)) (snd kv)) l k k');
    [done|by destruct Hn|done|].
  eapply same_children; [done..|]. intros s c c' Hin Hsame. rewrite Forall_forall in IH.
  apply (IH (s, c) Hin); [by eapply named_child|done].
Qed.

(** C36: the archive is deterministic: two listings of one tree, its directories read in any order,
    give the same archive, byte for byte, with the same declaration and the same files, or the same
    error. *)
Theorem archive_deterministic children children' pfx e0 :
  named (SDirectory 0 children) -> same_source (SDirectory 0 children) (SDirectory 0 children') ->
  createDeterministicTarGz children pfx e0 = createDeterministicTarGz children' pfx e0.
Proof using.
  intros Hn Hs. unfold createDeterministicTarGz, enumerate.
  inversion Hs as [|? ? k k' Hp Hf]; subst; [done|].
  rewrite (visited_same (fun kv => visit (fst kv) (snd kv)) (fun kv => visit (fst kv) (snd kv)) children k children');
    [done|by destruct Hn|done|].
  eapply same_children; [done..|]. intros s c c' Hin Hsame. apply visit_same; [by eapply named_child|done].
Qed.
End Deterministic.

(** ** A small release *)

Definition demo_listed : props source_node :=
  [("b"%string, SFile 420 []); ("a"%string, SDirectory 493 [("d"%string, SFile 420 []); ("c"%string, SFile 420 [])])].
Definition demo_relisted : props source_node :=
  [("a"%string, SDirectory 493 [("c"%string, SFile 420 []); ("d"%string, SFile 420 [])]); ("b"%string, SFile 420 [])].

Lemma simple_name s : forallb (fun c => negb (bool_decide (c = "/"%char))) (chars s) = true -> s <> ""%string -> is_name s.
Proof.
  intros H Hs. split; [done|]. rewrite forallb_forall in H. intros Hin%list_elem_of_In. by apply H in Hin.
Defined.

Lemma archive_deterministic_witness :
  @createDeterministicTarGz toy_crypto toy_gzip demo_listed "app" 1700000000 =
  @createDeterministicTarGz toy_crypto toy_gzip demo_relisted "app" 1700000000.
Proof.
  apply (@archive_deterministic toy_crypto toy_gzip).
  - repeat split; try (apply simple_name; [reflexivity|discriminate]); repeat constructor; set_solver.
  - eapply same_directory; [apply perm_swap|]. repeat constructor.
    eapply same_directory; [apply perm_swap|]. repeat constructor.
Defined.

Lemma archive_roundtrip_witness :
  exists t,
    @strictExtractRelease toy_crypto toy_gzip (Some Demo.bytes) (DDirectory 0) Demo.manifest Demo.limits =
      (Ok ("app"%string, archive_digest Demo.declaration), DExtracted "app" t) /\
    t !! ""%string = Some (NDirectory 493 (Some 1700000000)) /\
    t !! "run"%string = Some (NFile 493 [104; 105] (Some 1700000000)).
Proof.
  destruct (@archive_roundtrip toy_crypto toy_gzip _ Demo.children "app" 1700000000 Demo.bytes Demo.declaration
    Demo.entries Demo.manifest Demo.limits Demo.expected (DDirectory 0)) as (t & H1 & H2 & H3).
  - repeat split; [repeat constructor; set_solver|discriminate|by vm_compute; set_solver].
  - vm_compute. exact eq_refl.
  - exact eq_refl.
  - exact eq_refl.
  - exact eq_refl.
  - vm_compute. exact eq_refl.
  - by right.
  - exists t. split; [exact H1|]. split; [exact H2|]. by rewrite (H3 "run"%string).
Defined.
