(* ===== verification/Artifacts.v ===== *)
(** * Artifacts ([src/artifacts/manager.ts])

    The content-addressed store of [ArtifactManager]: uploads that grow by contiguous chunks, their
    finalization into immutable objects named by their digest, captures of files of the host, and
    downloads.  A process may be killed between any two calls that change the file system: a process
    has a budget of such calls, and the call after the last one does not happen.  The theorems: the
    bytes of a finalized artifact have its digest and never change, whatever is killed, unless it is
    the capture of a file; what is uploaded in chunks is downloaded in chunks; what a kill of a
    capture does. *)

From S2P Require Import Prelude Bytes Json Platform Base64 Tar.

#[global] Open Scope Z_scope.

(** ** Data *)

(** The exceptions: the codes of [OperationError]; [file_error] is a call of [node:fs] that throws;
    [killed] is the end of the process. *)
Inductive artifact_error :=
| artifact_invalid_request | artifact_source_invalid | artifact_too_large | artifact_source_changed
| artifact_manifest_corrupt | artifact_not_found | artifact_immutable | artifact_offset_mismatch
| artifact_size_mismatch | artifact_digest_mismatch | artifact_not_finalized
| file_error | killed.

#[global] Instance artifact_error_eq_dec : EqDecision artifact_error.
Proof. solve_decision. Defined.

Inductive artifact_status := uploading | finalized | aborted.

#[global] Instance artifact_status_eq_dec : EqDecision artifact_status.
Proof. solve_decision. Defined.

(** Source: src/artifacts/manager.ts:62-76 (ArtifactRecord) *)
Record ArtifactRecord := {
  artifactId : string;
  name : string;
  status : artifact_status;
  sha256 : string;
  size : Z;
  createdAt : string;
  updatedAt : string;
  finalizedAt : option string;
  abortedAt : option string;
  expectedSize : option Z;
  expectedSha256 : option string;
  metadata : option (props json);
  path : string
}.

(** A record as an older version may have written it: [Partial<ArtifactRecord> & { ... }].
    Source: src/artifacts/manager.ts:149-149 (ArtifactManager.migrateRecord) *)
Record PartialRecord := {
  p_artifactId : string;
  p_name : string;
  p_status : option artifact_status;
  p_sha256 : option string;
  p_size : option Z;
  p_createdAt : option string;
  p_updatedAt : option string;
  p_finalizedAt : option string;
  p_abortedAt : option string;
  p_expectedSize : option Z;
  p_expectedSha256 : option string;
  p_metadata : option (props json);
  p_path : string
}.

(** Source: src/artifacts/manager.ts:24-28 (ArtifactCreatePayload) *)
Record ArtifactCreatePayload := { c_name : string; c_sourcePath : string; c_metadata : option (props json) }.

(** Source: src/artifacts/manager.ts:30-35 (ArtifactBeginPayload) *)
Record ArtifactBeginPayload := {
  b_name : string;
  b_metadata : option (props json);
  b_expectedSize : option Z;
  b_expectedSha256 : option string
}.

(** The encoding can only be [base64].
    Source: src/artifacts/manager.ts:37-44 (ArtifactUploadPayload) *)
Record ArtifactUploadPayload := { u_artifactId : string; u_offset : Z; u_data : string; u_finalize : bool }.

(** Source: src/artifacts/manager.ts:46-50 (ArtifactFinalizePayload) *)
Record ArtifactFinalizePayload := { f_artifactId : string; f_expectedSize : Z; f_expectedSha256 : string }.

(** Source: src/artifacts/manager.ts:56-60 (ArtifactDownloadPayload) *)
Record ArtifactDownloadPayload := { d_artifactId : string; d_offset : option Z; d_limit : option Z }.

(** Source: src/artifacts/manager.ts:445-452 (ArtifactManager.download) *)
Record Download := {
  o_artifactId : string;
  o_data : string;
  o_offset : Z;
  o_eof : bool;
  o_sha256 : string;
  o_size : Z
}.

(** What [statSync] says of a file.
    Source: src/artifacts/manager.ts:78-91 (identityFromStat) *)
Record FileIdentity := { dev : Z; ino : Z; fi_size : Z; mtimeMs : Z }.

#[global] Instance FileIdentity_eq_dec : EqDecision FileIdentity.
Proof. solve_decision. Defined.

Record Stats := { isFile : bool; identity : FileIdentity }.

(** What reading a file finds: the file before, the results of the successive [readSync], and the file
    after; [None] where the call throws.  Another program may change a file of the host meanwhile. *)
Record Reading := { initial : option Stats; reads : option (list buffer); final : option Stats }.

(** ** The file system *)

(** [manifest.json]: what it parses to. *)
Inductive stored := Corrupt | NotArray | Stored (l : list PartialRecord).

(** The directory of the artifacts; [temporary] is the manifest that is being written. *)
Record Disk := { manifest : option stored; temporary : option stored; files : gmap string buffer }.

Definition with_files (f : gmap string buffer -> gmap string buffer) (d : Disk) : Disk :=
  {| manifest := manifest d; temporary := temporary d; files := f (files d) |}.

Record Process := { disk : Disk; budget : option nat }.

Abbreviation Fs := (M Process artifact_error).

(** A call that changes the file system. *)
Definition effect (f : Disk -> Disk) : Fs unit := fun s =>
  match budget s with
  | Some O => (Err killed, s)
  | Some (S n) => (Ok tt, {| disk := f (disk s); budget := Some n |})
  | None => (Ok tt, {| disk := f (disk s); budget := None |})
  end.

Definition existsSync (p : string) : Fs bool := gets (fun s => bool_decide (is_Some (files (disk s) !! p))).

(** A file that must exist. *)
Definition contents (p : string) : Fs buffer :=
  o ← gets (fun s => files (disk s) !! p);
  match o with Some c => mret c | None => throw file_error end.

Definition unlinkSync (p : string) : Fs unit := _ ← contents p; effect (with_files (delete p)).
Definition renameSync (p q : string) : Fs unit :=
  c ← contents p; effect (with_files (fun m => <[q := c]> (delete p m))).

(** Opening with the flag [wx]. *)
Definition createNew (p : string) : Fs unit :=
  e ← existsSync p; _ ← guardM (negb e) file_error; effect (with_files <[p := []]>).

(** [writeSync] of a whole buffer at a position; writing nothing changes nothing. *)
Definition write_at (c : buffer) (offset : nat) (data : buffer) : buffer :=
  match data with
  | [] => c
  | _ => take offset c ++ alloc (offset - length c) ++ data ++ drop (offset + length data) c
  end.

(** [try { m } finally { h }] and [try { m } catch (e) { h }]: neither runs in a process that was
    killed, because its next effect is refused again. *)
Definition try_finally {X} (m : Fs X) (h : Fs unit) : Fs X := fun s =>
  match m s with
  | (r, s1) => match h s1 with (Ok _, s2) => (r, s2) | (Err e, s2) => (Err e, s2) end
  end.

Definition try_catch {X} (m : Fs X) (h : artifact_error -> Fs X) : Fs X := fun s =>
  match m s with (Ok a, s1) => (Ok a, s1) | (Err e, s1) => h e s1 end.

(** ** Reading a file *)

Definition BUFFER_SIZE : Z := 64 * 1024.

(** The loop over [readSync]: each call asks for one byte more than may still come.
    Source: src/artifacts/manager.ts:111-120 (hashFile) *)
Fixpoint read_loop (maximumBytes pos : Z) (seen : buffer) (reads : list buffer) : result artifact_error (Z * buffer) :=
  match reads with
  | [] => Ok (pos, seen)
  | data :: reads =>
      let chunk := take (Z.to_nat (Z.min BUFFER_SIZE (maximumBytes - pos + 1))) data in
      match chunk with
      | [] => Ok (pos, seen)
      | _ =>
          let pos := pos + Z.of_nat (length chunk) in
          _ ← require (negb (maximumBytes <? pos)) artifact_too_large;
          read_loop maximumBytes pos (seen ++ chunk) reads
      end
  end.

Definition or_throw {X} (o : option X) : result artifact_error X :=
  match o with Some x => Ok x | None => Err file_error end.

(** What reading a file that does not change finds. *)
Fixpoint pieces (fuel : nat) (c : buffer) : list buffer :=
  match fuel, c with
  | S fuel, _ :: _ => take (Z.to_nat BUFFER_SIZE) c :: pieces fuel (drop (Z.to_nat BUFFER_SIZE) c)
  | _, _ => []
  end.

Definition stats_of (c : buffer) : Stats :=
  {| isFile := true; identity := {| dev := 0; ino := 0; fi_size := Z.of_nat (length c); mtimeMs := 0 |} |}.

Definition stable (o : option buffer) : Reading :=
  match o with
  | Some c => {| initial := Some (stats_of c); reads := Some (pieces (length c) c); final := Some (stats_of c) |}
  | None => {| initial := None; reads := None; final := None |}
  end.

Section Manager.
Context {C : Crypto}.
(** [store.artifactsDir()] and the bound of the constructor. *)
Variable artifactsDir : string.
Variable maximumArtifactBytes : Z.

(** Source: src/artifacts/manager.ts:137-147 (ArtifactManager.constructor) *)
Definition uploadRoot : string := artifactsDir ++ "/uploads".
Definition objectRoot : string := artifactsDir ++ "/sha256".
Definition valid_maximum : bool := isSafeInteger maximumArtifactBytes && (1 <=? maximumArtifactBytes).

(** Source: src/artifacts/manager.ts:93-129 (hashFile) *)
Definition hash_reading (r : Reading) (maximumBytes : Z) : result artifact_error (string * Z * FileIdentity) :=
  initial ← or_throw (initial r);
  _ ← require (isFile initial) artifact_source_invalid;
  _ ← require (negb (maximumBytes <? fi_size (identity initial))) artifact_too_large;
  reads ← or_throw (reads r);
  '(pos, seen) ← read_loop maximumBytes 0 [] reads;
  final ← or_throw (final r);
  _ ← require (bool_decide (identity initial = identity final) && (pos =? fi_size (identity initial)))
    artifact_source_changed;
  Ok (hashFile seen, pos, identity initial).

(** [hashFile] of a file of the store. *)
Definition hash_own (p : string) : Fs (string * Z * FileIdentity) :=
  o ← gets (fun s => files (disk s) !! p); lift (hash_reading (stable o) maximumArtifactBytes).

(** ** The manifest *)

(** The first moment, [new Date(0).toISOString()]. *)
Definition epoch : string := "1970-01-01T00:00:00.000Z".

Definition truthy_opt (o : option string) : option string :=
  match o with Some s => if truthy_str s then Some s else None | None => None end.

(** Source: src/artifacts/manager.ts:149-167 (ArtifactManager.migrateRecord) *)
Definition migrateRecord (r : PartialRecord) : ArtifactRecord :=
  let created := default epoch (p_createdAt r) in
  let st := default finalized (p_status r) in {|
    artifactId := p_artifactId r;
    name := p_name r;
    status := st;
    sha256 := default ""%string (p_sha256 r);
    size := default 0 (p_size r);
    createdAt := created;
    updatedAt := match p_updatedAt r with Some t => t | None => default created (p_finalizedAt r) end;
    finalizedAt :=
      match truthy_opt (p_finalizedAt r) with
      | Some t => Some t
      | None => if st === finalized then Some created else None
      end;
    abortedAt := truthy_opt (p_abortedAt r);
    expectedSize := p_expectedSize r;
    expectedSha256 := truthy_opt (p_expectedSha256 r);
    metadata := p_metadata r;
    path := p_path r
  |}.

(** What [JSON.stringify] and [JSON.parse] make of a record. *)
Definition written (r : ArtifactRecord) : PartialRecord := {|
  p_artifactId := artifactId r; p_name := name r; p_status := Some (status r); p_sha256 := Some (sha256 r);
  p_size := Some (size r); p_createdAt := Some (createdAt r); p_updatedAt := Some (updatedAt r);
  p_finalizedAt := finalizedAt r; p_abortedAt := abortedAt r; p_expectedSize := expectedSize r;
  p_expectedSha256 := expectedSha256 r; p_metadata := metadata r; p_path := path r
|}.

(** Source: src/artifacts/manager.ts:169-179 (ArtifactManager.loadManifest) *)
Definition records_of (d : Disk) : result artifact_error (list ArtifactRecord) :=
  match manifest d with
  | None | Some NotArray => Ok []
  | Some Corrupt => Err artifact_manifest_corrupt
  | Some (Stored l) => Ok (List.map migrateRecord l)
  end.

Definition loadManifest : Fs (list ArtifactRecord) := fun s => (records_of (disk s), s).

(** The file is written beside the manifest and renamed over it.
    Source: src/artifacts/manager.ts:181-202 (ArtifactManager.saveManifest) *)
Definition saveManifest (records : list ArtifactRecord) : Fs unit :=
  try_finally
    (effect (fun d => {| manifest := manifest d; temporary := Some (Stored (List.map written records)); files := files d |});;
     effect (fun d => {| manifest := temporary d; temporary := None; files := files d |}))
    (left ← gets (fun s => temporary (disk s));
     match left with
     | Some _ => effect (fun d => {| manifest := manifest d; temporary := None; files := files d |})
     | None => mret ()
     end).

(** Source: src/artifacts/manager.ts:204-206 (ArtifactManager.objectPath) *)
Definition objectPath (sha : string) : string := objectRoot ++ "/" ++ sha.

Definition uploadPath (id : string) : string := uploadRoot ++ "/" ++ id ++ ".upload".

(** [manifest.find((candidate) => candidate.artifactId === id)] *)
Definition find_record (id : string) (l : list ArtifactRecord) : option ArtifactRecord :=
  List.find (fun r => artifactId r === id) l.

(** The assignments to the members of the record that was found: it stays where it is in the list. *)
Fixpoint replace_record (r : ArtifactRecord) (l : list ArtifactRecord) : list ArtifactRecord :=
  match l with
  | [] => []
  | x :: l => if artifactId x === artifactId r then r :: l else x :: replace_record r l
  end.

(** ** Operations *)

(** Source: src/artifacts/manager.ts:223-239 (ArtifactManager.persistObject) *)
Fixpoint copy_loop (destination : string) (position : Z) (seen : buffer) (reads : list buffer) : Fs (Z * buffer) :=
  match reads with
  | [] => mret (position, seen)
  | data :: reads =>
      let chunk := take (Z.to_nat (Z.min BUFFER_SIZE (maximumArtifactBytes - position + 1))) data in
      match chunk with
      | [] => mret (position, seen)
      | _ =>
          let position := position + Z.of_nat (length chunk) in
          guardM (negb (maximumArtifactBytes <? position)) artifact_too_large;;
          effect (with_files (fun m => <[destination := default [] (m !! destination) ++ chunk]> m));;
          copy_loop destination position (seen ++ chunk) reads
      end
  end.

Definition unlink_if_exists (p : string) : Fs unit :=
  e ← existsSync p; if (e : bool) then unlinkSync p else mret ().

(** [writeSync] is repeated until the chunk is written; it is one call here.
    Source: src/artifacts/manager.ts:208-266 (ArtifactManager.persistObject) *)
Definition persistObject (source : Reading) (sha : string) (expected : Z) (expectedIdentity : FileIdentity) : Fs string :=
  let destination := objectPath sha in
  present ← existsSync destination;
  if (present : bool) then mret destination else
  reads ← lift (or_throw (reads source));
  '(position, copied) ← try_catch
    (createNew destination;; copy_loop destination 0 [] reads)
    (fun e => unlink_if_exists destination;; throw e);
  final ← lift (or_throw (final source));
  (if bool_decide (expectedIdentity = identity final) && (position =? expected) && (hashFile copied === sha)
   then mret destination
   else unlink_if_exists destination;; throw artifact_source_changed).

(** [hashing] and [capture] are what the two readings of the source find.
    Source: src/artifacts/manager.ts:268-292 (ArtifactManager.createFromFile) *)
Definition createFromFile (uuid now : string) (hashing capture : Reading) (payload : ArtifactCreatePayload)
    : Fs ArtifactRecord :=
  guardM (truthy_str (c_name payload) && truthy_str (c_sourcePath payload)) artifact_invalid_request;;
  '(digest, len, ident) ← lift (hash_reading hashing maximumArtifactBytes);
  destPath ← persistObject capture digest len ident;
  let record := {|
    artifactId := uuid; name := c_name payload; status := finalized; sha256 := digest; size := len;
    createdAt := now; updatedAt := now; finalizedAt := Some now; abortedAt := None;
    expectedSize := None; expectedSha256 := None; metadata := c_metadata payload; path := destPath |} in
  records ← loadManifest;
  saveManifest (records ++ [record]);;
  mret record.

(** Source: src/artifacts/manager.ts:294-325 (ArtifactManager.beginUpload) *)
Definition beginUpload (uuid now : string) (payload : ArtifactBeginPayload) : Fs ArtifactRecord :=
  guardM (truthy_str (b_name payload)) artifact_invalid_request;;
  guardM (negb (match b_expectedSize payload with Some n => n <? 0 | None => false end)) artifact_invalid_request;;
  guardM (match truthy_opt (b_expectedSha256 payload) with Some h => DIGEST_PATTERN h | None => true end)
    artifact_invalid_request;;
  let destPath := uploadPath uuid in
  createNew destPath;;
  let record := {|
    artifactId := uuid; name := b_name payload; status := uploading; sha256 := ""; size := 0;
    createdAt := now; updatedAt := now; finalizedAt := None; abortedAt := None;
    expectedSize := b_expectedSize payload; expectedSha256 := truthy_opt (b_expectedSha256 payload);
    metadata := b_metadata payload; path := destPath |} in
  records ← loadManifest;
  saveManifest (records ++ [record]);;
  mret record.

(** The record an operation works on: it exists, and it is still uploading.
    Source: src/artifacts/manager.ts:371-379 (ArtifactManager.finalize) *)
Definition open_record (id : string) (records : list ArtifactRecord) : Fs ArtifactRecord :=
  match find_record id records with
  | None => throw artifact_not_found
  | Some record => guardM (status record === uploading) artifact_immutable;; mret record
  end.

(** Source: src/artifacts/manager.ts:367-423 (ArtifactManager.finalize) *)
Definition finalize (now : string) (payload : ArtifactFinalizePayload) : Fs ArtifactRecord :=
  guardM (DIGEST_PATTERN (f_expectedSha256 payload)) artifact_invalid_request;;
  records ← loadManifest;
  record ← open_record (f_artifactId payload) records;
  '(digest, len, _) ← hash_own (path record);
  guardM (len =? f_expectedSize payload) artifact_size_mismatch;;
  guardM (digest === f_expectedSha256 payload) artifact_digest_mismatch;;
  guardM (match expectedSize record with Some n => n =? len | None => true end) artifact_size_mismatch;;
  guardM (match truthy_opt (expectedSha256 record) with Some h => h === digest | None => true end)
    artifact_digest_mismatch;;
  let destination := objectPath digest in
  present ← existsSync destination;
  (if (present : bool) then unlinkSync (path record) else renameSync (path record) destination);;
  let record := {|
    artifactId := artifactId record; name := name record; status := finalized; sha256 := digest; size := len;
    createdAt := createdAt record; updatedAt := now; finalizedAt := Some now; abortedAt := abortedAt record;
    expectedSize := expectedSize record; expectedSha256 := expectedSha256 record;
    metadata := metadata record; path := destination |} in
  saveManifest (replace_record record records);;
  mret record.

(** Source: src/artifacts/manager.ts:327-365 (ArtifactManager.uploadChunk) *)
Definition uploadChunk (now : string) (payload : ArtifactUploadPayload) : Fs ArtifactRecord :=
  records ← loadManifest;
  record ← open_record (u_artifactId payload) records;
  guardM (u_offset payload =? size record) artifact_offset_mismatch;;
  let data := fromBase64 (u_data payload) in
  c ← contents (path record);
  effect (with_files <[path record := write_at c (Z.to_nat (u_offset payload)) data]>);;
  let record := {|
    artifactId := artifactId record; name := name record; status := status record; sha256 := sha256 record;
    size := size record + Z.of_nat (length data);
    createdAt := createdAt record; updatedAt := now; finalizedAt := finalizedAt record; abortedAt := abortedAt record;
    expectedSize := expectedSize record; expectedSha256 := expectedSha256 record;
    metadata := metadata record; path := path record |} in
  saveManifest (replace_record record records);;
  if u_finalize payload then
    '(digest, len, _) ← hash_own (path record);
    finalize now {| f_artifactId := artifactId record; f_expectedSize := default len (expectedSize record);
                    f_expectedSha256 := default digest (expectedSha256 record) |}
  else mret record.

(** Source: src/artifacts/manager.ts:425-443 (ArtifactManager.abort) *)
Definition abort (now : string) (id : string) : Fs ArtifactRecord :=
  records ← loadManifest;
  record ← open_record id records;
  unlink_if_exists (path record);;
  let record := {|
    artifactId := artifactId record; name := name record; status := aborted; sha256 := sha256 record; size := size record;
    createdAt := createdAt record; updatedAt := now; finalizedAt := finalizedAt record; abortedAt := Some now;
    expectedSize := expectedSize record; expectedSha256 := expectedSha256 record;
    metadata := metadata record; path := "" |} in
  saveManifest (replace_record record records);;
  mret record.

(** [Buffer.alloc] throws for a negative size, and [readSync] for a position below -1; the position -1
    is the start of the file just opened.  The bytes beyond what is read stay zero.
    Source: src/artifacts/manager.ts:445-483 (ArtifactManager.download) *)
Definition download (payload : ArtifactDownloadPayload) : Fs Download :=
  records ← loadManifest;
  match find_record (d_artifactId payload) records with
  | None => throw artifact_not_found
  | Some record =>
      guardM (status record === finalized) artifact_not_finalized;;
      let offset := default 0 (d_offset payload) in
      let limit := Z.min (default (64 * 1024) (d_limit payload)) (64 * 1024) in
      c ← contents (path record);
      let available := Z.max 0 (Z.of_nat (length c) - offset) in
      let toRead := Z.min limit available in
      guardM (0 <=? toRead) file_error;;
      guardM (negb (0 <? toRead) || (-1 <=? offset)) file_error;;
      let buf := copy (subarray c (Z.to_nat offset) (Z.to_nat offset + Z.to_nat toRead)) (alloc (Z.to_nat toRead)) 0 in
      mret {| o_artifactId := artifactId record; o_data := toBase64 buf; o_offset := offset + toRead;
              o_eof := Z.of_nat (length c) <=? offset + toRead; o_sha256 := sha256 record; o_size := size record |}
  end.

(** Source: src/artifacts/manager.ts:485-487 (ArtifactManager.list) *)
Definition list_ : Fs (list ArtifactRecord) := loadManifest.

(** Source: src/artifacts/manager.ts:489-491 (ArtifactManager.get) *)
Definition get (id : string) : Fs (option ArtifactRecord) := records ← loadManifest; mret (find_record id records).
End Manager.

(** ** The rules of the file system *)

Lemma wp_effect f (Q : result artifact_error unit -> Process -> Prop) s :
  (forall b, Q (Ok tt) {| disk := f (disk s); budget := b |}) -> Q (Err killed) s -> wp (effect f) Q s.
Proof. intros Hok Hk. unfold wp, effect. destruct (budget s) as [[|n]|]; [done|apply Hok|apply Hok]. Qed.

Lemma wp_existsSync p (Q : result artifact_error bool -> Process -> Prop) s :
  Q (Ok (bool_decide (is_Some (files (disk s) !! p)))) s -> wp (existsSync p) Q s.
Proof. done. Qed.

Lemma wp_contents p (Q : result artifact_error buffer -> Process -> Prop) s :
  (forall c, files (disk s) !! p = Some c -> Q (Ok c) s) -> (files (disk s) !! p = None -> Q (Err file_error) s) ->
  wp (contents p) Q s.
Proof. intros Hs Hn. apply wp_bind, wp_gets. destruct (files (disk s) !! p); [by apply wp_ret, Hs|by apply wp_throw, Hn]. Qed.

Lemma wp_unlinkSync p (Q : result artifact_error unit -> Process -> Prop) s :
  (forall b, Q (Ok tt) {| disk := with_files (delete p) (disk s); budget := b |}) -> (forall e, Q (Err e) s) ->
  wp (unlinkSync p) Q s.
Proof.
  intros Hok He. apply wp_bind, wp_contents; [|intros _; apply He]. intros c _. by apply wp_effect.
Qed.

Lemma wp_renameSync p q (Q : result artifact_error unit -> Process -> Prop) s :
  (forall c b, files (disk s) !! p = Some c ->
     Q (Ok tt) {| disk := with_files (fun m => <[q := c]> (delete p m)) (disk s); budget := b |}) ->
  (forall e, Q (Err e) s) -> wp (renameSync p q) Q s.
Proof.
  intros Hok He. apply wp_bind, wp_contents; [|intros _; apply He]. intros c Hc. apply wp_effect; auto.
Qed.

Lemma wp_createNew p (Q : result artifact_error unit -> Process -> Prop) s :
  (forall b, files (disk s) !! p = None -> Q (Ok tt) {| disk := with_files <[p := []]> (disk s); budget := b |}) ->
  (forall e, Q (Err e) s) -> wp (createNew p) Q s.
Proof.
  intros Hok He. unfold createNew. apply wp_bind, wp_existsSync, wp_bind, wp_guardM; intros Hb; [|apply He].
  bool_inv. apply wp_effect; [|apply He]. intros b. apply Hok. by apply eq_None_not_Some.
Qed.

Lemma wp_loadManifest (Q : result artifact_error (list ArtifactRecord) -> Process -> Prop) s :
  (forall l, records_of (disk s) = Ok l -> Q (Ok l) s) -> (forall e, Q (Err e) s) -> wp loadManifest Q s.
Proof. intros Hok He. unfold wp, loadManifest. cbn. destruct (records_of (disk s)); auto. Qed.

(** The manifest is replaced, or it is as it was; the other files do not change. *)
Lemma wp_saveManifest l (Q : result artifact_error unit -> Process -> Prop) s :
  (forall s', manifest (disk s') = Some (Stored (List.map written l)) -> files (disk s') = files (disk s) ->
     Q (Ok tt) s') ->
  (forall e s', manifest (disk s') = manifest (disk s) -> files (disk s') = files (disk s) -> Q (Err e) s') ->
  wp (saveManifest l) Q s.
Proof.
  intros Hok He. unfold wp, saveManifest, try_finally, effect, mbind, M_bind, gets, mret, M_ret.
  destruct (budget s) as [[|[|n]]|] eqn:Hb; cbn; rewrite ?Hb.
  - destruct (temporary (disk s)); cbn; rewrite ?Hb; cbn; by apply He.
  - by apply He.
  - by apply Hok.
  - by apply Hok.
Qed.

Lemma wp_try_catch {X} (m : Fs X) h (Q : result artifact_error X -> Process -> Prop) s :
  wp m (fun r s' => match r with Ok a => Q (Ok a) s' | Err e => wp (h e) Q s' end) s -> wp (try_catch m h) Q s.
Proof. unfold wp, try_catch. by destruct (m s) as [[a|e] s']. Qed.

Lemma wp_unlink_if_exists p (Q : result artifact_error unit -> Process -> Prop) s :
  (forall b, Q (Ok tt) {| disk := with_files (delete p) (disk s); budget := b |}) ->
  (files (disk s) !! p = None -> Q (Ok tt) s) -> Q (Err killed) s -> wp (unlink_if_exists p) Q s.
Proof.
  intros Hok Hn He. unfold unlink_if_exists. apply wp_bind, wp_existsSync. destruct (bool_decide _) eqn:Hb; bool_inv.
  - apply wp_bind, wp_contents; [intros c _; by apply wp_effect|]. intros Hnone.
    destruct Hb as [c Hc]. congruence.
  - apply wp_ret, Hn. by apply eq_None_not_Some.
Qed.

(** ** The manifest survives being written and read *)

Definition norm (r : ArtifactRecord) : ArtifactRecord := migrateRecord (written r).

Lemma truthy_opt_idem o : truthy_opt (truthy_opt o) = truthy_opt o.
Proof. destruct o as [s|]; cbn; [|done]. destruct (truthy_str s) eqn:H; cbn; [by rewrite H|done]. Qed.

Lemma norm_migrate p : norm (migrateRecord p) = migrateRecord p.
Proof.
  unfold norm, migrateRecord, written. cbn. f_equal; try apply truthy_opt_idem.
  destruct (truthy_opt (p_finalizedAt p)) as [t|] eqn:Hf.
  - apply (f_equal truthy_opt) in Hf as H. rewrite truthy_opt_idem, Hf in H. by rewrite <- H.
  - destruct (default finalized (p_status p) === finalized)%js; [|done]. cbn. by destruct (truthy_str _).
Qed.

Definition records (d : Disk) : list ArtifactRecord :=
  match records_of d with Ok l => l | Err _ => [] end.

Lemma norm_record d r : r ∈ records d -> norm r = r.
Proof.
  unfold records, records_of. destruct (manifest d) as [[| |l]|]; try by intros ?%not_elem_of_nil.
  intros (p & <- & _)%list_elem_of_In%in_map_iff. by apply norm_migrate.
Qed.

Lemma norm_records d : List.map norm (records d) = records d.
Proof.
  pose proof (norm_record d) as H. induction (records d) as [|r l IH]; [done|]. cbn. rewrite H by left.
  f_equal. apply IH. intros x Hx. apply H. by right.
Qed.

Lemma records_written d l : manifest d = Some (Stored (List.map written l)) -> records d = List.map norm l.
Proof. intros H. unfold records, records_of. by rewrite H, List.map_map. Qed.

Lemma find_record_snoc id l r x : find_record id l = Some x -> find_record id (l ++ [r]) = Some x.
Proof. apply find_app_Some. Qed.

Lemma replace_record_other id r l :
  id <> artifactId r -> find_record id (replace_record r l) = find_record id l.
Proof.
  intros Hne. unfold find_record. induction l as [|x l IH]; [done|]. cbn [replace_record].
  destruct (artifactId x === artifactId r)%js eqn:E; cbn; [|by rewrite IH].
  bool_inv. rewrite !(bool_decide_eq_false_2 (_ = id)) by congruence. done.
Qed.

Lemma replace_record_same r l x :
  find_record (artifactId r) l = Some x -> find_record (artifactId r) (replace_record r l) = Some r.
Proof.
  unfold find_record. induction l as [|y l IH]; [done|]. cbn. destruct (artifactId y === artifactId r)%js eqn:E.
  - intros _. cbn. by rewrite bool_decide_eq_true_2.
  - cbn. rewrite E. apply IH.
Qed.

Lemma replace_record_elem r l x : x ∈ replace_record r l -> x = r \/ x ∈ l.
Proof.
  induction l as [|y l IH]; cbn; [by intros ?%not_elem_of_nil|].
  destruct (_ === _)%js; rewrite !elem_of_cons; naive_solver.
Qed.

Lemma map_replace_record f r l :
  (forall x, artifactId (f x) = artifactId x) ->
  List.map f (replace_record r l) = replace_record (f r) (List.map f l).
Proof.
  intros Hf. induction l as [|y l IH]; [done|]. cbn. rewrite !Hf. destruct (_ === _)%js; cbn; congruence.
Qed.

Lemma find_record_id id l r : find_record id l = Some r -> artifactId r = id /\ r ∈ l.
Proof. intros [Hin Hid]%find_Some_elem. by apply bool_decide_eq_true in Hid. Qed.

(** ** Reading a file of the store *)

Lemma pieces_cons fuel (c : buffer) : c <> [] ->
  pieces (S fuel) c = take (Z.to_nat BUFFER_SIZE) c :: pieces fuel (drop (Z.to_nat BUFFER_SIZE) c).
Proof. by destruct c. Qed.

Lemma read_loop_cons maximum pos seen data reads :
  take (Z.to_nat (Z.min BUFFER_SIZE (maximum - pos + 1))) data <> [] ->
  let chunk := take (Z.to_nat (Z.min BUFFER_SIZE (maximum - pos + 1))) data in
  read_loop maximum pos seen (data :: reads) =
  if maximum <? pos + Z.of_nat (length chunk) then Err artifact_too_large
  else read_loop maximum (pos + Z.of_nat (length chunk)) (seen ++ chunk) reads.
Proof. cbn [read_loop]. destruct (take _ data); [done|]. intros _. cbv zeta. by destruct (_ <? _). Qed.

(** The loop reads the whole file, or refuses it. *)
Lemma read_loop_pieces maximum fuel : forall c pos seen,
  (length c <= fuel)%nat -> pos <= maximum ->
  read_loop maximum pos seen (pieces fuel c) =
  if pos + Z.of_nat (length c) <=? maximum then Ok (pos + Z.of_nat (length c), seen ++ c) else Err artifact_too_large.
Proof.
  assert (0 < BUFFER_SIZE) as HB by done.
  induction fuel as [|fuel IH]; intros c pos seen Hc Hpos.
  { destruct c; [|cbn in Hc; lia]. cbn. rewrite Z.add_0_r, app_nil_r. by apply Z.leb_le in Hpos as ->. }
  destruct (decide (c = [])) as [->|Hne].
  { cbn. rewrite Z.add_0_r, app_nil_r. by apply Z.leb_le in Hpos as ->. }
  rewrite pieces_cons by done. assert (0 < length c)%nat by (destruct c; [done|cbn; lia]).
  set (chunk := take (Z.to_nat (Z.min BUFFER_SIZE (maximum - pos + 1))) (take (Z.to_nat BUFFER_SIZE) c)).
  assert (length chunk = Nat.min (Z.to_nat (Z.min BUFFER_SIZE (maximum - pos + 1))) (length c)) as Hlen
    by (unfold chunk; rewrite !length_take; lia).
  rewrite read_loop_cons by (fold chunk; intros E; rewrite E in Hlen; cbn in Hlen; lia). fold chunk. cbv zeta.
  destruct (maximum <? pos + Z.of_nat (length chunk)) eqn:E; bool_inv.
  { destruct (_ <=? _) eqn:E'; bool_inv; [lia|done]. }
  assert (chunk = take (Z.to_nat BUFFER_SIZE) c) as Hchunk.
  { unfold chunk. apply take_ge. rewrite length_take. lia. }
  rewrite IH by (rewrite ?length_drop; lia). rewrite Hchunk, length_take, length_drop, <- app_assoc, take_drop.
  by replace (pos + _ + _) with (pos + Z.of_nat (length c)) by lia.
Qed.

Lemma hash_reading_stable {C : Crypto} maximum c : 0 <= maximum ->
  hash_reading (stable (Some c)) maximum =
  if Z.of_nat (length c) <=? maximum then Ok (hashFile c, Z.of_nat (length c), identity (stats_of c))
  else Err artifact_too_large.
Proof.
  intros Hm. unfold hash_reading. cbn [or_throw initial stable isFile stats_of identity fi_size]. cbn.
  destruct (Z.of_nat (length c) <=? maximum) eqn:E; bool_inv.
  - replace (maximum <? _) with false by (symmetry; apply Z.ltb_ge; lia). cbn.
    rewrite read_loop_pieces by lia. rewrite Z.add_0_l. apply Z.leb_le in E as ->. cbn. by rewrite bool_decide_eq_true_2, Z.eqb_refl.
  - by replace (maximum <? _) with true by (symmetry; apply Z.ltb_lt; lia).
Qed.

Lemma read_loop_length maximum reads : forall pos seen p out,
  read_loop maximum pos seen reads = Ok (p, out) -> Z.of_nat (length seen) = pos -> Z.of_nat (length out) = p.
Proof.
  induction reads as [|data reads IH]; intros pos seen p out; cbn [read_loop]; [by intros [= <- <-]|].
  destruct (take _ data) as [|b chunk]; [by intros [= <- <-]|]. intros Hr Hs. result_inv.
  eapply IH; [done|]. rewrite length_app. lia.
Qed.

(** A digest that is returned is the digest of bytes that were read, as many as is said. *)
Lemma hash_reading_Ok {C : Crypto} r maximum digest n i :
  hash_reading r maximum = Ok (digest, n, i) -> exists c, hashFile c = digest /\ Z.of_nat (length c) = n.
Proof.
  unfold hash_reading. intros H. result_inv. destruct a3 as [pos seen]. result_inv.
  exists seen. split; [done|]. by eapply read_loop_length.
Qed.

(** ** What the store promises *)

Section Invariant.
Context {C : Crypto}.
Variable artifactsDir : string.
Variable maximumArtifactBytes : Z.

Abbreviation objectPath := (objectPath artifactsDir).
Abbreviation uploadPath := (uploadPath artifactsDir).

(** A record of the manifest that agrees with the files: a finalized artifact is the object of its
    digest, and its size that of a content with this digest; an upload is not an object. *)
Definition fits (fs : gmap string buffer) (r : ArtifactRecord) : Prop :=
  match status r with
  | finalized =>
      path r = objectPath (sha256 r) /\ is_Some (fs !! objectPath (sha256 r)) /\
      exists c, hashFile c = sha256 r /\ Z.of_nat (length c) = size r
  | uploading => exists id, path r = uploadPath id
  | aborted => True
  end.

Record Inv (d : Disk) : Prop := {
  inv_readable : is_ok (records_of d) = true;
  inv_fits : forall r, r ∈ records d -> fits (files d) r
}.

(** An object is named by the digest of its content. *)
Definition Sound (d : Disk) : Prop := forall h c, files d !! objectPath h = Some c -> hashFile c = h.

(** What never changes: a record that is not uploading, and an object. *)
Record Keeps (d d' : Disk) : Prop := {
  keeps_record : forall id r, find_record id (records d) = Some r -> status r <> uploading ->
    find_record id (records d') = Some r;
  keeps_object : forall h c, files d !! objectPath h = Some c -> files d' !! objectPath h = Some c
}.

Definition safe (d d' : Disk) : Prop := Inv d -> Inv d' /\ Keeps d d'.
Definition good (d d' : Disk) : Prop := safe d d' /\ (Inv d -> Sound d -> Sound d').

#[local] Instance safe_preorder : PreOrder safe.
Proof.
  split.
  - intros d Hd. split; [done|]. by split.
  - intros d1 d2 d3 H12 H23 H1. destruct (H12 H1) as [H2 K12]. destruct (H23 H2) as [H3 K23].
    split; [done|]. split; [|intros h c Hc; by apply K23, K12].
    intros id r Hf Hs. apply K23; [by apply K12|done].
Qed.

#[local] Instance good_preorder : PreOrder good.
Proof.
  split.
  - intros d. split; [reflexivity|done].
  - intros d1 d2 d3 [S12 H12] [S23 H23]. split; [by etransitivity|]. intros H1 H. apply H23; [by apply S12|auto].
Qed.

Lemma app_inj_head (a b c : string) : (a ++ b = a ++ c)%string -> b = c.
Proof. intros H. apply (f_equal chars) in H. rewrite !chars_app in H. by apply chars_inj, (app_inv_head (chars a)). Qed.

Lemma string_app_assoc (a b c : string) : ((a ++ b) ++ c = a ++ (b ++ c))%string.
Proof. apply chars_inj. by rewrite !chars_app, app_assoc. Qed.

Lemma objectPath_inj h k : objectPath h = objectPath k -> h = k.
Proof. unfold Artifacts.objectPath. intros ?%app_inj_head%app_inj_head. done. Qed.

Lemma upload_not_object id h : uploadPath id <> objectPath h.
Proof.
  unfold Artifacts.objectPath, Artifacts.uploadPath, objectRoot, uploadRoot. rewrite !string_app_assoc.
  by intros H%app_inj_head.
Qed.

(** *** The changes of the disk *)

Lemma same_good d d' : manifest d' = manifest d -> files d' = files d -> good d d'.
Proof.
  intros Hm Hf. assert (records_of d' = records_of d) as Hr by (unfold records_of; by rewrite Hm).
  assert (records d' = records d) as Hr' by (unfold records; by rewrite Hr). split.
  - intros Hd. split; split; rewrite ?Hr, ?Hr', ?Hf; try done; apply Hd.
  - intros _ HS h c. rewrite Hf. apply HS.
Qed.

Lemma fits_files fs fs' r :
  (forall h, is_Some (fs !! objectPath h) -> is_Some (fs' !! objectPath h)) -> fits fs r -> fits fs' r.
Proof. unfold fits. intros Hf. destruct (status r); naive_solver. Qed.

Lemma files_safe d f :
  (forall h c, files d !! objectPath h = Some c -> f (files d) !! objectPath h = Some c) -> safe d (with_files f d).
Proof.
  intros Hf Hd. split; split; [apply Hd| |done|done]. intros r Hr. eapply fits_files; [|by apply Hd].
  intros h [c Hc]. exists c. by apply Hf.
Qed.

Lemma upload_good d f :
  (forall h, f (files d) !! objectPath h = files d !! objectPath h) -> good d (with_files f d).
Proof.
  intros Hf. split; [apply files_safe; intros h c; by rewrite Hf|]. intros _ HS h c. cbn. rewrite Hf. apply HS.
Qed.

Lemma rename_good d id h c :
  files d !! objectPath h = None -> hashFile c = h ->
  good d (with_files (fun m => <[objectPath h := c]> (delete (uploadPath id) m)) d).
Proof.
  intros Hn Hh. split.
  - apply files_safe. intros k c' Hk. rewrite lookup_insert_ne, lookup_delete_ne; [done| |].
    + apply upload_not_object.
    + intros ->%objectPath_inj. congruence.
  - intros _ HS k c'. cbn. destruct (decide (h = k)) as [->|Hne].
    + rewrite lookup_insert_eq. by intros [= ->].
    + rewrite lookup_insert_ne, lookup_delete_ne; [apply HS|apply upload_not_object|]. by intros ?%objectPath_inj.
Qed.

(** A manifest with a new record, or with another version of an upload. *)
Inductive rewritten (d : Disk) (r : ArtifactRecord) : list ArtifactRecord -> Prop :=
| rewritten_new : rewritten d r (records d ++ [r])
| rewritten_upload x :
    find_record (artifactId r) (records d) = Some x -> status x = uploading ->
    rewritten d r (replace_record r (records d)).

Lemma rewritten_files d f r x :
  find_record (artifactId r) (records d) = Some x -> status x = uploading ->
  rewritten (with_files f d) r (replace_record r (records d)).
Proof. apply (rewritten_upload (with_files f d)). Qed.

Lemma fits_norm fs r : fits fs (norm r) <-> fits fs r.
Proof. done. Qed.

Lemma manifest_good d d' r l :
  rewritten d r l -> fits (files d) r ->
  manifest d' = Some (Stored (List.map written l)) -> files d' = files d -> good d d'.
Proof.
  intros Hl Hr Hm Hf. apply records_written in Hm as Hrec. split; [intros Hd|].
  - split; split.
    + unfold records_of. by rewrite Hm.
    + intros x. rewrite Hrec, Hf. intros (y & <- & Hy)%list_elem_of_In%in_map_iff. apply fits_norm.
      apply list_elem_of_In in Hy. destruct Hl as [|x Hx Hs].
      * apply elem_of_app in Hy as [Hy| ->%list_elem_of_singleton]; [by apply Hd|done].
      * apply replace_record_elem in Hy as [->|Hy]; [done|by apply Hd].
    + intros id x Hx Hs. rewrite Hrec. destruct Hl as [|y Hy Hu].
      * rewrite List.map_app, norm_records. by apply find_record_snoc.
      * rewrite map_replace_record, norm_records by done. rewrite replace_record_other; [done|].
        intros ->. cbn in *. congruence.
    + by rewrite Hf.
  - intros _ HS h c. rewrite Hf. apply HS.
Qed.

(** *** The capture of a file *)

(** A capture that ends with its own outcome: it was not killed, and no call on the source threw. *)
Definition whole {X} (r : result artifact_error X) : bool :=
  match r with Err killed | Err file_error => false | _ => true end.

Lemma copy_loop_spec destination d reads : forall position seen s,
  disk s = with_files <[destination := seen]> d ->
  wp (copy_loop maximumArtifactBytes destination position seen reads)
    (fun r s' => exists c, disk s' = with_files <[destination := c]> d /\ forall p c', r = Ok (p, c') -> c = c') s.
Proof.
  induction reads as [|data reads IH]; intros position seen s Hs; cbn [copy_loop].
  { apply wp_ret. exists seen. split; [done|]. by intros p c [= _ <-]. }
  destruct (take _ data) as [|b chunk]; [apply wp_ret; exists seen; split; [done|by intros p c [= _ <-]]|].
  apply wp_bind, wp_guardM; intros _; [|by exists seen]. apply wp_bind, wp_effect; [|by exists seen]. intros n.
  apply IH. cbn. rewrite Hs. unfold with_files. cbn. by rewrite lookup_insert_eq, insert_insert_eq.
Qed.

Lemma delete_insert_files d destination c :
  files d !! destination = None -> files (with_files (delete destination) (with_files <[destination := c]> d)) = files d.
Proof. intros Hn. cbn. by rewrite delete_insert_id. Qed.

(** The object of a capture, from the moment it is created. *)
Lemma partial_safe d h c : files d !! objectPath h = None -> safe d (with_files <[objectPath h := c]> d).
Proof.
  intros Hn. apply files_safe. intros k c' Hk. rewrite lookup_insert_ne; [done|]. intros E. rewrite E in Hn. congruence.
Qed.

Lemma complete_good d h c :
  files d !! objectPath h = None -> hashFile c = h -> good d (with_files <[objectPath h := c]> d).
Proof.
  intros Hn Hh. split; [by apply partial_safe|]. intros _ HS k c'. cbn. destruct (decide (h = k)) as [->|Hne].
  - rewrite lookup_insert_eq. by intros [= <-].
  - rewrite lookup_insert_ne; [apply HS|]. by intros ?%objectPath_inj.
Qed.

Definition captured (s : Process) (h : string) (r : result artifact_error string) (s' : Process) : Prop :=
  safe (disk s) (disk s') /\ (whole r = true -> good (disk s) (disk s')) /\
  forall p, r = Ok p -> p = objectPath h /\ is_Some (files (disk s') !! p).

Lemma captured_good s h r s' :
  good (disk s) (disk s') -> (forall p, r = Ok p -> p = objectPath h /\ is_Some (files (disk s') !! p)) ->
  captured s h r s'.
Proof. intros Hg Hr. split; [apply Hg|done]. Qed.

(** The clean-up of a capture that failed: the object is removed, unless the process is killed. *)
Lemma clean_up_captured {X} s h e s1 :
  files (disk s) !! objectPath h = None ->
  (exists c, disk s1 = with_files <[objectPath h := c]> (disk s)) \/ disk s1 = disk s ->
  wp (unlink_if_exists (objectPath h);; throw e : Fs X)
    (fun r s' => exists e', r = Err e' /\ captured s h (Err e') s') s1.
Proof.
  intros Hn Hs1. apply wp_bind, wp_unlink_if_exists.
  - intros b. apply wp_throw. eexists. split; [done|]. apply captured_good; [|done].
    destruct Hs1 as [[c Hc]|Hc]; cbn; rewrite Hc; [by apply same_good; [|apply delete_insert_files]|].
    apply same_good; [done|]. cbn. by apply delete_id.
  - intros Ha. apply wp_throw. eexists. split; [done|]. apply captured_good; [|done].
    destruct Hs1 as [[c Hc]|Hc]; [|by rewrite Hc]. rewrite Hc in Ha. cbn in Ha. by rewrite lookup_insert_eq in Ha.
  - eexists. split; [done|]. split; [|done]. destruct Hs1 as [[c Hc]|Hc]; rewrite Hc; [by apply partial_safe|reflexivity].
Qed.

Lemma persistObject_spec source h n ident s :
  wp (persistObject artifactsDir maximumArtifactBytes source h n ident) (captured s h) s.
Proof.
  unfold persistObject. apply wp_bind, wp_existsSync. destruct (bool_decide _) eqn:Hp; bool_inv.
  { apply wp_ret, captured_good; [reflexivity|]. by intros p [= <-]. }
  apply eq_None_not_Some in Hp.
  apply wp_bind, wp_lift; intros reads Hr; [|by apply captured_good].
  apply wp_bind, wp_try_catch, wp_bind, wp_createNew.
  2: { intros e. eapply wp_mono; [apply clean_up_captured; eauto|]. by intros r s' (e' & -> & H). }
  intros b _. eapply wp_mono; [by apply copy_loop_spec|]. intros [[position copied]|e] s1 (c & Hd & Hc); cycle 1.
  { eapply wp_mono; [apply clean_up_captured; eauto|]. by intros r s' (e' & -> & H). }
  rewrite (Hc _ _ eq_refl) in Hd. apply wp_bind, wp_lift; intros fin Hfin; cycle 1.
  { split; [rewrite Hd; by apply partial_safe|]. split; [|done]. unfold or_throw in Hfin.
    destruct (final source); [done|]. by injection Hfin as <-. }
  destruct (_ && _) eqn:E.
  - bool_inv. apply wp_ret, captured_good; [rewrite Hd; by apply complete_good|].
    intros p [= <-]. split; [done|]. rewrite Hd. cbn. rewrite lookup_insert_eq. by eexists.
  - eapply wp_mono; [apply clean_up_captured; eauto|]. by intros r s' (e' & -> & H).
Qed.

(** *** The operations *)

Hypothesis Hmaximum : 0 <= maximumArtifactBytes.

Lemma wp_hash_own p (Q : result artifact_error (string * Z * FileIdentity) -> Process -> Prop) s :
  (forall c i, files (disk s) !! p = Some c -> Q (Ok (hashFile c, Z.of_nat (length c), i)) s) ->
  (forall e, Q (Err e) s) -> wp (hash_own maximumArtifactBytes p) Q s.
Proof using Hmaximum.
  intros Hok He. apply wp_bind, wp_gets, wp_lift; [|intros; apply He]. intros a.
  destruct (files (disk s) !! p) as [c|] eqn:Hc; [|done]. rewrite hash_reading_stable by done.
  destruct (_ <=? _); [|done]. intros [= <-]. by apply Hok.
Qed.

Lemma wp_open_record id l (Q : result artifact_error ArtifactRecord -> Process -> Prop) s :
  (forall x, find_record id l = Some x -> status x = uploading -> Q (Ok x) s) -> (forall e, Q (Err e) s) ->
  wp (open_record id l) Q s.
Proof using.
  intros Hok He. unfold open_record. destruct (find_record id l) as [x|] eqn:Hx; [|by apply wp_throw].
  apply wp_bind, wp_guardM; intros Hs; [|apply He]. bool_inv. by apply wp_ret, Hok.
Qed.

Lemma records_Ok d l : records_of d = Ok l -> records d = l.
Proof using. unfold records. by intros ->. Qed.

(** The last two lines of an operation. *)
Lemma wp_finish {X} (x : X) (d : Disk) r l s :
  good d (disk s) -> rewritten (disk s) r l -> fits (files (disk s)) r ->
  wp (saveManifest l;; mret x) (fun _ s' => good d (disk s')) s.
Proof using.
  intros Hd Hl Hr. apply wp_bind, wp_saveManifest.
  - intros s' Hm Hf. apply wp_ret. etransitivity; [exact Hd|]. by eapply manifest_good.
  - intros e s' Hm Hf. etransitivity; [exact Hd|]. by apply same_good.
Qed.

Lemma createFromFile_spec uuid now hashing capture payload s :
  wp (createFromFile artifactsDir maximumArtifactBytes uuid now hashing capture payload)
    (fun r s' => safe (disk s) (disk s') /\ (whole r = true -> good (disk s) (disk s'))) s.
Proof using Hmaximum.
  assert (forall (r : result artifact_error ArtifactRecord) s', good (disk s) (disk s') ->
    safe (disk s) (disk s') /\ (whole r = true -> good (disk s) (disk s'))) as Hgood by (intros; split; [apply H|done]).
  unfold createFromFile. apply wp_bind, wp_guardM; intros _; [|by apply Hgood].
  apply wp_bind, wp_lift; [intros [[digest len] ident] Hh|intros; by apply Hgood].
  apply hash_reading_Ok in Hh as (seen & Hdigest & Hlen).
  apply wp_bind. eapply wp_mono; [apply persistObject_spec|]. intros [p|e] s1 (Hs & Hg & Hp); [|done].
  specialize (Hg eq_refl). destruct (Hp p eq_refl) as [-> Hsome].
  apply wp_bind, wp_loadManifest; [|by intros; apply Hgood]. intros l Hl. apply records_Ok in Hl as <-.
  eapply wp_mono; [|intros r s' H; apply Hgood, H]. eapply wp_finish; [done|by constructor|].
  split; [done|]. split; [done|]. by exists seen.
Qed.

Lemma uploadPath_fresh id h (m : gmap string buffer) c : <[uploadPath id := c]> m !! objectPath h = m !! objectPath h.
Proof using. apply lookup_insert_ne, upload_not_object. Qed.

Lemma beginUpload_good uuid now payload s :
  wp (beginUpload artifactsDir uuid now payload) (fun _ s' => good (disk s) (disk s')) s.
Proof using.
  unfold beginUpload. do 3 (apply wp_bind, wp_guardM; intros _; [|reflexivity]).
  apply wp_bind, wp_createNew; [intros b Hn|reflexivity].
  assert (good (disk s) (with_files <[uploadPath uuid := []]> (disk s))) as Hg
    by (apply upload_good; intros h; apply uploadPath_fresh).
  apply wp_bind, wp_loadManifest; [|done]. intros l Hl. apply records_Ok in Hl as <-.
  eapply wp_finish; [done|by constructor|]. by exists uuid.
Qed.

(** An upload is where the operation expects it. *)
Lemma found_upload d id x :
  Inv d -> find_record id (records d) = Some x -> status x = uploading ->
  artifactId x = id /\ exists u, path x = uploadPath u.
Proof using.
  intros Hd Hf Hs. apply find_record_id in Hf as [Hid Hx]. split; [done|].
  pose proof (inv_fits d Hd x Hx) as Hfit. unfold fits in Hfit. by rewrite Hs in Hfit.
Qed.

Lemma assume_Inv {X} (m : Fs X) s :
  (Inv (disk s) -> wp m (fun _ s' => good (disk s) (disk s')) s) -> wp m (fun _ s' => good (disk s) (disk s')) s.
Proof using. intros H. split; [intros Hd; by apply H|intros Hd; by apply H]. Qed.

Lemma abort_good now id s : wp (abort now id) (fun _ s' => good (disk s) (disk s')) s.
Proof using.
  apply assume_Inv. intros Hd. unfold abort. apply wp_bind, wp_loadManifest; [|done].
  intros l Hl. apply records_Ok in Hl as <-. apply wp_bind, wp_open_record; [|done]. intros x Hx Hs.
  destruct (found_upload _ _ _ Hd Hx Hs) as [Hid [u Hu]]. rewrite Hu. rewrite <- Hid in Hx.
  apply wp_bind, wp_unlink_if_exists; [intros b|intros _|done].
  - eapply wp_finish; [|by apply (rewritten_files _ _ _ x)|done].
    apply upload_good. intros h. apply lookup_delete_ne, upload_not_object.
  - eapply wp_finish; [done|by apply (rewritten_upload _ _ x)|done].
Qed.

Lemma finalize_good now payload s :
  wp (finalize artifactsDir maximumArtifactBytes now payload) (fun _ s' => good (disk s) (disk s')) s.
Proof using Hmaximum.
  apply assume_Inv. intros Hd. unfold finalize. apply wp_bind, wp_guardM; intros _; [|done].
  apply wp_bind, wp_loadManifest; [|done]. intros l Hl. apply records_Ok in Hl as <-.
  apply wp_bind, wp_open_record; [|done]. intros x Hx Hs.
  destruct (found_upload _ _ _ Hd Hx Hs) as [Hid [u Hu]]. rewrite Hu. rewrite <- Hid in Hx.
  apply wp_bind, wp_hash_own; [|done]. intros c i Hc.
  do 4 (apply wp_bind, wp_guardM; intros _; [|done]). apply wp_bind, wp_existsSync.
  destruct (bool_decide _) eqn:Hp; bool_inv; apply wp_bind.
  - apply wp_unlinkSync; [intros b|done]. eapply wp_finish; [|by apply (rewritten_files _ _ _ x)|].
    + apply upload_good. intros h. apply lookup_delete_ne, upload_not_object.
    + split; [done|]. split; [|by exists c]. cbn. rewrite lookup_delete_ne; [done|apply upload_not_object].
  - apply eq_None_not_Some in Hp. apply wp_renameSync; [intros c' b Hc'|done].
    assert (c' = c) as -> by congruence. eapply wp_finish; [by apply rename_good|by apply (rewritten_files _ _ _ x)|].
    split; [done|]. split; [|by exists c]. cbn. rewrite lookup_insert_eq. by eexists.
Qed.

Lemma uploadChunk_good now payload s :
  wp (uploadChunk artifactsDir maximumArtifactBytes now payload) (fun _ s' => good (disk s) (disk s')) s.
Proof using Hmaximum.
  apply assume_Inv. intros Hd. unfold uploadChunk. apply wp_bind, wp_loadManifest; [|done].
  intros l Hl. apply records_Ok in Hl as <-. apply wp_bind, wp_open_record; [|done]. intros x Hx Hs.
  destruct (found_upload _ _ _ Hd Hx Hs) as [Hid [u Hu]]. rewrite Hu. rewrite <- Hid in Hx.
  apply wp_bind, wp_guardM; intros _; [|done]. apply wp_bind, wp_contents; [intros c _|done].
  apply wp_bind, wp_effect; [intros b|done].
  set (c' := write_at _ _ _).
  assert (good (disk s) (with_files <[uploadPath u := c']> (disk s))) as Hg
    by (apply upload_good; intros h; apply uploadPath_fresh).
  apply wp_bind, wp_saveManifest; [intros s' Hm Hf|intros e s' Hm Hf; etransitivity; [exact Hg|by apply same_good]].
  assert (good (disk s) (disk s')) as Hg'.
  { etransitivity; [exact Hg|]. eapply manifest_good; [|  |exact Hm|exact Hf]; [by apply (rewritten_files _ _ _ x)|].
    unfold fits. cbn. rewrite Hs. by exists u. }
  destruct (u_finalize payload); [|by apply wp_ret]. apply wp_bind, wp_hash_own; [intros c0 i _|done].
  eapply wp_mono; [apply finalize_good|]. intros r s2 H. by etransitivity.
Qed.

(** Reading changes nothing. *)
Lemma download_reads payload : respects eq (download payload).
Proof using. unfold download, loadManifest, contents. respects_steps. by intros s. Qed.
End Invariant.

(** ** Histories

    A history is a list of calls of the operations that write, each with the number of changes of the
    file system after which the process is killed, if it is; the next call finds what is on the disk. *)

Inductive call :=
| Create (uuid now : string) (hashing capture : Reading) (payload : ArtifactCreatePayload)
| Begin (uuid now : string) (payload : ArtifactBeginPayload)
| Upload (now : string) (payload : ArtifactUploadPayload)
| Finalize (now : string) (payload : ArtifactFinalizePayload)
| Abort (now id : string).

Section History.
Context {C : Crypto}.
Variable artifactsDir : string.
Variable maximumArtifactBytes : Z.

Definition run_call (c : call) : Fs ArtifactRecord :=
  match c with
  | Create uuid now hashing capture payload =>
      createFromFile artifactsDir maximumArtifactBytes uuid now hashing capture payload
  | Begin uuid now payload => beginUpload artifactsDir uuid now payload
  | Upload now payload => uploadChunk artifactsDir maximumArtifactBytes now payload
  | Finalize now payload => finalize artifactsDir maximumArtifactBytes now payload
  | Abort now id => abort now id
  end.

Definition empty : Disk := {| manifest := None; temporary := None; files := ∅ |}.

Definition outcome (d : Disk) (k : call * option nat) : result artifact_error ArtifactRecord * Process :=
  run_call (fst k) {| disk := d; budget := snd k |}.

Fixpoint after (d : Disk) (l : list (call * option nat)) : Disk :=
  match l with
  | [] => d
  | k :: l => after (disk (snd (outcome d k))) l
  end.

(** No capture of a file was killed, or ended because a call on the source threw. *)
Fixpoint whole_captures (d : Disk) (l : list (call * option nat)) : bool :=
  match l with
  | [] => true
  | k :: l =>
      match fst k with Create _ _ _ _ _ => whole (fst (outcome d k)) | _ => true end &&
      whole_captures (disk (snd (outcome d k))) l
  end.

Hypothesis Hmaximum : 0 <= maximumArtifactBytes.

Abbreviation Inv := (Inv artifactsDir).
Abbreviation Sound := (Sound artifactsDir).
Abbreviation Keeps := (Keeps artifactsDir).

Lemma empty_Inv : Inv empty.
Proof using. split; [done|]. by intros r ?%not_elem_of_nil. Qed.

Lemma empty_Sound : Sound empty.
Proof using. intros h c. cbn. by rewrite lookup_empty. Qed.

Lemma outcome_good d k :
  match fst k with Create _ _ _ _ _ => whole (fst (outcome d k)) | _ => true end = true ->
  good artifactsDir d (disk (snd (outcome d k))).
Proof using Hmaximum.
  unfold outcome. destruct k as [[] b]; cbn [fst snd run_call]; intros Hk.
  - pose proof (wp_use _ _ _ (createFromFile_spec artifactsDir _ Hmaximum uuid now hashing capture payload
      {| disk := d; budget := b |})) as [_ H]. by apply H.
  - apply (wp_use _ _ _ (beginUpload_good artifactsDir uuid now payload {| disk := d; budget := b |})).
  - apply (wp_use _ _ _ (uploadChunk_good artifactsDir _ Hmaximum now payload {| disk := d; budget := b |})).
  - apply (wp_use _ _ _ (finalize_good artifactsDir _ Hmaximum now payload {| disk := d; budget := b |})).
  - apply (wp_use _ _ _ (abort_good artifactsDir now id {| disk := d; budget := b |})).
Qed.

Lemma outcome_safe d k : safe artifactsDir d (disk (snd (outcome d k))).
Proof using Hmaximum.
  destruct (decide (match fst k with Create _ _ _ _ _ => false | _ => true end = true)) as [E|E].
  - apply outcome_good. destruct k as [[] b]; done.
  - unfold outcome. destruct k as [[] b]; try by destruct E. cbn [fst snd run_call].
    pose proof (wp_use _ _ _ (createFromFile_spec artifactsDir _ Hmaximum uuid now hashing capture payload
      {| disk := d; budget := b |})) as [H _]. apply H.
Qed.

Lemma after_app d l k : after d (l ++ k) = after (after d l) k.
Proof using. revert d. induction l as [|c l IH]; intros d; cbn; auto. Qed.

Lemma after_safe d l : safe artifactsDir d (after d l).
Proof using Hmaximum.
  revert d. induction l as [|k l IH]; intros d; cbn; [intros Hd; split; [done|by split]|].
  intros Hd. destruct (outcome_safe d k Hd) as [H1 K1]. destruct (IH _ H1) as [H2 K2]. split; [done|].
  split; [|intros h c Hc; by apply K2, K1]. intros id r Hr Hs. apply K2; [by apply K1|done].
Qed.

Lemma after_sound d l : whole_captures d l = true -> Inv d -> Sound d -> Sound (after d l).
Proof using Hmaximum.
  revert d. induction l as [|k l IH]; intros d; cbn; [done|]. intros [Hk Hl]%andb_true_iff Hd HS.
  destruct (outcome_good d k Hk) as [Hsafe Hsound]. apply IH; [done|by apply Hsafe|by apply Hsound].
Qed.

(** ** Theorems *)

(** C8: The bytes of a finalized artifact are its object, named by the digest of its record, and they have
    that digest; the size of the record is the size of a content with this digest: after any calls, with
    any contents, and with the process killed between any two changes of the file system, unless the
    capture of a file of the host was cut short. *)
Theorem finalized_bytes_verify l id r :
  whole_captures empty l = true ->
  find_record id (records (after empty l)) = Some r -> status r = finalized ->
  path r = objectPath artifactsDir (sha256 r) /\
  exists bytes content, files (after empty l) !! path r = Some bytes /\ hashFile bytes = sha256 r /\
    hashFile content = sha256 r /\ Z.of_nat (length content) = size r.
Proof using Hmaximum.
  intros Hl [_ Hin]%find_record_id Hs.
  destruct (after_safe empty l empty_Inv) as [HI _]. pose proof (after_sound empty l Hl empty_Inv empty_Sound) as HS.
  pose proof (inv_fits _ _ HI r Hin) as Hr. unfold fits in Hr. rewrite Hs in Hr.
  destruct Hr as (Hp & [bytes Hb] & content & Hc & Hn). split; [done|]. exists bytes, content. rewrite Hp.
  split_and!; [done|by apply HS|done|done].
Qed.

(** C9: An artifact that is finalized or aborted stays exactly as it is, and the bytes of a finalized one
    too, whatever is called afterwards and wherever the process is killed. *)
Theorem settled_artifact_is_immutable l k id r :
  find_record id (records (after empty l)) = Some r -> status r <> uploading ->
  find_record id (records (after empty (l ++ k))) = Some r /\
  (status r = finalized -> exists bytes, files (after empty l) !! path r = Some bytes /\
     files (after empty (l ++ k)) !! path r = Some bytes).
Proof using Hmaximum.
  intros Hf Hs. destruct (after_safe empty l empty_Inv) as [HI _].
  destruct (after_safe (after empty l) k HI) as [_ HK]. rewrite after_app. split; [by apply HK|].
  intros Hfin. apply find_record_id in Hf as [_ Hin]. pose proof (inv_fits _ _ HI r Hin) as Hr. unfold fits in Hr.
  rewrite Hfin in Hr. destruct Hr as (Hp & [bytes Hb] & _). rewrite Hp. exists bytes. split; [done|by apply HK].
Qed.
End History.

(** ** A client: an upload in chunks, and a download in chunks

    The calls a client makes, with a process that is not killed. *)

Section Client.
Context {C : Crypto} `{!CryptoLaws C}.
Variable artifactsDir : string.
Variable maximumArtifactBytes : Z.

Fixpoint send (now id : string) (offset : Z) (chunks : list buffer) : Fs unit :=
  match chunks with
  | [] => mret ()
  | data :: chunks =>
      uploadChunk artifactsDir maximumArtifactBytes now
        {| u_artifactId := id; u_offset := offset; u_data := toBase64 data; u_finalize := false |};;
      send now id (offset + Z.of_nat (length data)) chunks
  end.

Definition upload_all (uuid now : string) (payload : ArtifactBeginPayload) (chunks : list buffer) : Fs ArtifactRecord :=
  record ← beginUpload artifactsDir uuid now payload;
  send now (artifactId record) 0 chunks;;
  let data := concat chunks in
  finalize artifactsDir maximumArtifactBytes now
    {| f_artifactId := artifactId record; f_expectedSize := Z.of_nat (length data); f_expectedSha256 := hashFile data |}.

Fixpoint receive (fuel : nat) (id : string) (offset limit : Z) : Fs buffer :=
  match fuel with
  | O => throw file_error
  | S fuel =>
      r ← download {| d_artifactId := id; d_offset := Some offset; d_limit := Some limit |};
      if o_eof r then mret (fromBase64 (o_data r))
      else rest ← receive fuel id (o_offset r) limit; mret (fromBase64 (o_data r) ++ rest)
  end.

(** What [begin] was told agrees with the data. *)
Definition announces (payload : ArtifactBeginPayload) (data : buffer) : Prop :=
  truthy_str (b_name payload) = true /\
  (b_expectedSize payload = None \/ b_expectedSize payload = Some (Z.of_nat (length data))) /\
  (b_expectedSha256 payload = None \/ b_expectedSha256 payload = Some (hashFile data)).

Hypothesis Hmaximum : 0 <= maximumArtifactBytes.

Definition running (d : Disk) : Process := {| disk := d; budget := None |}.

Definition saved (fs : gmap string buffer) (l : list ArtifactRecord) : Disk :=
  {| manifest := Some (Stored (List.map written l)); temporary := None; files := fs |}.

Lemma saveManifest_running d l : saveManifest l (running d) = (Ok tt, running (saved (files d) l)).
Proof using. reflexivity. Qed.

Lemma loadManifest_running d : is_ok (records_of d) = true -> loadManifest (running d) = (Ok (records d), running d).
Proof using. unfold loadManifest, records. cbn. by destruct (records_of d). Qed.

Lemma contents_running p d c : files d !! p = Some c -> contents p (running d) = (Ok c, running d).
Proof using. intros H. unfold contents, mbind, M_bind, gets. cbn. by rewrite H. Qed.

Lemma records_saved fs l : records (saved fs l) = List.map norm l.
Proof using. by apply records_written. Qed.

Lemma hash_own_running p d c :
  files d !! p = Some c -> Z.of_nat (length c) <= maximumArtifactBytes ->
  hash_own maximumArtifactBytes p (running d) =
    (Ok (hashFile c, Z.of_nat (length c), identity (stats_of c)), running d).
Proof using Hmaximum.
  intros Hc Hn. unfold hash_own, mbind, M_bind, gets, lift. cbn [disk running]. rewrite Hc.
  rewrite hash_reading_stable by done. by apply Z.leb_le in Hn as ->.
Qed.

(** An upload in progress: its record, and the bytes so far. *)
Record Uploading (d : Disk) (id : string) (c : buffer) (x : ArtifactRecord) : Prop := {
  up_readable : is_ok (records_of d) = true;
  up_found : find_record id (records d) = Some x;
  up_status : status x = uploading;
  up_bytes : files d !! path x = Some c;
  up_size : size x = Z.of_nat (length c);
  up_path : path x = uploadPath artifactsDir id
}.

Definition same_objects (d d' : Disk) : Prop :=
  forall h, files d' !! objectPath artifactsDir h = files d !! objectPath artifactsDir h.

Lemma open_record_running d id c x :
  Uploading d id c x -> open_record id (records d) (running d) = (Ok x, running d).
Proof using.
  intros H. unfold open_record. rewrite (up_found _ _ _ _ H), bindM_eq. unfold guardM, lift, require.
  by rewrite bool_decide_eq_true_2 by apply H.
Qed.

Lemma write_at_end c data : write_at c (length c) data = c ++ data.
Proof using.
  destruct data as [|b data]; cbn [write_at]; [by rewrite app_nil_r|].
  rewrite Nat.sub_diag, firstn_all, drop_ge, app_nil_r by lia. done.
Qed.

Lemma find_replaced fs id x r :
  find_record id (records fs) = Some x -> artifactId r = id ->
  forall m, find_record id (records (saved m (replace_record r (records fs)))) = Some (norm r).
Proof using.
  intros Hx Hr m. rewrite records_saved, map_replace_record, norm_records by done. subst id.
  by apply (replace_record_same (norm r) (records fs) x).
Qed.

Ltac run :=
  repeat first
    [ rewrite bindM_eq
    | rewrite saveManifest_running
    | rewrite loadManifest_running by done ]; cbv beta iota.

(** One chunk more. *)
Lemma uploadChunk_running now d id c x data :
  Uploading d id c x -> Forall is_byte data ->
  exists d' x', uploadChunk artifactsDir maximumArtifactBytes now
      {| u_artifactId := id; u_offset := Z.of_nat (length c); u_data := toBase64 data; u_finalize := false |}
      (running d) = (Ok x', running d') /\
    Uploading d' id (c ++ data) (norm x') /\ same_objects d d' /\
    expectedSize (norm x') = expectedSize x /\ truthy_opt (expectedSha256 (norm x')) = truthy_opt (expectedSha256 x).
Proof using.
  intros Hup Hdata. pose proof Hup as [Hok Hf Hs Hb Hn Hp]. apply find_record_id in Hf as Hid. destruct Hid as [Hid _].
  unfold uploadChunk. run. cbn [u_artifactId u_offset u_data u_finalize].
  rewrite (open_record_running d id c x Hup). unfold guardM, lift. rewrite Hn, Z.eqb_refl. cbn [require].
  rewrite base64_roundtrip by done. run. rewrite (contents_running _ _ _ Hb). run. unfold effect. cbn [budget running disk].
  rewrite Nat2Z.id, write_at_end. change {| disk := ?d; budget := None |} with (running d). run.
  set (x' := {| artifactId := artifactId x |}). eexists _, x'. split; [done|].
  split; [split|split; [|split; [done|apply truthy_opt_idem]]].
  - done.
  - by apply (find_replaced d id x).
  - done.
  - cbn. by rewrite lookup_insert_eq.
  - cbn. rewrite length_app. lia.
  - done.
  - intros h. cbn. rewrite Hp. apply uploadPath_fresh.
Qed.

Lemma send_running now id chunks : forall d c x,
  Uploading d id c x -> Forall (Forall is_byte) chunks ->
  exists d' x', send now id (Z.of_nat (length c)) chunks (running d) = (Ok tt, running d') /\
    Uploading d' id (c ++ concat chunks) x' /\ same_objects d d' /\
    expectedSize x' = expectedSize x /\ truthy_opt (expectedSha256 x') = truthy_opt (expectedSha256 x).
Proof using.
  induction chunks as [|data chunks IH]; intros d c x Hup Hch; cbn [send concat].
  { exists d, x. by rewrite app_nil_r. }
  apply list.Forall_cons in Hch as [Hdata Hch].
  destruct (uploadChunk_running now d id c x data Hup Hdata) as (d1 & x1 & Hrun & Hup1 & Hsame & Hsz & Hsha).
  run. rewrite Hrun. replace (Z.of_nat (length c) + _) with (Z.of_nat (length (c ++ data))) by (rewrite length_app; lia).
  destruct (IH d1 (c ++ data) (norm x1) Hup1 Hch) as (d2 & x2 & Hrun2 & Hup2 & Hsame2 & Hsz2 & Hsha2).
  exists d2, x2. rewrite Hrun2, <- app_assoc in *. rewrite Hsz2, Hsha2. split_and!; try done.
  intros h. by rewrite Hsame2, Hsame.
Qed.

(** The end of an upload whose size and digest are as expected. *)
Lemma finalize_running now d id c x :
  Uploading d id c x -> Z.of_nat (length c) <= maximumArtifactBytes ->
  (expectedSize x = None \/ expectedSize x = Some (Z.of_nat (length c))) ->
  (truthy_opt (expectedSha256 x) = None \/ truthy_opt (expectedSha256 x) = Some (hashFile c)) ->
  exists d' r, finalize artifactsDir maximumArtifactBytes now
      {| f_artifactId := id; f_expectedSize := Z.of_nat (length c); f_expectedSha256 := hashFile c |}
      (running d) = (Ok r, running d') /\
    is_ok (records_of d') = true /\
    find_record id (records d') = Some (norm r) /\ status r = finalized /\ sha256 r = hashFile c /\
    path r = objectPath artifactsDir (hashFile c) /\
    files d' !! path r = Some (default c (files d !! path r)).
Proof using CryptoLaws0 Hmaximum.
  intros Hup Hmax Hsz Hsha. pose proof Hup as [Hok Hf Hs Hb Hn Hp]. apply find_record_id in Hf as Hid. destruct Hid as [Hid _].
  unfold finalize. cbn [f_artifactId f_expectedSize f_expectedSha256]. run. unfold guardM, lift.
  unfold hashFile at 1. rewrite sha256Hex_digest. cbn [require]. run.
  rewrite (open_record_running d id c x Hup). run. rewrite (hash_own_running _ _ _ Hb Hmax).
  rewrite Z.eqb_refl, bool_decide_eq_true_2 by done. cbn [require]. run.
  assert (match expectedSize x with Some n => n =? Z.of_nat (length c) | None => true end = true) as ->
    by (destruct Hsz as [->| ->]; [done|by rewrite Z.eqb_refl]).
  assert (match truthy_opt (expectedSha256 x) with Some h => (h === hashFile c)%js | None => true end = true) as ->
    by (destruct Hsha as [->| ->]; [done|by rewrite bool_decide_eq_true_2]).
  cbn [require]. run. unfold existsSync, gets. cbn [disk running].
  set (r := {| artifactId := artifactId x |}).
  assert (forall fs, is_ok (records_of (saved fs (replace_record r (records d)))) = true /\
    find_record id (records (saved fs (replace_record r (records d)))) = Some (norm r)) as Hfound.
  { intros fs. split; [done|]. by apply (find_replaced d id x). }
  assert (forall h, delete (path x) (files d) !! objectPath artifactsDir h = files d !! objectPath artifactsDir h) as Hobj
    by (intros h; rewrite Hp; apply lookup_delete_ne, upload_not_object).
  destruct (bool_decide _) eqn:Hex; bool_inv.
  - unfold unlinkSync. run. rewrite (contents_running _ _ _ Hb). unfold effect. cbn [budget running disk].
    change {| disk := ?d; budget := None |} with (running d). run. eexists _, r. split; [done|].
    split_and!; [apply Hfound|apply Hfound|done|done|done|]. cbn. rewrite Hobj. by destruct Hex as [c' ->].
  - unfold renameSync. run. rewrite (contents_running _ _ _ Hb). unfold effect. cbn [budget running disk].
    change {| disk := ?d; budget := None |} with (running d). run. eexists _, r. split; [done|].
    split_and!; [apply Hfound|apply Hfound|done|done|done|]. cbn.
    apply eq_None_not_Some in Hex as ->. by rewrite lookup_insert_eq.
Qed.

Lemma copy_whole src n : length src = n -> copy src (alloc n) 0 = src.
Proof using.
  intros <-. unfold copy, alloc. cbn [take app].
  rewrite length_replicate, Nat.sub_0_r, drop_replicate, Nat.add_0_l, Nat.sub_diag, app_nil_r. by apply take_ge.
Qed.

(** A piece of a finalized artifact. *)
Lemma download_running d id r c offset limit :
  is_ok (records_of d) = true -> find_record id (records d) = Some r -> status r = finalized ->
  files d !! path r = Some c -> 0 <= offset <= Z.of_nat (length c) -> 0 < limit ->
  let n := Z.min (Z.min limit (64 * 1024)) (Z.of_nat (length c) - offset) in
  download {| d_artifactId := id; d_offset := Some offset; d_limit := Some limit |} (running d) =
    (Ok {| o_artifactId := artifactId r;
           o_data := toBase64 (subarray c (Z.to_nat offset) (Z.to_nat offset + Z.to_nat n));
           o_offset := offset + n; o_eof := Z.of_nat (length c) <=? offset + n;
           o_sha256 := sha256 r; o_size := size r |}, running d).
Proof using.
  intros Hok Hf Hs Hc Ho Hl n. unfold download. cbn [d_artifactId d_offset d_limit from_option]. unfold Datatypes.id.
  run. rewrite Hf. run.
  unfold guardM, lift. rewrite bool_decide_eq_true_2 by done. cbn [require]. run.
  rewrite (contents_running _ _ _ Hc). cbv beta iota zeta. replace (Z.max 0 _) with (Z.of_nat (length c) - offset) by lia. fold n.
  replace (0 <=? n) with true by (symmetry; apply Z.leb_le; lia).
  replace (-1 <=? offset) with true by (symmetry; apply Z.leb_le; lia). rewrite orb_true_r. cbn [require]. run.
  assert (length (subarray c (Z.to_nat offset) (Z.to_nat offset + Z.to_nat n)) = Z.to_nat n) as Hlen
    by (rewrite length_subarray; lia).
  by rewrite copy_whole by done.
Qed.

Lemma receive_running d id r c limit : is_ok (records_of d) = true -> find_record id (records d) = Some r ->
  status r = finalized -> files d !! path r = Some c -> Forall is_byte c -> 0 < limit ->
  forall fuel offset, 0 <= offset <= Z.of_nat (length c) -> Z.of_nat (length c) - offset < Z.of_nat fuel ->
  receive fuel id offset limit (running d) = (Ok (drop (Z.to_nat offset) c), running d).
Proof using.
  intros Hok Hf Hs Hc Hbytes Hl. induction fuel as [|fuel IH]; intros offset Ho Hfuel; [lia|].
  cbn [receive]. rewrite bindM_eq, (download_running d id r c offset limit) by done. cbv beta iota zeta.
  set (n := Z.min _ _). cbn [o_eof o_data o_offset].
  assert (Forall is_byte (subarray c (Z.to_nat offset) (Z.to_nat offset + Z.to_nat n))) as Hsub
    by (by apply Forall_take, Forall_drop).
  rewrite base64_roundtrip by done. unfold subarray. replace (_ + _ - _)%nat with (Z.to_nat n) by lia.
  destruct (_ <=? _) eqn:E; bool_inv.
  - unfold mret, M_ret. do 2 f_equal. apply take_ge. rewrite length_drop. lia.
  - rewrite bindM_eq, IH by lia. unfold mret, M_ret. do 2 f_equal.
    replace (Z.to_nat (offset + n)) with (Z.to_nat offset + Z.to_nat n)%nat by lia.
    by rewrite <- drop_drop, take_drop.
Qed.
Lemma find_record_last id l r : find_record id l = None -> artifactId r = id -> find_record id (l ++ [r]) = Some r.
Proof using.
  intros Hn Hr. unfold find_record in *. rewrite find_app_None by done. cbn. by rewrite bool_decide_eq_true_2.
Qed.

(** The beginning of an upload under an identifier of its own. *)
Lemma beginUpload_running uuid now payload data d :
  is_ok (records_of d) = true -> find_record uuid (records d) = None ->
  files d !! uploadPath artifactsDir uuid = None -> announces payload data ->
  exists d' x, beginUpload artifactsDir uuid now payload (running d) = (Ok x, running d') /\
    artifactId x = uuid /\ Uploading d' uuid [] (norm x) /\ same_objects d d' /\
    (expectedSize (norm x) = None \/ expectedSize (norm x) = Some (Z.of_nat (length data))) /\
    (truthy_opt (expectedSha256 (norm x)) = None \/ truthy_opt (expectedSha256 (norm x)) = Some (hashFile data)).
Proof using CryptoLaws0.
  intros Hok Hfresh Hfile (Hname & Hsz & Hsha). unfold beginUpload.
  assert (truthy_opt (Some (hashFile data)) = Some (hashFile data)) as Hnonempty.
  { unfold truthy_opt, truthy_str. rewrite bool_decide_eq_false_2; [done|]. intros E.
    pose proof (sha256Hex_digest (byte_string data)) as Hd. fold (hashFile data) in Hd. by rewrite E in Hd. }
  run. unfold guardM at 1, lift. rewrite Hname. cbn [require]. run. unfold guardM at 1, lift.
  assert (match b_expectedSize payload with Some n => n <? 0 | None => false end = false) as ->
    by (destruct Hsz as [->| ->]; [done|apply Z.ltb_ge; lia]).
  cbn [negb require]. run. unfold guardM at 1, lift.
  assert (match truthy_opt (b_expectedSha256 payload) with Some h => DIGEST_PATTERN h | None => true end = true) as ->
    by (destruct Hsha as [->| ->]; rewrite ?Hnonempty; [done|apply sha256Hex_digest]).
  cbn [require]. unfold createNew, existsSync, gets. run. cbn [disk running]. rewrite Hfile.
  rewrite bool_decide_eq_false_2 by (by intros [? ?]). unfold guardM, lift. cbn [negb require]. run.
  unfold effect. cbn [budget disk running]. change {| disk := ?d; budget := None |} with (running d). run.
  set (x := {| artifactId := uuid |}). eexists _, x. split; [done|]. split; [done|].
  split; [split|split; [|split]].
  - done.
  - rewrite records_saved, List.map_app. change (records (with_files _ d)) with (records d). rewrite norm_records.
    by apply find_record_last.
  - done.
  - cbn. by rewrite lookup_insert_eq.
  - done.
  - done.
  - intros h. apply uploadPath_fresh.
  - done.
  - cbn. rewrite !truthy_opt_idem. by destruct Hsha as [->| ->]; [left|right].
Qed.

(** The whole upload: the object of the digest holds the data, or what it held before. *)
Lemma upload_all_running uuid now payload chunks d :
  let data := concat chunks in
  is_ok (records_of d) = true -> find_record uuid (records d) = None ->
  files d !! uploadPath artifactsDir uuid = None ->
  Forall (Forall is_byte) chunks -> Z.of_nat (length data) <= maximumArtifactBytes -> announces payload data ->
  exists d' r, upload_all uuid now payload chunks (running d) = (Ok r, running d') /\
    is_ok (records_of d') = true /\ find_record uuid (records d') = Some (norm r) /\
    status r = finalized /\ sha256 r = hashFile data /\
    files d' !! path (norm r) = Some (default data (files d !! objectPath artifactsDir (hashFile data))).
Proof using CryptoLaws0 Hmaximum.
  intros data Hokd Hfresh Hfile Hch Hmax Hann.
  destruct (beginUpload_running uuid now payload data d Hokd Hfresh Hfile Hann)
    as (d1 & x & Hbegin & Hid & Hup & Hsame & Hsz & Hsha).
  destruct (send_running now uuid chunks d1 [] (norm x) Hup Hch) as (d2 & y & Hsend & Hup2 & Hsame2 & Hsz2 & Hsha2).
  cbn [app] in Hup2. fold data in Hup2. rewrite <- Hsz2 in Hsz. rewrite <- Hsha2 in Hsha.
  destruct (finalize_running now d2 uuid data y Hup2 Hmax Hsz Hsha)
    as (d3 & r & Hfin & Hok & Hfound & Hst & Hdigest & Hpath & Hobj).
  exists d3, r. split_and!; try done.
  - unfold upload_all. run. rewrite Hbegin, Hid. run. change (Z.of_nat (length [])) with 0 in Hsend.
    rewrite Hsend. by fold data.
  - cbn. by rewrite Hobj, Hpath, Hsame2, Hsame.
Qed.


End Client.

(** ** Examples *)

Module Demo.
Definition dir : string := "/var/lib/baby-quirt/artifacts".
Definition maximum : Z := 1000.
Definition data : buffer := [104; 101; 108; 108; 111].
#[local] Existing Instance toy_crypto.

Definition create : ArtifactCreatePayload := {| c_name := "a"; c_sourcePath := "/tmp/a"; c_metadata := None |}.
Definition begin : ArtifactBeginPayload :=
  {| b_name := "b"; b_metadata := None; b_expectedSize := None; b_expectedSha256 := Some (hashFile data) |}.

Definition upload : list (call * option nat) :=
  [(Begin "u" "1" begin, None);
   (Upload "2" {| u_artifactId := "u"; u_offset := 0; u_data := toBase64 data; u_finalize := false |}, None);
   (Finalize "3" {| f_artifactId := "u"; f_expectedSize := 5; f_expectedSha256 := hashFile data |}, None)].

(** A capture that is killed as soon as the object exists. *)
Definition killed_capture : call * option nat :=
  (Create "c" "0" (stable (Some data)) (stable (Some data)) create, Some 1%nat).

(** A capture of a file that is rewritten while it is copied, and gone when it is compared. *)
Definition vanished_capture : call * option nat :=
  (Create "c" "0" (stable (Some data)) {| initial := None; reads := Some [[119; 114]]; final := None |} create, None).

Definition found (l : list (call * option nat)) : option (artifact_status * bool * option buffer) :=
  r ← find_record "u" (records (after dir maximum empty l));
  Some (status r, sha256 r === hashFile data, files (after dir maximum empty l) !! path r).

Example upload_kept : found upload = Some (finalized, true, Some data).
Proof. vm_compute. reflexivity. Qed.
Example upload_killed : found (take 2 upload ++
    [(Finalize "3" {| f_artifactId := "u"; f_expectedSize := 5; f_expectedSha256 := hashFile data |}, Some 1%nat)]) =
  Some (uploading, false, None).
Proof. vm_compute. reflexivity. Qed.
End Demo.

#[local] Existing Instance toy_crypto.

Lemma finalized_bytes_verify_witness :
  exists r, find_record "u" (records (after Demo.dir Demo.maximum empty Demo.upload)) = Some r /\
    path r = objectPath Demo.dir (sha256 r) /\
    exists bytes content, files (after Demo.dir Demo.maximum empty Demo.upload) !! path r = Some bytes /\
      hashFile bytes = sha256 r /\ hashFile content = sha256 r /\ Z.of_nat (length content) = size r.
Proof.
  eexists. split; [vm_compute; reflexivity|].
  eapply (finalized_bytes_verify Demo.dir Demo.maximum ltac:(done) Demo.upload "u"); vm_compute; reflexivity.
Defined.

Lemma settled_artifact_is_immutable_witness :
  exists r, find_record "u" (records (after Demo.dir Demo.maximum empty Demo.upload)) = Some r /\
    (find_record "u" (records (after Demo.dir Demo.maximum empty (Demo.upload ++ Demo.upload))) = Some r /\
     (status r = finalized -> exists bytes, files (after Demo.dir Demo.maximum empty Demo.upload) !! path r = Some bytes /\
       files (after Demo.dir Demo.maximum empty (Demo.upload ++ Demo.upload)) !! path r = Some bytes)).
Proof.
  eexists. split; [vm_compute; reflexivity|].
  apply (settled_artifact_is_immutable Demo.dir Demo.maximum ltac:(done) Demo.upload Demo.upload "u");
    [vm_compute; reflexivity|discriminate].
Defined.


(** When the capture of a file is cut short, its object stays with other bytes than its digest says: by
    a kill after the object is created, or because the file changed and is gone when it is compared.  A
    later upload of the right bytes is then finalized with the wrong ones. *)
Theorem cut_capture_poisons k :
  k ∈ [Demo.killed_capture; Demo.vanished_capture] ->
  exists r bytes, find_record "u" (records (after Demo.dir Demo.maximum empty (k :: Demo.upload))) = Some r /\
    status r = finalized /\ sha256 r = hashFile Demo.data /\
    files (after Demo.dir Demo.maximum empty (k :: Demo.upload)) !! path r = Some bytes /\ hashFile bytes <> sha256 r.
Proof.
  intros Hk. repeat (apply elem_of_cons in Hk as [->|Hk]); [| |by apply not_elem_of_nil in Hk];
    (eexists _, _; split_and!; [vm_compute; reflexivity|reflexivity|vm_compute; reflexivity|vm_compute; reflexivity|]);
    vm_compute; discriminate.
Qed.

Lemma cut_capture_poisons_witness :
  exists r bytes, find_record "u" (records (after Demo.dir Demo.maximum empty (Demo.killed_capture :: Demo.upload))) = Some r /\
    status r = finalized /\ sha256 r = hashFile Demo.data /\
    files (after Demo.dir Demo.maximum empty (Demo.killed_capture :: Demo.upload)) !! path r = Some bytes /\
    hashFile bytes <> sha256 r.
Proof. apply (cut_capture_poisons Demo.killed_capture). by left. Defined.
