(* ===== verification/Jobs.v ===== *)
(** * Jobs ([src/jobs/manager.ts], [src/state/store.ts], [src/process/identity.ts])

    The records of jobs in the state directory, the child processes that run them, and what happens
    between the two: starting, the events of a child, cancelling, reading the streams, waiting,
    pruning, and the recovery of a new process from the records the last one left.  A handler of an
    event of a child keeps its own copy of the record, as the closure in the code does.  The
    theorems: a job is recorded as completed only if its child ended with code 0 or was found gone;
    the values of secrets never reach the records; the streams hold what the child wrote, in order;
    recovery adopts whatever process has the number of the old one; waiting ends; pruning removes
    only the oldest jobs that have ended. *)

From S2P Require Import Prelude Bytes Json Platform Base64 Errors Config Secrets.

#[global] Open Scope Z_scope.

(** ** Data *)

(** Source: src/state/store.ts:32-40 (JobStatus) *)
Inductive JobStatus := pending | running | adopted | completed | failed | cancelled | detached | lost.

#[global] Instance JobStatus_eq_dec : EqDecision JobStatus.
Proof. solve_decision. Defined.

Definition status_name (s : JobStatus) : string :=
  match s with
  | pending => "pending" | running => "running" | adopted => "adopted" | completed => "completed"
  | failed => "failed" | cancelled => "cancelled" | detached => "detached" | lost => "lost"
  end.

Inductive stream := stdout | stderr.

#[global] Instance stream_eq_dec : EqDecision stream.
Proof. solve_decision. Defined.

(** Source: src/state/store.ts:42-49 (StreamState) *)
Record StreamState := {
  stdoutPath : string;
  stderrPath : string;
  stdoutOffset : Z;
  stderrOffset : Z;
  stdoutClosed : bool;
  stderrClosed : bool
}.

(** Source: src/state/store.ts:51-57 (ProcessIdentityRecord) *)
Record ProcessIdentity := {
  id_pid : Z;
  processStartTime : string;
  executablePath : string;
  id_pgid : Z;
  bootId : string
}.

(** [exitCode] and [signal] are absent, [null] or a value; [ptySessionId] and [metadata] are never set.
    Source: src/state/store.ts:59-81 (JobRecord) *)
Record JobRecord := {
  jobId : string;
  requestId : string;
  operation : string;
  status : JobStatus;
  pid : option Z;
  exitCode : option (option Z);
  signal : option (option string);
  createdAt : string;
  startedAt : option string;
  completedAt : option string;
  cwd : string;
  argv : list string;
  shell_ : option string;
  script : option string;
  env : list persisted_entry;
  is_detached : bool;
  pgid : option Z;
  identity : option ProcessIdentity;
  streams : StreamState
}.

(** The payloads; [environment] and [env] are what the request holds.
    Source: src/jobs/manager.ts:34-40 (ExecPayload) *)
Record ExecPayload := {
  x_argv : option (list string);
  x_cwd : option string;
  x_environment : json;
  x_env : option (props json);
  x_detached : option bool
}.

(** Source: src/jobs/manager.ts:42-50 (ShellPayload) *)
Record ShellPayload := {
  s_shell : option string;
  s_command : option string;
  s_script : option string;
  s_cwd : option string;
  s_environment : json;
  s_env : option (props json);
  s_detached : option bool
}.

(** Source: src/jobs/manager.ts:62-67 (JobStreamReadPayload) *)
Record JobStreamReadPayload := { r_jobId : string; r_stream : stream; r_offset : option Z; r_limit : option Z }.

(** A page of a stream.
    Source: src/jobs/manager.ts:334-339 (JobManager.readStream) *)
Record Page := { p_data : string; p_offset : Z; p_eof : bool }.

(** The exceptions, by where they are thrown. *)
Inductive job_error :=
| no_argv | no_command | secret_failed (e : secret_error) | job_not_found (id : string) | job_disappeared
| wait_timeout | spawn_failed | store_unavailable | corrupt_record | file_error.

#[global] Instance job_error_eq_dec : EqDecision job_error.
Proof. solve_decision. Defined.

(** What the host answers while a step runs: the boot identifier, [/proc/<pid>/stat], the link
    [/proc/<pid>/exe], [ps -o pgid=], and whether a signal can be sent to a process or, for a
    negative number, to a group; [None] where the call throws. *)
Record Host := {
  boot_id : option string;
  proc_stat : Z -> option string;
  proc_exe : Z -> option string;
  ps_pgid : Z -> option string;
  kill : Z -> string -> bool
}.

(** What [spawn] does: it throws, or gives a child, without a number when the program cannot run. *)
Inductive spawning := cannot_spawn | child (pid : option Z).

(** A process that was started, with the environment it was given. *)
Record Spawned := { sp_jobId : string; sp_argv : list string; sp_cwd : string; sp_env : props string; sp_detached : bool }.

(** What a save of a record comes to: the file is written; it is not; or it is, and the directory
    cannot be synchronized. *)
Inductive saving := written | unwritten | unsynced.

(** The state: the directory of the jobs ([None]: a text that does not parse), the stream files, the
    bytes that the streams of this process have not written yet, the records that the handlers of
    the children hold, [runningProcesses], the descriptors of detached children, the signals sent,
    the processes started, and the faults of the next saves. *)
Record World := {
  disk : gmap string (option JobRecord);
  files : gmap string buffer;
  queued : gmap string buffer;
  handlers : gmap string JobRecord;
  runningProcesses : gmap string (option Z);
  inherited : gset string;
  signals : list (Z * string);
  spawned : list Spawned;
  faults : list saving
}.

Abbreviation JM := (M World job_error).

(** ** Changes of a record and of the state *)

Definition with_status (s : JobStatus) (j : JobRecord) : JobRecord := {|
  jobId := jobId j; requestId := requestId j; operation := operation j; status := s; pid := pid j;
  exitCode := exitCode j; signal := signal j; createdAt := createdAt j; startedAt := startedAt j;
  completedAt := completedAt j; cwd := cwd j; argv := argv j; shell_ := shell_ j; script := script j; env := env j;
  is_detached := is_detached j; pgid := pgid j; identity := identity j; streams := streams j |}.

(** [job.completedAt = now] *)
Definition with_completedAt (now : string) (j : JobRecord) : JobRecord := {|
  jobId := jobId j; requestId := requestId j; operation := operation j; status := status j; pid := pid j;
  exitCode := exitCode j; signal := signal j; createdAt := createdAt j; startedAt := startedAt j;
  completedAt := Some now; cwd := cwd j; argv := argv j; shell_ := shell_ j; script := script j; env := env j;
  is_detached := is_detached j; pgid := pgid j; identity := identity j; streams := streams j |}.

Definition with_exit (code : option Z) (sig : option string) (j : JobRecord) : JobRecord := {|
  jobId := jobId j; requestId := requestId j; operation := operation j; status := status j; pid := pid j;
  exitCode := Some code; signal := Some sig; createdAt := createdAt j; startedAt := startedAt j;
  completedAt := completedAt j; cwd := cwd j; argv := argv j; shell_ := shell_ j; script := script j; env := env j;
  is_detached := is_detached j; pgid := pgid j; identity := identity j; streams := streams j |}.

Definition with_process (p : option Z) (group : option Z) (i : option ProcessIdentity) (now : string)
    (j : JobRecord) : JobRecord := {|
  jobId := jobId j; requestId := requestId j; operation := operation j; status := status j; pid := p;
  exitCode := exitCode j; signal := signal j; createdAt := createdAt j; startedAt := Some now;
  completedAt := completedAt j; cwd := cwd j; argv := argv j; shell_ := shell_ j; script := script j; env := env j;
  is_detached := is_detached j; pgid := group; identity := i; streams := streams j |}.

Definition with_streams (f : StreamState -> StreamState) (j : JobRecord) : JobRecord := {|
  jobId := jobId j; requestId := requestId j; operation := operation j; status := status j; pid := pid j;
  exitCode := exitCode j; signal := signal j; createdAt := createdAt j; startedAt := startedAt j;
  completedAt := completedAt j; cwd := cwd j; argv := argv j; shell_ := shell_ j; script := script j; env := env j;
  is_detached := is_detached j; pgid := pgid j; identity := identity j; streams := f (streams j) |}.

(** [job.streams.stdoutClosed = closed; job.streams.stderrClosed = closed] *)
Definition set_closed (closed : bool) (s : StreamState) : StreamState := {|
  stdoutPath := stdoutPath s; stderrPath := stderrPath s; stdoutOffset := stdoutOffset s; stderrOffset := stderrOffset s;
  stdoutClosed := closed; stderrClosed := closed |}.

(** [job.streams.stdoutOffset += n], or of the other stream. *)
Definition add_offset (st : stream) (n : Z) (s : StreamState) : StreamState := {|
  stdoutPath := stdoutPath s; stderrPath := stderrPath s;
  stdoutOffset := if st === stdout then stdoutOffset s + n else stdoutOffset s;
  stderrOffset := if st === stderr then stderrOffset s + n else stderrOffset s;
  stdoutClosed := stdoutClosed s; stderrClosed := stderrClosed s |}.

Definition path_of (st : stream) (s : StreamState) : string := match st with stdout => stdoutPath s | stderr => stderrPath s end.
Definition offset_of (st : stream) (s : StreamState) : Z := match st with stdout => stdoutOffset s | stderr => stderrOffset s end.
Definition closed_of (st : stream) (s : StreamState) : bool := match st with stdout => stdoutClosed s | stderr => stderrClosed s end.

Definition with_disk (f : gmap string (option JobRecord) -> gmap string (option JobRecord)) (w : World) : World := {|
  disk := f (disk w); files := files w; queued := queued w; handlers := handlers w; runningProcesses := runningProcesses w;
  inherited := inherited w; signals := signals w; spawned := spawned w; faults := faults w |}.
Definition with_files (f : gmap string buffer -> gmap string buffer) (w : World) : World := {|
  disk := disk w; files := f (files w); queued := queued w; handlers := handlers w; runningProcesses := runningProcesses w;
  inherited := inherited w; signals := signals w; spawned := spawned w; faults := faults w |}.
Definition with_queued (f : gmap string buffer -> gmap string buffer) (w : World) : World := {|
  disk := disk w; files := files w; queued := f (queued w); handlers := handlers w; runningProcesses := runningProcesses w;
  inherited := inherited w; signals := signals w; spawned := spawned w; faults := faults w |}.
Definition with_handlers (f : gmap string JobRecord -> gmap string JobRecord) (w : World) : World := {|
  disk := disk w; files := files w; queued := queued w; handlers := f (handlers w); runningProcesses := runningProcesses w;
  inherited := inherited w; signals := signals w; spawned := spawned w; faults := faults w |}.
Definition with_running (f : gmap string (option Z) -> gmap string (option Z)) (w : World) : World := {|
  disk := disk w; files := files w; queued := queued w; handlers := handlers w; runningProcesses := f (runningProcesses w);
  inherited := inherited w; signals := signals w; spawned := spawned w; faults := faults w |}.
Definition with_inherited (f : gset string -> gset string) (w : World) : World := {|
  disk := disk w; files := files w; queued := queued w; handlers := handlers w; runningProcesses := runningProcesses w;
  inherited := f (inherited w); signals := signals w; spawned := spawned w; faults := faults w |}.
Definition with_signals (f : list (Z * string) -> list (Z * string)) (w : World) : World := {|
  disk := disk w; files := files w; queued := queued w; handlers := handlers w; runningProcesses := runningProcesses w;
  inherited := inherited w; signals := f (signals w); spawned := spawned w; faults := faults w |}.
Definition with_spawned (f : list Spawned -> list Spawned) (w : World) : World := {|
  disk := disk w; files := files w; queued := queued w; handlers := handlers w; runningProcesses := runningProcesses w;
  inherited := inherited w; signals := signals w; spawned := f (spawned w); faults := faults w |}.
Definition with_faults (f : list saving) (w : World) : World := {|
  disk := disk w; files := files w; queued := queued w; handlers := handlers w; runningProcesses := runningProcesses w;
  inherited := inherited w; signals := signals w; spawned := spawned w; faults := f |}.

(** ** The identity of a process ([src/process/identity.ts]) *)

(** [Number.parseInt(s.trim(), 10)]; [None] is [NaN]. *)
Definition is_space (c : ascii) : bool := ((9 <=? code c) && (code c <=? 13)) || (code c =? 32) || (code c =? 160).
Fixpoint skip_spaces (l : list ascii) : list ascii :=
  match l with c :: l' => if is_space c then skip_spaces l' else l | [] => [] end.
Fixpoint leading_digits (l : list ascii) : list ascii :=
  match l with c :: l => if is_digit c then c :: leading_digits l else [] | [] => [] end.
Definition digits_value (l : list ascii) : option Z :=
  match leading_digits l with
  | [] => None
  | ds => Some (fold_left (fun acc c => acc * 10 + (code c - 48)) ds 0)
  end.
Definition parseInt10 (s : string) : option Z :=
  match skip_spaces (chars s) with
  | "-"%char :: l => option_map Z.opp (digits_value l)
  | "+"%char :: l => digits_value l
  | l => digits_value l
  end.

(** [stat.slice(stat.lastIndexOf(')') + 2).split(' ')[19]]: the outer [None] where there is no
    parenthesis, the inner one where there are not so many fields. *)
Fixpoint after_last (c : ascii) (l : list ascii) : option (list ascii) :=
  match l with
  | [] => None
  | x :: l => match after_last c l with Some r => Some r | None => if bool_decide (x = c) then Some l else None end
  end.
Definition start_time_field (stat : string) : option (option string) :=
  option_map (fun rest => nth_error (Bytes.split " " (of_chars (drop 1 rest))) 19) (after_last ")" (chars stat)).

(** Source: src/process/identity.ts:14-20 (readBootId) *)
Definition readBootId (h : Host) : string := default "unknown"%string (boot_id h).

(** Source: src/process/identity.ts:22-32 (readProcessStartTime) *)
Definition readProcessStartTime (h : Host) (p : Z) : string :=
  match proc_stat h p with
  | Some stat => match start_time_field stat with Some (Some t) => t | _ => "0" end
  | None => "0"
  end.

(** Source: src/process/identity.ts:34-40 (readExecutablePath) *)
Definition readExecutablePath (h : Host) (p : Z) : string := default ""%string (proc_exe h p).

(** Source: src/process/identity.ts:42-50 (captureProcessIdentity) *)
Definition captureProcessIdentity (h : Host) (p : Z) (group : option Z) : ProcessIdentity := {|
  id_pid := p; processStartTime := readProcessStartTime h p; executablePath := readExecutablePath h p;
  id_pgid := default p group; bootId := readBootId h |}.

(** Source: src/process/identity.ts:52-68 (processAlive) *)
Definition processAlive (h : Host) (i : ProcessIdentity) : bool :=
  if (bootId i !== "unknown"%string) && (readBootId h !== bootId i) then false
  else match proc_stat h (id_pid i) with
       | None => false
       | Some stat =>
           match start_time_field stat with
           | None => false
           | Some field =>
               (default ""%string field === processStartTime i) &&
               (negb (truthy_str (executablePath i)) || (readExecutablePath h (id_pid i) === executablePath i))
           end
       end.

(** Source: src/process/identity.ts:70-77 (readProcessGroup) *)
Definition readProcessGroup (h : Host) (p : Z) : Z :=
  match ps_pgid h p with
  | Some out => match parseInt10 out with Some n => if n =? 0 then p else n | None => p end
  | None => p
  end.

(** A process number that is given and not zero. *)
Definition truthy_pid (o : option Z) : option Z := match o with Some p => if p =? 0 then None else Some p | None => None end.

(** ** The store ([src/state/store.ts]) *)

(** [try { m } catch { h }] *)
Definition catching {A} (m : JM A) (h : JM A) : JM A := fun w =>
  match m w with (Ok a, w') => (Ok a, w') | (Err _, w') => h w' end.

Definition put_record (j : JobRecord) : JM unit := modify (with_disk <[jobId j := Some j]>).

(** Source: src/state/store.ts:9-30 (writeJsonAtomically) *)
Definition saveJob (j : JobRecord) : JM unit :=
  l ← gets faults;
  match l with
  | [] => put_record j
  | written :: l => modify (with_faults l);; put_record j
  | unwritten :: l => modify (with_faults l);; throw store_unavailable
  | unsynced :: l => modify (with_faults l);; put_record j;; throw store_unavailable
  end.

(** Source: src/state/store.ts:144-148 (StateStore.getJob) *)
Definition getJob (id : string) : JM (option JobRecord) :=
  o ← gets (fun w => disk w !! id);
  match o with
  | None => mret None
  | Some None => throw corrupt_record
  | Some (Some j) => mret (Some j)
  end.

Section Store.
Context {Lo : Locale} {Dir : Directory}.
(** [config.stateRoot] *)
Variable stateRoot : string.

(** Source: src/state/store.ts:111-113 (StateStore.streamsDir) *)
Definition streamsDir : string := stateRoot ++ "/streams".

(** Source: src/state/store.ts:121-128 (StateStore.createJob) *)
Definition new_streams (id : string) : StreamState := {|
  stdoutPath := streamsDir ++ "/" ++ id ++ ".stdout"; stderrPath := streamsDir ++ "/" ++ id ++ ".stderr";
  stdoutOffset := 0; stderrOffset := 0; stdoutClosed := false; stderrClosed := false |}.

(** The newest first, by [b.createdAt.localeCompare(a.createdAt)]. *)
Definition newest_first : list JobRecord -> list JobRecord :=
  @locale_sort _ {| localeCompare := fun a b => localeCompare b a |} createdAt.

(** Source: src/state/store.ts:150-161 (StateStore.listJobs) *)
Definition jobs_of (d : gmap string (option JobRecord)) : list JobRecord := newest_first (omap snd (readdir d)).
Definition listAll : JM (list JobRecord) := gets (fun w => jobs_of (disk w)).

Definition has_ended (j : JobRecord) : bool := bool_decide (status j ∈ [completed; failed; cancelled]).

(** [l.slice(n)] and [l.slice(0, n)] *)
Definition slice_after {A} (n : Z) (l : list A) : list A := drop (Z.to_nat (if n <? 0 then Z.of_nat (length l) + n else n)) l.
Definition slice_before {A} (n : Z) (l : list A) : list A := take (Z.to_nat (if n <? 0 then Z.of_nat (length l) + n else n)) l.

(** The loop of [pruneJobs]: a file that is not there is skipped.
    Source: src/state/store.ts:170-178 (StateStore.pruneJobs) *)
Fixpoint unlink_jobs (l : list JobRecord) : JM Z :=
  match l with
  | [] => mret 0
  | j :: l =>
      present ← gets (fun w => bool_decide (is_Some (disk w !! jobId j)));
      (if (present : bool) then modify (with_disk (delete (jobId j))) else mret ());;
      n ← unlink_jobs l;
      mret (if (present : bool) then n + 1 else n)
  end.

(** Source: src/state/store.ts:163-180 (StateStore.pruneJobs) *)
Definition pruneJobs (maxRetention : Z) : JM Z :=
  jobs ← listAll;
  let terminal := List.filter has_ended jobs in
  if Z.of_nat (length terminal) <=? maxRetention then mret 0
  else unlink_jobs (slice_after maxRetention terminal).

(** ** The manager *)

(** [config.maxOutputBytes] *)
Variable maxOutputBytes : Z.

(** What starting a job reads of its surroundings: the identifier and the two times that are drawn,
    the directory and the environment of the process, the provider of secrets, what [spawn] does, and
    the host. *)
Record Surroundings := {
  uuid : string;
  created : string;
  started : string;
  here : string;
  process_env : props string;
  provider : string -> option string;
  outcome : spawning;
  host : Host
}.

(** Source: src/jobs/manager.ts:137-151 (JobManager.resolveEnv) *)
Definition resolveEnv (a : Surroundings) (environment : json) (env : option (props json))
    : result job_error (props string * list persisted_entry) :=
  let resolved :=
    if truthy environment then resolveEnvironment (provider a) environment
    else match env with
         | Some env => resolveEnvironment (provider a)
             (JArr (List.map (fun kv => JObj [("name", JStr (fst kv)); ("value", snd kv)]%string) (ordered env)))
         | None => Ok ([], [])
         end in
  match resolved with Ok r => Ok r | Err e => Err (secret_failed e) end.

(** [fs.openSync(path, 'a')] and [createWriteStream(path, { flags: 'a' })], which opens later. *)
Definition create_file (p : string) : JM unit :=
  modify (with_files (fun m => <[p := default [] (m !! p)]> m)).
Definition create_stream (p : string) : JM unit := modify (with_queued <[p := []]>).

(** A signal that reaches a process.  *)
Definition send_signal (target : Z) (name : string) : JM unit := modify (with_signals (fun l => l ++ [(target, name)])).

(** The handlers of the child hold [job] from here on.
    Source: src/jobs/manager.ts:153-251 (JobManager.startProcess) *)
Definition startProcess (a : Surroundings) (job : JobRecord) (argv : list string) (cwd : string)
    (env : props string) (detached_ : bool) : JM unit :=
  (if detached_ then
     create_file (stdoutPath (streams job));; create_file (stderrPath (streams job))
   else
     create_stream (stdoutPath (streams job));; create_stream (stderrPath (streams job)));;
  match outcome a with
  | cannot_spawn => throw spawn_failed
  | child p =>
      modify (with_spawned (fun l => l ++ [{|
        sp_jobId := jobId job; sp_argv := argv; sp_cwd := cwd; sp_env := fold_left assign env (process_env a);
        sp_detached := detached_ |}]));;
      (if detached_ then modify (with_inherited (union {[stdoutPath (streams job); stderrPath (streams job)]})) else mret ());;
      let group := option_map (readProcessGroup (host a)) (truthy_pid p) in
      let job := with_process p group
        (match truthy_pid p with Some p => Some (captureProcessIdentity (host a) p group) | None => None end) (started a)
        (with_status (if detached_ then detached else running)
           (if detached_ then with_streams (set_closed false) job else job)) in
      saveJob job;;
      modify (with_running <[jobId job := p]>);;
      modify (with_handlers <[jobId job := job]>)
  end.

(** [this.store.createJob(...)]
    Source: src/state/store.ts:119-137 (StateStore.createJob) *)
Definition createJob (a : Surroundings) (requestId operation cwd : string) (argv : list string)
    (shell script : option string) (env : list persisted_entry) (detached_ : bool) : JM JobRecord :=
  let job := {|
    jobId := uuid a; requestId := requestId; operation := operation; status := pending; pid := None;
    exitCode := None; signal := None; createdAt := created a; startedAt := None; completedAt := None;
    cwd := cwd; argv := argv; shell_ := shell; script := script; env := env; is_detached := detached_;
    pgid := None; identity := None; streams := new_streams (uuid a) |} in
  saveJob job;; mret job.

(** [return this.store.getJob(job.jobId)!]
    Source: src/jobs/manager.ts:87-105 (JobManager.exec) *)
Definition exec (a : Surroundings) (requestId : string) (payload : ExecPayload) : JM (option JobRecord) :=
  match x_argv payload with
  | None | Some [] => throw no_argv
  | Some argv =>
      let cwd := default (here a) (x_cwd payload) in
      '(env, persisted) ← lift (resolveEnv a (x_environment payload) (x_env payload));
      let detached_ := default false (x_detached payload) in
      job ← createJob a requestId "baby.exec" cwd argv None None persisted detached_;
      startProcess a job argv cwd env detached_;;
      getJob (jobId job)
  end.

(** Source: src/jobs/manager.ts:107-135 (JobManager.shell) *)
Definition shell (a : Surroundings) (requestId : string) (payload : ShellPayload) : JM (option JobRecord) :=
  let cwd := default (here a) (s_cwd payload) in
  let given o := match o with Some s => truthy_str s | None => false end in
  let bin := default "/bin/sh"%string (s_shell payload) in
  argv ← (if given (s_script payload) then mret [bin; "-c"%string; default ""%string (s_script payload)]
          else if given (s_command payload) then mret [bin; "-c"%string; default ""%string (s_command payload)]
          else throw no_command);
  '(env, persisted) ← lift (resolveEnv a (s_environment payload) (s_env payload));
  let detached_ := default false (s_detached payload) in
  let script := match s_script payload with Some s => Some s | None => s_command payload end in
  job ← createJob a requestId "baby.shell" cwd argv (s_shell payload) script persisted detached_;
  startProcess a job argv cwd env detached_;;
  getJob (jobId job).

(** *** The handlers of a child *)

(** The handler of the event [data] of a stream.
    Source: src/jobs/manager.ts:199-215 (JobManager.startProcess) *)
Definition on_data (id : string) (st : stream) (chunk : buffer) : JM unit :=
  o ← gets (fun w => handlers w !! id);
  match o with
  | None => mret ()
  | Some job =>
      if is_detached job then mret () else
      modify (with_queued (fun q => <[path_of st (streams job) := default [] (q !! path_of st (streams job)) ++ chunk]> q));;
      let job := with_streams (add_offset st (Z.of_nat (length chunk))) job in
      modify (with_handlers <[id := job]>);;
      match truthy_pid (pid job) with
      | Some p => if maxOutputBytes <? offset_of st (streams job) then send_signal p "SIGTERM" else mret ()
      | None => mret ()
      end
  end.

(** Source: src/jobs/manager.ts:217-236 (JobManager.startProcess) *)
Definition finalize (now id : string) (job : JobRecord) (s : JobStatus) (code : option Z) (sig : option string) : JM unit :=
  let job := with_streams (set_closed true) (with_completedAt now (with_exit code sig (with_status s job))) in
  modify (with_handlers <[id := job]>);;
  catching (saveJob job) (mret ());;
  modify (with_running (delete id)).

(** Source: src/jobs/manager.ts:238-240 (JobManager.startProcess) *)
Definition on_error (now id : string) : JM unit :=
  o ← gets (fun w => handlers w !! id);
  match o with
  | None => mret ()
  | Some job => finalize now id job failed None None
  end.

(** Source: src/jobs/manager.ts:242-246 (JobManager.startProcess) *)
Definition on_close (now id : string) (code : option Z) (sig : option string) : JM unit :=
  o ← gets (fun w => handlers w !! id);
  match o with
  | None => mret ()
  | Some job =>
      if is_detached job then mret ()
      else finalize now id job (if bool_decide (code = Some 0) then completed else failed) code sig
  end.

(** What the system does with the bytes on the way: a stream opens its file; it writes some of what
    it has; a child that is detached writes to a descriptor it inherited. *)
Definition open_stream (p : string) : JM unit :=
  o ← gets (fun w => queued w !! p);
  match o with Some _ => create_file p | None => mret () end.
Definition flush_stream (p : string) (n : nat) : JM unit :=
  q ← gets (fun w => queued w !! p);
  f ← gets (fun w => files w !! p);
  match q, f with
  | Some q, Some f => modify (with_files <[p := f ++ take n q]>);; modify (with_queued <[p := drop n q]>)
  | _, _ => mret ()
  end.
Definition child_writes (p : string) (data : buffer) : JM unit :=
  i ← gets inherited;
  if bool_decide (p ∈ i) then modify (with_files (fun m => <[p := default [] (m !! p) ++ data]> m)) else mret ().

(** *** The operations on a job *)

Definition required_job (id : string) : JM JobRecord :=
  o ← getJob id;
  match o with Some j => mret j | None => throw (job_not_found id) end.

(** Source: src/jobs/manager.ts:257-264 (JobManager.listJobs) *)
Definition listJobs (wanted : option string) (limit : option Z) : JM (list JobRecord) :=
  jobs ← listAll;
  let jobs := match wanted with
              | Some s => if truthy_str s then List.filter (fun j => status_name (status j) === s) jobs else jobs
              | None => jobs
              end in
  mret (slice_before (default 100 limit) jobs).

(** Source: src/jobs/manager.ts:298-332 (JobManager.cancelJob) *)
Definition cancelJob (h : Host) (now id : string) (sig : option string) : JM JobRecord :=
  job ← required_job id;
  let sig := default "SIGTERM"%string sig in
  match truthy_pid (match pgid job with Some g => Some g | None => pid job end) with
  | Some g => if kill h (- g) sig then send_signal (- g) sig
              else if kill h g sig then send_signal g sig else mret ()
  | None => mret ()
  end;;
  children ← gets runningProcesses;
  match children !! id ≫= truthy_pid with
  | Some p => if kill h p sig then send_signal p sig else mret ()
  | None => mret ()
  end;;
  let job := with_streams (set_closed true) (with_completedAt now (with_status cancelled job)) in
  saveJob job;;
  modify (with_running (delete id));;
  mret job.

(** [readSync(fd, buf, 0, length, position)]: a position of -1 is the current one, and one below it
    throws; the bytes past the end of the file stay 0. *)
Definition read_at (content : buffer) (position length_ : Z) : result job_error buffer :=
  if length_ <? 0 then Err file_error
  else if length_ =? 0 then Ok []
  else if position <? -1 then Err file_error
  else let got := take (Z.to_nat length_) (drop (Z.to_nat (Z.max 0 position)) content) in
       Ok (got ++ alloc (Z.to_nat length_ - length got)).

(** [DEFAULTS.streamChunkSize]
    Source: src/config.ts:52-52 (DEFAULTS) *)
Definition streamChunkSize : Z := 64 * 1024.

(** One page of a stream file: the bytes, the next offset, and whether it reaches the end.
    Source: src/jobs/manager.ts:349-369 (JobManager.readStream) *)
Definition page_of (content : buffer) (offset limit : option Z) (closed : bool) : result job_error Page :=
  let offset := default 0 offset in
  let limit := Z.min (default streamChunkSize limit) streamChunkSize in
  let size := Z.of_nat (length content) in
  let toRead := Z.min limit (Z.max 0 (size - offset)) in
  data ← read_at content offset toRead;
  Ok {| p_data := toBase64 data; p_offset := offset + toRead; p_eof := closed && (size <=? offset + toRead) |}.

(** Source: src/jobs/manager.ts:334-373 (JobManager.readStream) *)
Definition readStream (payload : JobStreamReadPayload) : JM Page :=
  job ← required_job (r_jobId payload);
  f ← gets (fun w => files w !! path_of (r_stream payload) (streams job));
  match f with
  | None => mret {| p_data := ""; p_offset := default 0 (r_offset payload); p_eof := true |}
  | Some content => lift (page_of content (r_offset payload) (r_limit payload) (closed_of (r_stream payload) (streams job)))
  end.

(** *** Recovery *)

(** A probe of a process: [process.kill(p, 0)]. *)
Definition exists_process (h : Host) (p : Z) : bool := kill h p "0".

(** [job.identity && processAlive(job.identity)] *)
Definition same_process (h : Host) (job : JobRecord) : bool :=
  match identity job with Some i => processAlive h i | None => false end.

(** The body of the loop: whether the job is counted.  In the second branch an exception of the save is
    caught as one of the probe is.
    Source: src/jobs/manager.ts:378-399 (JobManager.recoverRunningJobs) *)
Definition recover_running (h : Host) (now : string) (job : JobRecord) : JM bool :=
  let adopt := saveJob (with_status adopted job);; mret true in
  let lose := saveJob (with_completedAt now (with_status lost job));; mret false in
  if same_process h job then adopt
  else match truthy_pid (pid job) with
       | Some p => if exists_process h p then catching adopt lose else lose
       | None => lose
       end.

(** [job.status = 'completed'], when the process is gone. *)
Definition gone (now : string) (job : JobRecord) : JobRecord :=
  with_streams (set_closed true) (with_completedAt now (with_status completed job)).

Definition group_or_pid (job : JobRecord) : option Z :=
  truthy_pid (match pgid job with Some g => Some g | None => pid job end).

(** Source: src/jobs/manager.ts:406-428 (JobManager.recoverDetachedJobs) *)
Definition recover_detached (h : Host) (now : string) (job : JobRecord) : JM bool :=
  match group_or_pid job with
  | None => saveJob (with_completedAt now (with_status failed job));; mret false
  | Some p =>
      if same_process h job || exists_process h p then mret true
      else saveJob (gone now job);; mret false
  end.

(** The loop over the jobs with a status, which counts. *)
Fixpoint recover_each (f : JobRecord -> JM bool) (jobs : list JobRecord) : JM Z :=
  match jobs with
  | [] => mret 0
  | job :: jobs => b ← f job; n ← recover_each f jobs; mret (if (b : bool) then n + 1 else n)
  end.

(** Source: src/jobs/manager.ts:375-401 (JobManager.recoverRunningJobs) *)
Definition recoverRunningJobs (h : Host) (now : string) : JM Z :=
  jobs ← listAll;
  recover_each (recover_running h now) (List.filter (fun j => status j === running) jobs).

(** Source: src/jobs/manager.ts:403-430 (JobManager.recoverDetachedJobs) *)
Definition recoverDetachedJobs (h : Host) (now : string) : JM Z :=
  jobs ← listAll;
  recover_each (recover_detached h now) (List.filter (fun j => status j === detached) jobs).

(** Source: src/jobs/manager.ts:432-454 (JobManager.adoptDetachedJob) *)
Definition adoptDetachedJob (h : Host) (now id : string) : JM (option JobRecord) :=
  o ← getJob id;
  match o with
  | None => mret None
  | Some job =>
      if status job !== detached then mret (Some job) else
      match group_or_pid job with
      | None => mret (Some job)
      | Some p =>
          let adopt := saveJob (with_status adopted job);; mret (Some (with_status adopted job)) in
          let settle := saveJob (gone now job);; mret (Some (gone now job)) in
          if same_process h job then adopt
          else if exists_process h p then catching adopt settle else settle
      end
  end.

(** A new process on the same directories: nothing of the memory of the last one is left, what it had
    not written is lost, and it recovers the jobs.
    Source: src/operations/registry.ts:51-57 (OperationRegistry.recover) *)
Definition restart (h : Host) (now : string) : JM Z :=
  modify (fun w => with_handlers (fun _ => ∅) (with_queued (fun _ => ∅) (with_running (fun _ => ∅) w)));;
  n ← recoverRunningJobs h now;
  m ← recoverDetachedJobs h now;
  mret (n + m).

(** *** Waiting *)

(** [check]: what the store holds of the job and the clock, at the successive calls; [None] is to be
    called again.
    Source: src/jobs/manager.ts:278-293 (JobManager.waitForJob) *)
Definition check_wait (start timeout : Z) (current : option (option JobRecord)) (now : Z) : option (result job_error JobRecord) :=
  match current with
  | None => Some (Err job_disappeared)
  | Some None => Some (Err corrupt_record)
  | Some (Some job) =>
      if bool_decide (status job ∈ [completed; failed; cancelled; detached; adopted; lost]) then Some (Ok job)
      else if timeout <? now - start then Some (Err wait_timeout)
      else None
  end.

Fixpoint poll (fuel : nat) (start timeout : Z) (seen : nat -> option (option JobRecord)) (clock : nat -> Z) (n : nat)
    : option (result job_error JobRecord) :=
  match fuel with
  | O => None
  | S fuel =>
      match check_wait start timeout (seen n) (clock n) with
      | Some r => Some r
      | None => poll fuel start timeout seen clock (S n)
      end
  end.

(** [seen n] and [clock n] are what the [n]-th look at the store and the clock finds.
    Source: src/jobs/manager.ts:266-296 (JobManager.waitForJob) *)
Definition waitForJob (fuel : nat) (id : string) (timeoutMs : option Z) (seen : nat -> option (option JobRecord))
    (clock : nat -> Z) : option (result job_error JobRecord) :=
  match seen O with
  | None => Some (Err (job_not_found id))
  | Some None => Some (Err corrupt_record)
  | Some (Some job) =>
      if bool_decide (status job ∈ [completed; failed; cancelled; lost]) then Some (Ok job)
      else poll fuel (clock O) (default 300000 timeoutMs) seen clock 1
  end.

(** ** Histories *)

Inductive event :=
| ev_exec (a : Surroundings) (requestId : string) (payload : ExecPayload)
| ev_shell (a : Surroundings) (requestId : string) (payload : ShellPayload)
| ev_data (id : string) (st : stream) (chunk : buffer)
| ev_error (now id : string)
| ev_close (now id : string) (code : option Z) (sig : option string)
| ev_open (p : string)
| ev_flush (p : string) (n : nat)
| ev_child_writes (p : string) (data : buffer)
| ev_cancel (h : Host) (now id : string) (sig : option string)
| ev_adopt (h : Host) (now id : string)
| ev_prune (maxRetention : Z)
| ev_restart (h : Host) (now : string)
| ev_faults (l : list saving).

Definition ignore {A} (m : JM A) : JM unit := m;; mret ().

Definition perform (e : event) : JM unit :=
  match e with
  | ev_exec a r p => ignore (exec a r p)
  | ev_shell a r p => ignore (shell a r p)
  | ev_data id st chunk => on_data id st chunk
  | ev_error now id => on_error now id
  | ev_close now id code sig => on_close now id code sig
  | ev_open p => open_stream p
  | ev_flush p n => flush_stream p n
  | ev_child_writes p data => child_writes p data
  | ev_cancel h now id sig => ignore (cancelJob h now id sig)
  | ev_adopt h now id => ignore (adoptDetachedJob h now id)
  | ev_prune n => ignore (pruneJobs n)
  | ev_restart h now => ignore (restart h now)
  | ev_faults l => modify (with_faults l)
  end.

Definition empty_world : World := {|
  disk := ∅; files := ∅; queued := ∅; handlers := ∅; runningProcesses := ∅; inherited := ∅; signals := []; spawned := [];
  faults := [] |}.

Definition after (l : list event) (w : World) : World := fold_left (fun w e => snd (perform e w)) l w.
End Store.

(** ** Code that keeps an invariant

    [keeps I Q m]: from a state with [I], [m] leaves one, however it ends, and what it returns has [Q]. *)

Section Keeps.
Context (I : World -> Prop).

Definition keeps {A} (Q : A -> Prop) (m : JM A) : Prop :=
  forall w, I w -> let (r, w') := m w in I w' /\ forall a, r = Ok a -> Q a.

Lemma keeps_bind {A B} (Q : A -> Prop) (R : B -> Prop) m (f : A -> JM B) :
  keeps Q m -> (forall a, Q a -> keeps R (f a)) -> keeps R (m ≫= f).
Proof using.
  intros Hm Hf w Hw. rewrite bindM_eq. specialize (Hm w Hw). destruct (m w) as [[a|e] w1]; destruct Hm as [Hw1 Ha].
  - by apply (Hf a (Ha a eq_refl)).
  - done.
Qed.

Lemma keeps_ret {A} (Q : A -> Prop) a : Q a -> keeps Q (mret a).
Proof using. intros H w Hw. cbn. split; [done|]. by intros ? [= <-]. Qed.

Lemma keeps_throw {A} (Q : A -> Prop) e : keeps Q (throw e).
Proof using. intros w Hw. cbn. split; [done|]. by intros ? [=]. Qed.

Lemma keeps_gets {A} (Q : A -> Prop) f : (forall w, I w -> Q (f w)) -> keeps Q (gets f).
Proof using. intros H w Hw. cbn. split; [done|]. intros ? [= <-]. auto. Qed.

Lemma keeps_modify f : (forall w, I w -> I (f w)) -> keeps (fun _ => True) (modify f).
Proof using. intros H w Hw. cbn. auto. Qed.

Lemma keeps_lift {A} (Q : A -> Prop) r : (forall a, r = Ok a -> Q a) -> keeps Q (lift r).
Proof using. intros H w Hw. cbn. auto. Qed.

Lemma keeps_catching {A} (Q : A -> Prop) m h : keeps Q m -> keeps Q h -> keeps Q (catching m h).
Proof using.
  intros Hm Hh w Hw. unfold catching. specialize (Hm w Hw). destruct (m w) as [[a|e] w1]; [done|]. apply Hh, Hm.
Qed.

Lemma keeps_weaken {A} (Q R : A -> Prop) m : keeps Q m -> (forall a, Q a -> R a) -> keeps R m.
Proof using. intros Hm H w Hw. specialize (Hm w Hw). destruct (m w) as [r w1]. naive_solver. Qed.

Lemma keeps_ignore {A} (Q : A -> Prop) m : keeps Q m -> keeps (fun _ => True) (ignore m).
Proof using. intros Hm. eapply keeps_bind; [exact Hm|]. intros a _. by apply keeps_ret. Qed.

Lemma keeps_each (P : JobRecord -> Prop) f jobs :
  (forall j, P j -> keeps (fun _ => True) (f j)) -> Forall P jobs -> keeps (fun _ => True) (recover_each f jobs).
Proof using.
  intros Hf. induction 1 as [|j jobs Hj _ IH]; cbn [recover_each]; [by apply keeps_ret|].
  eapply keeps_bind; [by apply Hf|]. intros b _. eapply keeps_bind; [exact IH|]. intros n _. by apply keeps_ret.
Qed.
End Keeps.

Create HintDb keeps.

(** Follows the code; what a step returns is kept as a hypothesis. *)
Ltac keeps_steps :=
  repeat (cbv beta zeta;
    lazymatch goal with
    | |- keeps ?I _ (@mbind _ _ unit _ _ _) => apply (keeps_bind I (fun _ => True)); [|intros ? _]
    | |- keeps _ _ (mbind _ _) => eapply keeps_bind; [|intros ? ?]
    | |- keeps _ _ (mret _) => apply keeps_ret
    | |- keeps _ _ (throw _) => apply keeps_throw
    | |- keeps _ _ (catching _ _) => apply keeps_catching
    | |- keeps _ _ (match ?x with _ => _ end) => destruct x eqn:?
    end).

(** ** What is recorded is what happened *)

Section Honest.
Context {Lo : Locale} {Dir : Directory} (stateRoot : string) (maxOutputBytes : Z).
Abbreviation perform := (perform stateRoot maxOutputBytes).
Abbreviation after := (after stateRoot maxOutputBytes).

(** Why a job may be recorded as completed after the events [l]: its child closed with code 0; or it is
    detached, and a recovery found that its process is not the one that was started, and that no process
    has its number (or, when it was asked to adopt the job, could not save that it did). *)
Definition ended_well (l : list event) (j : JobRecord) : Prop :=
  (exitCode j = Some (Some 0) /\ exists now sig, ev_close now (jobId j) (Some 0) sig ∈ l) \/
  (is_detached j = true /\ exists h now p, group_or_pid j = Some p /\ same_process h j = false /\
     ((ev_restart h now ∈ l /\ exists_process h p = false) \/
      (ev_adopt h now (jobId j) ∈ l /\ (exists_process h p = false \/ exists fl, ev_faults fl ∈ l)))).

(** The two stream files of a record, and of an identifier. *)
Definition paths_of (j : JobRecord) : string * string := (stdoutPath (streams j), stderrPath (streams j)).
Definition paths_of_id (id : string) : string * string :=
  (stdoutPath (new_streams stateRoot id), stderrPath (new_streams stateRoot id)).

Definition honest (l : list event) (j : JobRecord) : Prop :=
  (status j = detached -> is_detached j = true) /\ (status j = completed -> ended_well l j) /\
  paths_of j = paths_of_id (jobId j).

Record Inv (l : list event) (w : World) : Prop := {
  inv_disk : forall id j, disk w !! id = Some (Some j) -> jobId j = id /\ honest l j;
  inv_handlers : forall id j, handlers w !! id = Some j -> jobId j = id /\ honest l j;
  inv_faults : faults w <> [] -> exists fl, ev_faults fl ∈ l
}.

Lemma ended_well_mono l l' j : l ⊆ l' -> ended_well l j -> ended_well l' j.
Proof using. intros Hl [(H & now & sig & Hin)|(H & h & now & p & Hg & Hs & Hin)]; [left|right]; naive_solver. Qed.

Lemma Inv_mono l l' w : l ⊆ l' -> Inv l w -> Inv l' w.
Proof using.
  intros Hl [Hd Hh Hf]. pose proof (fun j => ended_well_mono l l' j Hl) as Hm.
  split; [intros id j H; destruct (Hd id j H) as (? & ? & ? & ?)|intros id j H; destruct (Hh id j H) as (? & ? & ? & ?)|naive_solver];
    (split; [done|split; auto]).
Qed.

Abbreviation keep l := (keeps (Inv l) (fun _ => True)).

(** The fields [Inv] does not speak of may change. *)
Lemma Inv_same l w w' : disk w' = disk w -> handlers w' = handlers w -> faults w' = faults w -> Inv l w -> Inv l w'.
Proof using. intros H1 H2 H3 [Hd Hh Hf]. split; rewrite ?H1, ?H2, ?H3; done. Qed.

Lemma keep_other l f : (forall w, disk (f w) = disk w /\ handlers (f w) = handlers w /\ faults (f w) = faults w) ->
  keep l (modify f).
Proof using. intros H. apply keeps_modify. intros w. destruct (H w) as (? & ? & ?). by apply Inv_same. Qed.

Lemma keep_put l j : honest l j -> keep l (put_record j).
Proof using.
  intros Hj. apply keeps_modify. intros w [Hd Hh Hf]. split; [|done|done].
  intros id j'. cbn. intros [[<- [= <-]]|[_ H]]%lookup_insert_Some; [done|]. by apply Hd.
Qed.

Lemma keep_faults l fl : (exists f, ev_faults f ∈ l) -> keep l (modify (with_faults fl)).
Proof using. intros H. apply keeps_modify. intros w [Hd Hh Hf]. by split. Qed.

Lemma keep_save l j : honest l j -> keep l (saveJob j).
Proof using.
  intros Hj. unfold saveJob. eapply keeps_bind.
  - apply (keeps_gets _ (fun fl => fl <> [] -> exists f, ev_faults f ∈ l)). intros w. apply inv_faults.
  - intros fl Hfl. destruct fl as [|[] fl]; [by apply keep_put|..];
      (eapply keeps_bind; [by apply keep_faults, Hfl|intros _ _]).
    + by apply keep_put.
    + apply keeps_throw.
    + eapply keeps_bind; [by apply keep_put|]. intros _ _. apply keeps_throw.
Qed.

Lemma keep_handler l id j : jobId j = id -> honest l j -> keep l (modify (with_handlers <[id := j]>)).
Proof using.
  intros Hid Hj. apply keeps_modify. intros w [Hd Hh Hf]. split; [done| |done].
  intros id' j'. cbn. intros [[<- [= <-]]|[_ H]]%lookup_insert_Some; [done|]. by apply Hh.
Qed.

Lemma keep_gets {A} l (f : World -> A) : keep l (gets f).
Proof using. by apply keeps_gets. Qed.

Lemma keep_get l id : keeps (Inv l) (fun o => forall j, o = Some j -> jobId j = id /\ honest l j) (getJob id).
Proof using.
  intros w Hw. unfold getJob, mbind, M_bind, gets. destruct (disk w !! id) as [[j|]|] eqn:E; cbn; (split; [done|]);
    intros o [= <-] j' [= <-]. by apply (inv_disk _ _ Hw).
Qed.

Lemma keep_handler_of l id :
  keeps (Inv l) (fun o => forall j, o = Some j -> jobId j = id /\ honest l j) (gets (fun w => handlers w !! id)).
Proof using. apply keeps_gets. intros w Hw j. apply (inv_handlers _ _ Hw). Qed.

Lemma jobs_of_in d j : j ∈ jobs_of d -> exists id, d !! id = Some (Some j).
Proof using.
  unfold jobs_of, newest_first. rewrite locale_sort_perm. rewrite list_elem_of_omap. intros ([id o] & Hin & Ho).
  rewrite readdir_entries, elem_of_map_to_list in Hin. cbn in Ho. subst. by exists id.
Qed.

Lemma keep_list l : keeps (Inv l) (Forall (honest l)) listAll.
Proof using.
  apply keeps_gets. intros w Hw. apply Forall_forall. intros j (id & H)%jobs_of_in. by apply (inv_disk _ _ Hw id).
Qed.

Lemma keep_filter l (p : JobRecord -> bool) jobs :
  Forall (honest l) jobs -> Forall (fun j => honest l j /\ p j = true) (List.filter p jobs).
Proof using.
  rewrite !Forall_forall. intros H j Hj. apply list_elem_of_In, filter_In in Hj as [Hj Hp]. split; [|done].
  by apply H, list_elem_of_In.
Qed.

(** A record in none of the two states that say something of the process. *)
Lemma honest_other l j j0 : honest l j0 -> jobId j = jobId j0 -> paths_of j = paths_of j0 ->
  status j <> detached -> status j <> completed -> honest l j.
Proof using. intros (_ & _ & H) Hid Hp H1 H2. split; [done|]. split; [done|]. congruence. Qed.

Lemma honest_gone l j h now p :
  honest l j -> is_detached j = true -> group_or_pid j = Some p -> same_process h j = false ->
  ((ev_restart h now ∈ l /\ exists_process h p = false) \/
   (ev_adopt h now (jobId j) ∈ l /\ (exists_process h p = false \/ exists fl, ev_faults fl ∈ l))) ->
  forall now', honest l (gone now' j).
Proof using.
  intros (_ & _ & H) H1 H2 H3 H4 now'. split; [done|]. split; [|done]. intros _. right. split; [done|]. by exists h, now, p.
Qed.

#[local] Hint Resolve keep_save keep_gets keep_list keep_get keep_handler keep_handler_of : keeps.
#[local] Hint Extern 1 (keeps _ _ (modify _)) => apply keep_other; intros; split_and!; reflexivity : keeps.
#[local] Hint Extern 1 (honest _ _) => 
  eapply honest_other; [(eassumption || match goal with H : _ /\ honest _ _ |- _ => apply H | H : honest _ _ /\ _ |- _ => apply H end)
    |reflexivity|reflexivity|by cbn; congruence|by cbn; congruence] : keeps.

Lemma keep_start l a job argv cwd env d : is_detached job = d -> honest l job -> keep l (startProcess a job argv cwd env d).
Proof using.
  intros Hd (_ & _ & Hp). unfold startProcess, create_file, create_stream. destruct d; keeps_steps; try (solve [eauto 3 with keeps | done]).
  all: apply keep_save || apply keep_handler; try done; (split; [by cbn; congruence|by split]).
Qed.

Lemma keep_create l a r op cwd argv sh sc env d :
  keeps (Inv l) (fun j => is_detached j = d /\ honest l j) (createJob stateRoot a r op cwd argv sh sc env d).
Proof using. unfold createJob. keeps_steps; [|split; [done|]]; try apply keep_save; by split. Qed.

#[local] Hint Resolve keep_start : keeps.

Lemma keep_exec l a r p : keeps (Inv l) (fun _ => True) (exec stateRoot a r p).
Proof using.
  unfold exec. destruct (x_argv p) as [[|x argv]|]; try apply keeps_throw.
  eapply keeps_bind; [by apply (keeps_lift _ (fun _ => True))|]. intros [env persisted] _.
  eapply keeps_bind; [apply keep_create|]. intros job [Hj Hh]. keeps_steps; [by apply keep_start|].
  by eapply keeps_weaken; [apply keep_get|].
Qed.

Lemma keep_shell l a r p : keeps (Inv l) (fun _ => True) (shell stateRoot a r p).
Proof using.
  unfold shell. eapply keeps_bind; [instantiate (1 := fun _ => True); by keeps_steps|]. intros argv _.
  eapply keeps_bind; [by apply (keeps_lift _ (fun _ => True))|]. intros [env persisted] _.
  eapply keeps_bind; [apply keep_create|]. intros job [Hj Hh]. keeps_steps; [by apply keep_start|].
  by eapply keeps_weaken; [apply keep_get|].
Qed.

Lemma keep_data l id st chunk : keep l (on_data maxOutputBytes id st chunk).
Proof using.
  unfold on_data, send_signal. eapply keeps_bind; [apply keep_handler_of|]. intros [job|] Hj; [|by apply keeps_ret].
  destruct (Hj job eq_refl) as [Hid Hh]. keeps_steps; eauto 3 with keeps.
Qed.

Lemma keep_finalize l now id job s code sig :
  jobId job = id -> honest l job -> s <> detached ->
  (s = completed -> code = Some 0 /\ exists now sig, ev_close now id (Some 0) sig ∈ l) ->
  keep l (finalize now id job s code sig).
Proof using.
  intros Hid Hj Hs Hc. unfold finalize.
  assert (honest l (with_streams (set_closed true) (with_completedAt now (with_exit code sig (with_status s job))))) as Hj'.
  { split; [done|]. split; [|apply Hj]. cbn. intros ->. destruct (Hc eq_refl) as [-> Hin]. left. by rewrite <- Hid in Hin. }
  keeps_steps; eauto 3 with keeps.
Qed.

Lemma keep_error l now id : keep l (on_error now id).
Proof using.
  unfold on_error. eapply keeps_bind; [apply keep_handler_of|]. intros [job|] Hj; [|by apply keeps_ret].
  destruct (Hj job eq_refl) as [Hid Hh]. by apply keep_finalize.
Qed.

Lemma keep_close l now id code sig : ev_close now id code sig ∈ l -> keep l (on_close now id code sig).
Proof using.
  intros Hin. unfold on_close. eapply keeps_bind; [apply keep_handler_of|]. intros [job|] Hj; [|by apply keeps_ret].
  destruct (Hj job eq_refl) as [Hid Hh]. destruct (is_detached job); [by apply keeps_ret|].
  apply keep_finalize; [done|done| |]; case_bool_decide; try done. intros _. subst code. split; [done|]. by eexists _, _.
Qed.

Lemma keep_required l id : keeps (Inv l) (fun j => jobId j = id /\ honest l j) (required_job id).
Proof using.
  unfold required_job. eapply keeps_bind; [apply keep_get|]. intros [j|] Hj; [|apply keeps_throw]. apply keeps_ret. by apply Hj.
Qed.

Lemma keep_cancel l h now id sig : keeps (Inv l) (fun _ => True) (cancelJob h now id sig).
Proof using.
  unfold cancelJob, send_signal. eapply keeps_bind; [apply keep_required|]. intros job [Hid Hj].
  keeps_steps; eauto 3 with keeps.
Qed.

Lemma keep_adopt l h now id : ev_adopt h now id ∈ l -> keeps (Inv l) (fun _ => True) (adoptDetachedJob h now id).
Proof using.
  intros Hin w Hw. unfold adoptDetachedJob. rewrite bindM_eq. pose proof (keep_get l id w Hw) as H.
  destruct (getJob id w) as [[[job|]|e] w1]; destruct H as [Hw1 H]; [|by cbn|by cbn].
  destruct (H _ eq_refl job eq_refl) as [Hid Hj]. destruct (status job !== detached) eqn:Hs; [by cbn|]. bool_inv.
  destruct (group_or_pid job) as [p|] eqn:Hp; [|by cbn].
  assert (keeps (Inv l) (fun _ => True) (saveJob (with_status adopted job);; mret (Some (with_status adopted job)))) as Hadopt.
  { keeps_steps; eauto 3 with keeps. }
  assert (exists_process h p = false \/ (exists fl, ev_faults fl ∈ l) -> same_process h job = false ->
    keeps (Inv l) (fun _ => True) (saveJob (gone now job);; mret (Some (gone now job)))) as Hsettle.
  { intros Hor Hsame. keeps_steps; [|done]. apply keep_save. apply (honest_gone l job h now p); try done; [by apply Hj|].
    right. split; [by rewrite Hid|done]. }
  cbv zeta. destruct (same_process h job) eqn:Hsame; [by apply Hadopt|].
  destruct (exists_process h p) eqn:Hex; [|apply Hsettle; auto].
  destruct (faults w1) eqn:Hf.
  - unfold catching. unfold saveJob, mbind, M_bind, gets. rewrite Hf. cbn. split; [|done].
    apply (keep_put l (with_status adopted job)); [|done]. auto with keeps.
  - apply keeps_catching; [done| |done]. apply Hsettle; [|done]. right. apply (inv_faults _ _ Hw1). congruence.
Qed.

Lemma keep_unlink l jobs : keeps (Inv l) (fun _ => True) (unlink_jobs jobs).
Proof using.
  induction jobs as [|j jobs IH]; cbn [unlink_jobs]; [by apply keeps_ret|].
  keeps_steps; eauto 3 with keeps. apply keeps_modify. intros w [Hd Hh Hf]. split; [|done|done].
  intros id j'. cbn. intros [_ Hj']%lookup_delete_Some. by apply Hd.
Qed.

Lemma keep_prune l n : keeps (Inv l) (fun _ => True) (pruneJobs n).
Proof using. unfold pruneJobs. keeps_steps; [apply keep_gets|done|apply keep_unlink]. Qed.

Lemma keep_restart l h now : ev_restart h now ∈ l -> keeps (Inv l) (fun _ => True) (restart h now).
Proof using.
  intros Hin. unfold restart, recoverRunningJobs, recoverDetachedJobs. keeps_steps; try done; try apply keep_list.
  - apply keeps_modify. intros w [Hd Hh Hf]. split; [done| |done]. intros id j. cbn. by rewrite lookup_empty.
  - eapply keeps_each; [|by apply keep_filter]. cbn beta. intros j [Hj _]. unfold recover_running.
    keeps_steps; eauto 3 with keeps.
  - eapply keeps_each; [|by apply keep_filter]. cbn beta. intros j [Hj Hs]. bool_inv. unfold recover_detached.
    keeps_steps; eauto 3 with keeps. apply keep_save. bool_inv.
    apply (honest_gone l j h now z); [done|by apply Hj|done..|]. by left.
Qed.

Lemma keep_perform l e : e ∈ l -> keep l (perform e).
Proof using.
  intros Hin. destruct e; cbn [Jobs.perform].
  - eapply keeps_ignore, keep_exec.
  - eapply keeps_ignore, keep_shell.
  - apply keep_data.
  - apply keep_error.
  - by apply keep_close.
  - unfold open_stream, create_file. keeps_steps; eauto 3 with keeps.
  - unfold flush_stream. keeps_steps; eauto 3 with keeps.
  - unfold child_writes. keeps_steps; eauto 3 with keeps.
  - eapply keeps_ignore, keep_cancel.
  - by eapply keeps_ignore, keep_adopt.
  - eapply keeps_ignore, keep_prune.
  - by eapply keeps_ignore, keep_restart.
  - apply keep_faults. by eexists.
Qed.

Lemma after_Inv l : Inv l (after l empty_world).
Proof using.
  induction l as [|e l IH] using rev_ind; [by split|].
  unfold Jobs.after in *. rewrite fold_left_app. cbn [fold_left].
  assert (Inv (l ++ [e]) (fold_left (fun w e => snd (perform e w)) l empty_world)) as H.
  { eapply Inv_mono, IH. set_solver. }
  pose proof (keep_perform (l ++ [e]) e ltac:(set_solver) _ H) as Hk.
  destruct (perform e _). by destruct Hk.
Qed.

(** C12: A job is recorded as completed only if its child closed with code 0, or if it runs detached and a
    recovery found that its process is not the one that was started and that its number is free: after
    any events, restarts and faults of the store included.  (A request to adopt a job that cannot be
    saved is the one case where the number may still be taken.) *)
Theorem completed_job_ended l id j :
  disk (after l empty_world) !! id = Some (Some j) -> status j = completed -> jobId j = id /\ ended_well l j.
Proof using.
  intros Hj Hs. destruct (inv_disk _ _ (after_Inv l) id j Hj) as [Hid (_ & H & _)]. split; [done|]. by apply H.
Qed.
End Honest.

(** ** What a recovery does to every record *)

Section Recovery.
Context {Lo : Locale} {Dir : Directory} (stateRoot : string) (maxOutputBytes : Z) (h : Host) (now : string).
Abbreviation after := (after stateRoot maxOutputBytes).

(** Whether there is a process with the number of a job. *)
Definition number_taken (o : option Z) : bool := match o with Some p => exists_process h p | None => false end.

Definition recovered_running (j : JobRecord) : JobRecord :=
  if same_process h j || number_taken (truthy_pid (pid j)) then with_status adopted j
  else with_completedAt now (with_status lost j).

Definition recovered_detached (j : JobRecord) : JobRecord :=
  match group_or_pid j with
  | None => with_completedAt now (with_status failed j)
  | Some p => if same_process h j || exists_process h p then j else gone now j
  end.

Definition recovered (j : JobRecord) : JobRecord :=
  match status j with running => recovered_running j | detached => recovered_detached j | _ => j end.

(** [f] leaves the record that [g] gives, and counts. *)
Definition leaves (f : JobRecord -> JM bool) (g : JobRecord -> JobRecord) : Prop :=
  forall j w, faults w = [] -> disk w !! jobId j = Some (Some j) ->
    exists b w', f j w = (Ok b, w') /\ faults w' = [] /\ disk w' = <[jobId j := Some (g j)]> (disk w).

Lemma saveJob_faultless j w : faults w = [] -> saveJob j w = (Ok tt, with_disk <[jobId j := Some j]> w).
Proof using. intros H. unfold saveJob, mbind, M_bind, gets. by rewrite H. Qed.

Lemma save_leaves (b : bool) j j' w : faults w = [] -> jobId j' = jobId j ->
  exists b' w', (saveJob j';; mret b) w = (Ok b', w') /\ faults w' = [] /\ disk w' = <[jobId j := Some j']> (disk w).
Proof using.
  intros Hf Hid. unfold mbind, M_bind. rewrite saveJob_faultless by done. cbn. rewrite Hid. by eexists _, _.
Qed.

Lemma recover_running_leaves : leaves (recover_running h now) recovered_running.
Proof using.
  intros j w Hf Hd. unfold recover_running, recovered_running.
  destruct (same_process h j); cbn [orb]; [by apply save_leaves|].
  destruct (truthy_pid (pid j)) as [p|]; cbn [number_taken]; [|by apply save_leaves].
  destruct (exists_process h p); [|by apply save_leaves].
  unfold catching. destruct (save_leaves true j (with_status adopted j) w Hf eq_refl) as (b & w' & -> & H). by exists b, w'.
Qed.

Lemma recover_detached_leaves : leaves (recover_detached h now) recovered_detached.
Proof using.
  intros j w Hf Hd. unfold recover_detached, recovered_detached.
  destruct (group_or_pid j) as [p|]; [|by apply save_leaves].
  destruct (_ || _); [|by apply save_leaves]. exists true, w. split_and!; [done|done|]. by rewrite insert_id.
Qed.

Lemma recover_each_leaves f g jobs : leaves f g -> (forall j, jobId (g j) = jobId j) -> forall w, faults w = [] ->
  NoDup (List.map jobId jobs) -> Forall (fun j => disk w !! jobId j = Some (Some j)) jobs ->
  exists n w', recover_each f jobs w = (Ok n, w') /\ faults w' = [] /\
    (forall id, (forall j, j ∈ jobs -> jobId j <> id) -> disk w' !! id = disk w !! id) /\
    Forall (fun j => disk w' !! jobId j = Some (Some (g j))) jobs.
Proof using.
  intros Hf Hg. induction jobs as [|j jobs IH]; intros w Hw Hnd Hd; cbn [recover_each].
  { exists 0, w. split_and!; done. }
  apply list.Forall_cons in Hd as [Hj Hd]. cbn [List.map] in Hnd. apply NoDup_cons in Hnd as [Hnew Hnd].
  destruct (Hf j w Hw Hj) as (b & w1 & E1 & Hw1 & Hd1).
  assert (forall j', j' ∈ jobs -> jobId j' <> jobId j) as Hother.
  { intros j' Hin Heq. apply Hnew. rewrite <- Heq. apply list_elem_of_In, in_map. by apply list_elem_of_In. }
  destruct (IH w1 Hw1 Hnd) as (n & w2 & E2 & Hw2 & Hsame & Hall).
  { rewrite Forall_forall in *. intros j' Hin. rewrite Hd1, lookup_insert_ne by (by apply not_eq_sym, Hother). by apply Hd. }
  exists (if b then n + 1 else n), w2. split_and!; [|done| |].
  - by rewrite bindM_eq, E1, bindM_eq, E2.
  - intros id Hid. rewrite Hsame by (intros; apply Hid; by right). rewrite Hd1, lookup_insert_ne; [done|]. apply Hid. by left.
  - constructor; [|done]. rewrite Hsame by (intros; by apply Hother). rewrite Hd1. by rewrite lookup_insert_eq.
Qed.

(** The records by their names: every file holds a record that names it. *)
Definition named (d : gmap string (option JobRecord)) : Prop := forall id j, d !! id = Some (Some j) -> jobId j = id.

Lemma jobs_of_iff d j : j ∈ jobs_of d <-> exists id, d !! id = Some (Some j).
Proof using.
  split; [apply jobs_of_in|]. intros [id H]. unfold jobs_of, newest_first. rewrite locale_sort_perm, list_elem_of_omap.
  exists (id, Some j). split; [|done]. by rewrite readdir_entries, elem_of_map_to_list.
Qed.

Lemma jobs_of_NoDup d : named d -> NoDup (List.map jobId (jobs_of d)).
Proof using.
  intros Hn. unfold jobs_of, newest_first. rewrite locale_sort_perm, readdir_entries.
  pose proof (NoDup_fst_map_to_list d) as Hnd.
  assert (forall e, e ∈ map_to_list d -> match snd e with Some j => jobId j = fst e | None => True end) as Hk.
  { intros [id [j|]] H; [|done]. apply elem_of_map_to_list in H. by apply Hn. }
  induction (map_to_list d) as [|[id [j|]] l IH]; cbn in *; [constructor| |].
  - apply NoDup_cons in Hnd as [Hnew Hnd]. constructor; [|apply IH; [done|]; intros; apply Hk; by right].
    rewrite list_elem_of_In, in_map_iff. intros (j' & Hj' & Hin). apply Hnew. apply list_elem_of_In, list_elem_of_omap in Hin.
    destruct Hin as ([id' o] & Hin & Ho). cbn in Ho. subst o.
    pose proof (Hk (id', Some j') ltac:(by right)) as H1. pose proof (Hk (id, Some j) ltac:(by left)) as H2. cbn in H1, H2.
    apply list_elem_of_fmap. exists (id', Some j'). cbn. split; [congruence|done].
  - apply NoDup_cons in Hnd as [_ Hnd]. apply IH; [done|]. intros. apply Hk. by right.
Qed.

(** One of the two passes. *)
Lemma recover_pass f g s w : leaves f g -> (forall j, jobId (g j) = jobId j) -> faults w = [] -> named (disk w) ->
  exists n w', recover_each f (List.filter (fun j => status j === s) (jobs_of (disk w))) w = (Ok n, w') /\ faults w' = [] /\
    disk w' = fmap (M := gmap string) (fmap (fun j => if status j === s then g j else j)) (disk w).
Proof using.
  intros Hf Hg Hw Hn. set (jobs := List.filter _ _).
  assert (forall j, j ∈ jobs <-> status j = s /\ disk w !! jobId j = Some (Some j)) as Hjobs.
  { intros j. unfold jobs. rewrite list_elem_of_In, filter_In, <- list_elem_of_In, jobs_of_iff, bool_decide_eq_true.
    split; [|naive_solver]. intros [[id H] ?]. split; [done|]. by rewrite (Hn _ _ H). }
  destruct (recover_each_leaves f g jobs Hf Hg w Hw) as (n & w' & E & Hw' & Hsame & Hall).
  - apply NoDup_map_filter. by apply jobs_of_NoDup.
  - apply Forall_forall. intros j Hj. by apply Hjobs.
  - exists n, w'. split_and!; [done|done|]. apply map_eq. intros id. rewrite lookup_fmap.
    destruct (decide (Exists (fun j => jobId j = id) jobs)) as [Hex|Hno].
    + apply Exists_exists in Hex as (j & Hj & <-). rewrite Forall_forall in Hall. rewrite (Hall j Hj).
      apply Hjobs in Hj as [Hs Hd]. rewrite Hd. cbn. by rewrite bool_decide_eq_true_2.
    + rewrite Hsame by (intros j Hj Heq; apply Hno, Exists_exists; by exists j).
      destruct (disk w !! id) as [[j|]|] eqn:Hd; [|done|done]. cbn. case_bool_decide as Hs; [|done]. exfalso. apply Hno, Exists_exists.
      exists j. split; [|by apply (Hn _ _ Hd)]. apply Hjobs. split; [done|]. by rewrite (Hn _ _ Hd).
Qed.

Lemma named_fmap f d : (forall j, jobId (f j) = jobId j) -> named d -> named (fmap (M := gmap string) (fmap f) d).
Proof using.
  intros Hf Hd id j. rewrite lookup_fmap. destruct (d !! id) as [[j'|]|] eqn:E; cbn; [|done|done]. intros [= <-].
  rewrite Hf. by apply (Hd _ _ E).
Qed.

Lemma recovered_jobId j : jobId (recovered_running j) = jobId j /\ jobId (recovered_detached j) = jobId j.
Proof using.
  unfold recovered_running, recovered_detached. split; [by destruct (_ || _)|].
  destruct (group_or_pid j); [|done]. by destruct (_ || _).
Qed.

(** What a restart makes of the records, exactly, when the store can be written: of a running job, that
    it is adopted, if its process is still the one that was started or if any process has its number,
    and else that it is lost; of a detached one, that it is completed, if neither holds; every other
    record stays as it is. *)
Lemma restart_disk (l : list event) :
  let w := after l empty_world in
  faults w = [] ->
  disk (snd (restart h now w)) = fmap (M := gmap string) (fmap recovered) (disk w).
Proof using.
  intros w Hf. pose proof (after_Inv stateRoot maxOutputBytes l) as HI. fold w in HI.
  assert (named (disk w)) as Hn by (intros id j H; by apply (inv_disk _ _ _ HI)).
  unfold restart. rewrite bindM_eq. cbn [modify].
  set (w0 := with_handlers _ _).
  destruct (recover_pass _ _ running w0 recover_running_leaves (fun j => proj1 (recovered_jobId j)) Hf Hn)
    as (n & w1 & E1 & Hf1 & Hd1).
  assert (recoverRunningJobs h now w0 = (Ok n, w1)) as E1' by exact E1. rewrite bindM_eq, E1'.
  assert (named (disk w1)) as Hn1.
  { rewrite Hd1. apply named_fmap, Hn. intros j. case_bool_decide; [apply recovered_jobId|done]. }
  destruct (recover_pass _ _ detached w1 recover_detached_leaves (fun j => proj2 (recovered_jobId j)) Hf1 Hn1)
    as (m & w2 & E2 & _ & Hd2).
  assert (recoverDetachedJobs h now w1 = (Ok m, w2)) as E2' by exact E2. rewrite bindM_eq, E2'.
  cbn [snd mret M_ret]. rewrite Hd2, Hd1. change (disk w0) with (disk w). apply map_eq. intros id.
  rewrite !lookup_fmap. destruct (disk w !! id) as [[j|]|]; [|done|done]. cbn. do 2 f_equal.
  unfold recovered. destruct (status j) eqn:Hs; repeat case_bool_decide; try congruence.
  exfalso. unfold recovered_running in *. by destruct (_ || _).
Qed.


(** No operation takes a signal back. *)
Definition signals_grow (w w' : World) : Prop := signals w ⊆ signals w'.

#[local] Instance signals_grow_preorder : PreOrder signals_grow.
Proof using. split; [intros w x; done|]. intros w1 w2 w3 H1 H2 x Hx. by apply H2, H1. Qed.

#[local] Hint Extern 1 (respects signals_grow (modify _)) => apply respects_modify; intros ? ?; cbn; set_solver : respects.

Lemma cancel_signals h' now' id sig w j g :
  disk w !! id = Some (Some j) -> group_or_pid j = Some g -> kill h' (- g) sig = true ->
  (- g, sig) ∈ signals (snd (cancelJob h' now' id (Some sig) w)).
Proof using.
  intros Hd Hg Hk. unfold cancelJob. rewrite bindM_eq.
  assert (required_job id w = (Ok j, w)) as ->.
  { unfold required_job, getJob, mbind, M_bind, gets. by rewrite Hd. }
  change (default "SIGTERM"%string (Some sig)) with sig. cbv zeta.
  change (truthy_pid (match pgid j with Some g => Some g | None => pid j end)) with (group_or_pid j).
  rewrite Hg, Hk, bindM_eq. cbn [send_signal modify]. set (w1 := with_signals _ w).
  match goal with |- _ ∈ signals (snd (?m w1)) => assert (respects signals_grow m) as Hm end.
  { unfold saveJob, put_record, send_signal. respects_steps. }
  apply Hm. unfold w1. cbn. set_solver.
Qed.

(** C16: The identity of a process does not protect another one: when the process of a running job is gone
    and its number belongs to another process, a restart adopts the job, and cancelling it signals the
    group of that number. *)
Theorem recycled_process_is_signalled (l : list event) (id sig : string) (j : JobRecord) (p g : Z) (h' : Host) (now' : string) :
  let w := after l empty_world in
  faults w = [] -> disk w !! id = Some (Some j) -> status j = running ->
  same_process h j = false -> pid j = Some p -> p <> 0 -> exists_process h p = true ->
  group_or_pid j = Some g -> kill h' (- g) sig = true ->
  let w1 := snd (restart h now w) in
  disk w1 !! id = Some (Some (with_status adopted j)) /\
  (- g, sig) ∈ signals (snd (cancelJob h' now' id (Some sig) w1)).
Proof using.
  intros w Hf Hd Hs Hsame Hp Hp0 Hex Hg Hk w1.
  assert (disk w1 !! id = Some (Some (with_status adopted j))) as Hd1.
  { unfold w1, w. rewrite restart_disk by done. fold w. rewrite lookup_fmap, Hd. cbn. unfold recovered, recovered_running.
    rewrite Hs, Hsame, Hp. cbn [truthy_pid]. apply Z.eqb_neq in Hp0 as ->. cbn [number_taken]. by rewrite Hex. }
  split; [done|]. clearbody w1. apply cancel_signals with (with_status adopted j); done.
Qed.
End Recovery.

(** ** Waiting ends *)

Definition settled (j : JobRecord) : Prop := status j ∈ [completed; failed; cancelled; detached; adopted; lost].

Lemma poll_ends start timeout seen clock :
  (forall n, clock n < clock (S n)) -> forall fuel n, timeout < clock n + Z.of_nat fuel - 1 - start -> (0 < fuel)%nat ->
  exists k r, poll fuel start timeout seen clock n = Some r /\ check_wait start timeout (seen k) (clock k) = Some r.
Proof.
  intros Hclock. induction fuel as [|fuel IH]; intros n Ht Hfuel; [lia|]. cbn [poll].
  destruct (check_wait start timeout (seen n) (clock n)) as [r|] eqn:E; [by exists n, r|].
  destruct fuel as [|fuel].
  - exfalso. unfold check_wait in E. destruct (seen n) as [[j|]|]; try done.
    destruct (bool_decide _); [done|]. destruct (timeout <? _) eqn:Hlt; [done|]. bool_inv. lia.
  - apply IH; [|lia]. specialize (Hclock n). lia.
Qed.

(** C17: Waiting for a job ends, however it goes on: if the clock advances between the looks at the store,
    as many looks as the timeout has milliseconds, and three, are enough.  A record it returns is one
    that the store held and that has settled; and it gives up only after the timeout, on a job that has
    not. *)
Theorem waiting_ends (id : string) (timeoutMs : option Z) (seen : nat -> option (option JobRecord)) (clock : nat -> Z) :
  (forall n, clock n < clock (S n)) ->
  let timeout := default 300000 timeoutMs in
  exists r, waitForJob (Z.to_nat timeout + 3) id timeoutMs seen clock = Some r /\
    match r with
    | Ok j => exists n, seen n = Some (Some j) /\ settled j
    | Err wait_timeout => exists n j, seen n = Some (Some j) /\ ~ settled j /\ timeout < clock n - clock O
    | Err _ => True
    end.
Proof.
  intros Hclock timeout. unfold waitForJob. fold timeout. destruct (seen O) as [[j|]|] eqn:E0; [|by eexists|by eexists].
  case_bool_decide as Hj.
  { exists (Ok j). split; [done|]. exists O. split; [done|]. unfold settled. set_solver. }
  destruct (poll_ends (clock O) timeout seen clock Hclock (Z.to_nat timeout + 3) 1) as (k & r & -> & Hk); [|lia|].
  { pose proof (Hclock O). lia. }
  exists r. split; [done|]. unfold check_wait in Hk. destruct (seen k) as [[j'|]|] eqn:Ek; [|by injection Hk as <-..].
  case_bool_decide as Hs; [injection Hk as <-; by exists k|].
  destruct (timeout <? _) eqn:Ht; [|done]. injection Hk as <-. bool_inv. by exists k, j'.
Qed.

(** ** Pruning *)

Section Pruning.
Context {Lo : Locale} {Dir : Directory} (stateRoot : string) (maxOutputBytes : Z).
Abbreviation after := (after stateRoot maxOutputBytes).

(** The jobs that have ended, the newest first. *)
Definition terminal_jobs (w : World) : list JobRecord := List.filter has_ended (jobs_of (disk w)).

Lemma unlink_jobs_disk jobs : forall w,
  NoDup (List.map jobId jobs) -> Forall (fun j => is_Some (disk w !! jobId j)) jobs ->
  exists w', unlink_jobs jobs w = (Ok (Z.of_nat (length jobs)), w') /\
    forall id, disk w' !! id = if bool_decide (id ∈ List.map jobId jobs) then None else disk w !! id.
Proof using.
  induction jobs as [|j jobs IH]; intros w Hnd Hd; cbn [unlink_jobs List.map].
  { exists w. split; [done|]. intros id. by rewrite bool_decide_eq_false_2 by set_solver. }
  apply list.Forall_cons in Hd as [Hj Hd]. cbn [List.map] in Hnd. apply NoDup_cons in Hnd as [Hnew Hnd].
  destruct (IH (with_disk (delete (jobId j)) w) Hnd) as (w' & E & Hw').
  { rewrite Forall_forall in *. intros j' Hin. cbn. rewrite lookup_delete_ne; [by apply Hd|].
    intros Heq. apply Hnew. rewrite Heq. apply list_elem_of_In, in_map. by apply list_elem_of_In. }
  exists w'. split.
  - rewrite bindM_eq. cbn [gets]. rewrite bool_decide_eq_true_2 by done. rewrite bindM_eq. cbn [modify].
    rewrite bindM_eq, E. unfold mret, M_ret. do 2 f_equal. cbn [length]. lia.
  - intros id. rewrite Hw'. cbn. destruct (decide (id = jobId j)) as [->|Hne].
    + rewrite lookup_delete_eq, (bool_decide_eq_true_2 (_ ∈ _ :: _)) by (by left). by case_bool_decide.
    + rewrite lookup_delete_ne by done.
      rewrite (bool_decide_ext (id ∈ jobId j :: List.map jobId jobs) (id ∈ List.map jobId jobs)); [done|]. set_solver.
Qed.

Lemma has_ended_in w id : named (disk w) ->
  id ∈ List.map jobId (terminal_jobs w) <-> exists j, disk w !! id = Some (Some j) /\ has_ended j = true.
Proof using.
  intros Hn. unfold terminal_jobs. rewrite list_elem_of_In, in_map_iff. split.
  - intros (j & <- & Hin). apply filter_In in Hin as [Hin He]. apply list_elem_of_In, jobs_of_iff in Hin as [id H].
    exists j. by rewrite (Hn _ _ H).
  - intros (j & Hd & He). exists j. split; [by apply Hn|]. apply filter_In. split; [|done].
    apply list_elem_of_In, jobs_of_iff. by exists id.
Qed.

Lemma few_ended w w' n : 0 <= n -> named (disk w) -> (forall id, disk w' !! id =
    if bool_decide (id ∈ List.map jobId (drop (Z.to_nat n) (terminal_jobs w))) then None else disk w !! id) ->
  Z.of_nat (length (terminal_jobs w')) <= n.
Proof using.
  intros Hn Hnamed Hw'. assert (named (disk w')) as Hnamed'.
  { intros id j. rewrite Hw'. destruct (bool_decide _); [done|]. apply Hnamed. }
  assert (NoDup (List.map jobId (terminal_jobs w'))) as Hnd' by (by apply NoDup_map_filter, jobs_of_NoDup).
  assert (incl (List.map jobId (terminal_jobs w')) (List.map jobId (take (Z.to_nat n) (terminal_jobs w)))) as Hincl.
  { intros id Hin. apply list_elem_of_In, (has_ended_in w' id Hnamed') in Hin as (j & Hd & He).
    rewrite Hw' in Hd. destruct (bool_decide (id ∈ _)) eqn:Hold; [done|]. bool_inv.
    assert (id ∈ List.map jobId (terminal_jobs w)) as Hall by (apply has_ended_in; [done|by exists j]).
    rewrite <- (take_drop (Z.to_nat n) (terminal_jobs w)), List.map_app, elem_of_app in Hall.
    destruct Hall; [by apply list_elem_of_In|done]. }
  apply NoDup_ListNoDup in Hnd'. pose proof (NoDup_incl_length Hnd' Hincl) as Hlen.
  rewrite !List.length_map, length_take in Hlen. lia.
Qed.

(** Pruning removes exactly the oldest of the jobs that have ended, beyond the number to keep, and says
    how many: no other record changes, and no more ended jobs than that are left. *)
Theorem prune_removes_oldest (l : list event) (n : Z) :
  0 <= n ->
  let w := after l empty_world in
  let old := drop (Z.to_nat n) (terminal_jobs w) in
  let (r, w') := pruneJobs n w in
  r = Ok (Z.of_nat (length old)) /\
  (forall id, disk w' !! id = if bool_decide (id ∈ List.map jobId old) then None else disk w !! id) /\
  Z.of_nat (length (terminal_jobs w')) <= n.
Proof using.
  intros Hn w old. pose proof (after_Inv stateRoot maxOutputBytes l) as HI. fold w in HI.
  assert (named (disk w)) as Hnamed by (intros id j H; by apply (inv_disk _ _ _ HI)).
  assert (NoDup (List.map jobId (terminal_jobs w))) as Hnd.
  { apply NoDup_map_filter. by apply jobs_of_NoDup. }
  assert (pruneJobs n w = if Z.of_nat (length (terminal_jobs w)) <=? n then (Ok 0, w) else unlink_jobs old w) as ->.
  { unfold pruneJobs, listAll. rewrite bindM_eq. cbn [gets]. fold (terminal_jobs w). unfold slice_after.
    rewrite (proj2 (Z.ltb_ge n 0)) by done. by destruct (_ <=? _). }
  destruct (_ <=? _) eqn:E; bool_inv.
  - assert (old = []) as -> by (apply drop_ge; lia). split_and!; [done| |done].
    intros id. by rewrite bool_decide_eq_false_2 by set_solver.
  - destruct (unlink_jobs_disk old w) as (w' & -> & Hw').
    + unfold old. rewrite <- skipn_map. eapply sublist_NoDup; [exact Hnd|apply sublist_drop].
    + apply Forall_forall. intros j Hj. apply list_elem_of_In in Hj. 
      assert (In j (terminal_jobs w)) as Hin by (rewrite <- (take_drop (Z.to_nat n) (terminal_jobs w)); apply in_or_app; by right).
      apply filter_In in Hin as [Hin _]. apply list_elem_of_In, jobs_of_iff in Hin as [id H]. rewrite (Hnamed _ _ H), H. by eexists.
    + split_and!; [done|done|].
      by apply (few_ended w).
Qed.
End Pruning.

(** ** Secrets do not reach the state

    Two runs that differ only in the values of the secrets. *)

Section Secrecy.
Context {Lo : Locale} {Dir : Directory} (stateRoot : string) (maxOutputBytes : Z).
Abbreviation perform := (perform stateRoot maxOutputBytes).
Abbreviation after := (after stateRoot maxOutputBytes).

(** A started process without its environment, and a state without the environments of the processes. *)
Definition hide_env (s : Spawned) : Spawned := {|
  sp_jobId := sp_jobId s; sp_argv := sp_argv s; sp_cwd := sp_cwd s; sp_env := []; sp_detached := sp_detached s |}.
Definition public (w : World) : World := with_spawned (List.map hide_env) w.

Definition with_provider (f : string -> option string) (a : Surroundings) : Surroundings := {|
  uuid := uuid a; created := created a; started := started a; here := here a; process_env := process_env a; provider := f;
  outcome := outcome a; host := host a |}.

(** The same surroundings, but for the values of the secrets. *)
Definition same_but_secrets (a a' : Surroundings) : Prop :=
  exists f, a' = with_provider f a /\ forall reference, is_Some (provider a reference) <-> is_Some (f reference).

Inductive same_event : event -> event -> Prop :=
| same_exec a a' r p : same_but_secrets a a' -> same_event (ev_exec a r p) (ev_exec a' r p)
| same_shell a a' r p : same_but_secrets a a' -> same_event (ev_shell a r p) (ev_shell a' r p)
| same_other e : same_event e e.

Definition same_run {A} (m m' : JM A) : Prop :=
  forall w w', public w = public w' -> fst (m w) = fst (m' w') /\ public (snd (m w)) = public (snd (m' w')).

Lemma same_bind {A B} (m m' : JM A) (f f' : A -> JM B) :
  same_run m m' -> (forall a, same_run (f a) (f' a)) -> same_run (m ≫= f) (m' ≫= f').
Proof using.
  intros Hm Hf w w' Hw. rewrite !bindM_eq. destruct (Hm w w' Hw) as [H1 H2].
  destruct (m w) as [[a|e] w1], (m' w') as [[a'|e'] w1']; cbn [fst snd] in *; try congruence;
    injection H1 as <-; [by apply Hf|done].
Qed.

Lemma same_ret {A} (a : A) : same_run (mret a) (mret a).
Proof using. by intros w w' Hw. Qed.
Lemma same_throw {A} e : same_run (throw (A := A) e) (throw e).
Proof using. by intros w w' Hw. Qed.
Lemma same_lift {A} (r : result job_error A) : same_run (lift r) (lift r).
Proof using. by intros w w' Hw. Qed.

Lemma same_gets {A} (f : World -> A) : (forall w, f w = f (public w)) -> same_run (gets f) (gets f).
Proof using. intros Hf w w' Hw. cbn. split; [|done]. by rewrite (Hf w), (Hf w'), Hw. Qed.

Lemma same_modify f : (forall w, public (f w) = f (public w)) -> same_run (modify f) (modify f).
Proof using. intros Hf w w' Hw. cbn. split; [done|]. by rewrite !Hf, Hw. Qed.

Lemma same_catching {A} (m m' h h' : JM A) : same_run m m' -> same_run h h' -> same_run (catching m h) (catching m' h').
Proof using.
  intros Hm Hh w w' Hw. unfold catching. destruct (Hm w w' Hw) as [H1 H2].
  destruct (m w) as [[a|e] w1], (m' w') as [[a'|e'] w1']; cbn [fst snd] in *; try congruence; [done|]. by apply Hh.
Qed.

Ltac same_steps :=
  repeat (cbv beta zeta;
    lazymatch goal with
    | |- same_run (mbind _ _) (mbind _ _) => apply same_bind; [|intros ?]
    | |- same_run (mret _) (mret _) => apply same_ret
    | |- same_run (throw _) (throw _) => apply same_throw
    | |- same_run (lift _) (lift _) => apply same_lift
    | |- same_run (gets _) (gets _) => apply same_gets; reflexivity
    | |- same_run (modify _) (modify _) => apply same_modify; reflexivity
    | |- same_run (catching _ _) (catching _ _) => apply same_catching
    | |- same_run (match ?x with _ => _ end) _ => destruct x eqn:?
    end).

Lemma same_save j : same_run (saveJob j) (saveJob j).
Proof using. unfold saveJob, put_record. same_steps. Qed.
Lemma same_get id : same_run (getJob id) (getJob id).
Proof using. unfold getJob. same_steps. Qed.

Lemma same_start a a' job argv cwd env env' d : same_but_secrets a a' ->
  same_run (startProcess a job argv cwd env d) (startProcess a' job argv cwd env' d).
Proof using.
  intros (f & -> & _). unfold startProcess, create_file, create_stream. cbn [outcome with_provider].
  apply same_bind; [same_steps|]. intros _. destruct (outcome a) as [|p]; [apply same_throw|].
  apply same_bind; [|intros _].
  { intros w w' Hw. cbn. split; [done|]. unfold public, with_spawned in *. cbn. injection Hw as -> -> -> -> -> -> -> H ->.
    f_equal. rewrite !List.map_app, H. done. }
  same_steps; apply same_save.
Qed.

Lemma same_create a a' r op cwd argv sh sc env d : same_but_secrets a a' ->
  same_run (createJob stateRoot a r op cwd argv sh sc env d) (createJob stateRoot a' r op cwd argv sh sc env d).
Proof using. intros (f & -> & _). unfold createJob. same_steps. apply same_save. Qed.

(** Two resolutions either fail alike or record the same. *)
Lemma resolveEnv_same a a' environment env : same_but_secrets a a' ->
  match resolveEnv a environment env, resolveEnv a' environment env with
  | Ok (_, p), Ok (_, p') => p = p'
  | Err e, Err e' => e = e'
  | _, _ => False
  end.
Proof using.
  intros (f & -> & Hf). unfold resolveEnv. cbn [provider with_provider].
  assert (forall v, match resolveEnvironment (provider a) v, resolveEnvironment f v with
    | Ok (_, p), Ok (_, p') => p = p' | Err e, Err e' => e = e' | _, _ => False end) as H.
  { intros v. pose proof (resolveEnvironment_recorded (provider a) f Hf v) as H.
    destruct (resolveEnvironment (provider a) v) as [[? ?]|?], (resolveEnvironment f v) as [[? ?]|?]; cbn in H; congruence. }
  destruct (truthy environment); [specialize (H environment)|destruct env as [env|]; [specialize (H (JArr (List.map (fun kv =>
    JObj [("name"%string, JStr (fst kv)); ("value"%string, snd kv)]) (ordered env))))|done]];
    destruct (resolveEnvironment (provider a) _) as [[? ?]|?], (resolveEnvironment f _) as [[? ?]|?]; try done; congruence.
Qed.

Lemma same_resolved {B} a a' environment env (f f' : props string * list persisted_entry -> JM B) :
  same_but_secrets a a' -> (forall e e' p, same_run (f (e, p)) (f' (e', p))) ->
  same_run (lift (resolveEnv a environment env) ≫= f) (lift (resolveEnv a' environment env) ≫= f').
Proof using.
  intros Ha Hf w w' Hw. rewrite !bindM_eq. unfold lift. pose proof (resolveEnv_same a a' environment env Ha) as H.
  destruct (resolveEnv a _ _) as [[e p]|e], (resolveEnv a' _ _) as [[e' p']|e']; try done; subst; [by apply Hf|done].
Qed.

Lemma same_here a a' : same_but_secrets a a' -> here a' = here a.
Proof using. by intros (f & -> & _). Qed.

Lemma same_exec_run a a' r p : same_but_secrets a a' -> same_run (exec stateRoot a r p) (exec stateRoot a' r p).
Proof using.
  intros Ha. unfold exec. rewrite (same_here a a' Ha). destruct (x_argv p) as [[|x argv]|]; try apply same_throw.
  cbv zeta. apply same_resolved; [done|]. intros e e' persisted. same_steps; [by apply same_create|by apply same_start|apply same_get].
Qed.

Lemma same_shell_run a a' r p : same_but_secrets a a' -> same_run (shell stateRoot a r p) (shell stateRoot a' r p).
Proof using.
  intros Ha. unfold shell. rewrite (same_here a a' Ha). apply same_bind; [same_steps|]. intros argv.
  apply same_resolved; [done|]. intros e e' persisted. same_steps; [by apply same_create|by apply same_start|apply same_get].
Qed.

Lemma same_each f jobs : (forall j, same_run (f j) (f j)) -> same_run (recover_each f jobs) (recover_each f jobs).
Proof using. intros Hf. induction jobs as [|j jobs IH]; cbn [recover_each]; same_steps; [apply Hf|done]. Qed.

Lemma same_unlink jobs : same_run (unlink_jobs jobs) (unlink_jobs jobs).
Proof using. induction jobs as [|j jobs IH]; cbn [unlink_jobs]; same_steps; done. Qed.

Lemma same_perform e e' : same_event e e' -> same_run (perform e) (perform e').
Proof using.
  intros [a a' r p Ha|a a' r p Ha|e0]; cbn [Jobs.perform]; unfold ignore.
  - same_steps. by apply same_exec_run.
  - same_steps. by apply same_shell_run.
  - pose proof same_save as Hs. pose proof same_get as Hg.
    destruct e0; cbn [Jobs.perform]; unfold ignore, on_data, on_error, on_close, finalize, open_stream, create_file,
      flush_stream, child_writes, cancelJob, required_job, adoptDetachedJob, pruneJobs, listAll, restart, recoverRunningJobs,
      recoverDetachedJobs, listAll, send_signal; same_steps; eauto 2.
    + apply same_exec_run. exists (provider a). by destruct a.
    + apply same_shell_run. exists (provider a). by destruct a.
    + apply same_unlink.
    + apply same_each. intros j. unfold recover_running. same_steps; eauto 2.
    + apply same_each. intros j. unfold recover_detached. same_steps; eauto 2.
Qed.

(** C13: No secret reaches the state.  Of two histories that differ only in the values that the references
    of secrets resolve to, the records, the streams, the signals and everything else the manager keeps
    are the same; only the environments of the started processes may differ. *)
Theorem secrets_stay_out (l l' : list event) :
  Forall2 same_event l l' -> public (after l empty_world) = public (after l' empty_world).
Proof using.
  assert (forall w w', public w = public w' -> Forall2 same_event l l' -> public (after l w) = public (after l' w')) as H.
  { revert l'. induction l as [|e l IH]; intros l' w w' Hw; inversion 1 as [|? e' ? k He Hl]; subst; [done|].
    unfold Jobs.after. cbn [fold_left]. apply IH; [|done]. by apply same_perform. }
  by apply H.
Qed.
End Secrecy.

(** ** The streams hold what the child wrote *)

Lemma append_inj_l (a b c : string) : (a ++ b)%string = (a ++ c)%string -> b = c.
Proof. intros H%(f_equal chars). rewrite !chars_app in H. apply app_inv_head in H. by apply chars_inj. Qed.

Lemma append_inj_r (a b c d : string) : String.length c = String.length d -> (a ++ c)%string = (b ++ d)%string -> a = b /\ c = d.
Proof.
  intros Hl H%(f_equal chars). rewrite !chars_app in H. apply app_inj_2 in H; [|by rewrite !length_chars].
  destruct H as [H1%chars_inj H2%chars_inj]. done.
Qed.

Section Streams.
Context {Lo : Locale} {Dir : Directory} (stateRoot : string) (maxOutputBytes : Z).
Abbreviation perform := (perform stateRoot maxOutputBytes).
Abbreviation after := (after stateRoot maxOutputBytes).

Definition stream_path (id : string) (st : stream) : string := path_of st (new_streams stateRoot id).

Lemma stream_path_inj id st id' st' : stream_path id st = stream_path id' st' -> id = id' /\ st = st'.
Proof using.
  unfold stream_path. intros H. destruct st, st'; cbn in H; do 2 apply append_inj_l in H; apply append_inj_r in H; try done;
    by destruct H as [-> ?].
Qed.

(** What is tracked: a job [id] that is not detached, one of its streams, and what the child has written
    to it so far; every handler holds the streams of its own job. *)
Record Tracks (id : string) (st : stream) (acc : buffer) (w : World) : Prop := {
  tr_handler : exists j, handlers w !! id = Some j /\ is_detached j = false /\ jobId j = id /\
    offset_of st (streams j) = Z.of_nat (length acc);
  tr_paths : forall id' j st', handlers w !! id' = Some j -> path_of st' (streams j) = stream_path id' st';
  tr_bytes : exists q, queued w !! stream_path id st = Some q /\
    default [] (files w !! stream_path id st) ++ q = acc;
  tr_inherited : stream_path id st ∉ inherited w
}.

(** The bytes of one stream of a job in a history. *)
Definition written_to (id : string) (st : stream) (l : list event) : buffer :=
  concat (omap (fun e => match e with
    | ev_data id' st' chunk => if bool_decide (id' = id /\ st' = st) then Some chunk else None
    | _ => None end) l).

(** The history neither ends the process nor starts a job under the same identifier. *)
Definition undisturbed (id : string) (e : event) : Prop :=
  match e with
  | ev_exec a _ _ | ev_shell a _ _ => uuid a <> id
  | ev_restart _ _ => False
  | _ => True
  end.

Section Tracking.
Context (id : string) (st : stream) (acc : buffer).
Abbreviation T := (Tracks id st acc).

Lemma Tracks_same w w' : files w' = files w -> queued w' = queued w -> handlers w' = handlers w -> inherited w' = inherited w ->
  T w -> T w'.
Proof using. intros H1 H2 H3 H4 [Ha Hb Hc Hd]. split; rewrite ?H1, ?H2, ?H3, ?H4; done. Qed.

Lemma track_other f : (forall w, files (f w) = files w /\ queued (f w) = queued w /\ handlers (f w) = handlers w /\
  inherited (f w) = inherited w) -> keeps T (fun _ => True) (modify f).
Proof using. intros H. apply keeps_modify. intros w. destruct (H w) as (? & ? & ? & ?). by apply Tracks_same. Qed.

Lemma track_gets {A} (f : World -> A) : keeps T (fun _ => True) (gets f).
Proof using. by apply keeps_gets. Qed.

#[local] Hint Resolve track_gets : keeps.
#[local] Hint Extern 1 (keeps T _ (modify _)) => apply track_other; intros; split_and!; reflexivity : keeps.

Lemma track_save j : keeps T (fun _ => True) (saveJob j).
Proof using.
  unfold saveJob, put_record. eapply keeps_bind; [apply track_gets|]. intros fl _. keeps_steps; eauto 3 with keeps.
Qed.

Lemma track_get id' : keeps T (fun _ => True) (getJob id').
Proof using. unfold getJob. eapply keeps_bind; [apply track_gets|]. intros o _. keeps_steps; done. Qed.

(** A file of another path. *)
Lemma track_files f : (forall m, f m !! stream_path id st = m !! stream_path id st) ->
  keeps T (fun _ => True) (modify (with_files f)).
Proof using.
  intros Hf. apply keeps_modify. intros w [Ha Hb Hc Hd]. split; [done|done| |done]. cbn [files queued with_files]. by rewrite Hf.
Qed.

Lemma track_create p : keeps T (fun _ => True) (create_file p).
Proof using.
  apply keeps_modify. intros w [Ha Hb (q & Hq & Hc) Hd]. split; [done|done| |done]. exists q. split; [done|]. cbn.
  destruct (decide (p = stream_path id st)) as [->|Hne]; [by rewrite lookup_insert_eq|by rewrite lookup_insert_ne].
Qed.

Lemma track_stream p : p <> stream_path id st -> keeps T (fun _ => True) (create_stream p).
Proof using.
  intros Hp. apply keeps_modify. intros w [Ha Hb (q & Hq & Hc) Hd]. split; [done|done| |done]. exists q. cbn.
  by rewrite lookup_insert_ne.
Qed.

(** A handler of another job, with its own streams. *)
Lemma track_handler id' j : id' <> id -> (forall st', path_of st' (streams j) = stream_path id' st') ->
  keeps T (fun _ => True) (modify (with_handlers <[id' := j]>)).
Proof using.
  intros Hid Hj. apply keeps_modify. intros w [(j0 & Ha) Hb Hc Hd]. split; [|..|done|done].
  - exists j0. cbn. by rewrite lookup_insert_ne.
  - intros id2 j2 st2. cbn. intros [[<- [= <-]]|[_ H]]%lookup_insert_Some; [done|]. by apply Hb.
Qed.

Lemma track_start a job argv cwd env d : jobId job <> id -> streams job = new_streams stateRoot (jobId job) ->
  keeps T (fun _ => True) (startProcess a job argv cwd env d).
Proof using.
  intros Hid Hst. assert (forall st', stream_path (jobId job) st' <> stream_path id st) as Hne.
  { intros st' [? ?]%stream_path_inj. done. }
  pose proof (Hne stdout) as Ho. pose proof (Hne stderr) as He. unfold stream_path in Ho, He at 1. cbn in Ho, He.
  unfold startProcess. rewrite Hst. cbn [stdoutPath stderrPath new_streams].
  destruct d; keeps_steps; try (solve [apply track_create | by apply track_stream | apply track_save | eauto 3 with keeps | done]).
  - apply keeps_modify. intros w [Ha Hb Hc Hd]. split; [done..|]. cbn. set_solver.
  - apply track_handler; [done|]. intros st'. unfold stream_path. cbn. rewrite Hst. by destruct st'.
  - apply track_handler; [done|]. intros st'. unfold stream_path. cbn. rewrite Hst. by destruct st'.
Qed.

Lemma track_created a r op cwd argv sh sc env d :
  keeps T (fun j => jobId j = uuid a /\ streams j = new_streams stateRoot (uuid a))
    (createJob stateRoot a r op cwd argv sh sc env d).
Proof using. unfold createJob. keeps_steps; [apply track_save|done]. Qed.

Lemma track_exec a r p : uuid a <> id -> keeps T (fun _ => True) (exec stateRoot a r p).
Proof using.
  intros Hid. unfold exec. destruct (x_argv p) as [[|x argv]|]; try apply keeps_throw.
  eapply keeps_bind; [by apply (keeps_lift _ (fun _ => True))|]. intros [env persisted] _.
  eapply keeps_bind; [apply track_created|]. intros job [Hj Hs]. keeps_steps; [|apply track_get].
  apply track_start; [by rewrite Hj|by rewrite Hs, Hj].
Qed.

Lemma track_shell a r p : uuid a <> id -> keeps T (fun _ => True) (shell stateRoot a r p).
Proof using.
  intros Hid. unfold shell. eapply keeps_bind; [instantiate (1 := fun _ => True); by keeps_steps|]. intros argv _.
  eapply keeps_bind; [by apply (keeps_lift _ (fun _ => True))|]. intros [env persisted] _.
  eapply keeps_bind; [apply track_created|]. intros job [Hj Hs]. keeps_steps; [|apply track_get].
  apply track_start; [by rewrite Hj|by rewrite Hs, Hj].
Qed.

#[local] Hint Resolve track_save track_get : keeps.

Lemma track_cancel h now id' sig : keeps T (fun _ => True) (cancelJob h now id' sig).
Proof using.
  unfold cancelJob, required_job, send_signal. eapply keeps_bind; [|intros job _].
  { eapply keeps_bind; [apply track_get|]. intros o _. instantiate (1 := fun _ => True). by keeps_steps. }
  keeps_steps; eauto 3 with keeps.
Qed.

Lemma track_adopt h now id' : keeps T (fun _ => True) (adoptDetachedJob h now id').
Proof using.
  unfold adoptDetachedJob. eapply keeps_bind; [apply track_get|]. intros o _. keeps_steps; eauto 3 with keeps.
Qed.

Lemma track_unlink jobs : keeps T (fun _ => True) (unlink_jobs jobs).
Proof using. induction jobs as [|j jobs IH]; cbn [unlink_jobs]; keeps_steps; eauto 3 with keeps. Qed.

Lemma track_prune n : keeps T (fun _ => True) (pruneJobs n).
Proof using. unfold pruneJobs, listAll. keeps_steps; eauto 3 with keeps. apply track_unlink. Qed.

(** A handler's record with the same streams, but for their flags. *)
Lemma track_settled id' w job job' : T w -> handlers w !! id' = Some job ->
  jobId job' = jobId job -> is_detached job' = is_detached job ->
  (forall st', path_of st' (streams job') = path_of st' (streams job) /\ offset_of st' (streams job') = offset_of st' (streams job)) ->
  let (r, w') := (modify (with_handlers <[id' := job']>);; catching (saveJob job') (mret ());; modify (with_running (delete id'))) w in
  T w'.
Proof using.
  intros Hw Hh Hid Hdet Hst.
  assert (T (with_handlers <[id' := job']> w)) as Hw1.
  { destruct Hw as [(j & Ha1 & Ha2 & Ha3 & Ha4) Hb Hc Hd]. split; [|..|done|done].
    - cbn. destruct (decide (id' = id)) as [->|Hne]; [|exists j; by rewrite lookup_insert_ne].
      assert (j = job) as -> by congruence. exists job'. rewrite lookup_insert_eq. split_and!; [done|congruence|congruence|].
      destruct (Hst st) as [_ ->]. done.
    - intros id2 j2 st2. cbn. intros [[<- [= <-]]|[_ H]]%lookup_insert_Some; [|by apply Hb].
      destruct (Hst st2) as [-> _]. by apply Hb. }
  assert (keeps T (fun _ => True) (catching (saveJob job') (mret ());; modify (with_running (delete id')))) as H.
  { keeps_steps; eauto 3 with keeps. }
  specialize (H _ Hw1). rewrite bindM_eq. cbn [modify].
  match goal with |- let (_, _) := ?x in _ => destruct x as [r w'] end. by destruct H.
Qed.

Lemma track_finalize now id' job s code sig w : T w -> handlers w !! id' = Some job ->
  let (r, w') := finalize now id' job s code sig w in T w'.
Proof using. intros Hw Hh. apply track_settled with job; [done..|]. by intros []. Qed.

Lemma track_error now id' w : T w -> let (r, w') := on_error now id' w in T w'.
Proof using.
  intros Hw. unfold on_error. rewrite bindM_eq. cbn [gets]. destruct (handlers w !! id') as [job|] eqn:E; [|done].
  by apply track_finalize.
Qed.

Lemma track_close now id' code sig w : T w -> let (r, w') := on_close now id' code sig w in T w'.
Proof using.
  intros Hw. unfold on_close. rewrite bindM_eq. cbn [gets]. destruct (handlers w !! id') as [job|] eqn:E; [|done].
  destruct (is_detached job); [done|]. by apply track_finalize.
Qed.

Lemma track_flush p n : keeps T (fun _ => True) (flush_stream p n).
Proof using.
  intros w Hw. unfold flush_stream. rewrite !bindM_eq. cbn [gets]. destruct (queued w !! p) as [q|] eqn:Eq; [|by cbn].
  rewrite bindM_eq. cbn [gets].
  destruct (files w !! p) as [f|] eqn:Ef; [|by cbn]. rewrite bindM_eq. cbn. split; [|done].
  destruct Hw as [Ha Hb (q0 & Hq & Hc) Hd]. split; [done|done| |done]. cbn.
  destruct (decide (p = stream_path id st)) as [->|Hne].
  - exists (drop n q). rewrite !lookup_insert_eq. split; [done|]. rewrite Eq in Hq. injection Hq as <-.
    rewrite Ef in Hc. cbn in *. by rewrite <- app_assoc, take_drop.
  - exists q0. by rewrite !lookup_insert_ne.
Qed.

Lemma track_child p data : keeps T (fun _ => True) (child_writes p data).
Proof using.
  intros w Hw. unfold child_writes. rewrite bindM_eq. cbn [gets]. case_bool_decide as Hp; [|by cbn]. cbn. split; [|done].
  destruct Hw as [Ha Hb (q & Hq & Hc) Hd]. split; [done|done| |done]. exists q. cbn.
  rewrite lookup_insert_ne; [done|]. intros ->. done.
Qed.

Lemma track_open p : keeps T (fun _ => True) (open_stream p).
Proof using.
  unfold open_stream. eapply keeps_bind; [apply track_gets|]. intros o _. destruct o; [apply track_create|by apply keeps_ret].
Qed.
End Tracking.

Lemma keeps_state {A} (I : World -> Prop) (Q : A -> Prop) m w : keeps I Q m -> I w -> I (snd (m w)).
Proof using. intros Hm Hw. specialize (Hm w Hw). by destruct (m w) as [r w'], Hm. Qed.

(** The handler of [data], for the stream that is tracked and for another. *)
Lemma track_data id st acc id' st' chunk w : Tracks id st acc w ->
  Tracks id st (acc ++ if bool_decide (id' = id /\ st' = st) then chunk else []) (snd (on_data maxOutputBytes id' st' chunk w)).
Proof using.
  intros Hw. unfold on_data. rewrite bindM_eq. cbn [gets].
  destruct (handlers w !! id') as [job|] eqn:E.
  2: { rewrite bool_decide_eq_false_2; [by rewrite app_nil_r|]. intros [-> ->].
       destruct (tr_handler _ _ _ _ Hw) as (j & Hj & _). congruence. }
  destruct (is_detached job) eqn:Edet.
  { rewrite bool_decide_eq_false_2; [by rewrite app_nil_r|]. intros [-> ->].
    destruct (tr_handler _ _ _ _ Hw) as (j & Hj & Hdet & _). congruence. }
  rewrite bindM_eq. cbn [modify]. rewrite bindM_eq. cbn [modify].
  set (job' := with_streams _ job). set (w1 := with_handlers _ _).
  assert (Tracks id st (acc ++ if bool_decide (id' = id /\ st' = st) then chunk else []) w1) as H1.
  { destruct Hw as [(j & Ha1 & Ha2 & Ha3 & Ha4) Hb (q & Hq & Hc) Hd]. pose proof (Hb id' job st' E) as Hp. split.
    - cbn. destruct (decide (id' = id)) as [->|Hne].
      + assert (j = job) as -> by congruence. exists job'. rewrite lookup_insert_eq. split_and!; [done..|]. unfold job'. cbn.
        destruct (decide (st' = st)) as [->|Hst].
        * rewrite bool_decide_eq_true_2 by done. rewrite length_app, Nat2Z.inj_add, <- Ha4. by destruct st.
        * rewrite bool_decide_eq_false_2 by (by intros [_ ?]). rewrite app_nil_r. by destruct st, st'.
      + exists j. rewrite lookup_insert_ne by done. rewrite bool_decide_eq_false_2 by (by intros [? _]). by rewrite app_nil_r.
    - intros id2 j2 st2. cbn. intros [[<- [= <-]]|[_ H]]%lookup_insert_Some; [|by apply Hb].
      transitivity (path_of st2 (streams job)); [by destruct st2|by apply Hb].
    - cbn [queued files w1 with_handlers with_queued]. rewrite Hp.
      destruct (decide (id' = id /\ st' = st)) as [[-> ->]|Hne].
      + exists (q ++ chunk). rewrite lookup_insert_eq, Hq. split; [done|]. rewrite bool_decide_eq_true_2 by done.
        by rewrite app_assoc, Hc.
      + exists q. rewrite lookup_insert_ne by (intros [? ?]%stream_path_inj; naive_solver).
        rewrite bool_decide_eq_false_2 by done. by rewrite app_nil_r.
    - done. }
  clearbody w1. clearbody job'. destruct (truthy_pid (pid job')) as [p|]; [|done].
  destruct (maxOutputBytes <? _); [|done]. unfold send_signal. eapply keeps_state; [|exact H1].
  apply track_other. intros. by split_and!.
Qed.

Lemma written_to_app id st l k : written_to id st (l ++ k) = written_to id st l ++ written_to id st k.
Proof using. unfold written_to. by rewrite omap_app, concat_app. Qed.

Lemma track_event id st acc e w : undisturbed id e -> Tracks id st acc w ->
  Tracks id st (acc ++ written_to id st [e]) (snd (perform e w)).
Proof using.
  intros He Hw.
  assert (forall A (m : JM A), keeps (Tracks id st acc) (fun _ => True) m -> Tracks id st (acc ++ []) (snd (m w))) as Hk.
  { intros A m Hm. rewrite app_nil_r. by eapply keeps_state. }
  assert (forall m : JM unit, (let (r, w') := m w in Tracks id st acc w') -> Tracks id st (acc ++ []) (snd (m w))) as Hs.
  { intros m Hm. rewrite app_nil_r. by destruct (m w). }
  destruct e; cbn [undisturbed] in He; cbn [Jobs.perform].
  - apply Hk. eapply keeps_ignore, track_exec, He.
  - apply Hk. eapply keeps_ignore, track_shell, He.
  - pose proof (track_data id st acc id0 st0 chunk w Hw) as H. unfold written_to. cbn.
    case_bool_decide; cbn; by rewrite ?app_nil_r in *.
  - apply Hs. by apply track_error.
  - apply Hs. by apply track_close.
  - apply Hk, track_open.
  - apply Hk, track_flush.
  - apply Hk, track_child.
  - apply Hk. eapply keeps_ignore, track_cancel.
  - apply Hk. eapply keeps_ignore, track_adopt.
  - apply Hk. eapply keeps_ignore, track_prune.
  - done.
  - apply Hk, track_other. intros. by split_and!.
Qed.

Lemma track_events id st l : forall acc w, Forall (undisturbed id) l -> Tracks id st acc w ->
  Tracks id st (acc ++ written_to id st l) (after l w).
Proof using.
  induction l as [|e l IH]; intros acc w Hl Hw; [by rewrite app_nil_r|].
  apply list.Forall_cons in Hl as [He Hl]. unfold Jobs.after. cbn [fold_left].
  change (e :: l) with ([e] ++ l). rewrite written_to_app, app_assoc. apply IH; [done|]. by apply track_event.
Qed.

(** What a save leaves as it is. *)
Definition same_streams (w w' : World) : Prop :=
  files w' = files w /\ queued w' = queued w /\ handlers w' = handlers w /\ inherited w' = inherited w.

#[local] Instance same_streams_preorder : PreOrder same_streams.
Proof using.
  unfold same_streams. split; [intros w; by split_and!|]. intros w1 w2 w3 (? & ? & ? & ?) (? & ? & ? & ?). split_and!; congruence.
Qed.

#[local] Hint Extern 1 (respects same_streams (modify _)) => apply respects_modify; intros; repeat split; reflexivity : respects.

Lemma save_same_streams j w r w' : saveJob j w = (r, w') -> same_streams w w'.
Proof using.
  intros E. assert (respects same_streams (saveJob j)) as H by (unfold saveJob, put_record; respects_steps).
  specialize (H w). by rewrite E in H.
Qed.

(** A job that has just been started, not detached and under an identifier of its own. *)
Lemma start_tracks a job argv cwd env st w w' :
  startProcess a job argv cwd env false w = (Ok tt, w') ->
  (forall id j st', handlers w !! id = Some j -> path_of st' (streams j) = stream_path id st') ->
  is_detached job = false -> streams job = new_streams stateRoot (jobId job) ->
  files w !! stream_path (jobId job) st = None -> stream_path (jobId job) st ∉ inherited w ->
  Tracks (jobId job) st [] w'.
Proof using.
  intros E Hpaths Hdet Hst Hfile Hinh. unfold startProcess, create_stream in E. cbv zeta in E. rewrite Hst in E.
  m_split. match goal with H : saveJob _ _ = _ |- _ => apply save_same_streams in H as (Hf & Hq & Hh & Hi) end.
  cbn in Hf, Hq, Hh, Hi.
  split.
  - eexists. cbn. rewrite lookup_insert_eq. split; [done|]. split; [done|]. split; [done|]. cbn. rewrite Hst. by destruct st.
  - intros id j st'. cbn. rewrite Hh. intros [[<- <-]|[_ H]]%lookup_insert_Some; [|by apply Hpaths].
    cbn. rewrite Hst. by destruct st'.
  - exists []. cbn. rewrite Hf, Hq, Hfile. split; [|done].
    destruct st; cbn; rewrite ?lookup_insert_eq; [|done]. rewrite lookup_insert_ne; [by rewrite lookup_insert_eq|].
    apply (fun H => H). intros Heq. by apply (stream_path_inj (jobId job) stderr (jobId job) stdout) in Heq as [_ ?].
  - cbn. by rewrite Hi.
Qed.

Lemma getJob_reads id w r w' : getJob id w = (r, w') -> w = w'.
Proof using.
  assert (respects eq (getJob id)) as H by (unfold getJob; respects_steps). intros E. specialize (H w). by rewrite E in H.
Qed.

Lemma exec_tracks l a r p st o w1 :
  let w := after l empty_world in
  exec stateRoot a r p w = (Ok o, w1) -> default false (x_detached p) = false ->
  files w !! stream_path (uuid a) st = None -> stream_path (uuid a) st ∉ inherited w ->
  Tracks (uuid a) st [] w1.
Proof using.
  intros w E Hdet Hfile Hinh. pose proof (after_Inv stateRoot maxOutputBytes l) as HI. fold w in HI.
  unfold exec in E. rewrite Hdet in E. destruct (x_argv p) as [[|x argv]|]; try discriminate. unfold createJob in E. m_split.
  match goal with H : saveJob _ _ = _ |- _ => apply save_same_streams in H as (Hf & Hq & Hh & Hi) end.
  match goal with H : getJob _ _ = _ |- _ => apply getJob_reads in H as <- end.
  match goal with H : startProcess _ _ _ _ _ _ _ = _ |- _ => apply (start_tracks _ _ _ _ _ st) in H end; try done.
  - intros id j st' Hj. rewrite Hh in Hj. destruct (inv_handlers _ _ _ HI id j Hj) as [<- (_ & _ & Hp)].
    unfold stream_path. injection Hp as Ho He. by destruct st'.
  - by rewrite Hf.
  - by rewrite Hi.
Qed.

(** A client that reads a stream to its end. *)
Fixpoint receive (fuel : nat) (id : string) (st : stream) (offset limit : Z) : JM buffer :=
  match fuel with
  | O => throw file_error
  | S fuel =>
      page ← readStream {| r_jobId := id; r_stream := st; r_offset := Some offset; r_limit := Some limit |};
      if p_eof page then mret (fromBase64 (p_data page))
      else rest ← receive fuel id st (p_offset page) limit; mret (fromBase64 (p_data page) ++ rest)
  end.

Lemma readStream_page w id st j c offset limit : disk w !! id = Some (Some j) -> closed_of st (streams j) = true ->
  files w !! path_of st (streams j) = Some c -> 0 <= offset <= Z.of_nat (length c) -> 0 < limit ->
  let n := Z.min (Z.min limit streamChunkSize) (Z.of_nat (length c) - offset) in
  readStream {| r_jobId := id; r_stream := st; r_offset := Some offset; r_limit := Some limit |} w =
    (Ok {| p_data := toBase64 (subarray c (Z.to_nat offset) (Z.to_nat offset + Z.to_nat n)); p_offset := offset + n;
           p_eof := Z.of_nat (length c) <=? offset + n |}, w).
Proof using.
  intros Hd Hc Hf Ho Hl n. unfold readStream, required_job, getJob, mbind, M_bind, gets. cbn [r_jobId r_stream r_offset r_limit].
  rewrite Hd. cbn [mret M_ret]. rewrite Hf, Hc. unfold lift, page_of. cbn [default from_option Datatypes.id].
  change (default 0 (Some offset)) with offset. change (default streamChunkSize (Some limit)) with limit.
  rewrite (Z.max_r 0) by lia. fold n. assert (0 <= n) as Hn by (unfold n, streamChunkSize; lia).
  assert (read_at c offset n = Ok (subarray c (Z.to_nat offset) (Z.to_nat offset + Z.to_nat n))) as ->; [|done].
  unfold read_at, subarray. rewrite (proj2 (Z.ltb_ge n 0)) by done. replace (_ + _ - _)%nat with (Z.to_nat n) by lia.
  destruct (n =? 0) eqn:E0; [by apply Z.eqb_eq in E0 as ->|]. rewrite (proj2 (Z.ltb_ge offset (-1))) by lia.
  rewrite Z.max_r by lia. rewrite length_take, length_drop.
  replace (Z.to_nat n - _)%nat with O by (unfold n; lia). unfold alloc. cbn [replicate]. by rewrite app_nil_r.
Qed.

Lemma receive_rest w id st j c limit : disk w !! id = Some (Some j) -> closed_of st (streams j) = true ->
  files w !! path_of st (streams j) = Some c -> Forall is_byte c -> 0 < limit ->
  forall fuel offset, 0 <= offset <= Z.of_nat (length c) -> Z.of_nat (length c) - offset < Z.of_nat fuel ->
  receive fuel id st offset limit w = (Ok (drop (Z.to_nat offset) c), w).
Proof using.
  intros Hd Hc Hf Hb Hl. induction fuel as [|fuel IH]; intros offset Ho Hfuel; [lia|].
  cbn [receive]. rewrite bindM_eq, (readStream_page w id st j c offset limit) by done. cbv beta iota zeta.
  set (n := Z.min _ _). cbn [p_eof p_data p_offset].
  assert (Forall is_byte (subarray c (Z.to_nat offset) (Z.to_nat offset + Z.to_nat n))) as Hsub
    by (by apply Forall_take, Forall_drop).
  assert (0 <= n <= Z.of_nat (length c) - offset) as Hn by (unfold n, streamChunkSize; lia).
  assert (offset + n < Z.of_nat (length c) -> 0 < n) as Hpos by (unfold n, streamChunkSize; lia).
  rewrite base64_roundtrip by done. unfold subarray. replace (_ + _ - _)%nat with (Z.to_nat n) by lia.
  destruct (_ <=? _) eqn:E; bool_inv.
  - unfold mret, M_ret. do 2 f_equal. apply take_ge. rewrite length_drop. lia.
  - rewrite bindM_eq, IH by lia. unfold mret, M_ret. do 2 f_equal.
    replace (Z.to_nat (offset + n)) with (Z.to_nat offset + Z.to_nat n)%nat by lia.
    by rewrite <- drop_drop, take_drop.
Qed.

End Streams.

(** ** Examples and witnesses *)

Module Demo.
#[export] Instance directory : Directory := {| readdir := fun V m => map_to_list m; readdir_entries := fun V m => reflexivity _ |}.
#[export] Instance locale : Locale := {| localeCompare := fun a b => if str_ltb a b then -1 else if str_ltb b a then 1 else 0 |}.

(** [/proc/<pid>/stat] of a process that started at a time. *)
Definition stat (start : string) : string := "7 (sh) " ++ of_chars (join [" "%char] (repeat (chars "0") 19 ++ [chars start])).

(** A host where the process 7 started at a time, or none is running. *)
Definition host_at (start : option string) : Host := {|
  boot_id := Some "boot"%string;
  proc_stat := fun p => if p =? 7 then option_map stat start else None;
  proc_exe := fun p => if p =? 7 then Some "/bin/sh"%string else None;
  ps_pgid := fun p => Some "    7"%string;
  kill := fun p _ => match start with Some _ => Z.abs p =? 7 | None => false end |}.

Definition around (token : string) (out : spawning) : Surroundings := {|
  uuid := "job"; created := "1"; started := "2"; here := "/"; process_env := [("PATH", "/bin")]%string;
  provider := fun r => if r === "github:T"%string then Some token else None; outcome := out; host := host_at (Some "100"%string) |}.

Definition payload : ExecPayload := {|
  x_argv := Some ["sh"%string]; x_cwd := None;
  x_environment := JArr [JObj [("name", JStr "TOKEN"); ("secretReference", JStr "github:T")]%string]; x_env := None;
  x_detached := None |}.

Definition start : event := ev_exec (around "secret" (child (Some 7))) "request" payload.
Abbreviation after := (after "/state" 1000).
Definition hello : buffer := [104; 105].
Definition out : string := stream_path "/state" "job" stdout.

Definition record_of (w : World) : option (JobStatus * option (option Z)) :=
  match disk w !! "job"%string with Some (Some j) => Some (status j, exitCode j) | _ => None end.

(** The child of a job that ran gets the secret, its record keeps the reference. *)
Example started_job :
  (List.map sp_env (spawned (after [start] empty_world)),
   option_map (option_map env) (disk (after [start] empty_world) !! "job"%string)) =
  ([[("PATH", "/bin"); ("TOKEN", "secret")]]%string, Some (Some [SecretReference "TOKEN" "github:T"])).
Proof. vm_compute. reflexivity. Qed.

(** A stream is read before the system has opened its file: the page says that it is the end, although
    the job is running and has output. *)
Example eof_before_output :
  let w := after [start; ev_data "job" stdout hello] empty_world in
  (record_of w, fst (readStream {| r_jobId := "job"; r_stream := stdout; r_offset := None; r_limit := None |} w)) =
  (Some (running, None), Ok {| p_data := ""; p_offset := 0; p_eof := true |}).
Proof. vm_compute. reflexivity. Qed.

(** A job that is cancelled is recorded as failed when its child closes. *)
Example cancelled_becomes_failed :
  (record_of (after [start; ev_cancel (host_at (Some "100"%string)) "3" "job" None] empty_world),
   record_of (after [start; ev_cancel (host_at (Some "100"%string)) "3" "job" None; ev_close "4" "job" None (Some "SIGTERM"%string)]
     empty_world)) = (Some (cancelled, None), Some (failed, Some None)).
Proof. vm_compute. reflexivity. Qed.

(** A job whose program cannot be started at all stays pending, over restarts. *)
Example pending_for_ever :
  record_of (after [ev_exec (around "secret" cannot_spawn) "request" payload; ev_restart (host_at None) "5"] empty_world) =
  Some (pending, None).
Proof. vm_compute. reflexivity. Qed.

(** An adopted job has no handler: when its process ends, nothing records it, over restarts either. *)
Example adopted_for_ever :
  record_of (after [start; ev_restart (host_at (Some "100"%string)) "5"; ev_close "6" "job" (Some 0) None;
    ev_restart (host_at None) "7"] empty_world) = Some (adopted, None).
Proof. vm_compute. reflexivity. Qed.
End Demo.

Section Witnesses.
Import Demo.

Definition finished : list event := [start; ev_close "3" "job" (Some 0) None].
Definition the_job (l : list event) : JobRecord :=
  match disk (after l empty_world) !! "job"%string with
  | Some (Some j) => j
  | _ => {| jobId := ""; requestId := ""; operation := ""; status := pending; pid := None; exitCode := None; signal := None;
            createdAt := ""; startedAt := None; completedAt := None; cwd := ""; argv := []; shell_ := None; script := None; env := [];
            is_detached := false; pgid := None; identity := None; streams := new_streams "" "" |}
  end.

Lemma completed_job_ended_witness : jobId (the_job finished) = "job"%string /\ ended_well finished (the_job finished).
Proof.
  apply (completed_job_ended "/state" 1000 finished "job" (the_job finished)); vm_compute; reflexivity.
Defined.

(** Another process has the number of the job: it started later. *)
Definition reused : Host := host_at (Some "900"%string).


Lemma recycled_process_is_signalled_witness :
  let w1 := snd (restart reused "5" (after [start] empty_world)) in
  disk w1 !! "job"%string = Some (Some (with_status adopted (the_job [start]))) /\
  (- 7, "SIGTERM"%string) ∈ signals (snd (cancelJob reused "6" "job" (Some "SIGTERM"%string) w1)).
Proof.
  apply (recycled_process_is_signalled "/state" 1000 reused "5" [start] "job" "SIGTERM" (the_job [start]) 7 7 reused "6");
    try (vm_compute; reflexivity). lia.
Defined.

Lemma waiting_ends_witness :
  exists r, waitForJob (Z.to_nat 10 + 3) "job" (Some 10) (fun _ => Some (Some (the_job [start]))) Z.of_nat = Some r /\
    match r with
    | Ok j => exists n : nat, Some (Some (the_job [start])) = Some (Some j) /\ settled j
    | Err wait_timeout => exists (n : nat) j, Some (Some (the_job [start])) = Some (Some j) /\ ~ settled j /\ 10 < Z.of_nat n - Z.of_nat O
    | Err _ => True
    end.
Proof.
  apply (waiting_ends "job" (Some 10) (fun _ => Some (Some (the_job [start]))) Z.of_nat). intros n. lia.
Defined.

Lemma prune_removes_oldest_witness :
  let w := after finished empty_world in
  let old := drop (Z.to_nat 0) (terminal_jobs w) in
  let (r, w') := pruneJobs 0 w in
  r = Ok (Z.of_nat (length old)) /\
  (forall id, disk w' !! id = if bool_decide (id ∈ List.map jobId old) then None else disk w !! id) /\
  Z.of_nat (length (terminal_jobs w')) <= 0.
Proof. apply (prune_removes_oldest "/state" 1000 finished 0). lia. Defined.

Lemma secrets_stay_out_witness :
  public (after [start] empty_world) = public (after [ev_exec (around "other" (child (Some 7))) "request" payload] empty_world).
Proof.
  apply (secrets_stay_out "/state" 1000 [start] [ev_exec (around "other" (child (Some 7))) "request" payload]).
  constructor; [|constructor]. constructor. exists (fun r => if r === "github:T"%string then Some "other"%string else None).
  split; [reflexivity|]. intros r. cbn. case_bool_decide; split; intros [? ?]; try discriminate; by eexists.
Defined.

Definition later : list event := [ev_data "job" stdout hello; ev_open out; ev_flush out 2; ev_close "3" "job" (Some 0) None].

End Witnesses.
