(* ===== verification/Files.v ===== *)
(** * Files of the host ([src/files/manager.ts])

    The operations of [FileManager] over a file system with directories, files and symbolic links.
    The file system is a map from absolute paths to inodes; names are resolved as the kernel does,
    with at most forty links.  A process may be killed between any two calls that change the file
    system.  The theorems: replacing a file changes nothing outside its root, and the file is the old one
    or the whole new one, whatever happens; what it demands of the old file; what a listing holds. *)

From S2P Require Import Prelude Bytes Json Platform Base64.

#[global] Open Scope Z_scope.

(** ** The file system *)

(** A path from the root, and its text. *)
Abbreviation path := (list string).

Definition path_text (p : path) : string := "/" ++ of_chars (join ["/"%char] (List.map chars p)).

(** What [lstat] says of an inode beside its kind; the size is of directories and special files. *)
Record Meta := { m_mode : Z; m_uid : Z; m_gid : Z; m_mtime : string; m_size : Z }.

Inductive inode :=
| IFile (content : buffer) (m : Meta)
| IDir (m : Meta)
| ILink (target : string) (m : Meta)
| IOther (m : Meta).

Abbreviation tree := (gmap path inode).

Definition meta_of (i : inode) : Meta := match i with IFile _ m | IDir m | ILink _ m | IOther m => m end.
Definition isDirectory (i : inode) : bool := match i with IDir _ => true | _ => false end.
Definition isSymbolicLink (i : inode) : bool := match i with ILink _ _ => true | _ => false end.
Definition isFile (i : inode) : bool := match i with IFile _ _ => true | _ => false end.
Definition size_of (i : inode) : Z :=
  match i with
  | IFile c _ => Z.of_nat (length c)
  | ILink t _ => Z.of_nat (String.length t)
  | IDir m | IOther m => m_size m
  end.

(** Where a name leads: an inode; a name that is free in a directory; or nowhere, because a directory on
    the way is missing ([ENOENT]) or is no directory, or there are too many links. *)
Inductive place := Found (p : path) (i : inode) | Free (p : path) | Nowhere (missing : bool).

(** The root is a directory, and not an entry of one. *)
Definition root_inode : inode := IDir {| m_mode := 493; m_uid := 0; m_gid := 0; m_mtime := ""; m_size := 4096 |}.
Definition at_path (t : tree) (p : path) : option inode := match p with [] => Some root_inode | _ => t !! p end.

Definition components (s : string) : path := Bytes.split "/" s.

(** The resolution of the kernel: [cur] is a directory; a link is followed if it is not the last
    component or [follow] is set. *)
Fixpoint walk (links : nat) (t : tree) (follow : bool) : path -> path -> place :=
  fix go (cur todo : path) : place :=
    match todo with
    | [] => match at_path t cur with Some i => Found cur i | None => Nowhere true end
    | c :: rest =>
        if (c === ""%string) || (c === "."%string) then go cur rest
        else if c === ".."%string then go (removelast cur) rest
        else match at_path t (cur ++ [c]) with
             | None => match rest with [] => Free (cur ++ [c]) | _ => Nowhere true end
             | Some (IDir m) => go (cur ++ [c]) rest
             | Some (ILink target m) =>
                 match rest, follow with
                 | [], false => Found (cur ++ [c]) (ILink target m)
                 | _, _ =>
                     match links with
                     | O => Nowhere false
                     | S links => walk links t follow (if startsWith target "/" then [] else cur) (components target ++ rest)
                     end
                 end
             | Some i => match rest with [] => Found (cur ++ [c]) i | _ => Nowhere false end
             end
    end.

Arguments walk : simpl never.

Definition MAX_LINKS : nat := 40.
Definition locate (t : tree) (follow : bool) (p : path) : place := walk MAX_LINKS t follow [] p.

(** ** Exceptions, and the process *)

(** The codes of [OperationError], and a call of [node:fs] that throws; [killed] ends the process. *)
Inductive file_error :=
| invalid_path | unsafe_path | parent_not_found | invalid_request | path_outside_root | precondition_failed
| destination_exists | recursive_required | system_error | killed.

#[global] Instance file_error_eq_dec : EqDecision file_error.
Proof. solve_decision. Defined.

(** [budget]: how many changes of the file system the process makes before it is killed. *)
Record Process := { fs : tree; budget : option nat }.

Abbreviation FM := (M Process file_error).

Definition effect (f : tree -> tree) : FM unit := fun s =>
  match budget s with
  | Some O => (Err killed, s)
  | Some (S n) => (Ok tt, {| fs := f (fs s); budget := Some n |})
  | None => (Ok tt, {| fs := f (fs s); budget := None |})
  end.

(** [try { m } finally { h }]: neither runs in a process that was killed, because its next effect is
    refused again. *)
Definition try_finally {X} (m : FM X) (h : FM unit) : FM X := fun s =>
  match m s with
  | (r, s1) => match h s1 with (Ok _, s2) => (r, s2) | (Err e, s2) => (Err e, s2) end
  end.

(** ** Calls of [node:fs] *)

Definition stat_place (p : path) : FM place := gets (fun s => locate (fs s) true p).
Definition lstat_place (p : path) : FM place := gets (fun s => locate (fs s) false p).

Definition existsSync (p : path) : FM bool := l ← stat_place p; mret (match l with Found _ _ => true | _ => false end).
Definition lstatSync (p : path) : FM inode :=
  l ← lstat_place p; match l with Found _ i => mret i | _ => throw system_error end.
Definition readFileSync (p : path) : FM buffer :=
  l ← stat_place p; match l with Found _ (IFile c _) => mret c | _ => throw system_error end.

Definition mkdirSync (p : path) (mode : Z) (now : string) : FM unit :=
  l ← lstat_place p;
  match l with
  | Free q => effect <[q := IDir {| m_mode := mode; m_uid := 0; m_gid := 0; m_mtime := now; m_size := 4096 |}]>
  | _ => throw system_error
  end.

Definition unlinkSync (p : path) : FM unit :=
  l ← lstat_place p;
  match l with
  | Found q i => if isDirectory i then throw system_error else effect (delete q)
  | _ => throw system_error
  end.

(** What is at or under a path. *)
Definition under (q p : path) : bool := bool_decide (take (length q) p = q).
Definition subtree (q : path) (t : tree) : tree := filter (fun kv => under q (fst kv) = true) t.
Definition without (q : path) (t : tree) : tree := filter (fun kv => under q (fst kv) = false) t.
Definition moved (q r : path) (t : tree) : tree := kmap (fun p => r ++ drop (length q) p) (subtree q t).

(** [rename]: a directory can replace an empty directory and nothing under itself, another inode can
    replace what is no directory. *)
Definition renameSync (p p' : path) : FM unit :=
  t ← gets fs;
  match locate t false p, locate t false p' with
  | Found q i, (Found r _ | Free r) as l =>
      if q === r then mret ()
      else if isDirectory i && under q r then throw system_error
      else if match l with
              | Found _ j => if isDirectory i then isDirectory j && bool_decide (size (subtree r t) = 1%nat) else negb (isDirectory j)
              | _ => true
              end
           then effect (fun t => moved q r t ∪ without q (without r t))
           else throw system_error
  | _, _ => throw system_error
  end.

(** ** The manager *)

(** Source: src/files/manager.ts:27-29 (FILE_LIST_MAX_DEPTH) *)
Definition FILE_LIST_MAX_DEPTH : Z := 32.
Definition FILE_LIST_MAX_ENTRIES : Z := 4096.
Definition FILE_READ_MAX_CHUNK : Z := 64 * 1024.

Inductive encoding := base64 | utf8.

(** Source: src/files/manager.ts:35-40 (FileReadPayload) *)
Record FileReadPayload := { r_path : string; r_offset : option Z; r_limit : option Z; r_encoding : option encoding }.

(** Source: src/files/manager.ts:42-48 (FileWritePayload) *)
Record FileWritePayload := {
  w_path : string; w_data : string; w_encoding : option encoding; w_offset : option Z; w_create : option bool }.

(** Source: src/files/manager.ts:50-60 (FileReplacePayload) *)
Record FileReplacePayload := {
  root : string;
  target : string;
  data : string;
  data_encoding : option encoding;
  expectedSha256 : option string;
  expectedAbsent : bool;
  preserveMode : option bool;
  durable : option bool;
  createParents : option bool
}.

(** Source: src/files/manager.ts:62-69 (FilePatchPayload) *)
Record FilePatch := { pt_offset : Z; pt_data : string; pt_encoding : option encoding }.

(** Source: src/files/manager.ts:71-81 (FileCopyPayload) *)
Record FileCopyPayload := { c_source : string; c_destination : string; c_overwrite : bool }.

(** Source: src/files/manager.ts:88-93 (FileListPayload) *)
Record FileListPayload := { l_path : string; l_recursive : bool; l_maxDepth : option Z; l_maxEntries : option Z }.

(** Source: src/files/manager.ts:95-105 (FileStatResult) *)
Record FileStatResult := {
  st_path : path;
  st_inode : option inode;
  st_size : option Z;
  st_sha256 : option string
}.

(** Source: src/files/manager.ts:231-238 (FileManager.replace) *)
Record Replaced := {
  rp_path : path;
  rp_bytesWritten : Z;
  rp_created : bool;
  rp_previousSha256 : option string;
  rp_sha256 : string;
  rp_durable : bool
}.

(** [path.resolve], lexically. *)
Definition normalize (l : list string) : path :=
  fold_left (fun acc c =>
    if (c === ""%string) || (c === "."%string) then acc
    else if c === ".."%string then removelast acc else acc ++ [c]) l [].

Definition isAbsolute (s : string) : bool := startsWith s "/".

(** [path.relative] of two absolute paths, as components: no component has a separator. *)
Fixpoint relative (from to : path) : path :=
  match from, to with
  | c :: from', d :: to' => if c === d then relative from' to' else List.map (fun _ => ".."%string) from ++ to
  | _, _ => List.map (fun _ => ".."%string) from ++ to
  end.

(** The tests on the text of [rel] are tests on its components; it is never absolute.
    Source: src/files/manager.ts:123-126 (isWithinRoot) *)
Definition isWithinRoot (root path : path) : bool :=
  match relative root path with [] => false | c :: _ => c !== ".."%string end.

Section Manager.
Context {C : Crypto}.
(** The working directory, the umask and the clock of the process, and whether the disk is full. *)
Context (here : path) (umask : Z) (now : string) (full : bool).

(** A path that is given by its components, and by its text.
    Source: src/files/manager.ts:107-113 (assertSafePath) *)
Definition safe_components (l : list string) : result file_error path :=
  let resolved := normalize l in
  _ ← require (forallb (all_chars (fun c => negb (code c =? 0))) resolved) invalid_path;
  Ok resolved.
Definition assertSafePath (s : string) : result file_error path :=
  safe_components (if isAbsolute s then components s else here ++ components s).

(** Source: src/files/manager.ts:115-117 (decodeData) *)
Definition decodeData (data : string) (e : option encoding) : buffer :=
  match default base64 e with utf8 => utf8_bytes data | base64 => fromBase64 data end.

(** The digest of a content. *)
Definition hash (c : buffer) : string := sha256Hex (byte_string c).

(** Source: src/files/manager.ts:119-121 (sha256File) *)
Definition sha256File (p : path) : FM string := c ← readFileSync p; mret (hash c).

(** The loop over the components below the root.
    Source: src/files/manager.ts:135-149 (assertNoSymlinkComponents) *)
Fixpoint check_components (createParents : bool) (current : path) (rest : path) : FM unit :=
  match rest with
  | [] => mret ()
  | c :: rest =>
      let current := current ++ [c] in
      present ← existsSync current;
      (if (present : bool) then mret ()
       else guardM createParents parent_not_found;; mkdirSync current (Z.land 488 (Z.lnot umask)) now);;
      st ← lstatSync current;
      guardM (isDirectory st) unsafe_path;;
      check_components createParents current rest
  end.

(** Source: src/files/manager.ts:128-150 (assertNoSymlinkComponents) *)
Definition assertNoSymlinkComponents (root targetParent : path) (createParents : bool) : FM unit :=
  st ← lstatSync root;
  guardM (isDirectory st) unsafe_path;;
  check_components createParents root (relative root targetParent).

(** Source: src/files/manager.ts:153-181 (FileManager.stat) *)
Definition stat (p : string) : FM FileStatResult :=
  p ← lift (assertSafePath p);
  present ← existsSync p;
  if negb present then mret {| st_path := p; st_inode := None; st_size := None; st_sha256 := None |}
  else
    i ← lstatSync p;
    h ← (if isFile i && (size_of i <=? 10 * 1024 * 1024) then h ← sha256File p; mret (Some h) else mret None);
    mret {| st_path := p; st_inode := Some i; st_size := Some (size_of i); st_sha256 := h |}.

(** [readSync(fd, buf, 0, length, position)], as far as the file goes. *)
Definition read_at (content : buffer) (position length_ : Z) : result file_error buffer :=
  if length_ <? 0 then Err system_error
  else if length_ =? 0 then Ok []
  else if position <? -1 then Err system_error
  else let got := take (Z.to_nat length_) (drop (Z.to_nat (Z.max 0 position)) content) in
       Ok (got ++ alloc (Z.to_nat length_ - length got)).

(** The bytes, the next offset and whether it is the end; the data is encoded as was asked.  The size is
    of the inode itself, which [lstat] gives, also when it is a link to the file that is read.
    Source: src/files/manager.ts:183-208 (FileManager.read) *)
Definition read (payload : FileReadPayload) : FM (buffer * Z * bool) :=
  p ← lift (assertSafePath (r_path payload));
  let offset := default 0 (r_offset payload) in
  let limit := Z.min (default FILE_READ_MAX_CHUNK (r_limit payload)) FILE_READ_MAX_CHUNK in
  content ← readFileSync p;
  st ← lstatSync p;
  let toRead := Z.min limit (Z.max 0 (size_of st - offset)) in
  data ← lift (read_at content offset toRead);
  mret (data, offset + toRead, size_of st <=? offset + toRead).

(** A file's content becomes another, at its place or as a new file. *)
Definition new_meta (mode : Z) : Meta :=
  {| m_mode := Z.land mode (Z.lnot umask); m_uid := 0; m_gid := 0; m_mtime := now; m_size := 0 |}.
Definition touched (m : Meta) : Meta :=
  {| m_mode := m_mode m; m_uid := m_uid m; m_gid := m_gid m; m_mtime := now; m_size := m_size m |}.
Definition set_content (q : path) (c : buffer) : FM unit :=
  effect (fun t => match t !! q with Some (IFile _ m) => <[q := IFile c (touched m)]> t | _ => <[q := IFile c (new_meta 438)]> t end).

(** [writeSync] of a buffer at a position. *)
Definition write_at (c : buffer) (offset : nat) (data : buffer) : buffer :=
  match data with
  | [] => c
  | _ => take offset c ++ alloc (offset - length c) ++ data ++ drop (offset + length data) c
  end.

(** [openSync(path, 'r+')]: the file must be there. *)
Definition open_existing (p : path) : FM (path * buffer) :=
  l ← stat_place p; match l with Found q (IFile c _) => mret (q, c) | _ => throw system_error end.

(** [mkdirSync(path, { recursive: true })]: the parents one after the other; links are followed. *)
Fixpoint mkdirs (current rest : path) : FM unit :=
  match rest with
  | [] => mret ()
  | c :: rest =>
      let current := current ++ [c] in
      l ← stat_place current;
      match l with
      | Found _ i => if isDirectory i then mkdirs current rest else throw system_error
      | _ => mkdirSync current (Z.land 511 (Z.lnot umask)) now;; mkdirs current rest
      end
  end.

(** [writeFileSync(path, data)]: a link is followed, a file that is not there is created; the file is
    emptied first. *)
Definition writeFileSync (p : path) (data : buffer) : FM unit :=
  l ← stat_place p;
  match l with
  | Found q (IFile _ _) | Free q =>
      set_content q [];;
      if full then throw system_error else set_content q data
  | _ => throw system_error
  end.

(** Source: src/files/manager.ts:210-229 (FileManager.write) *)
Definition write (payload : FileWritePayload) : FM (path * Z) :=
  p ← lift (assertSafePath (w_path payload));
  let buf := decodeData (w_data payload) (w_encoding payload) in
  match w_offset payload with
  | Some offset =>
      if 0 <? offset then
        '(q, c) ← open_existing p;
        (if full then throw system_error else set_content q (write_at c (Z.to_nat offset) buf))
      else
        (if default true (w_create payload) then mkdirs [] (removelast p) else mret ());;
        writeFileSync p buf
  | None =>
      (if default true (w_create payload) then mkdirs [] (removelast p) else mret ());;
      writeFileSync p buf
  end;;
  mret (p, Z.of_nat (length buf)).

(** A text that is given and not empty. *)
Definition given (o : option string) : option string := match o with Some s => if truthy_str s then Some s else None | None => None end.

(** The old file: its digest and inode; [None] where there is none.
    Source: src/files/manager.ts:261-275 (FileManager.replace) *)
Definition examine (p : path) : FM (option (string * inode)) :=
  existed ← existsSync p;
  if negb existed then mret None
  else
    st ← lstatSync p;
    guardM (isFile st) unsafe_path;;
    h ← sha256File p;
    mret (Some (h, st)).

(** [`.${basename(path)}.baby-quirt-${randomUUID()}.tmp`] *)
Definition temporary_name (base uuid : string) : string := "." ++ base ++ ".baby-quirt-" ++ uuid ++ ".tmp".

Definition with_mode (mode : Z) (m : Meta) : Meta :=
  {| m_mode := mode; m_uid := m_uid m; m_gid := m_gid m; m_mtime := m_mtime m; m_size := m_size m |}.
Definition with_owner (u g : Z) (m : Meta) : Meta :=
  {| m_mode := m_mode m; m_uid := u; m_gid := g; m_mtime := m_mtime m; m_size := m_size m |}.

(** The temporary file is created and written, and takes the place of the target; [torn] is how much of it
    a kill or a full disk may leave written.
    Source: src/files/manager.ts:296-320 (FileManager.replace) *)
Definition write_and_rename (temporary p : path) (data : buffer) (torn : nat) (preserve : bool)
    (previous : option (string * inode)) : FM unit :=
  let previousMode := match previous with Some (_, i) => Z.land (m_mode (meta_of i)) 4095 | None => 384 end in
  let m := new_meta (if preserve then previousMode else 384) in
  l ← lstat_place temporary;
  match l with
  | Free q =>
      effect <[q := IFile [] m]>;;
      effect <[q := IFile (take torn data) m]>;;
      guardM (negb full) system_error;;
      effect <[q := IFile data m]>;;
      match previous with
      | Some (_, i) =>
          if preserve then
            effect <[q := IFile data (with_mode previousMode m)]>;;
            effect <[q := IFile data (with_owner (m_uid (meta_of i)) (m_gid (meta_of i)) (with_mode previousMode m))]>
          else mret ()
      | None => mret ()
      end;;
      renameSync temporary p
  | _ => throw system_error
  end.

(** [finally { if (existsSync(temporary)) unlinkSync(temporary); }]
    Source: src/files/manager.ts:321-324 (FileManager.replace) *)
Definition remove_temporary (temporary : path) : FM unit :=
  left_over ← existsSync temporary; if (left_over : bool) then unlinkSync temporary else mret ().

(** Source: src/files/manager.ts:250-250 (FileManager.replace) *)
Definition target_under (root : path) (payload : FileReplacePayload) : result file_error path :=
  if isAbsolute (target payload) then assertSafePath (target payload) else safe_components (root ++ components (target payload)).

(** What is done in the directory of the target, when it is known to be one.
    Source: src/files/manager.ts:261-333 (FileManager.replace) *)
Definition replace_at (uuid : string) (torn : nat) (payload : FileReplacePayload) (parent p : path) : FM Replaced :=
  previous ← examine p;
  guardM (negb (expectedAbsent payload && bool_decide (is_Some previous))) precondition_failed;;
  guardM (match given (expectedSha256 payload) with
          | Some h => match previous with Some (h', _) => h' === h | None => false end
          | None => true
          end) precondition_failed;;
  let data := decodeData (data payload) (data_encoding payload) in
  let temporary := parent ++ [temporary_name (default ""%string (last p)) uuid] in
  try_finally
    (write_and_rename temporary p data torn (default true (preserveMode payload)) previous)
    (remove_temporary temporary);;
  h ← sha256File p;
  mret {| rp_path := p; rp_bytesWritten := Z.of_nat (length data); rp_created := negb (bool_decide (is_Some previous));
          rp_previousSha256 := option_map fst previous; rp_sha256 := h; rp_durable := default true (durable payload) |}.

(** Source: src/files/manager.ts:231-334 (FileManager.replace) *)
Definition replace (uuid : string) (torn : nat) (payload : FileReplacePayload) : FM Replaced :=
  guardM (truthy_str (root payload) && truthy_str (target payload)) invalid_request;;
  guardM (negb (expectedAbsent payload && bool_decide (is_Some (given (expectedSha256 payload))))) invalid_request;;
  root ← lift (assertSafePath (root payload));
  p ← lift (target_under root payload);
  guardM (isWithinRoot root p) path_outside_root;;
  let parent := removelast p in
  assertNoSymlinkComponents root parent (default false (createParents payload));;
  replace_at uuid torn payload parent p.

(** The loop over the patches; a negative position is where the last such write has ended.
    Source: src/files/manager.ts:341-345 (FileManager.patch) *)
Fixpoint apply_patches (q : path) (cursor : nat) (patches : list FilePatch) : FM Z :=
  match patches with
  | [] => mret 0
  | x :: patches =>
      let buf := decodeData (pt_data x) (pt_encoding x) in
      guardM (negb full) system_error;;
      o ← gets (fun s => fs s !! q);
      let c := match o with Some (IFile c _) => c | _ => [] end in
      let position := if pt_offset x <? 0 then cursor else Z.to_nat (pt_offset x) in
      set_content q (write_at c position buf);;
      n ← apply_patches q (if pt_offset x <? 0 then (cursor + length buf)%nat else cursor) patches;
      mret (n + 1)
  end.

(** Source: src/files/manager.ts:336-350 (FileManager.patch) *)
Definition patch (p : string) (patches : list FilePatch) : FM (path * Z) :=
  p ← lift (assertSafePath p);
  '(q, _) ← open_existing p;
  n ← apply_patches q 0 patches;
  mret (p, n).

(** [copyFileSync]: onto itself it does nothing; when it fails it removes what is there.  The copy has the
    mode of the source. *)
Definition copyFileSync (p p' : path) : FM unit :=
  l ← stat_place p;
  l' ← stat_place p';
  match l, l' with
  | Found q (IFile c m), (Found r (IFile _ _) | Free r) =>
      if q === r then mret ()
      else if full then unlinkSync p';; throw system_error
      else set_content r c;;
           effect (fun t => match t !! r with Some (IFile c' m') => <[r := IFile c' (with_mode (m_mode m) m')]> t | _ => t end)
  | _, _ => throw system_error
  end.

(** What [copy] and [move] share.
    Source: src/files/manager.ts:352-361 (FileManager.copy) *)
Definition transfer (act : path -> path -> FM unit) (payload : FileCopyPayload) : FM (path * path) :=
  source ← lift (assertSafePath (c_source payload));
  destination ← lift (assertSafePath (c_destination payload));
  (if c_overwrite payload then mret () else present ← existsSync destination; guardM (negb present) destination_exists);;
  mkdirs [] (removelast destination);;
  act source destination;;
  mret (source, destination).
Definition copy : FileCopyPayload -> FM (path * path) := transfer copyFileSync.

(** Source: src/files/manager.ts:363-372 (FileManager.move) *)
Definition move : FileCopyPayload -> FM (path * path) := transfer renameSync.

(** A directory with all that is in it goes at once here.
    Source: src/files/manager.ts:374-390 (FileManager.remove) *)
Definition remove (p : string) (recursive : bool) : FM (path * bool) :=
  p ← lift (assertSafePath p);
  present ← existsSync p;
  if negb present then mret (p, false)
  else
    s ← lstatSync p;
    if isDirectory s then
      guardM recursive recursive_required;;
      l ← lstat_place p;
      match l with
      | Found q _ => effect (without q);; mret (p, true)
      | _ => throw system_error
      end
    else unlinkSync p;; mret (p, true).

(** *** Listing *)

Record Entry := { e_name : string; e_kind : inode; e_path : path }.

(** What is in a directory, by name. *)
Definition child_of (q : path) (kv : path * inode) : option (string * inode) :=
  match last (fst kv) with
  | Some n => if fst kv === q ++ [n] then Some (n, snd kv) else None
  | None => None
  end.
Definition children (t : tree) (q : path) : gmap string inode := list_to_map (omap (child_of q) (map_to_list t)).

Context {Dir : Directory}.

(** The depth of the deepest name: no directory is deeper, so as much fuel is enough. *)
Definition depth_of (t : tree) : nat := list_max (List.map (fun kv => length (fst kv)) (map_to_list t)).

(** The entries so far, and [truncated]. *)
Abbreviation listing := (list Entry * bool)%type.

Section List.
Context (t : tree) (recursive : bool) (maxDepth maxEntries : Z).

(** The loop over the names of a directory; [into] is the recursive call.
    Source: src/files/manager.ts:412-434 (FileManager.list) *)
Fixpoint list_names (into : string -> listing -> listing) (dir : path) (names : list (string * inode)) (acc : listing) : listing :=
  match names with
  | [] => acc
  | (name, i) :: names =>
      if maxEntries <=? Z.of_nat (length (fst acc)) then (fst acc, true)
      else
        let acc := (fst acc ++ [{| e_name := name; e_kind := i; e_path := dir ++ [name] |}], snd acc) in
        list_names into dir names (if recursive && isDirectory i then into name acc else acc)
  end.

(** Source: src/files/manager.ts:403-435 (FileManager.list) *)
Fixpoint list_dir (fuel : nat) (q : path) (dir : path) (depth : Z) (acc : listing) : listing :=
  match fuel with
  | O => acc
  | S fuel =>
      if maxDepth <? depth then (fst acc, true)
      else if maxEntries <=? Z.of_nat (length (fst acc)) then (fst acc, true)
      else list_names (fun name acc => list_dir fuel (q ++ [name]) (dir ++ [name]) (depth + 1) acc) dir (readdir (children t q)) acc
  end.
End List.

(** The inodes are given; the type of an entry is a word for the kind of its inode.
    Source: src/files/manager.ts:392-439 (FileManager.list) *)
Definition list_ (payload : FileListPayload) : FM (path * list Entry * bool) :=
  p ← lift (assertSafePath (l_path payload));
  t ← gets fs;
  let maxDepth := default FILE_LIST_MAX_DEPTH (l_maxDepth payload) in
  let maxEntries := default FILE_LIST_MAX_ENTRIES (l_maxEntries payload) in
  if (maxDepth <? 0) || (maxEntries <=? 0) then mret (p, [], true) else
  match locate t true p with
  | Found q (IDir _) =>
      let (entries, truncated) := list_dir t (l_recursive payload) maxDepth maxEntries (S (depth_of t)) q p 0 ([], false) in
      mret (p, entries, truncated)
  | _ => throw system_error
  end.
End Manager.

(** ** Names that lead through directories *)

(** A component that is a name. *)
Definition plain (c : string) : Prop := c <> ""%string /\ c <> "."%string /\ c <> ".."%string.

Definition is_dir (t : tree) (p : path) : Prop := exists m, at_path t p = Some (IDir m).

(** Every name is in a directory. *)
Definition well_formed (t : tree) : Prop := forall p c, t !! (p ++ [c]) <> None -> is_dir t p.

Lemma walk_nil links t follow cur : walk links t follow cur [] = match at_path t cur with Some i => Found cur i | None => Nowhere true end.
Proof. by destruct links. Qed.

Lemma walk_cons links t follow cur c rest : walk links t follow cur (c :: rest) =
  if (c === ""%string) || (c === "."%string) then walk links t follow cur rest
  else if c === ".."%string then walk links t follow (removelast cur) rest
  else match at_path t (cur ++ [c]) with
       | None => match rest with [] => Free (cur ++ [c]) | _ => Nowhere true end
       | Some (IDir m) => walk links t follow (cur ++ [c]) rest
       | Some (ILink target m) =>
           match rest, follow with
           | [], false => Found (cur ++ [c]) (ILink target m)
           | _, _ =>
               match links with
               | O => Nowhere false
               | S links => walk links t follow (if startsWith target "/" then [] else cur) (components target ++ rest)
               end
           end
       | Some i => match rest with [] => Found (cur ++ [c]) i | _ => Nowhere false end
       end.
Proof. by destruct links. Qed.

Lemma walk_plain links t follow cur c rest : plain c -> walk links t follow cur (c :: rest) =
  match at_path t (cur ++ [c]) with
  | None => match rest with [] => Free (cur ++ [c]) | _ => Nowhere true end
  | Some (IDir m) => walk links t follow (cur ++ [c]) rest
  | Some (ILink target m) =>
      match rest, follow with
      | [], false => Found (cur ++ [c]) (ILink target m)
      | _, _ =>
          match links with
          | O => Nowhere false
          | S links => walk links t follow (if startsWith target "/" then [] else cur) (components target ++ rest)
          end
      end
  | Some i => match rest with [] => Found (cur ++ [c]) i | _ => Nowhere false end
  end.
Proof. intros (H1 & H2 & H3). rewrite walk_cons. by rewrite !bool_decide_eq_false_2. Qed.

(** [t'] has the directories and links of [t], but, if [B], for some that are files now. *)
Definition blocks (B : Prop) (t t' : tree) : Prop :=
  forall p i, at_path t p = Some i -> isDirectory i || isSymbolicLink i = true ->
    at_path t' p = Some i \/ (B /\ exists c m, at_path t' p = Some (IFile c m)).

(** What leads to a directory leads on from there, unless a file is now in the way. *)
Lemma walk_blocked B t t' : blocks B t t' -> forall links a cur R m, walk links t false cur a = Found R (IDir m) ->
  (exists links', forall follow b, b <> [] -> walk links t' follow cur (a ++ b) = walk links' t' follow R b) \/
  (B /\ forall follow b, b <> [] -> walk links t' follow cur (a ++ b) = Nowhere false).
Proof.
  intros Ht. induction links as [links IHl] using lt_wf_ind. induction a as [|c a IHa]; intros cur R m H.
  - rewrite walk_nil in H. destruct (at_path t cur); [|done]. injection H as <- _. left. by exists links.
  - rewrite walk_cons in H. cbn [app].
    destruct ((c === ""%string) || (c === "."%string)) eqn:E1; [|destruct (c === ".."%string) eqn:E2].
    + destruct (IHa _ _ _ H) as [[l Hl]|[HB Hl]]; [left; exists l|right; split; [done|]]; intros follow b Hb; rewrite walk_cons, E1; by apply Hl.
    + destruct (IHa _ _ _ H) as [[l Hl]|[HB Hl]]; [left; exists l|right; split; [done|]]; intros follow b Hb; rewrite walk_cons, E1, E2; by apply Hl.
    + destruct (at_path t (cur ++ [c])) as [i|] eqn:Ei; [|by destruct a].
      assert (isDirectory i || isSymbolicLink i = true) as Hi by (by destruct i, a).
      destruct (Ht _ _ Ei Hi) as [Ei'|(HB & x & y & Ei')].
      2: { right. split; [done|]. intros follow b Hb. rewrite walk_cons, E1, E2, Ei'. by destruct a, b. }
      destruct i as [|m'|target m'|]; try done.
      * destruct (IHa _ _ _ H) as [[l Hl]|[HB Hl]]; [left; exists l|right; split; [done|]]; intros follow b Hb;
          rewrite walk_cons, E1, E2, Ei'; by apply Hl.
      * destruct links as [|links]; [by destruct a|].
        assert (walk links t false (if startsWith target "/" then [] else cur) (components target ++ a) = Found R (IDir m)) as H'
          by (by destruct a).
        assert (forall follow b, b <> [] -> walk (S links) t' follow cur (c :: a ++ b) =
          walk links t' follow (if startsWith target "/" then [] else cur) ((components target ++ a) ++ b)) as Hstep.
        { intros follow b Hb. rewrite walk_cons, E1, E2, Ei', <- app_assoc. by destruct a, b, follow. }
        destruct (IHl links ltac:(lia) _ _ _ _ H') as [[l Hl]|[HB Hl]]; [left; exists l|right; split; [done|]]; intros follow b Hb;
          rewrite Hstep by done; by apply Hl.
Qed.

Lemma walk_through t links a cur R m : walk links t false cur a = Found R (IDir m) ->
  exists links', forall follow b, b <> [] -> walk links t follow cur (a ++ b) = walk links' t follow R b.
Proof. intros H. destruct (walk_blocked False t t ltac:(by left) links a cur R m H) as [H'|[[] _]]. exact H'. Qed.

Lemma walk_to_dir t : forall links a cur R m, walk links t false cur a = Found R (IDir m) -> is_dir t R.
Proof.
  induction links as [links IHl] using lt_wf_ind. induction a as [|c a IHa]; intros cur R m H.
  - rewrite walk_nil in H. destruct (at_path t cur) as [i|] eqn:E; [|done]. injection H as <- ->. by exists m.
  - rewrite walk_cons in H. destruct (_ || _); [by eapply IHa|]. destruct (_ === _); [by eapply IHa|].
    destruct (at_path t (cur ++ [c])) as [[]|]; try (by destruct a); [by eapply IHa|].
    destruct links; [by destruct a|]. destruct a; [done|]. eapply IHl, H. lia.
Qed.

(** A name in a directory. *)
Lemma locate_in t p D m c : locate t false p = Found D (IDir m) -> plain c ->
  locate t false (p ++ [c]) = (match at_path t (D ++ [c]) with Some i => Found (D ++ [c]) i | None => Free (D ++ [c]) end) /\
  match at_path t (D ++ [c]) with
  | None => locate t true (p ++ [c]) = Free (D ++ [c])
  | Some (ILink _ _) => True
  | Some i => locate t true (p ++ [c]) = Found (D ++ [c]) i
  end.
Proof.
  intros H Hc. destruct (walk_through t _ _ _ _ _ H) as [l Hl]. unfold locate.
  rewrite !Hl, !walk_plain by done. destruct (at_path t (D ++ [c])) as [[]|] eqn:E; rewrite ?walk_nil, ?E; done.
Qed.

(** More names do not change what is found. *)
Lemma walk_mono t t' : t ⊆ t' -> forall links follow todo cur p i,
  walk links t follow cur todo = Found p i -> walk links t' follow cur todo = Found p i.
Proof.
  intros Ht. assert (forall p i, at_path t p = Some i -> at_path t' p = Some i) as Hat.
  { intros [|c p] i H; [done|]. exact (lookup_weaken _ _ _ _ H Ht). }
  induction links as [links IHl] using lt_wf_ind. induction todo as [|c todo IH]; intros cur p i H.
  - rewrite walk_nil in *. destruct (at_path t cur) as [j|] eqn:E; [|done]. by rewrite (Hat _ _ E).
  - rewrite walk_cons in *. destruct (_ || _); [by apply IH|]. destruct (_ === _); [by apply IH|].
    destruct (at_path t (cur ++ [c])) as [j|] eqn:E; [|by destruct todo]. rewrite (Hat _ _ E).
    destruct j; try done; [by apply IH|]. destruct todo, follow; try done; (destruct links; [done|]); apply IHl; (lia || done).
Qed.

Lemma locate_mono t t' follow p q i : t ⊆ t' -> locate t follow p = Found q i -> locate t' follow p = Found q i.
Proof. intros Ht. by apply walk_mono. Qed.

(** ** Names given as text *)

Lemma removelast_plain l : Forall plain l -> Forall plain (removelast l).
Proof.
  induction l as [|c l IH]; [done|]. intros [Hc Hl]%list.Forall_cons. destruct l; [constructor|]. constructor; [done|]. by apply IH.
Qed.

Lemma normalize_plain l : Forall plain (normalize l).
Proof.
  unfold normalize. assert (forall acc, Forall plain acc -> Forall plain (fold_left (fun acc c =>
    if (c === ""%string) || (c === "."%string) then acc
    else if c === ".."%string then removelast acc else acc ++ [c]) l acc)) as H; [|by apply H].
  induction l as [|c l IH]; intros acc Hacc; cbn [fold_left]; [done|]. apply IH.
  destruct (_ || _) eqn:E1; [done|]. destruct (c === ".."%string) eqn:E2; [by apply removelast_plain|].
  apply Forall_app. split; [done|]. constructor; [|done]. bool_inv. done.
Qed.

Lemma safe_components_plain l p : safe_components l = Ok p -> Forall plain p.
Proof. unfold safe_components. intros H. result_inv. apply normalize_plain. Qed.

Lemma relative_app root p : relative root (root ++ p) = p.
Proof. induction root as [|c root IH]; cbn; [by destruct p|]. by rewrite bool_decide_eq_true_2. Qed.

Lemma within_root root : forall p, isWithinRoot root p = true -> exists rel, rel <> [] /\ p = root ++ rel.
Proof.
  unfold isWithinRoot. induction root as [|c root IH]; intros p H.
  - destruct p as [|d p]; [done|]. by exists (d :: p).
  - destruct p as [|d p]; cbn [relative] in H; [done|]. destruct (c === d) eqn:E; bool_inv.
    + subst. destruct (IH p H) as (rel & Hr & ->). by exists rel.
    + done.
Qed.

(** ** Effects *)

Lemma wp_change f Q s :
  Q (Err killed) s -> (forall b, Q (Ok tt) {| fs := f (fs s); budget := b |}) -> wp (effect f) Q s.
Proof. intros Hk Hok. unfold wp, effect. destruct (budget s) as [[|n]|]; cbn; auto. Qed.

Lemma wp_lstat_place p Q s : Q (Ok (locate (fs s) false p)) s -> wp (lstat_place p) Q s.
Proof. done. Qed.

Lemma wp_present p Q s : Q (Ok (match locate (fs s) true p with Found _ _ => true | _ => false end)) s -> wp (existsSync p) Q s.
Proof. done. Qed.

Lemma wp_lstatSync p Q s :
  Q (match locate (fs s) false p with Found _ i => Ok i | _ => Err system_error end) s -> wp (lstatSync p) Q s.
Proof. unfold wp, lstatSync, lstat_place, gets, mbind, M_bind. by destruct (locate (fs s) false p). Qed.

Section Confined.
Context {C : Crypto} (here : path) (umask : Z) (now : string) (full : bool).

(** What a tree becomes when directories are made: at [Q] and the first names of [rest] below it. *)
Definition grown (cp : bool) (t t' : tree) (Q rest : path) : Prop :=
  forall p, t' !! p = t !! p \/
    (cp = true /\ t !! p = None /\ (exists m, t' !! p = Some (IDir m)) /\
     exists k, (0 < k <= length rest)%nat /\ p = Q ++ take k rest).

Lemma grown_refl cp t Q rest : grown cp t t Q rest.
Proof using. by left. Qed.

Lemma grown_subseteq cp t t' Q rest : grown cp t t' Q rest -> t ⊆ t'.
Proof using.
  intros H. apply map_subseteq_spec. intros p i Hp. destruct (H p) as [->|(_ & Hn & _)]; [done|congruence].
Qed.

Lemma grown_cons cp t t' Q c rest : grown cp t t' (Q ++ [c]) rest -> grown cp t t' Q (c :: rest).
Proof using.
  intros H p. destruct (H p) as [->|(? & ? & ? & k & Hk & ->)]; [by left|]. right. split_and!; try done.
  exists (S k). split; [cbn; lia|]. cbn. by rewrite <- app_assoc.
Qed.

Lemma grown_make t t' Q c rest m : t !! (Q ++ [c]) = None ->
  grown true (<[Q ++ [c] := IDir m]> t) t' (Q ++ [c]) rest -> grown true t t' Q (c :: rest).
Proof using.
  intros Hn H p. destruct (H p) as [Hp|(_ & Hp & Hd & k & Hk & ->)].
  - rewrite Hp. destruct (decide (p = Q ++ [c])) as [->|Hne]; [|left; by rewrite lookup_insert_ne].
    right. rewrite lookup_insert_eq. split_and!; [done|done|by eexists|]. exists 1%nat. cbn. split; [lia|done].
  - right. split_and!; [done| |done|].
    + rewrite lookup_insert_ne in Hp; [done|]. intros Heq%(f_equal length). rewrite !length_app, length_take in Heq. cbn in Heq. lia.
    + exists (S k). split; [cbn; lia|]. cbn. by rewrite <- app_assoc.
Qed.

Lemma well_formed_make t Q c i : well_formed t -> is_dir t Q -> t !! (Q ++ [c]) = None -> well_formed (<[Q ++ [c] := i]> t).
Proof using.
  intros Hw HQ Hn p d H. assert (is_dir t p -> is_dir (<[Q ++ [c] := i]> t) p) as Hmono.
  { intros [m' Hm]. exists m'. destruct p as [|x p]; [done|]. cbn [at_path] in *. rewrite lookup_insert_ne; [done|]. congruence. }
  apply Hmono. destruct (decide (p ++ [d] = Q ++ [c])) as [[-> _]%app_inj_tail|Hne]; [done|].
  rewrite lookup_insert_ne in H by done. by apply (Hw p d).
Qed.

Lemma at_path_in t Q c : at_path t (Q ++ [c]) = t !! (Q ++ [c]).
Proof using. unfold at_path. by destruct Q. Qed.

(** The components below the root are directories when the check ends well; it makes no others. *)
Lemma check_components_spec cp rest : forall current Q m s, well_formed (fs s) ->
  locate (fs s) false current = Found Q (IDir m) -> is_dir (fs s) Q -> Forall plain rest ->
  wp (check_components umask now cp current rest) (fun r s' =>
    grown cp (fs s) (fs s') Q rest /\ well_formed (fs s') /\
    (r = Ok tt -> exists m', locate (fs s') false (current ++ rest) = Found (Q ++ rest) (IDir m') /\ is_dir (fs s') (Q ++ rest))) s.
Proof using.
  induction rest as [|c rest IH]; intros current Q m s Hw Hloc HQ Hp; cbn [check_components].
  { apply wp_ret. split; [apply grown_refl|]. split; [done|]. intros _. exists m. by rewrite !app_nil_r. }
  apply list.Forall_cons in Hp as [Hc Hp]. destruct (locate_in _ _ _ _ c Hloc Hc) as [Hl Hs].
  rewrite at_path_in in Hl, Hs. destruct (fs s !! (Q ++ [c])) as [i|] eqn:Ei.
  - assert (isDirectory i = true -> wp (check_components umask now cp (current ++ [c]) rest) (fun r s' =>
      grown cp (fs s) (fs s') Q (c :: rest) /\ well_formed (fs s') /\ (r = Ok tt -> exists m',
        locate (fs s') false (current ++ c :: rest) = Found (Q ++ c :: rest) (IDir m') /\ is_dir (fs s') (Q ++ c :: rest))) s) as Hgo.
    { intros Hi. destruct i as [|mi| |]; try done. eapply wp_mono.
      - by apply (IH (current ++ [c]) (Q ++ [c]) mi s Hw Hl); [exists mi; rewrite at_path_in|].
      - cbn beta. intros r s' (Hg & Hw' & Hr). rewrite <- !app_assoc in Hr. split_and!; [by apply grown_cons|done|done]. }
    apply wp_bind, wp_present. apply wp_bind.
    assert (forall b : bool, wp (if b then mret () else guardM cp parent_not_found;; mkdirSync (current ++ [c]) (Z.land 488 (Z.lnot umask)) now)
      (fun r s' => s' = s) s) as Hmk.
    { intros []; [done|]. apply wp_bind, wp_guardM; intros _; [|done]. apply wp_bind, wp_lstat_place. by rewrite Hl. }
    eapply wp_mono; [apply Hmk|]. cbn beta. intros [[]|e] s' ->; [|split_and!; [apply grown_refl|done|done]].
    apply wp_bind, wp_lstatSync. rewrite Hl. apply wp_bind, wp_guardM; [apply Hgo|].
    intros _. split_and!; [apply grown_refl|done|done].
  - apply wp_bind, wp_present. rewrite Hs. cbv iota beta. apply wp_bind, wp_bind, wp_guardM; intros Hcp.
    2: { split_and!; [apply grown_refl|done|done]. }
    apply wp_bind, wp_lstat_place. rewrite Hl. apply wp_change; [split_and!; [apply grown_refl|done|done]|].
    intros bu. set (md := {| m_mode := _ |}). set (t1 := <[Q ++ [c] := IDir md]> (fs s)).
    assert (locate t1 false (current ++ [c]) = Found (Q ++ [c]) (IDir md)) as Hl1.
    { assert (locate t1 false current = Found Q (IDir m)) as H by (eapply locate_mono, Hloc; by apply insert_subseteq).
      destruct (locate_in _ _ _ _ c H Hc) as [-> _]. unfold t1. by rewrite at_path_in, lookup_insert_eq. }
    apply wp_bind, wp_lstatSync. cbn [fs]. fold t1. rewrite Hl1. apply wp_bind, wp_guardM; intros Hd; [|done].
    eapply wp_mono.
    + apply (IH (current ++ [c]) (Q ++ [c]) md {| fs := t1; budget := bu |}); [by apply well_formed_make|done| |done].
      exists md. unfold t1. cbn [fs]. by rewrite at_path_in, lookup_insert_eq.
    + cbn beta. intros r s' (Hg & Hw' & Hr). rewrite <- !app_assoc in Hr. subst cp. split_and!; [|done|done].
      by eapply grown_make.
Qed.

(** *** Taking the place of a file *)

(** Nothing is below a name that is not a directory. *)
Lemma nothing_below t q : well_formed t -> q <> [] -> ~ is_dir t q -> forall y, y <> [] -> t !! (q ++ y) = None.
Proof using.
  intros Hw Hq Hd y. induction y as [|c y IH] using rev_ind; [done|]. intros _. rewrite app_assoc.
  destruct (t !! ((q ++ y) ++ [c])) eqn:E; [|done]. exfalso.
  destruct (Hw (q ++ y) c) as [m Hm]; [congruence|]. destruct y as [|d y]; [rewrite app_nil_r in Hm; by apply Hd; exists m|].
  assert (at_path t (q ++ d :: y) = t !! (q ++ d :: y)) as Heq by (by destruct q). by rewrite Heq, IH in Hm.
Qed.

Lemma under_eq q x : under q x = true <-> exists y, x = q ++ y.
Proof using.
  unfold under. rewrite bool_decide_eq_true. split; [|intros [y ->]; by rewrite take_app_length].
  intros H. exists (drop (length q) x). by rewrite <- H at 1; rewrite take_drop.
Qed.

Lemma rename_lookup t q r i x : well_formed t -> q <> [] -> r <> [] -> q <> r -> t !! q = Some i -> isDirectory i = false -> ~ is_dir t r ->
  (moved q r t ∪ without q (without r t)) !! x = if decide (x = r) then Some i else if decide (x = q) then None else t !! x.
Proof using.
  intros Hw Hq Hr Hne Ht Hi Hdr.
  assert (~ is_dir t q) as Hdq.
  { intros [m Hm]. destruct q; [done|]. cbn [at_path] in Hm. rewrite Ht in Hm. injection Hm as ->. done. }
  pose proof (nothing_below t q Hw Hq Hdq) as Hbq. pose proof (nothing_below t r Hw Hr Hdr) as Hbr.
  assert (forall p, t !! p <> None -> (under q p = true <-> p = q) /\ (under r p = true <-> p = r)) as Hu.
  { intros p Hp. rewrite !under_eq. split; (split; [intros [y ->]|intros ->; exists []; by rewrite app_nil_r]).
    - destruct y; [by rewrite app_nil_r|]. by rewrite Hbq in Hp.
    - destruct y; [by rewrite app_nil_r|]. by rewrite Hbr in Hp. }
  assert (moved q r t = {[r := i]}) as ->.
  { unfold moved. assert (subtree q t = {[q := i]}) as ->.
    - apply map_eq. intros p. apply option_eq. intros j. unfold subtree. rewrite map_lookup_filter_Some, lookup_singleton_Some. cbn.
      split; [|intros [<- <-]; split; [done|]; apply (Hu q); [congruence|done]].
      intros [Hj Hp]. apply (Hu p) in Hp; [|congruence]. subst p. split; congruence.
    - rewrite kmap_singleton. by rewrite drop_all, app_nil_r. }
  destruct (decide (x = r)) as [->|Hxr]; [by rewrite lookup_union, lookup_singleton_eq, union_Some_l|].
  rewrite lookup_union, lookup_singleton_ne by done. rewrite (left_id_L None _). unfold without.
  destruct (decide (x = q)) as [->|Hxq]; apply option_eq; intros j; rewrite !map_lookup_filter_Some; cbn.
  - split; [|done]. intros [_ Hn]. rewrite (proj2 (proj1 (Hu q ltac:(congruence)))) in Hn; done.
  - split; [by intros [[? _] _]|]. intros Hj. destruct (Hu x ltac:(congruence)) as [H1 H2].
    split; [split; [done|]|]; apply not_true_iff_false; [by rewrite H2|by rewrite H1].
Qed.

(** What an examination of the target says. *)
Definition examined (t : tree) (r : path) (o : option (string * inode)) : Prop :=
  match o with
  | Some (h, i) => exists c m, i = IFile c m /\ t !! r = Some i /\ h = hash c
  | None => t !! r = None \/ exists target m, t !! r = Some (ILink target m)
  end.

Lemma examine_spec parent D m base s : locate (fs s) false parent = Found D (IDir m) -> plain base ->
  wp (examine (parent ++ [base])) (fun r s' => s' = s /\ r <> Err killed /\ forall o, r = Ok o -> examined (fs s) (D ++ [base]) o) s.
Proof using.
  intros Hloc Hb. destruct (locate_in _ _ _ _ base Hloc Hb) as [Hl Hs]. rewrite at_path_in in Hl, Hs.
  unfold examine. apply wp_bind, wp_present. cbv beta iota.
  destruct (fs s !! (D ++ [base])) as [i|] eqn:Ei.
  - destruct (match locate (fs s) true (parent ++ [base]) with Found _ _ => true | _ => false end) eqn:Eex; cbn [negb].
    + apply wp_bind, wp_lstatSync. rewrite Hl. apply wp_bind, wp_guardM; intros Hi; [|by split_and!].
      destruct i as [c mi| | |]; try done. unfold wp, sha256File, readFileSync, stat_place, gets, mbind, M_bind. rewrite Hs. cbn.
      split_and!; [done|done|]. intros o [= <-]. exists c, mi. by rewrite Ei.
    + apply wp_ret. split_and!; [done|done|]. intros o [= <-]. cbn. rewrite Ei. destruct i; rewrite ?Hs in Eex; try done.
      right. by eexists _, _.
  - rewrite Hs. cbn [negb]. apply wp_ret. split_and!; [done|done|]. intros o [= <-]. cbn. rewrite Ei. by left.
Qed.

Section Write.
Context (parent D : path) (md : Meta) (base tmp : string) (t : tree) (data : buffer).
Abbreviation q := (D ++ [tmp]).
Abbreviation r := (D ++ [base]).
Hypothesis Hparent : locate t false parent = Found D (IDir md).
Hypothesis Hnames : plain base /\ plain tmp /\ tmp <> base.
Hypothesis Hwell : well_formed t.
Hypothesis Hfile : ~ is_dir t r.

Lemma q_not_r : q <> r.
Proof using Hnames. intros [_ ?]%app_inj_tail. by destruct Hnames as (_ & _ & ?). Qed.

(** What writing and renaming may leave: the tree it found; with a temporary file; or with the new one. *)
Inductive stage : result file_error unit -> tree -> Prop :=
| untouched e : stage (Err e) t
| temporary_file e c m : t !! q = None -> stage (Err e) (<[q := IFile c m]> t)
| in_place m : t !! q = None -> stage (Ok tt) (<[r := IFile data m]> t).

Lemma put_temporary c m c' m' : <[q := IFile c m]> (<[q := IFile c' m']> t) = <[q := IFile c m]> t.
Proof using. apply insert_insert_eq. Qed.

Lemma rename_stage m b : t !! q = None ->
  wp (renameSync (parent ++ [tmp]) (parent ++ [base])) (fun res s' => stage res (fs s'))
    {| fs := <[q := IFile data m]> t; budget := b |}.
Proof using Hparent Hnames Hwell Hfile.
  intros Hq. set (t1 := <[q := IFile data m]> t). destruct Hnames as (Hbase & Htmp & Hne). pose proof q_not_r as Hqr.
  assert (locate t1 false parent = Found D (IDir md)) as Hp1 by (eapply locate_mono, Hparent; by apply insert_subseteq).
  destruct (locate_in _ _ _ _ tmp Hp1 Htmp) as [Hltmp _]. destruct (locate_in _ _ _ _ base Hp1 Hbase) as [Hlbase _].
  rewrite at_path_in in Hltmp, Hlbase. unfold t1 in Hltmp at 2. rewrite lookup_insert_eq in Hltmp.
  unfold t1 in Hlbase at 2. rewrite lookup_insert_ne in Hlbase by done.
  assert (moved q r t1 ∪ without q (without r t1) = <[r := IFile data m]> t) as Hmoved.
  { apply map_eq. intros x. rewrite (rename_lookup t1 q r (IFile data m)); [..|done|].
    - unfold t1. destruct (decide (x = r)) as [->|Hr]; [by rewrite lookup_insert_eq|rewrite (lookup_insert_ne t r) by done].
      destruct (decide (x = q)) as [->|Hx]; [done|by rewrite lookup_insert_ne].
    - apply well_formed_make; [done|by eapply walk_to_dir|done].
    - by destruct D.
    - by destruct D.
    - done.
    - unfold t1. by rewrite lookup_insert_eq.
    - intros [mr Hr]. apply Hfile. exists mr. rewrite at_path_in in *. unfold t1 in Hr. by rewrite lookup_insert_ne in Hr. }
  assert (wp (effect (fun t => moved q r t ∪ without q (without r t))) (fun res s' => stage res (fs s')) {| fs := t1; budget := b |})
    as Heff.
  { apply wp_change; [by constructor|]. intros b'. cbn [fs]. rewrite Hmoved. by constructor. }
  unfold renameSync. apply wp_bind, wp_gets. cbn [fs]. fold t1. rewrite Hltmp, Hlbase.
  destruct (t !! r) as [j|] eqn:Ej.
  - rewrite bool_decide_eq_false_2 by done. cbn [isDirectory andb]. destruct (isDirectory j) eqn:Hj; cbn [negb]; [|exact Heff].
    apply wp_throw. by constructor.
  - rewrite bool_decide_eq_false_2 by done. cbn [isDirectory andb]. exact Heff.
Qed.

Lemma write_stage torn preserve previous b :
  wp (write_and_rename umask now full (parent ++ [tmp]) (parent ++ [base]) data torn preserve previous)
    (fun res s' => stage res (fs s')) {| fs := t; budget := b |}.
Proof using Hparent Hnames Hwell Hfile.
  destruct Hnames as (Hbase & Htmp & Hne). destruct (locate_in _ _ _ _ tmp Hparent Htmp) as [Hltmp _]. rewrite at_path_in in Hltmp.
  unfold write_and_rename. cbv zeta. apply wp_bind, wp_lstat_place. cbn [fs]. rewrite Hltmp.
  destruct (t !! q) eqn:Hq; [apply wp_throw; constructor|].
  apply wp_bind, wp_change; [constructor|]. intros b1. cbn [fs]. apply wp_bind, wp_change; [by constructor|]. intros b2. cbn [fs].
  rewrite put_temporary. apply wp_bind, wp_guardM; intros Hfull; [|by constructor].
  apply wp_bind, wp_change; [by constructor|]. intros b3. cbn [fs]. rewrite put_temporary.
  apply wp_bind. destruct previous as [[h i]|]; [destruct preserve|]; try by apply wp_ret, rename_stage.
  apply wp_bind, wp_change; [by constructor|]. intros b4. cbn [fs]. rewrite put_temporary.
  apply wp_change; [by constructor|]. intros b5. cbn [fs]. rewrite put_temporary. by apply rename_stage.
Qed.

Lemma in_place_blocks m t' : <[r := IFile data m]> t = t' -> blocks True t t'.
Proof using.
  intros <- p i Hp _. destruct (decide (p = r)) as [->|Hpr].
  - right. split; [done|]. exists data, m. by rewrite at_path_in, lookup_insert_eq.
  - left. destruct p; [done|]. cbn [at_path] in *. by rewrite lookup_insert_ne.
Qed.

(** The temporary name after a stage: it is removed, if the process is not killed. *)
Lemma cleanup_stage res s : stage res (fs s) ->
  wp (remove_temporary (parent ++ [tmp])) (fun r' s' =>
    (fs s' = fs s \/ fs s' = delete q (fs s)) /\
    (r' <> Err killed -> fs s' !! q = None \/ fs s' !! q = t !! q)) s.
Proof using Hparent Hnames.
  intros Hst. destruct Hnames as (Hbase & Htmp & Hne). pose proof q_not_r as Hqr.
  unfold remove_temporary. apply wp_bind, wp_present. cbv beta iota.
  assert (locate (fs s) false parent = Found D (IDir md) -> (exists e c m, res = Err e /\ fs s !! q = Some (IFile c m)) \/ fs s !! q = t !! q ->
    wp (if match locate (fs s) true (parent ++ [tmp]) with Found _ _ => true | _ => false end
        then unlinkSync (parent ++ [tmp]) else mret ()) (fun r' s' =>
      (fs s' = fs s \/ fs s' = delete q (fs s)) /\ (r' <> Err killed -> fs s' !! q = None \/ fs s' !! q = t !! q)) s) as Hgo.
  { intros Hp Hq. destruct (locate_in _ _ _ _ tmp Hp Htmp) as [Hl Hf]. rewrite at_path_in in Hl, Hf.
    destruct (match locate (fs s) true (parent ++ [tmp]) with Found _ _ => true | _ => false end) eqn:Eex.
    - unfold unlinkSync. apply wp_bind, wp_lstat_place. rewrite Hl. destruct (fs s !! q) as [i|] eqn:Ei.
      + destruct (isDirectory i) eqn:Ed.
        * apply wp_throw. split; [by left|]. intros _. right. destruct Hq as [(e & c & m & _ & [= ->])|Hq]; [done|]. by rewrite Ei.
        * apply wp_change; [by split; [left|]|]. intros b. cbn [fs]. split; [by right|]. intros _. left. apply lookup_delete_eq.
      + apply wp_throw. split; [by left|]. intros _. by left.
    - apply wp_ret. split; [by left|]. intros _. destruct Hq as [(e & c & m & _ & Ei)|Hq]; [|by right].
      rewrite Ei in Hf. by rewrite Hf in Eex. }
  inversion Hst as [e He Hfs|e c m Hq He Hfs|m Hq He Hfs].
  - rewrite <- Hfs in Hgo |- *. apply Hgo; [done|by right].
  - assert (t ⊆ fs s) as Hsub by (rewrite <- Hfs; by apply insert_subseteq).
    rewrite Hfs. apply Hgo; [exact (locate_mono _ _ _ _ _ _ Hsub Hparent)|]. left. exists e, c, m. by rewrite <- Hfs, lookup_insert_eq.
  - rewrite Hfs. destruct (walk_blocked True t (fs s) (in_place_blocks m _ Hfs) MAX_LINKS parent [] D md Hparent) as [[l Hl]|[_ Hl]].
    + unfold locate. rewrite Hl by done. rewrite walk_plain by done. rewrite at_path_in, <- Hfs.
      rewrite lookup_insert_ne by done. rewrite Hq. apply wp_ret. split; [by left|]. intros _. left. by rewrite <- Hfs, lookup_insert_ne.
    + unfold locate. rewrite Hl by done. apply wp_ret. split; [by left|]. intros _. left. by rewrite <- Hfs, lookup_insert_ne.
Qed.

(** Only the two names may have changed after a stage and the cleaning. *)
Lemma stage_changes res t2 t3 : stage res t2 -> t3 = t2 \/ t3 = delete q t2 ->
  (forall x, x <> q -> x <> r -> t3 !! x = t !! x) /\ (t3 !! r = t !! r \/ exists m, t3 !! r = Some (IFile data m)).
Proof using Hnames.
  intros Hst Ht3. pose proof q_not_r as Hqr.
  assert ((forall x, x <> q -> t3 !! x = t2 !! x)) as H3 by (intros x Hx; destruct Ht3 as [-> | ->]; [done|by rewrite lookup_delete_ne]).
  rewrite (H3 r) by done. destruct Hst as [e|e c m Hq|m Hq].
  - split; [|by left]. intros x Hx _. by apply H3.
  - rewrite lookup_insert_ne by done. split; [|by left]. intros x Hx _. by rewrite H3, lookup_insert_ne.
  - rewrite lookup_insert_eq. split; [|right; by exists m]. intros x Hx Hxr. by rewrite H3, lookup_insert_ne.
Qed.

(** Reading the target back after the new file took its place. *)
Lemma read_back m s : fs s = <[r := IFile data m]> t ->
  wp (sha256File (parent ++ [base])) (fun res s' => s' = s /\ res <> Err killed /\ forall h, res = Ok h -> h = hash data) s.
Proof using Hparent Hnames.
  intros Hfs. destruct Hnames as (Hbase & _ & _). unfold wp, sha256File, readFileSync, stat_place, gets, mbind, M_bind.
  assert (locate (fs s) true (parent ++ [base]) = Found r (IFile data m) \/ locate (fs s) true (parent ++ [base]) = Nowhere false)
    as [-> | ->]; [|cbn; by split_and!; try intros ? [= <-]..].
  unfold locate. destruct (walk_blocked True t (fs s) (in_place_blocks m _ (eq_sym Hfs)) MAX_LINKS parent [] D md Hparent)
    as [[l Hl]|[_ Hl]]; rewrite Hl by done; [left|by right].
  rewrite walk_plain by done. by rewrite at_path_in, Hfs, lookup_insert_eq.
Qed.
End Write.

Lemma wp_try_finally {X} (m : FM X) h Q s :
  wp m (fun r1 s1 => wp h (fun r2 s2 => match r2 with Ok _ => Q r1 s2 | Err e => Q (Err e) s2 end) s1) s -> wp (try_finally m h) Q s.
Proof using.
  unfold wp, try_finally. destruct (m s) as [r1 s1]. cbn. by destruct (h s1) as [[] s2].
Qed.

Lemma temporary_plain base uuid : plain (temporary_name base uuid) /\ temporary_name base uuid <> base.
Proof using.
  assert (String.length base + 17 <= String.length (temporary_name base uuid))%nat as H.
  { unfold temporary_name. rewrite <- !length_chars, !chars_app, !length_app. cbn. lia. }
  unfold plain. split_and!; intros Heq; rewrite Heq in H; cbn in H; lia.
Qed.

(** What [replace] may have changed in a tree [t], which is now [t']: [res] is how it ended. *)
Record Replacement (uuid : string) (payload : FileReplacePayload) (t t' : tree) (res : result file_error Replaced)
    (R rel : path) : Prop := {
  re_root : exists rt m, assertSafePath here (root payload) = Ok rt /\ locate t false rt = Found R (IDir m) /\
    target_under here rt payload = Ok (rt ++ rel) /\ rel <> [];
  re_changes : forall x, t' !! x <> t !! x -> exists y, x = R ++ y /\
    ((exists k, (0 < k < length rel)%nat /\ y = take k rel /\ createParents payload = Some true /\ t !! x = None /\
        exists m, t' !! x = Some (IDir m)) \/
     (y = rel /\ exists m, t' !! x = Some (IFile (decodeData (data payload) (data_encoding payload)) m)) \/
     (y = removelast rel ++ [temporary_name (default ""%string (last rel)) uuid] /\ (res = Err killed \/ t' !! x = None)));
  re_ok : forall x, res = Ok x ->
    (exists m, t' !! (R ++ rel) = Some (IFile (decodeData (data payload) (data_encoding payload)) m)) /\
    rp_sha256 x = hash (decodeData (data payload) (data_encoding payload)) /\
    (forall h, given (expectedSha256 payload) = Some h -> exists c m, t !! (R ++ rel) = Some (IFile c m) /\ hash c = h) /\
    (expectedAbsent payload = true -> forall c m, t !! (R ++ rel) <> Some (IFile c m))
}.

Lemma split_last (rel : path) : rel <> [] -> rel = removelast rel ++ [default ""%string (last rel)].
Proof using.
  intros H. destruct rel as [|c rel _] using rev_ind; [done|]. by rewrite removelast_last, last_snoc.
Qed.

Lemma take_removelast k (rel : path) : (k <= length (removelast rel))%nat -> take k (removelast rel) = take k rel.
Proof using.
  intros Hk. destruct rel as [|c rel _] using rev_ind; [done|]. rewrite removelast_last in *. by rewrite take_app_le.
Qed.

Lemma length_removelast (rel : path) : rel <> [] -> (length (removelast rel) < length rel)%nat.
Proof using.
  intros H. rewrite (split_last rel H) at 2. rewrite length_app. cbn. lia.
Qed.

(** The changes, from those of the parents and those in the directory of the target. *)
Lemma changes_of (cp : bool) (t t1 t' : tree) (R rel : path) (tmp : string) (data : buffer) (killed_ : Prop) : rel <> [] -> grown cp t t1 R (removelast rel) ->
  let q := (R ++ removelast rel) ++ [tmp] in let r := R ++ rel in
  (forall x, x <> q -> x <> r -> t' !! x = t1 !! x) ->
  (t' !! r = t1 !! r \/ exists m, t' !! r = Some (IFile data m)) ->
  (killed_ \/ t' !! q = None \/ t' !! q = t1 !! q) ->
  forall x, t' !! x <> t !! x -> exists y, x = R ++ y /\
    ((exists k, (0 < k < length rel)%nat /\ y = take k rel /\ cp = true /\ t !! x = None /\ exists m, t' !! x = Some (IDir m)) \/
     (y = rel /\ exists m, t' !! x = Some (IFile data m)) \/
     (y = removelast rel ++ [tmp] /\ (killed_ \/ t' !! x = None))).
Proof using.
  intros Hrel Hg q r Hother Hr Hq x Hx.
  assert (t' !! x = t1 !! x -> exists y, x = R ++ y /\
    (exists k, (0 < k < length rel)%nat /\ y = take k rel /\ cp = true /\ t !! x = None /\ exists m, t' !! x = Some (IDir m))) as Hsame.
  { intros Heq. rewrite Heq in *. destruct (Hg x) as [?|(Hcp & Hn & Hd & k & Hk & ->)]; [done|].
    eexists. split; [done|]. exists k. pose proof (length_removelast rel Hrel). split_and!; try done; [lia..|]. apply take_removelast. lia. }
  destruct (decide (x = r)) as [->|Hxr]; [|destruct (decide (x = q)) as [->|Hxq]].
  - destruct Hr as [Hr|Hr]; [destruct (Hsame Hr) as (y & ? & ?); exists y; auto|]. exists rel. auto.
  - destruct Hq as [Hq|[Hq|Hq]]; [| |destruct (Hsame Hq) as (y & ? & ?); exists y; auto];
      (exists (removelast rel ++ [tmp]); split; [by unfold q; rewrite app_assoc|]; auto).
  - destruct (Hsame (Hother x Hxq Hxr)) as (y & ? & ?). exists y. auto.
Qed.

(** A run that failed: the parents were made, and in the directory of the target only the two names may
    have changed. *)
Lemma failed_replacement uuid payload t t1 t' rt R rel m e :
  let q := (R ++ removelast rel) ++ [temporary_name (default ""%string (last rel)) uuid] in
  let b := decodeData (data payload) (data_encoding payload) in
  assertSafePath here (root payload) = Ok rt -> locate t false rt = Found R (IDir m) ->
  target_under here rt payload = Ok (rt ++ rel) -> rel <> [] ->
  grown (default false (createParents payload)) t t1 R (removelast rel) ->
  (forall x, x <> q -> x <> R ++ rel -> t' !! x = t1 !! x) ->
  (t' !! (R ++ rel) = t1 !! (R ++ rel) \/ exists m, t' !! (R ++ rel) = Some (IFile b m)) ->
  (e = killed \/ t' !! q = None \/ t' !! q = t1 !! q) ->
  Replacement uuid payload t t' (Err e) R rel.
Proof using.
  intros q b Hrt Hroot Htarget Hrel Hg H1 H2 H3. split; [by exists rt, m| |done]. intros x Hx.
  destruct (changes_of _ t t1 t' R rel _ b (e = killed) Hrel Hg H1 H2 H3 x Hx) as (y & -> & Hy).
  exists y. split; [done|]. destruct Hy as [(k & Hk & Hy & Hcp & Hn & Hd)|[Hy|(Hy & Hkd)]]; [left; exists k|by right; left|right; right].
  - split_and!; try done; [lia|lia|]. by destruct (createParents payload) as [[]|].
  - split; [done|]. destruct Hkd as [->|?]; auto.
Qed.

(** What happens in the directory of the target, once that is a directory. *)
Lemma replace_at_spec uuid torn payload t rt R rel m D_parent m1 s1 :
  assertSafePath here (root payload) = Ok rt -> locate t false rt = Found R (IDir m) ->
  target_under here rt payload = Ok (rt ++ rel) -> rel <> [] -> Forall plain rel ->
  grown (default false (createParents payload)) t (fs s1) R (removelast rel) -> well_formed (fs s1) ->
  D_parent = R ++ removelast rel -> locate (fs s1) false (rt ++ removelast rel) = Found D_parent (IDir m1) ->
  wp (replace_at umask now full uuid torn payload (rt ++ removelast rel) (rt ++ rel))
    (fun res s' => Replacement uuid payload t (fs s') res R rel) s1.
Proof using.
  intros Hrt Hroot Htarget Hrel Hplain Hg Hw1 -> Hparent.
  pose proof (split_last rel Hrel) as Hsplit. set (base := default ""%string (last rel)) in *.
  rewrite Hsplit in Hplain. apply Forall_app in Hplain as [_ [Hbase _]%list.Forall_cons].
  destruct (temporary_plain base uuid) as [Htmp Hne]. set (tmp := temporary_name base uuid) in *.
  set (D := R ++ removelast rel) in *. set (parent := rt ++ removelast rel) in *.
  assert (rt ++ rel = parent ++ [base]) as -> by (unfold parent; by rewrite <- app_assoc, <- Hsplit).
  assert (R ++ rel = D ++ [base]) as Er by (unfold D; by rewrite <- app_assoc, <- Hsplit).
  set (b := decodeData (data payload) (data_encoding payload)).
  assert (t !! (D ++ [base]) = fs s1 !! (D ++ [base])) as Hold.
  { destruct (Hg (D ++ [base])) as [?|(_ & _ & _ & k & Hk & Heq)]; [done|]. exfalso. rewrite <- Er in Heq. apply app_inv_head in Heq.
    apply (f_equal length) in Heq. rewrite length_take in Heq. pose proof (length_removelast rel Hrel). lia. }
  (** A failure. *)
  assert (forall e t', (forall x, x <> D ++ [tmp] -> x <> D ++ [base] -> t' !! x = fs s1 !! x) ->
    (t' !! (D ++ [base]) = fs s1 !! (D ++ [base]) \/ exists m, t' !! (D ++ [base]) = Some (IFile b m)) ->
    (e = killed \/ t' !! (D ++ [tmp]) = None \/ t' !! (D ++ [tmp]) = fs s1 !! (D ++ [tmp])) ->
    Replacement uuid payload t t' (Err e) R rel) as Hfail.
  { intros e t' H1 H2 H3. rewrite <- Er in H1, H2. by eapply failed_replacement. }
  unfold replace_at. apply wp_bind. eapply wp_mono; [by eapply examine_spec|]. cbn beta. intros [previous|e] s' (-> & Hk & Hex).
  2: { apply Hfail; auto. }
  specialize (Hex _ eq_refl).
  apply wp_bind, wp_guardM; intros Habsent; [|by apply Hfail; auto].
  apply wp_bind, wp_guardM; intros Hexpected; [|by apply Hfail; auto].
  cbv zeta. rewrite last_snoc. cbn [default from_option]. fold b. change (temporary_name (id base) uuid) with tmp.
  apply wp_bind, wp_try_finally. destruct s1 as [t1 b1]. cbn [fs] in *.
  assert (~ is_dir t1 (D ++ [base])) as Hfile.
  { intros [mr Hr]. rewrite at_path_in in Hr. destruct previous as [[h i]|]; cbn [examined] in Hex.
    - destruct Hex as (c & mc & -> & Hi & _). congruence.
    - destruct Hex as [Hi|(? & ? & Hi)]; congruence. }
  eapply wp_mono; [by apply (write_stage parent D m1 base tmp t1 b)|]. cbn beta. intros r1 s2 Hst.
  eapply wp_mono; [by apply (cleanup_stage parent D m1 base tmp t1 b Hparent) with r1|]. cbn beta. intros r2 s3 [Hfs3 Hq3].
  destruct (stage_changes D base tmp t1 b (conj Hbase (conj Htmp Hne)) r1 (fs s2) (fs s3) Hst Hfs3) as [Hother Hr].
  destruct r2 as [[]|e2]; [destruct r1 as [[]|e1]|].
  2: { apply Hfail; [done|done|]. right. by apply Hq3. }
  2: { apply Hfail; [done|done|]. destruct (decide (e2 = killed)) as [->|He]; [by left|right]. apply Hq3. congruence. }
  inversion Hst as [| |m2 Hq Hok Hfs2].
  assert (fs s3 = <[D ++ [base] := IFile b m2]> t1) as Hin.
  { rewrite Hfs2. destruct Hfs3 as [->|Hd]; [done|]. rewrite Hd, delete_id; [done|]. rewrite <- Hfs2.
    rewrite lookup_insert_ne; [done|]. intros [_ ?]%app_inj_tail. congruence. }
  apply wp_bind. eapply wp_mono; [by apply (read_back parent D m1 base tmp t1 b Hparent) with m2|]. cbn beta.
  intros [h|e] s4 (-> & Hk4 & Hh); [|by apply Hfail; auto]. apply wp_ret.
  assert (exists m, fs s3 !! (R ++ rel) = Some (IFile b m)) as Htgt by (exists m2; by rewrite Hin, Er, lookup_insert_eq).
  specialize (Hfail system_error (fs s3) Hother Hr ltac:(right; by apply Hq3)).
  split; [by exists rt, m| |].
  - intros x Hx. destruct (re_changes _ _ _ _ _ _ _ Hfail x Hx) as (y & -> & Hy). exists y. split; [done|].
    destruct Hy as [?|[?|(? & [?|?])]]; auto. done.
  - intros x [= <-]. cbn [rp_sha256]. split_and!; [done|by apply Hh| |].
    + intros h0 Hh0. rewrite Hh0 in Hexpected. destruct previous as [[h' i]|]; [|done]. cbn [examined] in Hex. bool_inv.
      destruct Hex as (c & mc & -> & Hi & ->). exists c, mc. rewrite Er, Hold. by split.
    + intros Habs c mc Hc. rewrite Er, Hold in Hc. destruct previous as [[h' i]|]; cbn [examined] in Hex.
      * by rewrite Habs in Habsent.
      * destruct Hex as [Hi|(? & ? & Hi)]; congruence.
Qed.


Lemma replace_spec uuid torn payload s : well_formed (fs s) ->
  wp (replace here umask now full uuid torn payload) (fun res s' =>
    (fs s' = fs s /\ forall x, res <> Ok x) \/ exists R rel, Replacement uuid payload (fs s) (fs s') res R rel) s.
Proof using.
  intros Hw. unfold replace.
  do 2 (apply wp_bind, wp_guardM; intros _; [|by left]).
  apply wp_bind, wp_lift; [intros rt Hrt|by left]. apply wp_bind, wp_lift; [intros p Hp|by left].
  apply wp_bind, wp_guardM; [intros Hin|by left].
  apply within_root in Hin as (rel & Hrel & ->).
  assert (Forall plain (rt ++ rel)) as Hplain.
  { unfold target_under, assertSafePath in Hp. destruct (isAbsolute _); by eapply safe_components_plain. }
  apply Forall_app in Hplain as [_ Hplain].
  pose proof (split_last rel Hrel) as Hsplit. set (base := default ""%string (last rel)) in *.
  rewrite Hsplit in Hplain. apply Forall_app in Hplain as [Hdirs [Hbase _]%list.Forall_cons].
  rewrite removelast_app by done. cbv zeta. unfold assertNoSymlinkComponents.
  apply wp_bind, wp_bind, wp_lstatSync.
  destruct (locate (fs s) false rt) as [R i| |] eqn:Hroot; [|by left|by left].
  apply wp_bind, wp_guardM; intros Hi; [|by left]. destruct i as [|m| |]; try done. rewrite relative_app.
  assert (forall e t1, grown (default false (createParents payload)) (fs s) t1 R (removelast rel) -> Replacement uuid payload (fs s) t1 (Err e) R rel) as Hfail
    by (intros e t1 Hg; eapply (failed_replacement _ _ _ t1); eauto).
  eapply wp_mono; [eapply (check_components_spec _ (removelast rel) rt R m s Hw Hroot); [by eapply walk_to_dir|done]|].
  cbn beta. intros [[]|e] s1 (Hg & Hw1 & Hr); [|right; exists R, rel; by apply Hfail].
  destruct (Hr eq_refl) as (m1 & Hparent & _). eapply wp_mono.
  - eapply (replace_at_spec uuid torn payload (fs s) rt R rel m _ m1 s1); try done. rewrite Hsplit. by apply Forall_app_2; [|constructor].
  - cbn beta. intros res s' H. right. by exists R, rel.
Qed.

(** C18: Replacing a file is confined and atomic.  In any file system, whatever the request, wherever the
    process is killed and however much of a file a full disk takes: either nothing changes, or the root is
    a directory and every change is strictly below it: directories on the way to the target that were
    missing and asked for, the target, which then has the whole of the new content, and the temporary file,
    which is left behind only by a kill. *)
Theorem replace_confined (uuid : string) (torn : nat) (payload : FileReplacePayload) (s : Process) :
  well_formed (fs s) ->
  let (res, s') := replace here umask now full uuid torn payload s in
  fs s' = fs s \/
  exists rt R rel m, assertSafePath here (root payload) = Ok rt /\ locate (fs s) false rt = Found R (IDir m) /\
    target_under here rt payload = Ok (rt ++ rel) /\
    forall x, fs s' !! x <> fs s !! x -> exists y, x = R ++ y /\
      ((exists k, (0 < k < length rel)%nat /\ y = take k rel /\ createParents payload = Some true /\ fs s !! x = None /\
          exists m, fs s' !! x = Some (IDir m)) \/
       (y = rel /\ exists m, fs s' !! x = Some (IFile (decodeData (data payload) (data_encoding payload)) m)) \/
       (y = removelast rel ++ [temporary_name (default ""%string (last rel)) uuid] /\
          (res = Err killed \/ fs s' !! x = None))).
Proof using.
  intros Hw. pose proof (replace_spec uuid torn payload s Hw) as H. unfold wp in H.
  destruct (replace _ _ _ _ _ _ _ s) as [res s']. destruct H as [[H _]|(R & rel & [(rt & m & ? & ? & ? & ?) Hc _])]; [by left|].
  right. by exists rt, R, rel, m.
Qed.

(** C19: A replacement that is reported happened, under the conditions that were asked: the target is a file
    with exactly the new content, whose digest is returned; before, it was a file with the expected digest,
    if one was given, and no file, if that was asked. *)
Theorem replace_outcome (uuid : string) (torn : nat) (payload : FileReplacePayload) (s s' : Process) (x : Replaced) :
  well_formed (fs s) -> replace here umask now full uuid torn payload s = (Ok x, s') ->
  let b := decodeData (data payload) (data_encoding payload) in
  exists rt R rel m, assertSafePath here (root payload) = Ok rt /\ locate (fs s) false rt = Found R (IDir m) /\ rel <> [] /\
    target_under here rt payload = Ok (rt ++ rel) /\
    (exists m, fs s' !! (R ++ rel) = Some (IFile b m)) /\ rp_sha256 x = hash b /\
    (forall h, given (expectedSha256 payload) = Some h -> exists c m, fs s !! (R ++ rel) = Some (IFile c m) /\ hash c = h) /\
    (expectedAbsent payload = true -> forall c m, fs s !! (R ++ rel) <> Some (IFile c m)).
Proof using.
  intros Hw E. pose proof (replace_spec uuid torn payload s Hw) as H. unfold wp in H. rewrite E in H.
  destruct H as [[_ H]|(R & rel & [(rt & m & ? & ? & ? & ?) _ Hok])]; [by destruct (H x)|].
  destruct (Hok x eq_refl) as (? & ? & ? & ?). by exists rt, R, rel, m.
Qed.
End Confined.

(** ** Listings *)

Section Listing.
Context {Dir : Directory} (t : tree) (recursive : bool) (maxDepth maxEntries : Z).
Abbreviation listing := (list Entry * bool)%type.

Lemma child_of_Some q kv name i : child_of q kv = Some (name, i) <-> kv = (q ++ [name], i).
Proof using.
  unfold child_of. destruct kv as [p j]. cbn. destruct (last p) as [n|] eqn:E.
  - case_bool_decide as Hp.
    + subst p. split; [by intros [= <- <-]|]. intros [= H ->]. by apply app_inj_tail in H as [_ ->].
    + split; [done|]. intros [= -> ->]. rewrite last_snoc in E. congruence.
  - split; [done|]. intros [= -> ->]. by rewrite last_snoc in E.
Qed.

Lemma readdir_children q name i : (name, i) ∈ readdir (children t q) <-> t !! (q ++ [name]) = Some i.
Proof using.
  rewrite readdir_entries, elem_of_map_to_list. unfold children. rewrite <- elem_of_list_to_map.
  - rewrite list_elem_of_omap. setoid_rewrite child_of_Some. split.
    + intros (kv & Hin & ->). by apply elem_of_map_to_list.
    + intros H. exists (q ++ [name], i). split; [by apply elem_of_map_to_list|done].
  - pose proof (NoDup_fst_map_to_list t) as Hnd. induction (map_to_list t) as [|kv l IH]; cbn; [constructor|].
    apply NoDup_cons in Hnd as [Hnew Hnd]. specialize (IH Hnd). destruct (child_of q kv) as [[n j]|] eqn:E; [|done].
    apply child_of_Some in E as ->. cbn. constructor; [|done]. intros Hin. apply Hnew.
    apply list_elem_of_fmap in Hin as ([n' j'] & -> & Hin). apply list_elem_of_omap in Hin as (kv & Hin & E).
    apply child_of_Some in E as ->. apply list_elem_of_fmap. by exists (q ++ [n'], j').
Qed.

Lemma depth_bound p i : t !! p = Some i -> (length p <= depth_of t)%nat.
Proof using.
  intros H. unfold depth_of. pose proof (list_max_le (List.map (fun kv => length (fst kv)) (map_to_list t))
    (list_max (List.map (fun kv => length (fst kv)) (map_to_list t)))) as [Hle _]. specialize (Hle ltac:(lia)).
  rewrite List.Forall_forall in Hle. apply Hle. apply in_map_iff. exists (p, i). split; [done|].
  apply list_elem_of_In. by apply elem_of_map_to_list.
Qed.

(** What a part of the walk does to a listing: it keeps what is there, stays within the bound, adds only
    what exists, and, unless the listing is truncated, all that has [wanted]. *)
Record extends (real wanted : Entry -> Prop) (acc res : listing) : Prop := {
  ex_keeps : exists l, fst res = fst acc ++ l /\ Forall real l;
  ex_flag : snd res = false -> snd acc = false;
  ex_bound : Z.of_nat (length (fst acc)) <= maxEntries -> Z.of_nat (length (fst res)) <= maxEntries;
  ex_all : snd res = false -> forall e, wanted e -> e ∈ fst res
}.

Lemma listing_stop real wanted (acc : listing) : extends real wanted acc (fst acc, true).
Proof using. split; [|done..]. exists []. by rewrite app_nil_r. Qed.

Lemma listing_trans real w1 w2 a b c : extends real w1 a b -> extends real w2 b c ->
  extends real (fun e => w1 e \/ w2 e) a c.
Proof using.
  intros [(l1 & H1 & HF1) Hf1 Hb1 Ha1] [(l2 & H2 & HF2) Hf2 Hb2 Ha2]. split; [|auto..|].
  - exists (l1 ++ l2). rewrite H2, H1, app_assoc. split; [done|]. by apply Forall_app.
  - intros Hc e [He|He]; [|by apply Ha2]. rewrite H2. apply elem_of_app. left. by apply Ha1, He; apply Hf2.
Qed.

Lemma listing_weaken real w w' acc res : extends real w acc res -> (forall e, w' e -> w e) -> extends real w' acc res.
Proof using. intros [? ? ? Ha] H. split; auto. Qed.

(** What there is below a directory [q] that is listed as [dir]. *)
Definition below (q dir : path) (all : bool) (e : Entry) : Prop := exists y, y <> [] /\ (all = true \/ length y = 1%nat) /\
  t !! (q ++ y) = Some (e_kind e) /\ e_path e = dir ++ y /\ e_name e = default ""%string (last y).

Lemma below_step q dir name all e : below (q ++ [name]) (dir ++ [name]) true e -> all = true -> below q dir all e.
Proof using.
  intros (y & Hy & _ & Ht & Hp & Hn) ->. exists (name :: y). rewrite <- app_assoc in Ht, Hp. split_and!; try done; [by left|].
  rewrite Hn. by destruct y.
Qed.

(** The entries that the loop over some names of [q] is to add. *)
Definition to_list (q dir : path) (names : list (string * inode)) (e : Entry) : Prop :=
  exists name i, (name, i) ∈ names /\
    (e = {| e_name := name; e_kind := i; e_path := dir ++ [name] |} \/
     (recursive && isDirectory i = true /\ below (q ++ [name]) (dir ++ [name]) true e)).

Lemma list_names_extends into q dir names :
  (forall name acc, recursive = true ->
     extends (below (q ++ [name]) (dir ++ [name]) true) (below (q ++ [name]) (dir ++ [name]) true) acc (into name acc)) ->
  (forall name i, (name, i) ∈ names -> t !! (q ++ [name]) = Some i) ->
  forall acc, extends (below q dir recursive) (to_list q dir names) acc (list_names recursive maxEntries into dir names acc).
Proof using.
  intros Hinto. induction names as [|[name i] names IH]; intros Hn acc; cbn [list_names].
  - split; [exists []; by rewrite app_nil_r|done|done|]. intros _ e (? & ? & H & _). by apply not_elem_of_nil in H.
  - destruct (maxEntries <=? _) eqn:Hmax; [apply listing_stop|]. bool_inv.
    set (e0 := {| e_name := name |}). set (acc0 := (fst acc ++ [e0], snd acc)).
    assert (extends (below q dir recursive) (eq e0) acc acc0) as H0.
    { split; [|done| |].
      - exists [e0]. split; [done|]. constructor; [|constructor]. exists [name]. split_and!; try done; [by right|].
        apply Hn. by left.
      - intros _. cbn. rewrite length_app. cbn. lia.
      - intros _ e <-. cbn. set_solver. }
    assert (extends (below q dir recursive) (fun e => recursive && isDirectory i = true /\ below (q ++ [name]) (dir ++ [name]) true e)
      acc0 (if recursive && isDirectory i then into name acc0 else acc0)) as H1.
    { destruct (recursive && isDirectory i) eqn:Hrec.
      - bool_inv. destruct (Hinto name acc0) as [(l & Hl & Hreal) Hf Hb Ha]; [done|]. split; [|done|done|intros Hs e [_ He]; by apply Ha].
        exists l. split; [done|]. eapply list.Forall_impl; [exact Hreal|]. intros e He. by eapply below_step.
      - split; [exists []; by rewrite app_nil_r|done|done|]. by intros _ e [? _]. }
    eapply listing_weaken.
    + eapply listing_trans; [eapply listing_trans; [exact H0|exact H1]|]. apply IH. intros. apply Hn. by right.
    + intros e (n & j & [[= -> ->]|Hin]%elem_of_cons & He); [left|right; by exists n, j].
      destruct He as [->|He]; [by left|by right].
Qed.

(** A name that has others below it is a directory. *)
Lemma parent_listed q name y : well_formed t -> y <> [] -> t !! (q ++ name :: y) <> None -> exists m, t !! (q ++ [name]) = Some (IDir m).
Proof using.
  intros Hw Hy Ht. destruct (t !! (q ++ [name])) as [[c m|m|target m|m]|] eqn:E; try (by exists m); exfalso; apply Ht;
    change (name :: y) with ([name] ++ y); rewrite app_assoc; apply nothing_below; try done; try (by destruct q);
    intros [md Hd]; rewrite at_path_in in Hd; congruence.
Qed.

(** The walk of a directory; [fuel] is more than what is below it is deep. *)
Lemma list_dir_extends fuel : forall q dir depth acc, well_formed t -> (depth_of t < length q + fuel)%nat ->
  extends (below q dir recursive) (below q dir recursive) acc (list_dir t recursive maxDepth maxEntries fuel q dir depth acc).
Proof using.
  induction fuel as [|fuel IH]; intros q dir depth acc Hw Hfuel; cbn [list_dir].
  - split; [exists []; by rewrite app_nil_r|done|done|]. intros _ e (y & Hy & _ & Ht & _). apply depth_bound in Ht.
    rewrite length_app in Ht. lia.
  - destruct (maxDepth <? depth); [apply listing_stop|]. destruct (maxEntries <=? _); [apply listing_stop|].
    eapply listing_weaken; [apply list_names_extends|].
    + intros name acc' Hrec. rewrite Hrec in IH |- *. apply IH; [done|]. rewrite length_app. cbn. lia.
    + intros name i. apply readdir_children.
    + intros e (y & Hy & Hall & Ht & Hp & Hn). destruct y as [|name y]; [done|]. destruct y as [|c y].
      * exists name, (e_kind e). split; [by apply readdir_children|left]. destruct e. cbn in *. congruence.
      * destruct (parent_listed q name (c :: y) Hw ltac:(done)) as [md Hd]; [congruence|].
        assert (recursive = true) as Hrec by (by destruct Hall). exists name, (IDir md).
        split; [by apply readdir_children|right]. split; [by rewrite Hrec|]. exists (c :: y). rewrite <- !app_assoc. cbn.
        split_and!; try done. by left.
Qed.
End Listing.

(** C20: A listing is within its bound, true and complete.  It has at most as many entries as were asked
    for; every entry is an inode below the directory, directly or, in a recursive listing, at any depth
    without following a link; and a listing that is not marked as truncated has all of them. *)
Theorem listing_is_complete {Dir : Directory} (here : path) (payload : FileListPayload) (s s' : Process)
    (p : path) (entries : list Entry) (truncated : bool) :
  well_formed (fs s) -> list_ here payload s = (Ok (p, entries, truncated), s') ->
  let maxEntries := default FILE_LIST_MAX_ENTRIES (l_maxEntries payload) in
  s' = s /\ Z.of_nat (length entries) <= Z.max 0 maxEntries /\
  (Forall (fun e => exists q m, locate (fs s) true p = Found q (IDir m) /\ below (fs s) q p (l_recursive payload) e) entries) /\
  (truncated = false -> exists q m, locate (fs s) true p = Found q (IDir m) /\
     forall e, below (fs s) q p (l_recursive payload) e -> e ∈ entries).
Proof.
  intros Hw E maxEntries. subst maxEntries. unfold list_ in E. m_split; [split_and!; [done|cbn; lia|constructor|done]|].
  match goal with H : list_dir _ _ _ _ _ _ _ _ _ = _ |- _ => rename H into El end.
  pose proof (list_dir_extends (fs s') (l_recursive payload) (default FILE_LIST_MAX_DEPTH (l_maxDepth payload)) (default FILE_LIST_MAX_ENTRIES (l_maxEntries payload))
    (S (depth_of (fs s'))) p0 p 0 ([], false) Hw ltac:(lia)) as [(l & Hl & Hreal) _ Hb Ha].
  rewrite El in Hl, Hb, Ha. cbn in Hl. subst l. bool_inv. split_and!; [done| | |].
  - cbn in Hb. lia.
  - eapply list.Forall_impl; [exact Hreal|]. intros e He. by exists p0, m.
  - intros ->. exists p0, m. split; [done|]. by apply Ha.
Qed.

(** ** Examples *)

Module Demo.
#[export] Instance directory : Directory := {| readdir := fun V m => map_to_list m; readdir_entries := fun V m => reflexivity _ |}.
#[export] Existing Instance toy_crypto.

Definition meta : Meta := {| m_mode := 420; m_uid := 7; m_gid := 7; m_mtime := "0"; m_size := 0 |}.
Definition old : buffer := [111; 108; 100].
Definition new : buffer := [110; 101; 119; 33].

(** [/srv], with a file, a link to it and a link to nothing. *)
Definition host : tree :=
  <[["srv"; "gone"]%string := ILink "missing" meta]> (<[["srv"; "link"]%string := ILink "a" meta]>
    (<[["srv"; "a"]%string := IFile old meta]> (<[["srv"]%string := IDir meta]> ∅))).

Definition process (b : option nat) : Process := {| fs := host; budget := b |}.

Definition put (name : string) (expected : option string) (absent : bool) : FileReplacePayload := {|
  root := "/srv"; target := name; data := toBase64 new; data_encoding := None; expectedSha256 := expected;
  expectedAbsent := absent; preserveMode := None; durable := None; createParents := Some true |}.

Abbreviation run b p := (replace [] 18 "1" false "u" 2 p (process b)).

(** What is in [/srv] after a replacement, and its outcome. *)
Definition left_by (name : string) (r : result file_error Replaced * Process) : bool * list (option buffer) :=
  (match fst r with Ok _ => true | Err _ => false end,
   List.map (fun n => match fs (snd r) !! ["srv"; n]%string with Some (IFile c _) => Some c | _ => None end)
     [name; ("." ++ name ++ ".baby-quirt-u.tmp")%string]).

Example replaced : left_by "a" (run None (put "a" (Some (hash old)) false)) = (true, [Some new; None]).
Proof. vm_compute. reflexivity. Qed.
Example changed_before : left_by "a" (run None (put "a" (Some (hash new)) false)) = (false, [Some old; None]).
Proof. vm_compute. reflexivity. Qed.
Example killed_while_writing : left_by "a" (run (Some 2%nat) (put "a" None false)) = (false, [Some old; Some (take 2 new)]).
Proof. vm_compute. reflexivity. Qed.
Example through_a_link : fst (run None (put "link" None false)) = Err unsafe_path.
Proof. vm_compute. reflexivity. Qed.
Example out_of_the_root : fst (run None (put "../etc" None false)) = Err path_outside_root.
Proof. vm_compute. reflexivity. Qed.

(** A link to nothing counts as absent, and is replaced. *)
Example dangling_link_replaced : left_by "gone" (run None (put "gone" None true)) = (true, [Some new; None]).
Proof. vm_compute. reflexivity. Qed.

(** The removal of a link to nothing is answered with [removed: false], and the link stays. *)
Example dangling_link_stays :
  let (r, s) := remove [] "/srv/gone" false (process None) in
  r = Ok (["srv"; "gone"]%string, false) /\ fs s !! ["srv"; "gone"]%string = Some (ILink "missing" meta).
Proof. vm_compute. by split. Qed.

(** A file that is read through a link is cut at the length of the link, and said to have ended there. *)
Example read_through_link :
  fst (read [] {| r_path := "/srv/link"; r_offset := None; r_limit := None; r_encoding := None |} (process None)) =
  Ok (take 1 old, 1, true).
Proof. vm_compute. reflexivity. Qed.

Lemma host_well_formed : well_formed host.
Proof.
  unfold host.
  apply (well_formed_make _ ["srv"%string] "gone"); [|by eexists|done].
  apply (well_formed_make _ ["srv"%string] "link"); [|by eexists|done].
  apply (well_formed_make _ ["srv"%string] "a"); [|by eexists|done].
  apply (well_formed_make _ [] "srv"); [|by eexists|done]. by intros p c H.
Qed.
End Demo.

#[local] Existing Instance toy_crypto.
#[local] Existing Instance Demo.directory.

Lemma replace_confined_witness :
  let (res, s') := replace [] 18 "1" false "u" 2 (Demo.put "a" None false) (Demo.process (Some 2%nat)) in
  well_formed Demo.host /\ res = Err killed /\
  exists R, forall x, fs s' !! x <> Demo.host !! x -> exists y, x = R ++ y.
Proof.
  pose proof (replace_confined [] 18 "1" false "u" 2 (Demo.put "a" None false) (Demo.process (Some 2%nat)) Demo.host_well_formed) as H.
  assert (fst (replace [] 18 "1" false "u" 2 (Demo.put "a" None false) (Demo.process (Some 2%nat))) = Err killed) as Hr
    by (vm_compute; reflexivity).
  destruct (replace _ _ _ _ _ _ _ _) as [res s']. split_and!; [exact Demo.host_well_formed|exact Hr|].
  destruct H as [H|(rt & R & rel & m & _ & _ & _ & H)].
  - exists []. intros x []. by rewrite H.
  - exists R. intros x Hx. destruct (H x Hx) as (y & -> & _). by exists y.
Defined.

Lemma replace_outcome_witness :
  let (res, s') := replace [] 18 "1" false "u" 2 (Demo.put "a" (Some (hash Demo.old)) false) (Demo.process None) in
  well_formed Demo.host /\
  exists x R rel m, res = Ok x /\ fs s' !! (R ++ rel) = Some (IFile Demo.new m) /\ rp_sha256 x = hash Demo.new /\
    exists c m, Demo.host !! (R ++ rel) = Some (IFile c m) /\ hash c = hash Demo.old.
Proof.
  destruct (replace _ _ _ _ _ _ _ _) as [res s'] eqn:E. split; [exact Demo.host_well_formed|].
  destruct res as [x|e]; [|vm_compute in E; discriminate].
  destruct (replace_outcome [] 18 "1" false "u" 2 (Demo.put "a" (Some (hash Demo.old)) false) (Demo.process None) s' x
    Demo.host_well_formed E) as (rt & R & rel & m & _ & _ & _ & _ & (m' & Hf) & Hs & Hex & _).
  exists x, R, rel, m'. split_and!; [done|exact Hf|exact Hs|]. apply Hex. vm_compute. reflexivity.
Defined.

Lemma listing_is_complete_witness :
  let payload := {| l_path := "/"; l_recursive := true; l_maxDepth := None; l_maxEntries := None |} in
  exists entries, list_ [] payload (Demo.process None) = (Ok ([], entries, false), Demo.process None) /\
    length entries = 4%nat /\ exists q, forall e, below Demo.host q [] true e -> e ∈ entries.
Proof.
  cbv zeta. destruct (list_ _ _ _) as [[[[p entries] truncated]|e] s'] eqn:E; [|vm_compute in E; discriminate].
  assert (p = [] /\ truncated = false /\ length entries = 4%nat) as (-> & -> & Hlen)
    by (vm_compute in E; by injection E as <- <- <- _).
  destruct (listing_is_complete [] _ (Demo.process None) s' [] entries false Demo.host_well_formed E) as (-> & _ & _ & Hall).
  exists entries. split_and!; [done|done|]. destruct (Hall eq_refl) as (q & m & _ & Hq). by exists q.
Defined.
