(* ===== verification/Pointers.v ===== *)
(** * The release pointers and the activation of a candidate ([src/install/symlinks.ts],
      [src/deployment/activation.ts], the pointers of [src/controller/filesystem-host.ts])

    A product is installed as a directory per release and two symbolic links, [current] and [previous].
    A link is published by the rename of a new one over it, if it still points where it should; a
    process may be killed between any two changes of the file system.  The theorems: what an activation
    demands and does; and that a rollback gets the pointers back, wherever activations and rollbacks
    before it were killed. *)

From S2P Require Import Prelude Bytes Json Platform Canonical StateMachine Files.

#[global] Open Scope Z_scope.

(** A compare-and-swap that found another target; an [Error] without a code; an exception of
    [node:fs], or the end of the process; a [DeploymentError]. *)
Inductive pointer_error :=
| PointerCasError (expected actual : option string)
| plain_error
| host_error (e : file_error)
| deployment_error (e : DeploymentError).

#[global] Instance pointer_error_eq_dec : EqDecision pointer_error.
Proof. solve_decision. Defined.

Abbreviation PM := (M Process pointer_error).

(** A call of [node:fs]. *)
Definition host {A} (m : FM A) : PM A := fun s =>
  match m s with (Ok a, s') => (Ok a, s') | (Err e, s') => (Err (host_error e), s') end.

(** [try { m } catch (error) { h; throw error; }]: an exception of [h] replaces the first one. *)
Definition on_error {A} (m : PM A) (h : PM unit) : PM A := fun s =>
  match m s with
  | (Ok a, s1) => (Ok a, s1)
  | (Err e, s1) => match h s1 with (Ok _, s2) => (Err e, s2) | (Err e', s2) => (Err e', s2) end
  end.

(** ** Links *)

Definition link_meta (now : string) : Meta := {| m_mode := 511; m_uid := 0; m_gid := 0; m_mtime := now; m_size := 0 |}.

(** [symlinkSync(target, path)]: what is there is not replaced. *)
Definition symlinkSync (now target : string) (p : path) : FM unit :=
  l ← lstat_place p;
  match l with
  | Free q => if truthy_str target then effect <[q := ILink target (link_meta now)]> else throw system_error
  | _ => throw system_error
  end.

Definition readlinkSync (p : path) : FM string :=
  l ← lstat_place p; match l with Found _ (ILink target _) => mret target | _ => throw system_error end.

(** The directory is opened, and a link to one is not followed.
    Source: src/install/symlinks.ts:29-36 (fsyncDirectory) *)
Definition fsyncDirectory (p : path) : FM unit :=
  l ← lstat_place p; match l with Found _ (IDir _) => mret () | _ => throw system_error end.

(** Source: src/install/symlinks.ts:38-47 (readSymlinkTarget) *)
Definition readSymlinkTarget (linkPath : path) : PM (option string) :=
  l ← host (lstat_place linkPath);
  match l with
  | Found _ (ILink target _) => mret (Some target)
  | Found _ _ => throw plain_error
  | Free _ | Nowhere true => mret None
  | Nowhere false => throw (host_error system_error)
  end.

(** Source: src/install/symlinks.ts:49-51 (symlinkExists) *)
Definition symlinkExists (linkPath : path) : PM bool :=
  target ← readSymlinkTarget linkPath; mret (bool_decide (is_Some target)).

(** [`${linkPath}.next-${process.pid}-${randomBytes(8)}`]; [random] is what comes after the first dash. *)
Definition next_name (name random : string) : string := name ++ ".next-" ++ random.
Definition next_of (linkPath : path) (random : string) : path :=
  removelast linkPath ++ [next_name (default ""%string (last linkPath)) random].

Section Links.
Context (now : string).

(** Source: src/install/symlinks.ts:57-79 (atomicCompareAndSwapSymlink) *)
Definition atomicCompareAndSwapSymlink (random : string) (linkPath : path) (expectedTarget : option string)
    (newTarget : string) : PM (option string * string) :=
  actual ← readSymlinkTarget linkPath;
  guardM (actual === expectedTarget) (PointerCasError expectedTarget actual);;
  let temporary := next_of linkPath random in
  on_error
    (host (symlinkSync now newTarget temporary);;
     written ← host (readlinkSync temporary);
     guardM (written === newTarget) plain_error;;
     host (renameSync temporary linkPath);;
     host (fsyncDirectory (removelast linkPath)))
    (present ← host (existsSync temporary); if (present : bool) then host (unlinkSync temporary) else mret ());;
  readback ← readSymlinkTarget linkPath;
  guardM (readback === Some newTarget) plain_error;;
  mret (actual, newTarget).

(** Source: src/install/symlinks.ts:82-94 (atomicCompareAndRemoveSymlink) *)
Definition atomicCompareAndRemoveSymlink (linkPath : path) (expectedTarget : string) : PM string :=
  actual ← readSymlinkTarget linkPath;
  guardM (actual === Some expectedTarget) (PointerCasError (Some expectedTarget) actual);;
  host (unlinkSync linkPath);;
  host (fsyncDirectory (removelast linkPath));;
  readback ← readSymlinkTarget linkPath;
  guardM (readback === None) plain_error;;
  mret expectedTarget.

(** [if (target)]: there is a target, and it is not empty. *)
Definition some_target (o : option string) : option string :=
  match o with Some target => if truthy_str target then Some target else None | None => None end.

Record fences := { expectedCurrent : option string; expectedPrevious : option string }.

(** What is done to the two links; the fences are of what was read.
    Source: src/install/symlinks.ts:104-110 (atomicSwapSymlinks) *)
Definition check_fences (f : option fences) (current previous : option string) : PM unit :=
  match f with
  | Some f => guardM ((current === expectedCurrent f) && (previous === expectedPrevious f)) (PointerCasError (expectedCurrent f) current)
  | None => mret ()
  end.

(** Source: src/install/symlinks.ts:96-116 (atomicSwapSymlinks) *)
Definition atomicSwapSymlinks (random random' : string) (currentLink previousLink : path) (newCurrentTarget : string)
    (f : option fences) : PM (option string * string) :=
  oldCurrent ← readSymlinkTarget currentLink;
  oldPrevious ← readSymlinkTarget previousLink;
  check_fences f oldCurrent oldPrevious;;
  match some_target oldCurrent with
  | Some target => atomicCompareAndSwapSymlink random previousLink oldPrevious target;; mret ()
  | None => mret ()
  end;;
  atomicCompareAndSwapSymlink random' currentLink oldCurrent newCurrentTarget;;
  mret (oldCurrent, newCurrentTarget).

(** Source: src/install/symlinks.ts:118-136 (rollbackSymlinks) *)
Definition rollbackSymlinks (random random' : string) (currentLink previousLink : path) (f : option fences)
    : PM (string * option string) :=
  previousTarget ← readSymlinkTarget previousLink;
  match some_target previousTarget with
  | None => throw plain_error
  | Some target =>
      currentTarget ← readSymlinkTarget currentLink;
      check_fences f currentTarget previousTarget;;
      atomicCompareAndSwapSymlink random currentLink currentTarget target;;
      match some_target currentTarget with
      | Some current => atomicCompareAndSwapSymlink random' previousLink previousTarget current;; mret ()
      | None => mret ()
      end;;
      mret (target, currentTarget)
  end.
End Links.

(** ** The records of a guard that the activation reads *)

(** Source: src/controller/types.ts:14-17 (PointerIdentity) *)
Record PointerIdentity := { pi_link : string; pi_target : option string }.

(** Source: src/controller/types.ts:19-22 (ExpectedProductPointers) *)
Record ExpectedProductPointers := { current : PointerIdentity; previous : PointerIdentity }.

(** Source: src/controller/types.ts:24-27 (ExpectedPointers) *)
Record ExpectedPointers := { baby : ExpectedProductPointers; gateway : ExpectedProductPointers }.

(** The fields of [SignedDeploymentGuardRecord] that are read here.
    Source: src/controller/types.ts:39-59 (DeploymentGuardPayload) *)
Record Guard := {
  g_deploymentId : string;
  g_generation : Z;
  g_recordDigest : string;
  g_expectedPointers : ExpectedPointers;
  g_candidate_baby : string;
  g_candidate_gateway : string
}.

(** Source: src/controller/types.ts:119-125 (ControllerStatus) *)
Record Status := {
  st_deploymentId : string;
  st_generation : Z;
  st_guardRecordDigest : string;
  st_disposition : string
}.

(** Source: src/deployment/activation.ts:14-19 (ActivationResult) *)
Record ActivationResult := {
  ar_product : DeploymentProduct;
  ar_previousTarget : option string;
  ar_currentTarget : string;
  ar_pointerReadbackDigest : string
}.

Definition in_ (l : list string) (x : string) : bool := bool_decide (x ∈ l).

(** [hostRoot] is resolved; a path of the host has no [".."], so it stays below.
    Source: src/deployment/snapshot.ts:187-197 (mapHostPath) *)
Definition mapHostPath (hostRoot : path) (logicalPath : string) : result pointer_error path :=
  _ ← require (startsWith logicalPath "/" && negb (includes logicalPath "..")) (deployment_error deployment_invalid);
  let mapped := hostRoot ++ normalize (components logicalPath) in
  _ ← require ((hostRoot === []) || under hostRoot mapped) (deployment_error deployment_invalid);
  Ok mapped.

Section Activation.
Context {C : Crypto} (now : string) (hostRoot : path).

(** Source: src/deployment/activation.ts:21-36 (assertGuardReadback) *)
Definition assertGuardReadback (guard : Guard) (status : Status) : result pointer_error unit :=
  require ((st_deploymentId status === g_deploymentId guard) && (st_generation status === g_generation guard) &&
    (st_guardRecordDigest status === g_recordDigest guard) && in_ ["armed"; "pending"]%string (st_disposition status))
    (deployment_error deployment_transition_forbidden).

(** [canonicalJson] of the readback: an absent pointer is [null]. *)
Definition pointer_json (o : option string) : json := match o with Some target => JStr target | None => JNull end.
Definition readback_digest (current previous : option string) : string :=
  sha256Hex (default ""%string (canonicalJson (JObj [("current", pointer_json current); ("previous", pointer_json previous)]%string))).

(** Source: src/deployment/activation.ts:38-74 (activate) *)
Definition activate (random random' : string) (product : DeploymentProduct) (pointers : ExpectedProductPointers)
    (candidateTarget : string) : PM ActivationResult :=
  guardM (bool_decide (is_Some (some_target (pi_target (current pointers))))) (deployment_error deployment_invalid);;
  candidatePath ← lift (mapHostPath hostRoot candidateTarget);
  present ← host (existsSync candidatePath);
  guardM present (deployment_error deployment_not_found);;
  stat ← host (lstatSync candidatePath);
  guardM (isDirectory stat) (deployment_error deployment_integrity_failed);;
  currentPath ← lift (mapHostPath hostRoot (pi_link (current pointers)));
  previousPath ← lift (mapHostPath hostRoot (pi_link (previous pointers)));
  '(was, _) ← atomicSwapSymlinks now random random' currentPath previousPath candidateTarget
    (Some {| expectedCurrent := pi_target (current pointers); expectedPrevious := pi_target (previous pointers) |});
  readback_current ← readSymlinkTarget currentPath;
  readback_previous ← readSymlinkTarget previousPath;
  guardM ((readback_current === Some candidateTarget) && (readback_previous === was))
    (deployment_error deployment_integrity_failed);;
  mret {| ar_product := product; ar_previousTarget := was; ar_currentTarget := candidateTarget;
          ar_pointerReadbackDigest := readback_digest readback_current readback_previous |}.

(** Source: src/deployment/activation.ts:76-88 (activateGatewayCandidate) *)
Definition activateGatewayCandidate (random random' : string) (guard : Guard) (status : Status) : PM ActivationResult :=
  lift (assertGuardReadback guard status);;
  activate random random' baby_quirt_mcp (gateway (g_expectedPointers guard)) (g_candidate_gateway guard).

(** Source: src/deployment/activation.ts:90-109 (activateBabyCandidate) *)
Definition activateBabyCandidate (random random' : string) (guard : Guard) (status : Status) (gatewayAcceptedLegacy : bool)
    : PM ActivationResult :=
  lift (assertGuardReadback guard status);;
  guardM gatewayAcceptedLegacy (deployment_error deployment_transition_forbidden);;
  activate random random' baby_quirt (baby (g_expectedPointers guard)) (g_candidate_baby guard).

(** ** The pointers of a rollback *)

(** Source: src/controller/filesystem-host.ts:164-169 (FilesystemGuardHost.readPointer) *)
Definition readPointer (pointer : PointerIdentity) : PM PointerIdentity :=
  p ← lift (mapHostPath hostRoot (pi_link pointer));
  target ← readSymlinkTarget p;
  mret {| pi_link := pi_link pointer; pi_target := target |}.

Definition readProduct (pointers : ExpectedProductPointers) : PM ExpectedProductPointers :=
  c ← readPointer (current pointers);
  p ← readPointer (previous pointers);
  mret {| current := c; previous := p |}.

(** Source: src/controller/filesystem-host.ts:81-92 (FilesystemGuardHost.readPointers) *)
Definition readPointers (guard : Guard) : PM ExpectedPointers :=
  b ← readProduct (baby (g_expectedPointers guard));
  g ← readProduct (gateway (g_expectedPointers guard));
  mret {| baby := b; gateway := g |}.

(** The body of the loop over the two products.
    Source: src/controller/filesystem-host.ts:174-183 (FilesystemGuardHost.assertRollbackPointerFence) *)
Definition fence_product (expected actual : ExpectedProductPointers) (candidate : string) : result pointer_error unit :=
  _ ← require (bool_decide (pi_target (current actual) ∈ [pi_target (current expected); Some candidate])) plain_error;
  require (bool_decide (pi_target (previous actual) ∈ [pi_target (previous expected); pi_target (current expected)])) plain_error.

(** Source: src/controller/filesystem-host.ts:171-185 (FilesystemGuardHost.assertRollbackPointerFence) *)
Definition assertRollbackPointerFence (guard : Guard) : PM unit :=
  actual ← readPointers guard;
  lift (fence_product (baby (g_expectedPointers guard)) (baby actual) (g_candidate_baby guard));;
  lift (fence_product (gateway (g_expectedPointers guard)) (gateway actual) (g_candidate_gateway guard)).

(** Source: src/controller/filesystem-host.ts:187-205 (FilesystemGuardHost.restoreProductPointers) *)
Definition restoreProductPointers (random random' : string) (expected : ExpectedProductPointers) (candidateTarget : string)
    : PM unit :=
  currentPath ← lift (mapHostPath hostRoot (pi_link (current expected)));
  previousPath ← lift (mapHostPath hostRoot (pi_link (previous expected)));
  currentActual ← readSymlinkTarget currentPath;
  match some_target (pi_target (current expected)) with
  | None => throw plain_error
  | Some known_good =>
      (if currentActual !== pi_target (current expected) then
         guardM (currentActual === Some candidateTarget) plain_error;;
         atomicCompareAndSwapSymlink now random currentPath (Some candidateTarget) known_good;; mret ()
       else mret ());;
      previousActual ← readSymlinkTarget previousPath;
      match pi_target (previous expected), previousActual with
      | None, None => mret ()
      | None, Some target => atomicCompareAndRemoveSymlink previousPath target;; mret ()
      | Some target, _ =>
          if previousActual !== Some target
          then atomicCompareAndSwapSymlink now random' previousPath previousActual target;; mret ()
          else mret ()
      end
  end.
End Activation.

(** ** Names in real directories *)

Lemma is_dir_prefix t p q : well_formed t -> is_dir t (p ++ q) -> is_dir t p.
Proof.
  intros Hw. induction q as [|c q IH] using rev_ind; [by rewrite app_nil_r|]. intros [m Hm]. apply IH.
  apply (Hw (p ++ q) c). rewrite app_assoc, at_path_in in Hm. by rewrite Hm.
Qed.

Lemma walk_real t links follow b d : forall cur, well_formed t -> Forall plain d -> is_dir t (cur ++ d) ->
  walk links t follow cur (d ++ b) = walk links t follow (cur ++ d) b.
Proof.
  induction d as [|c d IH]; intros cur Hw Hp Hd; [by rewrite app_nil_r|]. apply list.Forall_cons in Hp as [Hc Hp].
  assert (is_dir t ((cur ++ [c]) ++ d)) as Hd' by (by rewrite <- app_assoc). cbn [app]. rewrite walk_plain by done.
  destruct (is_dir_prefix _ _ _ Hw Hd') as [m ->]. rewrite IH by done. by rewrite <- app_assoc.
Qed.

(** The name of a link in a directory that is reached through no link. *)
Definition real (t : tree) (x : path) : Prop := exists d c, x = d ++ [c] /\ Forall plain d /\ plain c /\ is_dir t d.

Lemma locate_real t x : well_formed t -> real t x ->
  locate t false x = (match t !! x with Some i => Found x i | None => Free x end) /\
  match t !! x with None => locate t true x = Free x | Some (ILink _ _) => True | Some i => locate t true x = Found x i end.
Proof.
  intros Hw (d & c & -> & Hd & Hc & Hdir). unfold locate. rewrite !walk_real, !walk_plain by done. cbn [app]. rewrite at_path_in.
  destruct (t !! (d ++ [c])) as [[]|] eqn:E; rewrite ?walk_nil, ?at_path_in, ?E; done.
Qed.

Lemma locate_dir t d follow : well_formed t -> Forall plain d -> is_dir t d -> exists m, locate t follow d = Found d (IDir m).
Proof.
  intros Hw Hd [m Hm]. exists m. unfold locate. pose proof (walk_real t MAX_LINKS follow [] d [] Hw Hd) as H.
  rewrite app_nil_r in H. rewrite H by (by exists m). cbn [app]. by rewrite walk_nil, Hm.
Qed.

Lemma real_next t x random : real t x -> real t (next_of x random) /\ next_of x random <> x.
Proof.
  intros (d & c & -> & Hd & Hc & Hdir). unfold next_of. rewrite removelast_last, last_snoc. cbn [default from_option Datatypes.id].
  assert (String.length c + 6 <= String.length (next_name c random))%nat as H.
  { unfold next_name. rewrite <- !length_chars, !chars_app, !length_app. cbn. lia. }
  split.
  - exists d, (next_name c random). split_and!; try done. unfold plain. split_and!; intros Heq; rewrite Heq in H; cbn in H; lia.
  - intros [_ Heq]%app_inj_tail. rewrite Heq in H. lia.
Qed.

(** What changes is in a directory, and was and is no directory. *)
Definition gentle (t t' : tree) : Prop := forall x, t' !! x = t !! x \/
  (~ is_dir t x /\ ~ is_dir t' x /\ exists d c, x = d ++ [c] /\ is_dir t d).

Lemma gentle_is_dir t t' d : gentle t t' -> is_dir t d <-> is_dir t' d.
Proof.
  intros H. destruct d as [|c d]; [done|]. unfold is_dir. cbn [at_path].
  destruct (H (c :: d)) as [->|(H1 & H2 & _)]; [done|]. split; intros Hd; [by destruct H1|by destruct H2].
Qed.

#[local] Instance gentle_preorder : PreOrder gentle.
Proof.
  split; [by left|]. intros t1 t2 t3 H12 H23 x. destruct (H12 x) as [E12|(Ha & Hb & d & c & -> & Hd)].
  - destruct (H23 x) as [E23|(Hc & Hd & d & c & -> & He)]; [left; congruence|right].
    split_and!; [by rewrite (gentle_is_dir _ _ _ H12)|done|]. exists d, c. by rewrite (gentle_is_dir _ _ _ H12).
  - right. rewrite <- (gentle_is_dir _ _ _ H23). split_and!; [done|done|by exists d, c].
Qed.

Lemma gentle_well_formed t t' : gentle t t' -> well_formed t -> well_formed t'.
Proof.
  intros H Hw p c Hc. apply (gentle_is_dir _ _ _ H). destruct (H (p ++ [c])) as [E|(_ & _ & d & c' & [-> _]%app_inj_tail & Hd)]; [|done].
  apply (Hw p c). by rewrite <- E.
Qed.

Lemma gentle_real t t' x : gentle t t' -> real t x -> real t' x.
Proof. intros H (d & c & -> & Hd & Hc & Hdir). exists d, c. by rewrite <- (gentle_is_dir _ _ _ H). Qed.

Lemma not_dir_at t d c : (forall m, t !! (d ++ [c]) <> Some (IDir m)) -> ~ is_dir t (d ++ [c]).
Proof. intros H [m Hm]. rewrite at_path_in in Hm. by eapply H. Qed.

Lemma gentle_insert t x i : real t x -> (forall m, t !! x <> Some (IDir m)) -> isDirectory i = false -> gentle t (<[x := i]> t).
Proof.
  intros (d & c & -> & _ & _ & Hd) Hx Hi y. destruct (decide (y = d ++ [c])) as [->|Hy]; [right|left; by rewrite lookup_insert_ne].
  split_and!; [by apply not_dir_at| |by exists d, c]. apply not_dir_at. intros m. rewrite lookup_insert_eq. by intros [= ->].
Qed.

Lemma gentle_delete t x : real t x -> (forall m, t !! x <> Some (IDir m)) -> gentle t (delete x t).
Proof.
  intros (d & c & -> & _ & _ & Hd) Hx y. destruct (decide (y = d ++ [c])) as [->|Hy]; [right|left; by rewrite lookup_delete_ne].
  split_and!; [by apply not_dir_at| |by exists d, c]. apply not_dir_at. intros m. by rewrite lookup_delete_eq.
Qed.

(** ** The rules of the calls *)

Lemma wp_host {A} (m : FM A) (Q : result pointer_error A -> Process -> Prop) s :
  wp m (fun r s' => Q (match r with Ok a => Ok a | Err e => Err (host_error e) end) s') s -> wp (host m) Q s.
Proof. unfold wp, host. by destruct (m s) as [[]]. Qed.

Lemma wp_on_error {A} (m : PM A) h Q s :
  wp m (fun r s1 => match r with
    | Ok a => Q (Ok a) s1
    | Err e => wp h (fun r2 s2 => Q (Err (match r2 with Ok _ => e | Err e2 => e2 end)) s2) s1
    end) s -> wp (on_error m h) Q s.
Proof. unfold wp, on_error. destruct (m s) as [[a|e] s1]; [done|]. cbn. by destruct (h s1) as [[]]. Qed.

(** An effect happens, or the process is killed; a process that may go on for ever still may. *)
Lemma wp_kill f Q s :
  (budget s <> None -> Q (Err killed) s) ->
  (forall b, (budget s = None -> b = None) -> Q (Ok tt) {| fs := f (fs s); budget := b |}) -> wp (effect f) Q s.
Proof. intros Hk Hok. unfold wp, effect. destruct (budget s) as [[|n]|] eqn:E; cbn; [by apply Hk|by apply Hok|by apply Hok]. Qed.

(** What [readSymlinkTarget] answers. *)
Definition read_link (t : tree) (x : path) : result pointer_error (option string) :=
  match t !! x with None => Ok None | Some (ILink target _) => Ok (Some target) | Some _ => Err plain_error end.

Lemma read_link_run x s : well_formed (fs s) -> real (fs s) x -> readSymlinkTarget x s = (read_link (fs s) x, s).
Proof.
  intros Hw Hx. unfold readSymlinkTarget, lstat_place, host, gets, mbind, M_bind. cbn. destruct (locate_real _ _ Hw Hx) as [-> _].
  unfold read_link. by destruct (fs s !! x) as [[]|].
Qed.

Lemma wp_read_link x Q s : well_formed (fs s) -> real (fs s) x -> Q (read_link (fs s) x) s -> wp (readSymlinkTarget x) Q s.
Proof. intros Hw Hx H. eapply wp_run; [by apply read_link_run|done]. Qed.

Lemma wp_lstat_real x Q s : well_formed (fs s) -> real (fs s) x ->
  Q (Ok (match fs s !! x with Some i => Found x i | None => Free x end)) s -> wp (lstat_place x) Q s.
Proof. intros Hw Hx H. apply wp_lstat_place. by destruct (locate_real _ _ Hw Hx) as [-> _]. Qed.

Lemma not_dir_of_read t x o : read_link t x = Ok o -> forall m, t !! x <> Some (IDir m).
Proof. unfold read_link. intros H m Hm. by rewrite Hm in H. Qed.

(** ** One compare-and-swap *)

Section Swap.
Context (now random : string) (x : path) (new : string).
Abbreviation q := (next_of x random).

(** What the attempt to publish leaves of a tree [t]: as it was, but for the temporary name, or the new link. *)
Record kept (t t' : tree) : Prop := {
  k_gentle : gentle t t';
  k_others : forall y, y <> x -> y <> q -> t' !! y = t !! y
}.

Lemma kept_as_is t : kept t t.
Proof using. by split. Qed.

Lemma kept_in_turn t1 t2 t3 : kept t1 t2 -> kept t2 t3 -> kept t1 t3.
Proof using. intros [H1 F1] [H2 F2]. split; [by transitivity t2|]. intros y Hx Hq. by rewrite F2, F1. Qed.

(** The handler removes a temporary name, at most. *)
Lemma cleanup_spec s : well_formed (fs s) -> real (fs s) x ->
  wp (present ← host (existsSync q); if (present : bool) then host (unlinkSync q) else mret ())
    (fun _ s' => kept (fs s) (fs s') /\ fs s' !! x = fs s !! x) s.
Proof using.
  intros Hw Hx. destruct (real_next _ _ random Hx) as [Hq Hqx]. apply wp_bind, wp_host, wp_present. cbv beta iota.
  assert (kept (fs s) (fs s) /\ fs s !! x = fs s !! x) as Hsame by (split; [apply kept_as_is|done]).
  match goal with |- wp (if ?b then _ else _) _ _ => destruct b end; [|by apply wp_ret].
  apply wp_host. unfold unlinkSync. apply wp_bind, wp_lstat_real; [done|done|].
  destruct (fs s !! q) as [i|] eqn:Ei; [|by apply wp_throw]. destruct (isDirectory i) eqn:Hi; [by apply wp_throw|].
  apply wp_kill; [done|]. intros b _. cbn [fs]. split; [split|].
  - apply gentle_delete; [done|]. intros m Hm. rewrite Ei in Hm. injection Hm as ->. done.
  - intros y _ Hy. by rewrite lookup_delete_ne.
  - by rewrite lookup_delete_ne.
Qed.

(** After the new link was made: it takes the place of the old one. *)
Lemma publish_spec t b : well_formed t -> real t x -> t !! q = None -> (forall m, t !! x <> Some (IDir m)) ->
  wp (host (renameSync q x);; host (fsyncDirectory (removelast x))) (fun r s' =>
    kept t (fs s') /\ (b = None -> r = Ok tt /\ budget s' = None) /\
    match r with Ok _ => exists m, fs s' !! x = Some (ILink new m) | Err _ => fs s' !! x = t !! x end)
    {| fs := <[q := ILink new (link_meta now)]> t; budget := b |}.
Proof using.
  intros Hw Hx Hfree Hd. destruct (real_next _ _ random Hx) as [Hq Hqx]. set (L := ILink new (link_meta now)). set (t1 := <[q := L]> t).
  assert (gentle t t1) as Hg1 by (apply gentle_insert; [done|congruence|done]).
  pose proof (gentle_well_formed _ _ Hg1 Hw) as Hw1. pose proof (gentle_real _ _ _ Hg1 Hx) as Hx1. pose proof (gentle_real _ _ _ Hg1 Hq) as Hq1.
  assert (kept t t1) as Hk1 by (split; [done|]; intros y _ Hy; unfold t1; by rewrite lookup_insert_ne).
  assert (t1 !! x = t !! x) as Ex by (unfold t1; by rewrite lookup_insert_ne).
  assert (t1 !! q = Some L) as Eq by (unfold t1; by rewrite lookup_insert_eq).
  assert (moved q x t1 ∪ without q (without x t1) = <[x := L]> t) as Hmoved.
  { apply map_eq. intros y. rewrite (rename_lookup t1 q x L); [|done| | |done|done|done|].
    - unfold t1. destruct (decide (y = x)) as [->|Hyx]; [by rewrite lookup_insert_eq|rewrite (lookup_insert_ne t x) by done].
      destruct (decide (y = q)) as [->|Hyq]; [done|by rewrite lookup_insert_ne].
    - unfold next_of. by destruct (removelast x).
    - destruct Hx as (d & c & -> & _). by destruct d.
    - destruct Hx as (d & c & -> & _). apply not_dir_at. intros m. rewrite Ex. apply Hd. }
  apply wp_bind, wp_host. unfold renameSync. apply wp_bind, wp_gets. cbn [fs].
  destruct (locate_real _ _ Hw1 Hq1) as [-> _]. destruct (locate_real _ _ Hw1 Hx1) as [-> _]. rewrite Eq, Ex.
  assert (wp (effect (fun t => moved q x t ∪ without q (without x t))) (fun r s' =>
    match match r with Ok a => Ok a | Err e => Err (host_error e) end with
    | Ok _ => wp (host (fsyncDirectory (removelast x))) (fun r s' =>
        kept t (fs s') /\ (b = None -> r = Ok tt /\ budget s' = None) /\
        match r with Ok _ => exists m, fs s' !! x = Some (ILink new m) | Err _ => fs s' !! x = t !! x end) s'
    | Err e => kept t (fs s') /\ (b = None -> @Err pointer_error unit e = Ok tt /\ budget s' = None) /\ fs s' !! x = t !! x
    end) {| fs := t1; budget := b |}) as Heff.
  { apply wp_kill; [by intros Hb; split_and!|]. intros b' Hb'. cbn [fs budget] in *. rewrite Hmoved.
    assert (gentle t (<[x := L]> t)) as Hg2 by (by apply gentle_insert).
    apply wp_host. unfold fsyncDirectory. destruct Hx as (d & c & -> & Hpd & Hpc & Hdir). rewrite removelast_last.
    assert (is_dir (<[d ++ [c] := L]> t) d) as Hd2 by (by apply (gentle_is_dir _ _ _ Hg2)).
    destruct (locate_dir _ d false (gentle_well_formed _ _ Hg2 Hw) Hpd Hd2) as [md Hmd].
    apply wp_bind, wp_lstat_place. cbn [fs]. rewrite Hmd. apply wp_ret. cbn [fs budget]. split_and!.
    - split; [done|]. intros y Hy _. rewrite lookup_insert_ne; [done|congruence].
    - intros ->. by split; [|apply Hb'].
    - eexists. by rewrite lookup_insert_eq. }
  destruct (t !! x) as [j|] eqn:Ej; rewrite bool_decide_eq_false_2 by done; cbn [isDirectory andb L]; [|exact Heff].
  destruct j; cbn [isDirectory negb]; try exact Heff. by destruct (Hd m).
Qed.

Lemma swap_spec expected s : well_formed (fs s) -> real (fs s) x ->
  wp (atomicCompareAndSwapSymlink now random x expected new) (fun r s' =>
    kept (fs s) (fs s') /\
    (budget s = None -> fs s !! q = None -> read_link (fs s) x = Ok expected -> new <> ""%string -> budget s' = None /\ is_ok r = true) /\
    match r with
    | Ok _ => read_link (fs s) x = Ok expected /\ read_link (fs s') x = Ok (Some new)
    | Err _ => fs s' !! x = fs s !! x
    end) s.
Proof using.
  intros Hw Hx. destruct (real_next _ _ random Hx) as [Hq Hqx]. unfold atomicCompareAndSwapSymlink.
  apply wp_bind, wp_read_link; [done|done|]. destruct (read_link (fs s) x) as [actual|e] eqn:Hread; [|by split_and!; [apply kept_as_is| |]].
  apply wp_bind, wp_guardM; intros Heq; bool_inv; [subst actual|split_and!; [apply kept_as_is| |done]; intros _ _ [= ->]; done].
  pose proof (not_dir_of_read _ _ _ Hread) as Hd. cbv zeta.
  apply wp_bind, wp_on_error, wp_bind, wp_host. unfold symlinkSync. apply wp_bind, wp_lstat_real; [done|done|].
  (** A failure before the new link is made. *)
  assert (forall e, (budget s = None -> fs s !! q = None -> new <> ""%string -> False) ->
    wp (present ← host (existsSync q); if (present : bool) then host (unlinkSync q) else mret ()) (fun r2 s2 =>
      kept (fs s) (fs s2) /\
      (budget s = None -> fs s !! q = None -> Ok expected = Ok (A := option string) (E := pointer_error) expected -> new <> ""%string ->
        budget s2 = None /\ is_ok (@Err pointer_error (option string * string) (match r2 with Ok _ => e | Err e2 => e2 end)) = true) /\
      fs s2 !! x = fs s !! x) s) as Hfail.
  { intros e Hno. eapply wp_mono; [by apply cleanup_spec|]. cbn beta. intros r2 s2 [Hk Hsame]. split_and!; [done|tauto|done]. }
  destruct (fs s !! q) as [i|] eqn:Eq; [by apply wp_throw, Hfail|]. destruct (truthy_str new) eqn:Hne.
  2: { apply wp_throw, Hfail. intros _ _ Hn. unfold truthy_str in Hne. by bool_inv. }
  apply wp_kill; [by intros Hb; apply Hfail|]. intros b Hb. set (L := ILink new (link_meta now)) in *. cbn [fs].
  assert (gentle (fs s) (<[q := L]> (fs s))) as Hg1 by (apply gentle_insert; [done|congruence|done]).
  apply wp_bind, wp_host. unfold readlinkSync. apply wp_bind, wp_lstat_real;
    [by apply (gentle_well_formed _ _ Hg1)|by apply (gentle_real _ _ _ Hg1)|]. cbn [fs]. rewrite lookup_insert_eq. apply wp_ret.
  apply wp_bind, wp_guardM; intros Hwr; bool_inv; [|done].
  eapply wp_mono; [by apply (publish_spec (fs s) b)|]. cbn beta. intros [[]|e] s2 (Hk & Hcalm & Hnow).
  - apply wp_bind. destruct Hnow as [m Hm]. assert (read_link (fs s2) x = Ok (Some new)) as Hr2 by (unfold read_link; by rewrite Hm).
    apply wp_read_link; [by apply (gentle_well_formed _ _ (k_gentle _ _ Hk))|by apply (gentle_real _ _ _ (k_gentle _ _ Hk))|].
    rewrite Hr2. cbv beta iota. apply wp_bind, wp_guardM; intros Hb2; bool_inv; [|done]. apply wp_ret. split_and!; [done| |done|done].
    intros Hs _ _ _. split; [|done]. by apply Hcalm, Hb.
  - eapply wp_mono; [apply cleanup_spec; [by apply (gentle_well_formed _ _ (k_gentle _ _ Hk))|by apply (gentle_real _ _ _ (k_gentle _ _ Hk))]|].
    cbn beta. intros r3 s3 [Hk3 Hsame]. split_and!; [by eapply kept_in_turn| |congruence].
    intros Hs _ _ _. exfalso. by destruct (Hcalm (Hb Hs)).
Qed.
End Swap.

(** ** The two links of a product *)

Lemma remove_spec x target s : well_formed (fs s) -> real (fs s) x ->
  wp (atomicCompareAndRemoveSymlink x target) (fun r s' =>
    gentle (fs s) (fs s') /\ (forall y, y <> x -> fs s' !! y = fs s !! y) /\
    (budget s = None -> read_link (fs s) x = Ok (Some target) -> budget s' = None /\ is_ok r = true) /\
    match r with
    | Ok _ => read_link (fs s') x = Ok None
    | Err _ => fs s' !! x = fs s !! x
    end) s.
Proof.
  intros Hw Hx. assert (forall e : pointer_error, (budget s = None -> read_link (fs s) x = Ok (Some target) -> False) ->
    gentle (fs s) (fs s) /\ (forall y, y <> x -> fs s !! y = fs s !! y) /\
    (budget s = None -> read_link (fs s) x = Ok (Some target) -> budget s = None /\ is_ok (@Err _ string e) = true) /\
    fs s !! x = fs s !! x) as Hfail by (intros e H; split_and!; [reflexivity|done|tauto|done]).
  unfold atomicCompareAndRemoveSymlink. apply wp_bind, wp_read_link; [done|done|].
  destruct (read_link (fs s) x) as [actual|e] eqn:Hread; [|by apply Hfail].
  apply wp_bind, wp_guardM; intros Heq; bool_inv; [subst actual|by apply Hfail; intros _ [= ->]].
  apply wp_bind, wp_host. unfold unlinkSync. apply wp_bind, wp_lstat_real; [done|done|].
  assert (exists m, fs s !! x = Some (ILink target m)) as [m Ex].
  { unfold read_link in Hread. destruct (fs s !! x) as [[| |target' m|]|]; try done. injection Hread as ->. by exists m. }
  replace (match fs s !! x with Some i => Found x i | None => Free x end) with (Found x (ILink target m)) by (by rewrite Ex).
  cbn [isDirectory]. apply wp_kill; [by intros Hb; apply Hfail|]. intros b Hb. cbn [fs].
  assert (gentle (fs s) (delete x (fs s))) as Hg by (apply gentle_delete; [done|congruence]).
  pose proof (gentle_well_formed _ _ Hg Hw) as Hw2. pose proof (gentle_real _ _ _ Hg Hx) as Hx2.
  apply wp_bind, wp_host. unfold fsyncDirectory. destruct Hx as (d & c & -> & Hpd & Hpc & Hdir). rewrite removelast_last.
  destruct (locate_dir _ d false Hw2 Hpd) as [md Hmd]; [by apply (gentle_is_dir _ _ _ Hg)|].
  apply wp_bind, wp_lstat_place. cbn [fs]. rewrite Hmd. apply wp_ret. apply wp_bind, wp_read_link; [done|done|].
  assert (read_link (delete (d ++ [c]) (fs s)) (d ++ [c]) = Ok None) as Hnone by (unfold read_link; by rewrite lookup_delete_eq).
  cbn [fs]. rewrite Hnone. apply wp_bind, wp_guardM; intros H; bool_inv; [|done]. apply wp_ret. split_and!; [done| | |done].
  - intros y Hy. cbn [fs]. by rewrite lookup_delete_ne.
  - intros Hs _. split; [by apply Hb|done].
Qed.

Section Product.
Context (now : string) (cur prev : path) (good : string) (before : option string) (candidate : string).

(** The links are in real directories, and no temporary name is one of them. *)
Hypothesis Hnames : cur <> prev /\ (forall r, next_of prev r <> cur) /\ (forall r, next_of cur r <> prev).

(** Where the links are: as the guard found them; with the link to the known good release in both; with
    the candidate published. *)
Inductive phase : option string -> option string -> Prop :=
| known_good : phase (Some good) before
| fenced : phase (Some good) (Some good)
| published : phase (Some candidate) (Some good).

Record Links (t : tree) (c p : option string) : Prop := {
  ln_wf : well_formed t;
  ln_cur : real t cur;
  ln_prev : real t prev;
  ln_read_cur : read_link t cur = Ok c;
  ln_read_prev : read_link t prev = Ok p
}.

Lemma read_link_same t t' y o : t' !! y = t !! y -> read_link t y = Ok o -> read_link t' y = Ok o.
Proof using. unfold read_link. by intros ->. Qed.

Lemma links_gentle t t' c p c' p' : Links t c p -> gentle t t' -> read_link t' cur = Ok c' -> read_link t' prev = Ok p' -> Links t' c' p'.
Proof using.
  intros [Hw Hc Hp _ _] Hg Hrc Hrp. split; [by eapply gentle_well_formed|by eapply gentle_real|by eapply gentle_real|done|done].
Qed.

Lemma swap_cur random expected new s c p : Links (fs s) c p ->
  wp (atomicCompareAndSwapSymlink now random cur expected new) (fun r s' =>
    (forall y, y <> cur -> y <> next_of cur random -> fs s' !! y = fs s !! y) /\
    (budget s = None -> fs s !! next_of cur random = None -> c = expected -> new <> ""%string -> budget s' = None /\ is_ok r = true) /\
    match r with Ok _ => c = expected /\ Links (fs s') (Some new) p | Err _ => Links (fs s') c p end) s.
Proof using Hnames.
  intros HL. pose proof HL as [Hw Hc Hp Hrc Hrp]. destruct Hnames as (Hne & _ & Hq).
  eapply wp_mono; [by apply swap_spec|]. cbn beta. intros r s' ([Hg Ho] & Hcalm & Hr). split_and!; [done| |].
  - intros Hb Hfree <- Hnew. by apply Hcalm.
  - assert (read_link (fs s') prev = Ok p) as Hrp' by (eapply read_link_same, Hrp; apply Ho; [done|auto]).
    destruct r as [[a n]|e].
    + destruct Hr as [H1 H2]. split; [congruence|by eapply links_gentle].
    + eapply links_gentle; [done..| |done]. by eapply read_link_same.
Qed.

Lemma swap_prev random expected new s c p : Links (fs s) c p ->
  wp (atomicCompareAndSwapSymlink now random prev expected new) (fun r s' =>
    (forall y, y <> prev -> y <> next_of prev random -> fs s' !! y = fs s !! y) /\
    (budget s = None -> fs s !! next_of prev random = None -> p = expected -> new <> ""%string -> budget s' = None /\ is_ok r = true) /\
    match r with Ok _ => p = expected /\ Links (fs s') c (Some new) | Err _ => Links (fs s') c p end) s.
Proof using Hnames.
  intros HL. pose proof HL as [Hw Hc Hp Hrc Hrp]. destruct Hnames as (Hne & Hq & _).
  eapply wp_mono; [by apply swap_spec|]. cbn beta. intros r s' ([Hg Ho] & Hcalm & Hr). split_and!; [done| |].
  - intros Hb Hfree <- Hnew. by apply Hcalm.
  - assert (read_link (fs s') cur = Ok c) as Hrc' by (eapply read_link_same, Hrc; apply Ho; [done|auto]).
    destruct r as [[a n]|e].
    + destruct Hr as [H1 H2]. split; [congruence|by eapply links_gentle].
    + eapply links_gentle; [done..|]. by eapply read_link_same.
Qed.

Lemma remove_prev target s c p : Links (fs s) c p ->
  wp (atomicCompareAndRemoveSymlink prev target) (fun r s' =>
    (budget s = None -> p = Some target -> budget s' = None /\ is_ok r = true) /\
    match r with Ok _ => Links (fs s') c None | Err _ => Links (fs s') c p end) s.
Proof using Hnames.
  intros HL. pose proof HL as [Hw Hc Hp Hrc Hrp]. destruct Hnames as (Hne & _).
  eapply wp_mono; [by apply remove_spec|]. cbn beta. intros r s' (Hg & Ho & Hcalm & Hr). split.
  - intros Hb ->. by apply Hcalm.
  - assert (read_link (fs s') cur = Ok c) as Hrc' by (eapply read_link_same, Hrc; by apply Ho).
    destruct r; [by eapply links_gentle|]. eapply links_gentle; [done..|]. by eapply read_link_same.
Qed.

Lemma wp_read_cur Q s c p : Links (fs s) c p -> Q (Ok c) s -> wp (readSymlinkTarget cur) Q s.
Proof using. intros [Hw Hc _ Hr _] HQ. apply wp_read_link; [done|done|]. by rewrite Hr. Qed.

Lemma wp_read_prev Q s c p : Links (fs s) c p -> Q (Ok p) s -> wp (readSymlinkTarget prev) Q s.
Proof using. intros [Hw _ Hp _ Hr] HQ. apply wp_read_link; [done|done|]. by rewrite Hr. Qed.

(** *** The operations on them *)

Hypothesis Hgood : good <> ""%string /\ before <> Some ""%string.

Abbreviation in_phase t := (exists c p, Links t c p /\ phase c p).

Lemma good_target : some_target (Some good) = Some good.
Proof using Hgood. unfold some_target, truthy_str. destruct Hgood as [H _]. by rewrite bool_decide_eq_false_2. Qed.

Definition the_fences : fences := {| expectedCurrent := Some good; expectedPrevious := before |}.

Lemma swap_phase r1 r2 s c p : Links (fs s) c p -> phase c p ->
  wp (atomicSwapSymlinks now r1 r2 cur prev candidate (Some the_fences)) (fun r s' =>
    in_phase (fs s') /\
    match r with
    | Ok x => x = (Some good, candidate) /\ Links (fs s) (Some good) before /\ Links (fs s') (Some candidate) (Some good)
    | Err _ => True
    end) s.
Proof using Hnames Hgood.
  intros HL Hph. unfold atomicSwapSymlinks. apply wp_bind. eapply wp_read_cur; [exact HL|]. apply wp_bind. eapply wp_read_prev; [exact HL|].
  apply wp_bind, wp_guardM; intros Hf; [|by split; [eauto|]]. cbn in Hf. bool_inv. subst c p. rewrite good_target.
  apply wp_bind, wp_bind. eapply wp_mono; [by apply swap_prev|]. cbn beta. intros [x|e] s1 (_ & _ & H1); [|by split; [eauto|]].
  destruct H1 as [_ H1]. apply wp_ret. apply wp_bind. eapply wp_mono; [by apply swap_cur|]. cbn beta.
  intros [y|e] s2 (_ & _ & H2); [|by split; [eexists _, _; split; [exact H2|constructor]|]].
  destruct H2 as [_ H2]. apply wp_ret. split; [eexists _, _; split; [exact H2|constructor]|done].
Qed.

(** The first half of a rollback: the current link. *)
Definition restore_current (r1 : string) (c : option string) : PM unit :=
  if c !== Some good then
    guardM (c === Some candidate) plain_error;;
    atomicCompareAndSwapSymlink now r1 cur (Some candidate) good;; mret ()
  else mret ().

Definition restore_previous (r2 : string) (p : option string) : PM unit :=
  match before, p with
  | None, None => mret ()
  | None, Some target => atomicCompareAndRemoveSymlink prev target;; mret ()
  | Some target, _ =>
      if p !== Some target then atomicCompareAndSwapSymlink now r2 prev p target;; mret () else mret ()
  end.

Lemma restore_current_phase r1 s c p : Links (fs s) c p -> phase c p ->
  wp (restore_current r1 c) (fun r s' =>
    (budget s = None -> fs s !! next_of cur r1 = None -> budget s' = None /\ r = Ok tt) /\
    (forall y, y <> cur -> y <> next_of cur r1 -> fs s' !! y = fs s !! y) /\
    in_phase (fs s') /\ (r = Ok tt -> Links (fs s') (Some good) p /\ phase (Some good) p)) s.
Proof using Hnames Hgood.
  intros HL Hph. unfold restore_current. case_bool_decide as Hc; cbn [negb].
  { subst c. apply wp_ret. split_and!; [done|done|eauto|done]. }
  inversion Hph; subst; try done. apply wp_bind, wp_guardM; intros Hb; bool_inv; [|done].
  apply wp_bind. eapply wp_mono; [by apply swap_cur|]. cbn beta. intros [x|e] s' (Ho & Hcalm & Hr).
  - destruct Hr as [_ Hr]. apply wp_ret. split_and!; [|done|eexists _, _; split; [exact Hr|constructor]|split; [done|constructor]].
    intros Hs Hfree. split; [|done]. apply Hcalm; try done. by destruct Hgood.
  - split_and!; [|done|eauto|done]. intros Hs Hfree. destruct (Hcalm Hs Hfree eq_refl ltac:(by destruct Hgood)) as [_ H]. done.
Qed.

Lemma restore_previous_phase r2 s p : Links (fs s) (Some good) p -> phase (Some good) p ->
  wp (restore_previous r2 p) (fun r s' =>
    (budget s = None -> fs s !! next_of prev r2 = None -> r = Ok tt) /\
    in_phase (fs s') /\ (r = Ok tt -> Links (fs s') (Some good) before)) s.
Proof using Hnames Hgood.
  intros HL Hph.
  unfold restore_previous. destruct before as [b|] eqn:Eb.
  - case_bool_decide as Hp; cbn [negb]; [subst p; apply wp_ret; split_and!; [done|eauto|by rewrite <- Eb in HL |- *]|].
    apply wp_bind. eapply wp_mono; [by apply swap_prev|]. cbn beta. intros [x|e] s' (_ & Hcalm & Hr).
    + destruct Hr as [_ Hr]. apply wp_ret. rewrite <- Eb in Hr |- *. split_and!; [done| |done]. eexists _, _. split; [exact Hr|constructor].
    + split_and!; [|eauto|done]. intros Hs Hfree. assert (b <> ""%string) as Hne by (intros ->; by destruct Hgood).
      destruct (Hcalm Hs Hfree eq_refl Hne) as [_ H]. done.
  - destruct p as [target|]; [|apply wp_ret; split_and!; [done|eauto|done]].
    apply wp_bind. eapply wp_mono; [by apply remove_prev|]. cbn beta. intros [x|e] s' (Hcalm & Hr).
    + apply wp_ret. rewrite <- Eb in Hr |- *. split_and!; [done| |done]. eexists _, _. split; [exact Hr|constructor].
    + split_and!; [|eauto|done]. intros Hs _. destruct (Hcalm Hs eq_refl) as [_ H]. done.
Qed.
End Product.

(** ** Activations and rollbacks, each of them killed anywhere *)

(** The links of a product, under [/opt].
    Source: src/deployment/inactive-install.ts:44-47 (pointerPaths) *)
Definition pointerPaths (product : DeploymentProduct) : string * string :=
  match product with
  | baby_quirt => ("/opt/baby-quirt/current", "/opt/baby-quirt/previous")%string
  | baby_quirt_mcp => ("/opt/baby-quirt-mcp/current", "/opt/baby-quirt-mcp/previous")%string
  end.

Section History.
Context {C : Crypto} (now : string) (hostRoot : path) (product : DeploymentProduct) (good : string) (before : option string)
  (candidate : string).

Definition product_dir : path := hostRoot ++ ["opt"; match product with baby_quirt => "baby-quirt" | baby_quirt_mcp => "baby-quirt-mcp" end]%string.
Definition current_path : path := product_dir ++ ["current"]%string.
Definition previous_path : path := product_dir ++ ["previous"]%string.

(** What the guard of a deployment expects of the product. *)
Definition expected : ExpectedProductPointers := {|
  current := {| pi_link := fst (pointerPaths product); pi_target := Some good |};
  previous := {| pi_link := snd (pointerPaths product); pi_target := before |} |}.

Abbreviation Pointers t c p := (Links current_path previous_path t c p).
Abbreviation in_phase t := (exists c p, Pointers t c p /\ phase good before candidate c p).

Lemma names_distinct : current_path <> previous_path /\ (forall r, next_of previous_path r <> current_path) /\
  (forall r, next_of current_path r <> previous_path).
Proof using.
  unfold next_of, current_path, previous_path. rewrite !removelast_last, !last_snoc. cbn [default from_option Datatypes.id].
  split_and!; [|intros r|intros r]; intros [_ H]%app_inj_tail; discriminate.
Qed.

Lemma map_path l d : startsWith l "/" && negb (includes l "..") = true -> normalize (components l) = d ->
  mapHostPath hostRoot l = Ok (hostRoot ++ d).
Proof using.
  unfold mapHostPath. intros -> ->. assert (under hostRoot (hostRoot ++ d) = true) as -> by (apply under_eq; by exists d).
  by rewrite orb_true_r.
Qed.

Lemma map_links : mapHostPath hostRoot (fst (pointerPaths product)) = Ok current_path /\
  mapHostPath hostRoot (snd (pointerPaths product)) = Ok previous_path.
Proof using.
  unfold current_path, previous_path, product_dir. rewrite <- !app_assoc.
  destruct product; split; apply map_path; vm_compute; reflexivity.
Qed.

Hypothesis Hgood : good <> ""%string /\ before <> Some ""%string.

Lemma expected_given : bool_decide (is_Some (some_target (pi_target (current expected)))) = true.
Proof using Hgood. cbn [pi_target current expected]. rewrite good_target with (before := before) by done. apply bool_decide_eq_true_2. by eexists. Qed.

Lemma activate_phase r1 r2 s c p : Pointers (fs s) c p -> phase good before candidate c p ->
  wp (activate now hostRoot r1 r2 product expected candidate) (fun r s' =>
    in_phase (fs s') /\
    match r with
    | Ok a => Pointers (fs s) (Some good) before /\ Pointers (fs s') (Some candidate) (Some good) /\
        (exists D m q, mapHostPath hostRoot candidate = Ok q /\ locate (fs s) false q = Found D (IDir m)) /\
        a = {| ar_product := product; ar_previousTarget := Some good; ar_currentTarget := candidate;
               ar_pointerReadbackDigest := readback_digest (Some candidate) (Some good) |}
    | Err _ => True
    end) s.
Proof using Hgood.
  intros HL Hph. unfold activate. apply wp_bind, wp_guardM; intros Hg; [|by split; [eauto|]].
  apply wp_bind, wp_lift; [intros q Hq|by split; [eauto|]]. apply wp_bind, wp_host, wp_present. cbv beta iota.
  apply wp_bind, wp_guardM; intros Hex; [|by split; [eauto|]]. apply wp_bind, wp_host, wp_lstatSync.
  destruct (locate (fs s) false q) as [D i| |] eqn:Eloc; [|by split; [eauto|]..].
  apply wp_bind, wp_guardM; intros Hi; [|by split; [eauto|]]. destruct i as [|md| |]; try done.
  destruct map_links as [Hc Hp]. cbn [current previous expected pi_link pi_target]. rewrite Hc, Hp.
  apply wp_bind, wp_lift; [intros ? [= <-]|done]. apply wp_bind, wp_lift; [intros ? [= <-]|done].
  apply wp_bind. eapply wp_mono; [eapply (swap_phase now current_path previous_path good before candidate); eauto using names_distinct|].
  cbn beta. intros [x|e] s' [Hin Hr]; [|by split]. destruct Hr as (-> & Hbefore & Hafter).
  apply wp_bind. eapply wp_read_cur; [exact Hafter|]. apply wp_bind. eapply wp_read_prev; [exact Hafter|].
  apply wp_bind, wp_guardM; intros Hrb; [|by split]. apply wp_ret. split_and!; [done|done|done| |done]. by exists D, md, q.
Qed.

Lemma restore_phase r1 r2 s c p : Pointers (fs s) c p -> phase good before candidate c p ->
  wp (restoreProductPointers now hostRoot r1 r2 expected candidate) (fun r s' =>
    in_phase (fs s') /\
    (budget s = None -> fs s !! next_of current_path r1 = None -> fs s !! next_of previous_path r2 = None -> r = Ok tt) /\
    (r = Ok tt -> Pointers (fs s') (Some good) before)) s.
Proof using Hgood.
  intros HL Hph. unfold restoreProductPointers. destruct map_links as [Hc Hp]. cbn [current previous expected pi_link pi_target].
  rewrite Hc, Hp. apply wp_bind, wp_lift; [intros ? [= <-]|done]. apply wp_bind, wp_lift; [intros ? [= <-]|done].
  apply wp_bind. eapply wp_read_cur; [exact HL|]. rewrite good_target with (before := before) by done.
  apply wp_bind. change (wp (restore_current now current_path good candidate r1 c) (fun r s' => match r with
    | Ok _ => wp (p ← readSymlinkTarget previous_path; restore_previous now previous_path before r2 p) (fun r s' =>
        in_phase (fs s') /\
        (budget s = None -> fs s !! next_of current_path r1 = None -> fs s !! next_of previous_path r2 = None -> r = Ok tt) /\
        (r = Ok tt -> Pointers (fs s') (Some good) before)) s'
    | Err e => in_phase (fs s') /\
        (budget s = None -> fs s !! next_of current_path r1 = None -> fs s !! next_of previous_path r2 = None -> Err e = Ok tt) /\
        (Err e = Ok tt -> Pointers (fs s') (Some good) before)
    end) s).
  eapply wp_mono; [eapply (restore_current_phase now current_path previous_path good before candidate); eauto using names_distinct|].
  cbn beta. intros [[]|e] s1 (Hcalm & Ho & Hin & Hr).
  - destruct (Hr eq_refl) as [HL1 Hph1]. apply wp_bind. eapply wp_read_prev; [exact HL1|].
    eapply wp_mono; [eapply (restore_previous_phase now current_path previous_path good before candidate); eauto using names_distinct|].
    cbn beta. intros r s2 (Hcalm2 & Hin2 & Hr2). split_and!; [done| |done]. intros Hb H1 H2. destruct (Hcalm Hb H1) as [Hb1 _].
    apply Hcalm2; [done|]. rewrite Ho; [done|apply names_distinct|]. unfold next_of, current_path, previous_path.
    rewrite !removelast_last, !last_snoc. intros [_ H]%app_inj_tail. discriminate.
  - split_and!; [done| |done]. intros Hb H1 _. by destruct (Hcalm Hb H1).
Qed.

Lemma read_product s c p : Pointers (fs s) c p ->
  exists actual, readProduct hostRoot expected s = (Ok actual, s) /\ pi_target (current actual) = c /\ pi_target (previous actual) = p.
Proof using.
  intros [Hw Hrc Hrp Ec Ep]. destruct map_links as [Hc Hp]. unfold readProduct, readPointer. cbn [current previous expected pi_link].
  rewrite Hc, Hp. unfold mbind, M_bind, lift. rewrite read_link_run, Ec by done. cbn. rewrite read_link_run, Ep by done. cbn. by eexists.
Qed.

(** A process that activates or rolls back, and how many changes of the file system it lives for. *)
Inductive attempt :=
| Activation (lives : option nat) (random random' : string)
| Rollback (lives : option nat) (random random' : string).

Definition attempted (t : tree) (a : attempt) : tree :=
  match a with
  | Activation b r1 r2 => fs (snd (activate now hostRoot r1 r2 product expected candidate {| fs := t; budget := b |}))
  | Rollback b r1 r2 => fs (snd (restoreProductPointers now hostRoot r1 r2 expected candidate {| fs := t; budget := b |}))
  end.

Lemma attempts_in_phase l t : in_phase t -> in_phase (fold_left attempted l t).
Proof using Hgood.
  revert t. induction l as [|a l IH]; intros t Ht; [done|]. apply IH. destruct Ht as (c & p & HL & Hph), a as [b r1 r2|b r1 r2].
  - exact (proj1 (activate_phase r1 r2 {| fs := t; budget := b |} c p HL Hph)).
  - exact (proj1 (restore_phase r1 r2 {| fs := t; budget := b |} c p HL Hph)).
Qed.

(** C0: A rollback gets the release pointers back.  From the pointers the guard recorded, let activations
    and rollbacks run in any number and order, each killed between any two changes of the file system:
    the current pointer is always there, at the known good release or at the candidate, and in the second
    case the known good release is in the previous pointer, so the fence of the rollback accepts what it
    reads; and a rollback that is not killed then succeeds, and leaves exactly the recorded pointers. *)
Theorem rollback_recovers_pointers (t0 : tree) (l : list attempt) (r1 r2 : string) :
  Pointers t0 (Some good) before ->
  let t := fold_left attempted l t0 in
  (exists c p actual, Pointers t c p /\ phase good before candidate c p /\
     readProduct hostRoot expected {| fs := t; budget := None |} = (Ok actual, {| fs := t; budget := None |}) /\
     fence_product expected actual candidate = Ok tt) /\
  (t !! next_of current_path r1 = None -> t !! next_of previous_path r2 = None ->
   let (r, s') := restoreProductPointers now hostRoot r1 r2 expected candidate {| fs := t; budget := None |} in
   r = Ok tt /\ Pointers (fs s') (Some good) before).
Proof using Hgood.
  intros H0 t. destruct (attempts_in_phase l t0) as (c & p & HL & Hph); [exists (Some good), before; split; [done|constructor]|].
  fold t in HL. split.
  - destruct (read_product {| fs := t; budget := None |} c p HL) as (actual & Ha & Hc & Hp). exists c, p, actual. split_and!; [done..|].
    unfold fence_product. rewrite Hc, Hp. cbn. inversion Hph; subst; rewrite !bool_decide_eq_true_2 by set_solver; done.
  - intros H1 H2. pose proof (restore_phase r1 r2 {| fs := t; budget := None |} c p HL Hph) as H. unfold wp in H.
    destruct (restoreProductPointers _ _ _ _ _ _ _) as [r s']. destruct H as (_ & Hok & Hr). specialize (Hok eq_refl H1 H2). auto.
Qed.
Lemma stale_activation r1 r2 s c p : Pointers (fs s) c p -> ~ (c = Some good /\ p = before) ->
  wp (activate now hostRoot r1 r2 product expected candidate) (fun r s' => s' = s /\ is_ok r = false) s.
Proof using Hgood.
  intros HL Hne. unfold activate. apply wp_bind, wp_guardM; intros _; [|done].
  apply wp_bind, wp_lift; [intros q Hq|done]. apply wp_bind, wp_host, wp_present. cbv beta iota.
  apply wp_bind, wp_guardM; intros _; [|done]. apply wp_bind, wp_host, wp_lstatSync. destruct (locate (fs s) false q); [|done..].
  apply wp_bind, wp_guardM; intros _; [|done]. destruct map_links as [Hc Hp]. cbn [current previous expected pi_link pi_target].
  rewrite Hc, Hp. apply wp_bind, wp_lift; [intros ? [= <-]|done]. apply wp_bind, wp_lift; [intros ? [= <-]|done].
  unfold atomicSwapSymlinks. apply wp_bind, wp_bind. eapply wp_read_cur; [exact HL|]. apply wp_bind. eapply wp_read_prev; [exact HL|].
  apply wp_bind, wp_guardM; intros Hf; [|done]. cbn in Hf. bool_inv. by destruct Hne.
Qed.
End History.

(** C0: What an activation demands, and what it does.  Baby is activated only with the exact guard armed or
    pending, after the gateway was accepted, with the pointers as the guard recorded them, and a candidate
    that is a real directory; then the current pointer is the candidate and the previous one the release
    that was current.  If the guard, the acceptance or the pointers are not as demanded, nothing changes;
    and a failure on the way leaves pointers that a rollback gets back. *)
Theorem activation_outcome {C : Crypto} (now : string) (hostRoot : path) (guard : Guard) (status : Status) (accepted : bool)
    (good candidate : string) (before : option string) (r1 r2 : string) (s : Process) (c p : option string) :
  good <> ""%string /\ before <> Some ""%string ->
  baby (g_expectedPointers guard) = expected baby_quirt good before -> g_candidate_baby guard = candidate ->
  let Pointers := Links (current_path hostRoot baby_quirt) (previous_path hostRoot baby_quirt) in
  Pointers (fs s) c p ->
  let (r, s') := activateBabyCandidate now hostRoot r1 r2 guard status accepted s in
  let demanded := st_deploymentId status = g_deploymentId guard /\ st_generation status = g_generation guard /\
    st_guardRecordDigest status = g_recordDigest guard /\ (st_disposition status = "armed"%string \/ st_disposition status = "pending"%string) /\
    accepted = true /\ c = Some good /\ p = before in
  (~ demanded -> s' = s /\ is_ok r = false) /\
  (demanded -> exists c' p', Pointers (fs s') c' p' /\ phase good before candidate c' p') /\
  (forall a, r = Ok a -> Pointers (fs s') (Some candidate) (Some good) /\
     (exists D m q, mapHostPath hostRoot candidate = Ok q /\ locate (fs s) false q = Found D (IDir m)) /\
     a = {| ar_product := baby_quirt; ar_previousTarget := Some good; ar_currentTarget := candidate;
            ar_pointerReadbackDigest := readback_digest (Some candidate) (Some good) |}).
Proof.
  intros Hgood He <- Pointers HL.
  assert (wp (activateBabyCandidate now hostRoot r1 r2 guard status accepted) (fun r s' =>
    (s' = s /\ is_ok r = false /\ ~ (assertGuardReadback guard status = Ok tt /\ accepted = true /\ c = Some good /\ p = before)) \/
    (assertGuardReadback guard status = Ok tt /\ accepted = true /\ c = Some good /\ p = before /\
     wp (activate now hostRoot r1 r2 baby_quirt (expected baby_quirt good before) (g_candidate_baby guard)) (fun r2 s2 => r2 = r /\ s2 = s') s)) s)
    as H.
  { unfold activateBabyCandidate. apply wp_bind, wp_lift; [intros [] Hok|intros e He'; left; split_and!; [done|done|]; intros [? _]; congruence].
    apply wp_bind, wp_guardM; intros Ha; [|left; split_and!; [done|done|]; intros (_ & ? & _); congruence]. rewrite He.
    destruct (decide (c = Some good /\ p = before)) as [[-> ->]|Hne]; [right; by split_and!|].
    eapply wp_mono; [by apply (stale_activation now hostRoot baby_quirt good before _ Hgood r1 r2 s c p)|]. cbn beta.
    intros r s' [-> Hr]. left. split_and!; [done|done|tauto]. }
  unfold wp in H at 1. destruct (activateBabyCandidate _ _ _ _ _ _ _ s) as [r s']. cbn [fst snd] in H. cbv zeta.
  set (demanded := st_deploymentId status = _ /\ _).
  assert (demanded <-> assertGuardReadback guard status = Ok tt /\ accepted = true /\ c = Some good /\ p = before) as Hd.
  { unfold demanded, assertGuardReadback. rewrite require_Ok. unfold in_. rewrite !andb_true_iff, !bool_decide_eq_true. set_solver. }
  rewrite Hd. clearbody demanded. destruct H as [(-> & Hr & Hno)|(H1 & H2 & -> & -> & Hact)].
  { split_and!; [done|tauto|]. intros a ->. done. }
  pose proof (activate_phase now hostRoot baby_quirt good before (g_candidate_baby guard) Hgood r1 r2 s (Some good) before HL
    (known_good _ _ _)) as Hph. unfold wp in Hph, Hact. destruct Hact as [E1 E2]. rewrite E1, E2 in Hph.
  destruct Hph as [Hin Hr]. split_and!; [tauto|done|]. intros a ->. by destruct Hr as (_ & ? & ? & ?).
Qed.

(** ** Examples *)

Module Demo.
#[export] Existing Instance toy_crypto.

Definition meta : Meta := {| m_mode := 493; m_uid := 0; m_gid := 0; m_mtime := "0"; m_size := 4096 |}.
Definition one : string := "/opt/baby-quirt/releases/0.3.0".
Definition two : string := "/opt/baby-quirt/releases/0.4.0".
Definition dir : path := ["opt"; "baby-quirt"]%string.

(** A host with two releases; the first one is current, and there is no previous one. *)
Definition installed : tree :=
  <[dir ++ ["current"]%string := ILink one meta]> (<[dir ++ ["releases"; "0.4.0"]%string := IDir meta]>
    (<[dir ++ ["releases"; "0.3.0"]%string := IDir meta]> (<[dir ++ ["releases"]%string := IDir meta]>
      (<[dir := IDir meta]> (<[["opt"]%string := IDir meta]> ∅))))).

Definition links (t : tree) : option string * option string :=
  let target p := match t !! p with Some (ILink target _) => Some target | _ => None end in
  (target (dir ++ ["current"]%string), target (dir ++ ["previous"]%string)).

Abbreviation attempted := (attempted "1" [] baby_quirt one None two).

Example activation : links (attempted installed (Activation None "a" "b")) = (Some two, Some one).
Proof. vm_compute. reflexivity. Qed.

(** An activation that is killed after it moved the previous pointer, and what follows. *)
Definition interrupted : tree := attempted installed (Activation (Some 2%nat) "a" "b").
Example activation_killed : links interrupted = (Some one, Some one).
Proof. vm_compute. reflexivity. Qed.

(** It cannot be tried again: the previous pointer is not what the guard recorded. *)
Example activation_not_retried :
  fst (activate "1" [] "c" "d" baby_quirt (expected baby_quirt one None) two {| fs := interrupted; budget := None |}) =
  Err (PointerCasError (Some one) (Some one)).
Proof. vm_compute. reflexivity. Qed.

Example rollback_after_kill : links (attempted interrupted (Rollback None "e" "f")) = (Some one, None).
Proof. vm_compute. reflexivity. Qed.
Example rollback_killed : links (fold_left attempted [Activation None "a" "b"; Rollback (Some 2%nat) "c" "d"] installed) = (Some one, Some one).
Proof. vm_compute. reflexivity. Qed.

Lemma installed_links : Links (current_path [] baby_quirt) (previous_path [] baby_quirt) installed (Some one) None.
Proof.
  assert (forall c, plain c -> real installed (dir ++ [c])) as Hreal.
  { intros c Hc. exists dir, c. split_and!; [done| |done|by eexists]. by repeat constructor. }
  split; [|by apply Hreal|by apply Hreal|vm_compute; reflexivity|vm_compute; reflexivity].
  unfold installed.
  apply (well_formed_make _ dir "current"); [|by eexists|done].
  apply (well_formed_make _ (dir ++ ["releases"]%string) "0.4.0"); [|by eexists|done].
  apply (well_formed_make _ (dir ++ ["releases"]%string) "0.3.0"); [|by eexists|done].
  apply (well_formed_make _ dir "releases"); [|by eexists|done].
  apply (well_formed_make _ ["opt"]%string "baby-quirt"); [|by eexists|done].
  apply (well_formed_make _ [] "opt"); [|by eexists|done]. by intros p c H.
Qed.

Definition pointers : ExpectedProductPointers := expected baby_quirt one None.
Definition guard : Guard := {|
  g_deploymentId := "d"; g_generation := 1; g_recordDigest := "r"; g_expectedPointers := {| baby := pointers; gateway := pointers |};
  g_candidate_baby := two; g_candidate_gateway := two |}.
Definition armed_status : Status := {| st_deploymentId := "d"; st_generation := 1; st_guardRecordDigest := "r"; st_disposition := "armed" |}.
End Demo.

#[local] Existing Instance toy_crypto.

Lemma rollback_recovers_pointers_witness :
  let t := fold_left Demo.attempted [Activation None "a" "b"; Rollback (Some 2%nat) "c" "d"; Activation (Some 1%nat) "e" "f"] Demo.installed in
  Demo.links t = (Some Demo.one, Some Demo.one) /\
  let (r, s') := restoreProductPointers "1" [] "g" "h" Demo.pointers Demo.two {| fs := t; budget := None |} in
  r = Ok tt /\ Links (current_path [] baby_quirt) (previous_path [] baby_quirt) (fs s') (Some Demo.one) None.
Proof.
  cbv zeta. split; [vm_compute; reflexivity|].
  apply (rollback_recovers_pointers "1" [] baby_quirt Demo.one None Demo.two ltac:(by split) Demo.installed
    [Activation None "a" "b"; Rollback (Some 2%nat) "c" "d"; Activation (Some 1%nat) "e" "f"] "g" "h" Demo.installed_links);
    vm_compute; reflexivity.
Defined.

Lemma activation_outcome_witness :
  let (r, s') := activateBabyCandidate "1" [] "a" "b" Demo.guard Demo.armed_status true {| fs := Demo.installed; budget := None |} in
  is_ok r = true /\ Links (current_path [] baby_quirt) (previous_path [] baby_quirt) (fs s') (Some Demo.two) (Some Demo.one).
Proof.
  pose proof (activation_outcome "1" [] Demo.guard Demo.armed_status true Demo.one Demo.two None "a" "b"
    {| fs := Demo.installed; budget := None |} (Some Demo.one) None ltac:(by split) eq_refl eq_refl Demo.installed_links) as H.
  assert (is_ok (fst (activateBabyCandidate "1" [] "a" "b" Demo.guard Demo.armed_status true {| fs := Demo.installed; budget := None |})) = true)
    as Hok by (vm_compute; reflexivity).
  destruct (activateBabyCandidate _ _ _ _ _ _ _ _) as [[a|e] s']; [|done]. split; [done|]. by destruct H as (_ & _ & H), (H a eq_refl).
Defined.
