(* ===== verification/DeliveryPlan.v ===== *)
(** * Delivery plans ([src/delivery/plan.ts], [src/delivery/types.ts])

    The records of an automated delivery and the strict canonicalization of a plan: every shape
    check, in the order of the code, from an unknown JSON value to a typed plan with its digest.
    The theorems: a canonical plan is a fixed point, the order of members does not matter, and a
    digest stands for one plan. *)

From Stdlib Require Import Sorted.
From S2P Require Import Prelude Bytes Json Platform Canonical.

#[global] Open Scope Z_scope.

(** ** Errors and states *)

(** The [code] of a [DeliveryError]; the last two are the errors of SQLite and the [TypeError]s.
    Source: src/delivery/types.ts:251-283 (DeliveryError) *)
Inductive DeliveryError :=
| delivery_invalid | delivery_not_found | delivery_conflict | delivery_plan_changed
| delivery_authorization_invalid | delivery_expired | delivery_wrong_host | delivery_wrong_machine
| delivery_source_mismatch | delivery_tree_mismatch | delivery_source_digest_mismatch
| delivery_credential_unavailable | delivery_controller_conflict | delivery_generation_conflict
| delivery_state_conflict | delivery_receipt_invalid | delivery_evidence_insufficient
| delivery_rollback_failed | delivery_manual_recovery_required | delivery_unknown | idempotency_conflict
| sqlite_constraint | delivery_type_error.

#[global] Instance DeliveryError_eq_dec : EqDecision DeliveryError.
Proof. solve_decision. Defined.

Abbreviation DR A := (result DeliveryError A).

(** Source: src/delivery/types.ts:5-5 (DELIVERY_PLAN_SCHEMA_VERSION) *)
Definition DELIVERY_PLAN_SCHEMA_VERSION : string := "1.0.0".

(** Source: src/delivery/types.ts:39-45 (SOURCE_MATERIALIZATION_ADAPTERS) *)
Definition SOURCE_MATERIALIZATION_ADAPTERS : list string :=
  ["baby_selfhost"; "immutable_source_artifact"; "authenticated_git"; "connector_handoff"]%string.

(** ** Records *)

(** Source: src/delivery/types.ts:47-55 (DeliverySourceIdentity) *)
Record DeliverySourceIdentity := {
  si_product : string;
  si_repository : string;
  si_commit : string;
  si_tree : string;
  si_adapter : string;
  si_immutableDigest : string;
  si_credentialReference : option string
}.

(** Source: src/delivery/types.ts:57-61 (DeliveryToolchainIdentity) *)
Record DeliveryToolchainIdentity := { tc_name : string; tc_version : string; tc_digest : option string }.

(** Source: src/delivery/types.ts:63-66 (DeliveryLockfileIdentity) *)
Record DeliveryLockfileIdentity := { lf_path : string; lf_sha256 : string }.

(** Source: src/delivery/types.ts:68-76 (DeliveryBuildProfile) *)
Record DeliveryBuildProfile := {
  bp_name : string;
  bp_version : string;
  bp_commands : list string;
  bp_toolchains : list DeliveryToolchainIdentity;
  bp_lockfiles : list DeliveryLockfileIdentity;
  bp_cleanEnvironment : bool;
  bp_reproducibleBuilds : Z
}.

(** Source: src/delivery/types.ts:78-84 (DeliveryTestProfile) *)
Record DeliveryTestProfile := {
  tp_name : string;
  tp_version : string;
  tp_commands : list string;
  tp_requireZeroSkips : bool;
  tp_requireStableCounts : bool
}.

(** Source: src/delivery/types.ts:86-95 (DeliveryCertificationProfile) *)
Record DeliveryCertificationProfile := {
  cp_name : string;
  cp_version : string;
  cp_requiredNspawnProperties : list string;
  cp_cycles : list string;
  cp_requireSystemdPid1 : bool;
  cp_requireUid0Supervisor : bool;
  cp_requireGatewayUid997 : bool;
  cp_destroyAfterCertification : bool
}.

(** Source: src/delivery/types.ts:97-101 (DeliveryCandidateVerificationProfile) *)
Record DeliveryCandidateVerificationProfile := { cv_name : string; cv_version : string; cv_checks : list string }.

(** Source: src/delivery/types.ts:103-107 (DeliveryAcceptanceProfile) *)
Record DeliveryAcceptanceProfile := {
  ap_privateChecks : list string;
  ap_publicChecks : list string;
  ap_requireAll : bool
}.

(** Source: src/delivery/types.ts:109-113 (DeliverySoakProfile) *)
Record DeliverySoakProfile := { sp_durationSeconds : Z; sp_checkpointSeconds : list Z; sp_checks : list string }.

(** The three dispositions are fixed.
    Source: src/delivery/types.ts:115-122 (DeliveryRollbackPolicy) *)
Record DeliveryRollbackPolicy := {
  rp_automaticOnAcceptanceFailure : bool;
  rp_automaticOnSoakFailure : bool;
  rp_automaticOnDeadline : bool
}.

(** Source: src/delivery/types.ts:124-132 (DeliveryResourceBounds) *)
Record DeliveryResourceBounds := {
  rb_maxWallSeconds : Z;
  rb_maxCpuSeconds : Z;
  rb_maxMemoryBytes : Z;
  rb_maxDiskBytes : Z;
  rb_maxInodes : Z;
  rb_maxOutputBytes : Z;
  rb_maxArtifacts : Z
}.

(** Source: src/delivery/types.ts:134-138 (DeliveryTimeBounds) *)
Record DeliveryTimeBounds := { tb_notBefore : string; tb_expiresAt : string; tb_guardDeadline : string }.

(** Source: src/delivery/types.ts:140-143 (DeliveryCostBounds) *)
Record DeliveryCostBounds := { cb_currency : string; cb_maximumMinorUnits : Z }.

(** Source: src/delivery/types.ts:145-150 (DeliveryRetentionPolicy) *)
Record DeliveryRetentionPolicy := {
  rt_eventDays : Z;
  rt_evidenceDays : Z;
  rt_artifactDays : Z;
  rt_retainTerminalRuns : Z
}.

(** [activationOrder] and [schemaVersion] are fixed.
    Source: src/delivery/types.ts:152-177 (DeliveryPlanInput) *)
Record DeliveryPlanInput := {
  pi_deliveryId : string;
  pi_ownerPrincipal : string;
  pi_authorizationReference : string;
  pi_targetHostname : string;
  pi_targetMachineIdentity : string;
  pi_products : list DeliverySourceIdentity;
  pi_buildProfile : DeliveryBuildProfile;
  pi_testProfile : DeliveryTestProfile;
  pi_certificationProfile : DeliveryCertificationProfile;
  pi_targetBaby : string;
  pi_targetGateway : string;
  pi_protectedReleases : list string;
  pi_protectedPaths : list string;
  pi_candidateVerificationProfile : DeliveryCandidateVerificationProfile;
  pi_acceptanceProfile : DeliveryAcceptanceProfile;
  pi_soakProfile : DeliverySoakProfile;
  pi_rollbackPolicy : DeliveryRollbackPolicy;
  pi_timeBounds : DeliveryTimeBounds;
  pi_allowedExternalSideEffects : list string;
  pi_resourceBounds : DeliveryResourceBounds;
  pi_costBounds : DeliveryCostBounds;
  pi_evidenceRequirements : list string;
  pi_retentionPolicy : DeliveryRetentionPolicy
}.

(** Source: src/delivery/types.ts:179-181 (CanonicalDeliveryPlan) *)
Record CanonicalDeliveryPlan := { cd_input : DeliveryPlanInput; cd_planDigest : string }.

(** ** The object literals of the records *)

Definition strs (l : list string) : json := JArr (List.map JStr l).
Definition member_opt (k : string) (v : option string) : props json :=
  match v with Some v => [(k, JStr v)] | None => [] end.

Definition source_doc (s : DeliverySourceIdentity) : json :=
  JObj ([("product", JStr (si_product s)); ("repository", JStr (si_repository s)); ("commit", JStr (si_commit s));
         ("tree", JStr (si_tree s)); ("adapter", JStr (si_adapter s));
         ("immutableDigest", JStr (si_immutableDigest s))]%string ++
        member_opt "credentialReference" (si_credentialReference s)).

Definition toolchain_doc (t : DeliveryToolchainIdentity) : json :=
  JObj ([("name", JStr (tc_name t)); ("version", JStr (tc_version t))]%string ++ member_opt "digest" (tc_digest t)).

Definition lockfile_doc (l : DeliveryLockfileIdentity) : json :=
  JObj [("path", JStr (lf_path l)); ("sha256", JStr (lf_sha256 l))]%string.

Definition build_doc (b : DeliveryBuildProfile) : json :=
  JObj [("name", JStr (bp_name b)); ("version", JStr (bp_version b)); ("commands", strs (bp_commands b));
        ("toolchains", JArr (List.map toolchain_doc (bp_toolchains b)));
        ("lockfiles", JArr (List.map lockfile_doc (bp_lockfiles b)));
        ("cleanEnvironment", JBool (bp_cleanEnvironment b));
        ("reproducibleBuilds", JNum (bp_reproducibleBuilds b))]%string.

Definition test_doc (t : DeliveryTestProfile) : json :=
  JObj [("name", JStr (tp_name t)); ("version", JStr (tp_version t)); ("commands", strs (tp_commands t));
        ("requireZeroSkips", JBool (tp_requireZeroSkips t));
        ("requireStableCounts", JBool (tp_requireStableCounts t))]%string.

Definition certification_doc (c : DeliveryCertificationProfile) : json :=
  JObj [("name", JStr (cp_name c)); ("version", JStr (cp_version c));
        ("requiredNspawnProperties", strs (cp_requiredNspawnProperties c)); ("cycles", strs (cp_cycles c));
        ("requireSystemdPid1", JBool (cp_requireSystemdPid1 c));
        ("requireUid0Supervisor", JBool (cp_requireUid0Supervisor c));
        ("requireGatewayUid997", JBool (cp_requireGatewayUid997 c));
        ("destroyAfterCertification", JBool (cp_destroyAfterCertification c))]%string.

Definition candidate_doc (c : DeliveryCandidateVerificationProfile) : json :=
  JObj [("name", JStr (cv_name c)); ("version", JStr (cv_version c)); ("checks", strs (cv_checks c))]%string.

Definition acceptance_doc (a : DeliveryAcceptanceProfile) : json :=
  JObj [("privateChecks", strs (ap_privateChecks a)); ("publicChecks", strs (ap_publicChecks a));
        ("requireAll", JBool (ap_requireAll a))]%string.

Definition soak_doc (s : DeliverySoakProfile) : json :=
  JObj [("durationSeconds", JNum (sp_durationSeconds s));
        ("checkpointSeconds", JArr (List.map JNum (sp_checkpointSeconds s))); ("checks", strs (sp_checks s))]%string.

Definition rollback_doc (r : DeliveryRollbackPolicy) : json :=
  JObj [("automaticOnAcceptanceFailure", JBool (rp_automaticOnAcceptanceFailure r));
        ("automaticOnSoakFailure", JBool (rp_automaticOnSoakFailure r));
        ("automaticOnDeadline", JBool (rp_automaticOnDeadline r)); ("cancellationAfterArm", JStr "rollback");
        ("unknownDisposition", JStr "repair_required");
        ("rollbackFailureDisposition", JStr "manual_recovery_required")]%string.

Definition resource_doc (r : DeliveryResourceBounds) : json :=
  JObj [("maxWallSeconds", JNum (rb_maxWallSeconds r)); ("maxCpuSeconds", JNum (rb_maxCpuSeconds r));
        ("maxMemoryBytes", JNum (rb_maxMemoryBytes r)); ("maxDiskBytes", JNum (rb_maxDiskBytes r));
        ("maxInodes", JNum (rb_maxInodes r)); ("maxOutputBytes", JNum (rb_maxOutputBytes r));
        ("maxArtifacts", JNum (rb_maxArtifacts r))]%string.

Definition time_doc (t : DeliveryTimeBounds) : json :=
  JObj [("notBefore", JStr (tb_notBefore t)); ("expiresAt", JStr (tb_expiresAt t));
        ("guardDeadline", JStr (tb_guardDeadline t))]%string.

Definition cost_doc (c : DeliveryCostBounds) : json :=
  JObj [("currency", JStr (cb_currency c)); ("maximumMinorUnits", JNum (cb_maximumMinorUnits c))]%string.

Definition retention_doc (r : DeliveryRetentionPolicy) : json :=
  JObj [("eventDays", JNum (rt_eventDays r)); ("evidenceDays", JNum (rt_evidenceDays r));
        ("artifactDays", JNum (rt_artifactDays r)); ("retainTerminalRuns", JNum (rt_retainTerminalRuns r))]%string.

Definition targets_doc (p : DeliveryPlanInput) : json :=
  JObj [("baby-quirt", JStr (pi_targetBaby p)); ("baby-quirt-mcp", JStr (pi_targetGateway p))]%string.

(** The body of a plan.
    Source: src/delivery/plan.ts:337-365 (canonicalizeDeliveryPlan) *)
Definition plan_body (p : DeliveryPlanInput) : props json :=
  [("schemaVersion", JStr DELIVERY_PLAN_SCHEMA_VERSION); ("deliveryId", JStr (pi_deliveryId p));
   ("ownerPrincipal", JStr (pi_ownerPrincipal p)); ("authorizationReference", JStr (pi_authorizationReference p));
   ("targetHostname", JStr (pi_targetHostname p)); ("targetMachineIdentity", JStr (pi_targetMachineIdentity p));
   ("products", JArr (List.map source_doc (pi_products p))); ("buildProfile", build_doc (pi_buildProfile p));
   ("testProfile", test_doc (pi_testProfile p)); ("certificationProfile", certification_doc (pi_certificationProfile p));
   ("targetReleaseIdentifiers", targets_doc p); ("protectedReleases", strs (pi_protectedReleases p));
   ("protectedPaths", strs (pi_protectedPaths p));
   ("candidateVerificationProfile", candidate_doc (pi_candidateVerificationProfile p));
   ("activationOrder", strs ["baby-quirt-mcp"; "baby-quirt"]);
   ("acceptanceProfile", acceptance_doc (pi_acceptanceProfile p)); ("soakProfile", soak_doc (pi_soakProfile p));
   ("rollbackPolicy", rollback_doc (pi_rollbackPolicy p)); ("timeBounds", time_doc (pi_timeBounds p));
   ("allowedExternalSideEffects", strs (pi_allowedExternalSideEffects p));
   ("resourceBounds", resource_doc (pi_resourceBounds p)); ("costBounds", cost_doc (pi_costBounds p));
   ("evidenceRequirements", strs (pi_evidenceRequirements p));
   ("retentionPolicy", retention_doc (pi_retentionPolicy p))]%string.

Definition plan_doc (p : CanonicalDeliveryPlan) : props json :=
  plan_body (cd_input p) ++ [("planDigest"%string, JStr (cd_planDigest p))].

(** ** The checks *)

(** [/^[A-Za-z0-9][A-Za-z0-9._:/@+-]{0,511}$/]
    Source: src/delivery/plan.ts:29-29 (REFERENCE) *)
Definition REFERENCE (s : string) : bool :=
  match s with
  | EmptyString => false
  | String c s => is_alnum c && (String.length s <=? 511)%nat &&
                  all_chars (fun c => is_alnum c || one_of "._:/@+-" c) s
  end.

(** After the first slash: no zero, and no empty segment but the last.
    Source: src/delivery/plan.ts:30-30 (PATH) *)
Definition PATH (s : string) : bool :=
  match s with
  | String c s =>
      bool_decide (c = "/"%char) && all_chars (fun c => negb (code c =? 0)) s &&
      forallb (fun part => negb (bool_decide (part = ""%string))) (removelast (Bytes.split "/" s))
  | EmptyString => false
  end.

Definition CURRENCY (s : string) : bool := (String.length s =? 3)%nat && all_chars is_upper s.
Definition any (s : string) : bool := true.

(** Source: src/delivery/plan.ts:32-37 (record) *)
Definition record (value : json) : DR (props json) :=
  match value with JObj kvs => Ok kvs | _ => Err delivery_invalid end.

(** The texts of the two sorted arrays of names are compared, which is to compare the arrays.
    Source: src/delivery/plan.ts:39-48 (exact) *)
Definition exact (value : props json) (expected : list string) : DR unit :=
  require (sort_strings (keys value) === sort_strings expected) delivery_invalid.

(** Source: src/delivery/plan.ts:50-58 (text) *)
Definition text (value : json) (pattern : string -> bool) : DR string :=
  match value with
  | JStr s =>
      _ ← require (negb (String.length s =? 0)%nat && (String.length s <=? 4096)%nat) delivery_invalid;
      _ ← require (pattern s) delivery_invalid;
      Ok s
  | _ => Err delivery_invalid
  end.

(** Source: src/delivery/plan.ts:60-63 (bool) *)
Definition boolean (value : json) : DR bool :=
  match value with JBool b => Ok b | _ => Err delivery_invalid end.

(** Source: src/delivery/plan.ts:65-70 (integer) *)
Definition integer (value : json) (minimum : Z) : DR Z :=
  match value with
  | JNum z => _ ← require (isSafeInteger z && (minimum <=? z)) delivery_invalid; Ok z
  | _ => Err delivery_invalid
  end.

Definition unique {A} `{EqDecision A} (l : list A) : bool := bool_decide (NoDup l).

(** Source: src/delivery/plan.ts:81-90 (strings) *)
Definition strings (value : json) (nonempty : bool) (pattern : string -> bool) : DR (list string) :=
  match value with
  | JArr l =>
      _ ← require (negb (nonempty && (length l =? 0)%nat) && (length l <=? 512)%nat) delivery_invalid;
      result ← result_mapM (fun item => text item pattern) l;
      _ ← require (unique result) delivery_invalid;
      Ok result
  | _ => Err delivery_invalid
  end.

(** [l.sort((a, b) => a - b)] *)
Fixpoint insert_number (x : Z) (l : list Z) : list Z :=
  match l with
  | [] => [x]
  | y :: l => if x <=? y then x :: y :: l else y :: insert_number x l
  end.
Definition sort_numbers (l : list Z) : list Z := foldr insert_number [] l.

Section Plan.
Context {C : Crypto} {D : Dates} {Lo : Locale}.

(** Source: src/delivery/plan.ts:72-79 (timestamp) *)
Definition timestamp (value : json) : DR string :=
  result ← text value any;
  _ ← require (canonical_timestamp result) delivery_invalid;
  Ok result.

(** Source: src/delivery/plan.ts:92-94 (sorted) *)
Definition sorted (values : list string) : list string := locale_sort id values.

Definition source_names : list string :=
  ["product"; "repository"; "commit"; "tree"; "adapter"; "immutableDigest"]%string.

(** Source: src/delivery/plan.ts:96-134 (source) *)
Definition source (value : json) : DR DeliverySourceIdentity :=
  item ← record value;
  _ ← require (forallb (fun k => bool_decide (k ∈ source_names ++ ["credentialReference"%string])) (keys item) &&
               forallb (fun k => bool_decide (k ∈ keys item)) source_names) delivery_invalid;
  product ← text (prop "product" item) any;
  _ ← require ((product === "baby-quirt"%string) || (product === "baby-quirt-mcp"%string)) delivery_invalid;
  repository ← text (prop "repository" item) REFERENCE;
  _ ← require (repository === ("StealthEyeLLC/" +:+ product)) delivery_invalid;
  adapter ← text (prop "adapter" item) any;
  _ ← require (bool_decide (adapter ∈ SOURCE_MATERIALIZATION_ADAPTERS)) delivery_invalid;
  credentialReference ← (if prop "credentialReference" item === JUndefined then Ok None
                         else r ← text (prop "credentialReference" item) REFERENCE; Ok (Some r));
  _ ← require (negb ((adapter === "authenticated_git"%string) && (credentialReference === None)))
        delivery_credential_unavailable;
  _ ← require (negb ((adapter !== "authenticated_git"%string) && (credentialReference !== None))) delivery_invalid;
  commit ← text (prop "commit" item) GIT_OBJECT_PATTERN;
  tree ← text (prop "tree" item) GIT_OBJECT_PATTERN;
  immutableDigest ← text (prop "immutableDigest" item) DIGEST_PATTERN;
  Ok {| si_product := product; si_repository := repository; si_commit := commit; si_tree := tree;
        si_adapter := adapter; si_immutableDigest := immutableDigest;
        si_credentialReference := credentialReference |}.

(** Source: src/delivery/plan.ts:136-145 (toolchain) *)
Definition toolchain (value : json) : DR DeliveryToolchainIdentity :=
  item ← record value;
  _ ← exact item (if prop "digest" item === JUndefined then ["name"; "version"] else ["name"; "version"; "digest"])%string;
  name ← text (prop "name" item) IDENTIFIER_PATTERN;
  version ← text (prop "version" item) REFERENCE;
  digest ← (if prop "digest" item === JUndefined then Ok None
            else d ← text (prop "digest" item) DIGEST_PATTERN; Ok (Some d));
  Ok {| tc_name := name; tc_version := version; tc_digest := digest |}.

(** Source: src/delivery/plan.ts:147-154 (lockfile) *)
Definition lockfile (value : json) : DR DeliveryLockfileIdentity :=
  item ← record value;
  _ ← exact item ["path"; "sha256"]%string;
  path ← text (prop "path" item) any;
  sha256 ← text (prop "sha256" item) DIGEST_PATTERN;
  Ok {| lf_path := path; lf_sha256 := sha256 |}.

(** [Array.isArray(v) && v.length > 0 && v.length <= 64] *)
Definition bounded_array (v : json) : DR (list json) :=
  match v with
  | JArr l => _ ← require (negb (length l =? 0)%nat && (length l <=? 64)%nat) delivery_invalid; Ok l
  | _ => Err delivery_invalid
  end.

(** Source: src/delivery/plan.ts:156-182 (buildProfile) *)
Definition buildProfile (value : json) : DR DeliveryBuildProfile :=
  item ← record value;
  _ ← exact item ["name"; "version"; "commands"; "toolchains"; "lockfiles"; "cleanEnvironment"; "reproducibleBuilds"]%string;
  rawToolchains ← bounded_array (prop "toolchains" item);
  rawLockfiles ← bounded_array (prop "lockfiles" item);
  toolchains ← result_mapM toolchain rawToolchains;
  let toolchains := locale_sort tc_name toolchains in
  lockfiles ← result_mapM lockfile rawLockfiles;
  let lockfiles := locale_sort lf_path lockfiles in
  _ ← require (unique (List.map tc_name toolchains)) delivery_invalid;
  _ ← require (unique (List.map lf_path lockfiles)) delivery_invalid;
  name ← text (prop "name" item) IDENTIFIER_PATTERN;
  version ← text (prop "version" item) REFERENCE;
  commands ← strings (prop "commands" item) true any;
  cleanEnvironment ← boolean (prop "cleanEnvironment" item);
  reproducibleBuilds ← integer (prop "reproducibleBuilds" item) 2;
  Ok {| bp_name := name; bp_version := version; bp_commands := commands; bp_toolchains := toolchains;
        bp_lockfiles := lockfiles; bp_cleanEnvironment := cleanEnvironment;
        bp_reproducibleBuilds := reproducibleBuilds |}.

(** Source: src/delivery/plan.ts:184-194 (testProfile) *)
Definition testProfile (value : json) : DR DeliveryTestProfile :=
  item ← record value;
  _ ← exact item ["name"; "version"; "commands"; "requireZeroSkips"; "requireStableCounts"]%string;
  name ← text (prop "name" item) IDENTIFIER_PATTERN;
  version ← text (prop "version" item) REFERENCE;
  commands ← strings (prop "commands" item) true any;
  requireZeroSkips ← boolean (prop "requireZeroSkips" item);
  requireStableCounts ← boolean (prop "requireStableCounts" item);
  Ok {| tp_name := name; tp_version := version; tp_commands := commands;
        tp_requireZeroSkips := requireZeroSkips; tp_requireStableCounts := requireStableCounts |}.

Definition required_cycles : list string := ["success"; "automatic_rollback"; "restart_or_reboot_recovery"]%string.

(** Source: src/delivery/plan.ts:196-214 (certificationProfile) *)
Definition certificationProfile (value : json) : DR DeliveryCertificationProfile :=
  item ← record value;
  _ ← exact item ["name"; "version"; "requiredNspawnProperties"; "cycles"; "requireSystemdPid1"; "requireUid0Supervisor";
                  "requireGatewayUid997"; "destroyAfterCertification"]%string;
  cycles ← strings (prop "cycles" item) true any;
  _ ← require (forallb (fun c => bool_decide (c ∈ cycles)) required_cycles) delivery_invalid;
  name ← text (prop "name" item) IDENTIFIER_PATTERN;
  version ← text (prop "version" item) REFERENCE;
  properties ← strings (prop "requiredNspawnProperties" item) true any;
  requireSystemdPid1 ← boolean (prop "requireSystemdPid1" item);
  requireUid0Supervisor ← boolean (prop "requireUid0Supervisor" item);
  requireGatewayUid997 ← boolean (prop "requireGatewayUid997" item);
  destroyAfterCertification ← boolean (prop "destroyAfterCertification" item);
  Ok {| cp_name := name; cp_version := version; cp_requiredNspawnProperties := sorted properties;
        cp_cycles := cycles; cp_requireSystemdPid1 := requireSystemdPid1;
        cp_requireUid0Supervisor := requireUid0Supervisor; cp_requireGatewayUid997 := requireGatewayUid997;
        cp_destroyAfterCertification := destroyAfterCertification |}.

(** Source: src/delivery/plan.ts:216-224 (candidateProfile) *)
Definition candidateProfile (value : json) : DR DeliveryCandidateVerificationProfile :=
  item ← record value;
  _ ← exact item ["name"; "version"; "checks"]%string;
  name ← text (prop "name" item) IDENTIFIER_PATTERN;
  version ← text (prop "version" item) REFERENCE;
  checks ← strings (prop "checks" item) true any;
  Ok {| cv_name := name; cv_version := version; cv_checks := checks |}.

(** Source: src/delivery/plan.ts:226-234 (acceptanceProfile) *)
Definition acceptanceProfile (value : json) : DR DeliveryAcceptanceProfile :=
  item ← record value;
  _ ← exact item ["privateChecks"; "publicChecks"; "requireAll"]%string;
  privateChecks ← strings (prop "privateChecks" item) true any;
  publicChecks ← strings (prop "publicChecks" item) true any;
  requireAll ← boolean (prop "requireAll" item);
  Ok {| ap_privateChecks := privateChecks; ap_publicChecks := publicChecks; ap_requireAll := requireAll |}.

Definition nonempty_array (v : json) : DR (list json) :=
  match v with
  | JArr l => _ ← require (negb (length l =? 0)%nat) delivery_invalid; Ok l
  | _ => Err delivery_invalid
  end.

(** Source: src/delivery/plan.ts:236-255 (soakProfile) *)
Definition soakProfile (value : json) : DR DeliverySoakProfile :=
  item ← record value;
  _ ← exact item ["durationSeconds"; "checkpointSeconds"; "checks"]%string;
  durationSeconds ← integer (prop "durationSeconds" item) 1;
  raw ← nonempty_array (prop "checkpointSeconds" item);
  checkpointSeconds ← result_mapM (fun entry => integer entry 1) raw;
  _ ← require (forallb (fun entry => entry <=? durationSeconds) checkpointSeconds) delivery_invalid;
  _ ← require (unique checkpointSeconds) delivery_invalid;
  checks ← strings (prop "checks" item) true any;
  Ok {| sp_durationSeconds := durationSeconds; sp_checkpointSeconds := sort_numbers checkpointSeconds;
        sp_checks := checks |}.

(** Source: src/delivery/plan.ts:257-271 (rollbackPolicy) *)
Definition rollbackPolicy (value : json) : DR DeliveryRollbackPolicy :=
  item ← record value;
  _ ← exact item ["automaticOnAcceptanceFailure"; "automaticOnSoakFailure"; "automaticOnDeadline";
                  "cancellationAfterArm"; "unknownDisposition"; "rollbackFailureDisposition"]%string;
  _ ← require ((prop "cancellationAfterArm" item === JStr "rollback") &&
               (prop "unknownDisposition" item === JStr "repair_required") &&
               (prop "rollbackFailureDisposition" item === JStr "manual_recovery_required")) delivery_invalid;
  onAcceptance ← boolean (prop "automaticOnAcceptanceFailure" item);
  onSoak ← boolean (prop "automaticOnSoakFailure" item);
  onDeadline ← boolean (prop "automaticOnDeadline" item);
  Ok {| rp_automaticOnAcceptanceFailure := onAcceptance; rp_automaticOnSoakFailure := onSoak;
        rp_automaticOnDeadline := onDeadline |}.

(** Source: src/delivery/plan.ts:273-278 (resourceBounds) *)
Definition resourceBounds (value : json) : DR DeliveryResourceBounds :=
  item ← record value;
  _ ← exact item ["maxWallSeconds"; "maxCpuSeconds"; "maxMemoryBytes"; "maxDiskBytes"; "maxInodes";
                  "maxOutputBytes"; "maxArtifacts"]%string;
  wall ← integer (prop "maxWallSeconds" item) 1;
  cpu ← integer (prop "maxCpuSeconds" item) 1;
  memory ← integer (prop "maxMemoryBytes" item) 1;
  disk ← integer (prop "maxDiskBytes" item) 1;
  inodes ← integer (prop "maxInodes" item) 1;
  output ← integer (prop "maxOutputBytes" item) 1;
  artifacts ← integer (prop "maxArtifacts" item) 1;
  Ok {| rb_maxWallSeconds := wall; rb_maxCpuSeconds := cpu; rb_maxMemoryBytes := memory; rb_maxDiskBytes := disk;
        rb_maxInodes := inodes; rb_maxOutputBytes := output; rb_maxArtifacts := artifacts |}.

(** Source: src/delivery/plan.ts:280-292 (timeBounds) *)
Definition timeBounds (value : json) : DR DeliveryTimeBounds :=
  item ← record value;
  _ ← exact item ["notBefore"; "expiresAt"; "guardDeadline"]%string;
  notBefore ← timestamp (prop "notBefore" item);
  expiresAt ← timestamp (prop "expiresAt" item);
  guardDeadline ← timestamp (prop "guardDeadline" item);
  _ ← require (date_ltb notBefore guardDeadline && date_leb guardDeadline expiresAt) delivery_invalid;
  Ok {| tb_notBefore := notBefore; tb_expiresAt := expiresAt; tb_guardDeadline := guardDeadline |}.

(** Source: src/delivery/plan.ts:294-301 (costBounds) *)
Definition costBounds (value : json) : DR DeliveryCostBounds :=
  item ← record value;
  _ ← exact item ["currency"; "maximumMinorUnits"]%string;
  currency ← text (prop "currency" item) CURRENCY;
  maximumMinorUnits ← integer (prop "maximumMinorUnits" item) 0;
  Ok {| cb_currency := currency; cb_maximumMinorUnits := maximumMinorUnits |}.

(** Source: src/delivery/plan.ts:303-308 (retentionPolicy) *)
Definition retentionPolicy (value : json) : DR DeliveryRetentionPolicy :=
  item ← record value;
  _ ← exact item ["eventDays"; "evidenceDays"; "artifactDays"; "retainTerminalRuns"]%string;
  events ← integer (prop "eventDays" item) 1;
  evidence ← integer (prop "evidenceDays" item) 1;
  artifacts ← integer (prop "artifactDays" item) 1;
  runs ← integer (prop "retainTerminalRuns" item) 1;
  Ok {| rt_eventDays := events; rt_evidenceDays := evidence; rt_artifactDays := artifacts;
        rt_retainTerminalRuns := runs |}.

(** Source: src/delivery/plan.ts:312-319 (canonicalizeDeliveryPlan) *)
Definition plan_names : list string :=
  ["schemaVersion"; "deliveryId"; "ownerPrincipal"; "authorizationReference"; "targetHostname"; "targetMachineIdentity";
   "products"; "buildProfile"; "testProfile"; "certificationProfile"; "targetReleaseIdentifiers"; "protectedReleases";
   "protectedPaths"; "candidateVerificationProfile"; "activationOrder"; "acceptanceProfile"; "soakProfile";
   "rollbackPolicy"; "timeBounds"; "allowedExternalSideEffects"; "resourceBounds"; "costBounds";
   "evidenceRequirements"; "retentionPolicy"]%string.

Definition two_products (v : json) : DR (list json) :=
  match v with
  | JArr l => _ ← require (length l =? 2)%nat delivery_invalid; Ok l
  | _ => Err delivery_invalid
  end.

(** Source: src/delivery/plan.ts:310-365 (canonicalizeDeliveryPlan) *)
Definition canonical_input (value : json) : DR DeliveryPlanInput :=
  item ← record value;
  _ ← exact item plan_names;
  _ ← require (prop "schemaVersion" item === JStr DELIVERY_PLAN_SCHEMA_VERSION) delivery_invalid;
  rawProducts ← two_products (prop "products" item);
  products ← result_mapM source rawProducts;
  let products := locale_sort si_product products in
  _ ← require (unique (List.map si_product products)) delivery_invalid;
  targets ← record (prop "targetReleaseIdentifiers" item);
  _ ← exact targets ["baby-quirt"; "baby-quirt-mcp"]%string;
  activationOrder ← strings (prop "activationOrder" item) false any;
  _ ← require (activationOrder === ["baby-quirt-mcp"; "baby-quirt"]%string) delivery_invalid;
  deliveryId ← text (prop "deliveryId" item) IDENTIFIER_PATTERN;
  ownerPrincipal ← text (prop "ownerPrincipal" item) IDENTIFIER_PATTERN;
  authorizationReference ← text (prop "authorizationReference" item) REFERENCE;
  targetHostname ← text (prop "targetHostname" item) IDENTIFIER_PATTERN;
  targetMachineIdentity ← text (prop "targetMachineIdentity" item) DIGEST_PATTERN;
  build ← buildProfile (prop "buildProfile" item);
  test ← testProfile (prop "testProfile" item);
  certification ← certificationProfile (prop "certificationProfile" item);
  baby ← text (prop "baby-quirt" targets) IDENTIFIER_PATTERN;
  gateway ← text (prop "baby-quirt-mcp" targets) IDENTIFIER_PATTERN;
  protectedReleases ← strings (prop "protectedReleases" item) true IDENTIFIER_PATTERN;
  protectedPaths ← strings (prop "protectedPaths" item) true PATH;
  candidate ← candidateProfile (prop "candidateVerificationProfile" item);
  acceptance ← acceptanceProfile (prop "acceptanceProfile" item);
  soak ← soakProfile (prop "soakProfile" item);
  rollback ← rollbackPolicy (prop "rollbackPolicy" item);
  time ← timeBounds (prop "timeBounds" item);
  effects ← strings (prop "allowedExternalSideEffects" item) false any;
  resources ← resourceBounds (prop "resourceBounds" item);
  cost ← costBounds (prop "costBounds" item);
  evidence ← strings (prop "evidenceRequirements" item) true IDENTIFIER_PATTERN;
  retention ← retentionPolicy (prop "retentionPolicy" item);
  Ok {| pi_deliveryId := deliveryId; pi_ownerPrincipal := ownerPrincipal;
        pi_authorizationReference := authorizationReference; pi_targetHostname := targetHostname;
        pi_targetMachineIdentity := targetMachineIdentity; pi_products := products; pi_buildProfile := build;
        pi_testProfile := test; pi_certificationProfile := certification; pi_targetBaby := baby;
        pi_targetGateway := gateway; pi_protectedReleases := sorted protectedReleases;
        pi_protectedPaths := sorted protectedPaths; pi_candidateVerificationProfile := candidate;
        pi_acceptanceProfile := acceptance; pi_soakProfile := soak; pi_rollbackPolicy := rollback;
        pi_timeBounds := time; pi_allowedExternalSideEffects := sorted effects; pi_resourceBounds := resources;
        pi_costBounds := cost; pi_evidenceRequirements := sorted evidence; pi_retentionPolicy := retention |}.

Definition plan_digest (p : DeliveryPlanInput) : string := sha256Hex (canonical_obj (plan_body p)).

(** Source: src/delivery/plan.ts:310-368 (canonicalizeDeliveryPlan) *)
Definition canonicalizeDeliveryPlan (value : json) : DR CanonicalDeliveryPlan :=
  body ← canonical_input value;
  Ok {| cd_input := body; cd_planDigest := plan_digest body |}.

(** Source: src/delivery/plan.ts:370-372 (canonicalDeliveryPlanJson) *)
Definition canonicalDeliveryPlanJson (value : json) : DR string :=
  plan ← canonicalizeDeliveryPlan value;
  Ok (canonical_obj (plan_doc plan)).

(** Source: src/delivery/plan.ts:374-381 (assertAuthorizedPlan) *)
Definition assertAuthorizedPlan (plan : CanonicalDeliveryPlan) (authorizedPlanDigest : string) : DR unit :=
  require (DIGEST_PATTERN authorizedPlanDigest && (cd_planDigest plan === authorizedPlanDigest))
    delivery_authorization_invalid.
End Plan.

(** ** Canonical plans are fixed points *)

(** The value of a member of a literal, and the check of its names. *)
Ltac literal_member k l :=
  lazymatch l with
  | (k, ?v) :: _ => v
  | _ :: ?t => literal_member k t
  | [] => constr:(JUndefined)
  end.
Ltac literal_members :=
  repeat match goal with
  | |- context [prop ?k ((?a, ?b) :: ?t)] =>
      let v := literal_member k constr:((a, b) :: t) in change (prop k ((a, b) :: t)) with v
  | |- context [JStr ?s === JUndefined] => change (JStr s === JUndefined) with false
  | |- context [JUndefined === JUndefined] => change (JUndefined === JUndefined) with true
  end.

(** Runs a check again with what is known of its steps. *)
Ltac replay :=
  repeat (first
    [ match goal with H : ?b = true |- context [require ?b _] => rewrite H end
    | match goal with H : ?x = Ok _ |- context [?x] => rewrite H end ];
    cbn [require mbind result_bind]).

Lemma exact_names kvs names : keys kvs = names -> exact kvs names = Ok tt.
Proof. intros <-. unfold exact. by rewrite bool_decide_eq_true_2. Qed.

Lemma text_again v p s : text v p = Ok s -> text (JStr s) p = Ok s.
Proof. destruct v; try discriminate. cbn [text]. intros H. result_inv. by replay. Qed.

Lemma text_value v p s : text v p = Ok s -> v = JStr s.
Proof. destruct v; try discriminate. cbn [text]. intros H. by result_inv. Qed.

Lemma boolean_again v b : boolean v = Ok b -> boolean (JBool b) = Ok b.
Proof. by destruct v. Qed.

Lemma integer_again v m z : integer v m = Ok z -> integer (JNum z) m = Ok z.
Proof. destruct v; try discriminate. cbn [integer]. intros H. result_inv. by replay. Qed.

Lemma mapM_again {A} (f : json -> DR A) (doc : A -> json) l r :
  (forall v x, f v = Ok x -> f (doc x) = Ok x) -> result_mapM f l = Ok r ->
  result_mapM f (List.map doc r) = Ok r.
Proof.
  intros Hf H. apply result_mapM_Ok in H. apply result_mapM_Ok. induction H; constructor; [by eapply Hf|done].
Qed.

Lemma mapM_perm {A} (f : json -> DR A) (doc : A -> json) l r r' :
  (forall v x, f v = Ok x -> f (doc x) = Ok x) -> result_mapM f l = Ok r -> Permutation r' r ->
  result_mapM f (List.map doc r') = Ok r'.
Proof.
  intros Hf H Hp. assert (Hr : Forall (fun x => f (doc x) = Ok x) r).
  { apply result_mapM_Ok in H. clear Hp. induction H; constructor; [by eapply Hf|done]. }
  rewrite <- Hp in Hr. apply result_mapM_Ok. clear H Hp. induction Hr; constructor; done.
Qed.

Lemma mapM_length {E A B} (f : A -> result E B) l r : result_mapM f l = Ok r -> length r = length l.
Proof. intros H%result_mapM_Ok. symmetry. by eapply Forall2_length. Qed.

Lemma unique_perm {A} `{EqDecision A} (l k : list A) : Permutation l k -> unique l = unique k.
Proof. intros H. unfold unique. apply bool_decide_ext. by rewrite H. Qed.

(** An array of strings in another order passes too. *)
Lemma strings_perm v n p l k : strings v n p = Ok l -> Permutation k l -> strings (strs k) n p = Ok k.
Proof.
  destruct v as [| | | | |items|]; try discriminate. cbn [strings strs]. intros H Hp. result_inv.
  match goal with H : result_mapM _ _ = Ok _ |- _ => pose proof (mapM_length _ _ _ H) as Hlen;
    pose proof (mapM_perm _ JStr _ _ _ (fun v x => text_again v p x) H Hp) as Hmap end.
  rewrite List.length_map, (Permutation_length Hp), Hlen. replay.
  rewrite (unique_perm _ _ Hp). by replay.
Qed.

Lemma strings_again v n p l : strings v n p = Ok l -> strings (strs l) n p = Ok l.
Proof. intros H. by eapply strings_perm. Qed.

(** A part that passed a check passes it again. *)
Create HintDb again.
#[export] Hint Resolve text_again boolean_again integer_again strings_again : again.

Ltac projections :=
  cbn [si_product si_repository si_commit si_tree si_adapter si_immutableDigest si_credentialReference
    tc_name tc_version tc_digest lf_path lf_sha256 bp_name bp_version bp_commands bp_toolchains bp_lockfiles
    bp_cleanEnvironment bp_reproducibleBuilds tp_name tp_version tp_commands tp_requireZeroSkips
    tp_requireStableCounts cp_name cp_version cp_requiredNspawnProperties cp_cycles cp_requireSystemdPid1
    cp_requireUid0Supervisor cp_requireGatewayUid997 cp_destroyAfterCertification cv_name cv_version
    cv_checks ap_privateChecks ap_publicChecks ap_requireAll sp_durationSeconds sp_checkpointSeconds
    sp_checks rp_automaticOnAcceptanceFailure rp_automaticOnSoakFailure rp_automaticOnDeadline
    rb_maxWallSeconds rb_maxCpuSeconds rb_maxMemoryBytes rb_maxDiskBytes rb_maxInodes rb_maxOutputBytes
    rb_maxArtifacts tb_notBefore tb_expiresAt tb_guardDeadline cb_currency cb_maximumMinorUnits rt_eventDays
    rt_evidenceDays rt_artifactDays rt_retainTerminalRuns pi_deliveryId pi_ownerPrincipal
    pi_authorizationReference pi_targetHostname pi_targetMachineIdentity pi_products pi_buildProfile
    pi_testProfile pi_certificationProfile pi_targetBaby pi_targetGateway pi_protectedReleases
    pi_protectedPaths pi_candidateVerificationProfile pi_acceptanceProfile pi_soakProfile pi_rollbackPolicy
    pi_timeBounds pi_allowedExternalSideEffects pi_resourceBounds pi_costBounds pi_evidenceRequirements
    pi_retentionPolicy].

Ltac again_step :=
  match goal with
  | |- context [text (JStr ?s) ?p] => rewrite (text_again _ p s) by eassumption
  | |- context [boolean (JBool ?b)] => rewrite (boolean_again _ b) by eassumption
  | |- context [integer (JNum ?z) ?m] => rewrite (integer_again _ m z) by eassumption
  | |- context [strings (strs ?l) ?n ?p] =>
      first [rewrite (strings_again _ n p l) by eassumption | rewrite (strings_perm _ n p _ l) by eassumption]
  end; cbn [require mbind result_bind].

(** The second run of a check of an object, on the literal of its result. *)
Ltac run_again doc :=
  intros; result_inv; unfold doc; cbn [record mbind result_bind]; literal_members;
  rewrite ?exact_names by reflexivity; projections; cbn [mbind result_bind]; repeat again_step; replay; try done.

Lemma nonempty_array_length v l : nonempty_array v = Ok l -> length l <> O.
Proof. destruct v; try discriminate. cbn [nonempty_array]. intros H. result_inv. bool_inv. by apply Nat.eqb_neq. Qed.

Lemma nonempty_array_again l : length l <> O -> nonempty_array (JArr l) = Ok l.
Proof. intros H. cbn [nonempty_array]. apply Nat.eqb_neq in H. by rewrite H. Qed.

Lemma bounded_array_length v l : bounded_array v = Ok l -> negb (length l =? 0)%nat && (length l <=? 64)%nat = true.
Proof. destruct v; try discriminate. cbn [bounded_array]. intros H. by result_inv. Qed.

Lemma bounded_array_again l : negb (length l =? 0)%nat && (length l <=? 64)%nat = true -> bounded_array (JArr l) = Ok l.
Proof. intros H. cbn [bounded_array]. by rewrite H. Qed.

Lemma insert_number_perm x l : Permutation (insert_number x l) (x :: l).
Proof. induction l as [|y l IH]; cbn; [done|]. destruct (x <=? y); [done|]. rewrite IH. constructor. Qed.

Lemma sort_numbers_perm l : Permutation (sort_numbers l) l.
Proof. induction l as [|x l IH]; cbn; [done|]. by rewrite insert_number_perm, IH. Qed.

Lemma insert_number_sorted x l : Sorted Z.le l -> Sorted Z.le (insert_number x l).
Proof.
  induction l as [|y l IH]; cbn; intros H; [by repeat constructor|]. destruct (x <=? y) eqn:E; bool_inv.
  - constructor; [done|by constructor].
  - inversion H as [|? ? Hl Hy]; subst. constructor; [by apply IH|]. destruct l as [|z l]; cbn; [constructor; lia|].
    inversion Hy; subst. destruct (x <=? z); constructor; lia.
Qed.

Lemma sort_numbers_again l : sort_numbers (sort_numbers l) = sort_numbers l.
Proof.
  assert (Hs : Sorted Z.le (sort_numbers l)) by (induction l; cbn; [constructor|by apply insert_number_sorted]).
  induction Hs as [|x k Hk IH Hx]; [done|]. cbn. fold (sort_numbers k). rewrite IH.
  destruct Hx as [|y k Hxy]; [done|]. cbn. by apply Z.leb_le in Hxy as ->.
Qed.

Lemma forallb_perm {A} (p : A -> bool) l k : Permutation l k -> forallb p l = forallb p k.
Proof.
  induction 1 as [|x l k _ IH|x y l|l k m _ IH _ IH']; cbn; [done|by rewrite IH| |by rewrite IH].
  by rewrite !andb_assoc, (andb_comm (p y)).
Qed.

Section Fixed.
Context {C : Crypto} {D : Dates} {Lo : Locale} {LL : LocaleLaws Lo}.

Lemma sorted_perm l : Permutation (sorted l) l.
Proof using. apply locale_sort_perm. Qed.

Lemma sorted_sorted l : sorted (sorted l) = sorted l.
Proof using LL. apply locale_sort_id, locale_sort_sorted. Qed.

Lemma strings_sorted v n p l : strings v n p = Ok l -> strings (strs (sorted l)) n p = Ok (sorted l).
Proof using. intros H. eapply strings_perm; [exact H|apply sorted_perm]. Qed.

Lemma timestamp_again v s : timestamp v = Ok s -> timestamp (JStr s) = Ok s.
Proof using.
  unfold timestamp. intros H. result_inv. repeat again_step.
  replay. done.
Qed.

Lemma lockfile_again v r : lockfile v = Ok r -> lockfile (lockfile_doc r) = Ok r.
Proof using. unfold lockfile. by run_again lockfile_doc. Qed.

Lemma toolchain_again v r : toolchain v = Ok r -> toolchain (toolchain_doc r) = Ok r.
Proof using.
  unfold toolchain. intros H. result_inv. split_if; result_inv; unfold toolchain_doc; cbn [tc_digest member_opt app];
    run_again toolchain_doc.
Qed.

Lemma testProfile_again v r : testProfile v = Ok r -> testProfile (test_doc r) = Ok r.
Proof using. unfold testProfile. by run_again test_doc. Qed.

Lemma candidateProfile_again v r : candidateProfile v = Ok r -> candidateProfile (candidate_doc r) = Ok r.
Proof using. unfold candidateProfile. by run_again candidate_doc. Qed.

Lemma acceptanceProfile_again v r : acceptanceProfile v = Ok r -> acceptanceProfile (acceptance_doc r) = Ok r.
Proof using. unfold acceptanceProfile. by run_again acceptance_doc. Qed.

Lemma rollbackPolicy_again v r : rollbackPolicy v = Ok r -> rollbackPolicy (rollback_doc r) = Ok r.
Proof using. unfold rollbackPolicy. by run_again rollback_doc. Qed.

Lemma resourceBounds_again v r : resourceBounds v = Ok r -> resourceBounds (resource_doc r) = Ok r.
Proof using. unfold resourceBounds. by run_again resource_doc. Qed.

Lemma timeBounds_again v r : timeBounds v = Ok r -> timeBounds (time_doc r) = Ok r.
Proof using.
  unfold timeBounds. run_again time_doc.
  do 3 (erewrite timestamp_again by eassumption; cbn [mbind result_bind]). by replay.
Qed.

Lemma costBounds_again v r : costBounds v = Ok r -> costBounds (cost_doc r) = Ok r.
Proof using. unfold costBounds. by run_again cost_doc. Qed.

Lemma retentionPolicy_again v r : retentionPolicy v = Ok r -> retentionPolicy (retention_doc r) = Ok r.
Proof using. unfold retentionPolicy. by run_again retention_doc. Qed.

Lemma certificationProfile_again v r : certificationProfile v = Ok r -> certificationProfile (certification_doc r) = Ok r.
Proof using LL.
  unfold certificationProfile. run_again certification_doc. erewrite strings_sorted by eassumption.
  cbn [mbind result_bind]. by rewrite sorted_sorted.
Qed.

Lemma soakProfile_again v r : soakProfile v = Ok r -> soakProfile (soak_doc r) = Ok r.
Proof using.
  unfold soakProfile. run_again soak_doc.
  match goal with H : result_mapM (fun e => integer e 1) _ = Ok ?l, H' : nonempty_array _ = Ok _ |- _ =>
    pose proof (mapM_length _ _ _ H) as Hlen; pose proof (nonempty_array_length _ _ H') as Hne;
    pose proof (mapM_perm _ JNum _ _ _ (fun v x => integer_again v 1 x) H (sort_numbers_perm l)) as Hmap end.
  rewrite nonempty_array_again by (rewrite List.length_map, (Permutation_length (sort_numbers_perm _)), Hlen; lia).
  cbn [mbind result_bind]. replay.
  rewrite (forallb_perm _ _ _ (sort_numbers_perm _)), (unique_perm _ _ (sort_numbers_perm _)). replay.
  repeat again_step. by rewrite sort_numbers_again.
Qed.

Lemma buildProfile_again v r : buildProfile v = Ok r -> buildProfile (build_doc r) = Ok r.
Proof using LL.
  unfold buildProfile. run_again build_doc.
  match goal with H : result_mapM toolchain _ = Ok ?l, H' : result_mapM lockfile _ = Ok ?k |- _ =>
    pose proof (mapM_length _ _ _ H) as Hlen; pose proof (mapM_length _ _ _ H') as Hlen';
    pose proof (mapM_perm _ _ _ _ _ toolchain_again H (locale_sort_perm tc_name l)) as Hmap;
    pose proof (mapM_perm _ _ _ _ _ lockfile_again H' (locale_sort_perm lf_path k)) as Hmap' end.
  rewrite !bounded_array_again by (rewrite List.length_map, (Permutation_length (locale_sort_perm _ _)), ?Hlen, ?Hlen';
    by eapply bounded_array_length).
  cbn [mbind result_bind]. replay. rewrite !(locale_sort_id _ _ (locale_sort_sorted _ _)). replay.
  by repeat again_step.
Qed.

(** The names of a source literal are the expected ones. *)
Ltac source_names_ok :=
  match goal with |- context [require (forallb ?f (keys ?l) && ?b) ?e] =>
    change (require (forallb f (keys l) && b) e) with (require true e) end.

Lemma source_again v r : source v = Ok r -> source (source_doc r) = Ok r.
Proof using.
  unfold source. intros H. result_inv. split_if; result_inv; unfold source_doc; projections;
    cbn [member_opt app record mbind result_bind]; source_names_ok; cbn [require mbind result_bind];
    literal_members; cbn [require mbind result_bind]; repeat (again_step || (progress replay)); done.
Qed.

Lemma two_products_length v l : two_products v = Ok l -> length l = 2%nat.
Proof using. destruct v; try discriminate. cbn [two_products]. intros H. result_inv. by apply Nat.eqb_eq. Qed.

Lemma two_products_again l : length l = 2%nat -> two_products (JArr l) = Ok l.
Proof using. intros H. cbn [two_products]. by rewrite H. Qed.

(** A part of the plan, run again. *)
Ltac part_again :=
  first
  [ erewrite buildProfile_again by eassumption | erewrite testProfile_again by eassumption
  | erewrite certificationProfile_again by eassumption | erewrite candidateProfile_again by eassumption
  | erewrite acceptanceProfile_again by eassumption | erewrite soakProfile_again by eassumption
  | erewrite rollbackPolicy_again by eassumption | erewrite timeBounds_again by eassumption
  | erewrite resourceBounds_again by eassumption | erewrite costBounds_again by eassumption
  | erewrite retentionPolicy_again by eassumption | erewrite strings_sorted by eassumption ];
  cbn [require mbind result_bind].

Lemma canonical_input_again v p : canonical_input v = Ok p -> canonical_input (JObj (plan_body p)) = Ok p.
Proof using LL.
  unfold canonical_input. intros H. result_inv.
  match goal with H : two_products _ = Ok ?l, H' : result_mapM source _ = Ok ?k |- _ =>
    pose proof (mapM_length _ _ _ H') as Hlen;
    pose proof (mapM_perm _ _ _ _ _ source_again H' (locale_sort_perm si_product k)) as Hmap end.
  unfold plan_body, targets_doc. projections. cbn [record mbind result_bind]. literal_members.
  rewrite exact_names by reflexivity. cbn [mbind result_bind].
  rewrite bool_decide_eq_true_2 by done. cbn [require mbind result_bind].
  rewrite two_products_again by (rewrite List.length_map, (Permutation_length (locale_sort_perm _ _)), Hlen;
    by eapply two_products_length).
  cbn [mbind result_bind]. rewrite Hmap. cbn [mbind result_bind]. rewrite (locale_sort_id _ _ (locale_sort_sorted _ _)).
  match goal with H : (?l === ["baby-quirt-mcp"; "baby-quirt"]%string) = true |- _ => apply bool_decide_eq_true in H; subst l end.
  replay. cbn [record mbind result_bind]. rewrite exact_names by reflexivity. cbn [mbind result_bind].
  repeat (again_step || part_again). literal_members. rewrite bool_decide_eq_true_2 by done.
  cbn [require mbind result_bind]. repeat (again_step || part_again). by rewrite !sorted_sorted.
Qed.
End Fixed.

(** ** The order of members does not matter *)

(** A value without a member, or the value of a parsed member. *)
Definition parsed (v : json) : Prop := v = JUndefined \/ plain v = true.

Definition same {A} (f : json -> DR A) : Prop := forall v w, parsed v -> reorders v w -> f v = f w.

Lemma parsed_obj kvs : parsed (JObj kvs) <-> plain (JObj kvs) = true.
Proof. unfold parsed. naive_solver. Qed.

Lemma parsed_members kvs k : parsed (JObj kvs) -> parsed (prop k kvs).
Proof.
  intros (_ & _ & H)%parsed_obj%plain_obj. induction H as [|[k' v] kvs Hv H IH]; [by left|].
  cbn. case_bool_decide; [by right|done].
Qed.

Lemma parsed_items l : parsed (JArr l) -> Forall parsed l.
Proof. intros [?|H%plain_arr]; [done|]. eapply Forall_impl; [exact H|]. by right. Qed.

Lemma reorders_prop kvs kws k :
  parsed (JObj kvs) -> reorders (JObj kvs) (JObj kws) -> reorders (prop k kvs) (prop k kws).
Proof.
  intros (Hn & _)%parsed_obj%plain_obj H. inversion H as [| |? kvs1 ? Hp H2]; subst; [constructor|].
  assert (Hk : prop k kvs = prop k kvs1).
  { destruct (decide (k ∈ keys kvs)) as [Hin|Hout].
    - apply list_elem_of_In, in_map_iff in Hin as ([k' v] & [= ->] & Hin%list_elem_of_In).
      assert (Hn1 : NoDup (keys kvs1)) by (unfold keys in *; by rewrite <- Hp).
      by rewrite (prop_elem _ _ _ Hn Hin), (prop_elem k v) by (rewrite <- ?Hp; done).
    - rewrite !prop_none; [done| |done]. unfold keys in *. by rewrite <- Hp. }
  rewrite Hk. clear Hk Hp Hn H. induction H2 as [|[a v] [b w] l l' [E Hv] _ IH]; [constructor|].
  cbn in E |- *. subst b. by case_bool_decide.
Qed.

Lemma reorders_keys kvs kws :
  parsed (JObj kvs) -> reorders (JObj kvs) (JObj kws) -> NoDup (keys kvs) /\ Permutation (keys kvs) (keys kws).
Proof.
  intros (Hn & _)%parsed_obj%plain_obj H. split; [done|]. inversion H as [| |? kvs1 ? Hp H2]; subst; [done|].
  unfold keys. rewrite Hp. clear Hp Hn H. induction H2 as [|a b l l' [E _] _ IH]; cbn; [done|]. by rewrite E, IH.
Qed.

Lemma reorders_items l k : reorders (JArr l) (JArr k) -> Forall2 reorders l k.
Proof. inversion 1; subst; [|done]. clear. induction k; constructor; [constructor|done]. Qed.

Lemma text_same p : same (fun v => text v p).
Proof. intros v w _ H. by inversion H. Qed.
Lemma boolean_same : same boolean.
Proof. intros v w _ H. by inversion H. Qed.
Lemma integer_same m : same (fun v => integer v m).
Proof. intros v w _ H. by inversion H. Qed.

Lemma scalar_same (x : json) v w : match x with JArr _ | JObj _ => False | _ => True end ->
  reorders v w -> (v === x) = (w === x).
Proof.
  intros Hx H. apply bool_decide_ext. split; intros ->; destruct x; try done; inversion H; by subst.
Qed.

Lemma mapM_same {A} (f : json -> DR A) l k :
  same f -> Forall parsed l -> Forall2 reorders l k -> result_mapM f l = result_mapM f k.
Proof.
  intros Hf Hl H. induction H as [|v w l k Hv _ IH]; [done|]. apply Forall_cons in Hl as [Hp Hl].
  cbn. by rewrite (Hf v w), IH.
Qed.

Lemma strings_same n p : same (fun v => strings v n p).
Proof.
  intros v w Hv H. inversion H as [|l k Hlk|]; subst; try done. cbn [strings].
  rewrite (Forall2_length _ _ _ Hlk), (mapM_same _ l k); [done|apply text_same|by apply parsed_items|done].
Qed.

Lemma result_bind_ext {A B} (x : DR A) (f g : A -> DR B) : (forall a, f a = g a) -> x ≫= f = x ≫= g.
Proof. intros H. destruct x; cbn; [apply H|done]. Qed.

(** Two results that are related, or the same exception. *)
Definition related {A B} (R : A -> B -> Prop) (x : DR A) (y : DR B) : Prop :=
  match x, y with Ok a, Ok b => R a b | Err e, Err e' => e = e' | _, _ => False end.

Lemma related_bind {A B X} (R : A -> B -> Prop) x y (f : A -> DR X) (g : B -> DR X) :
  related R x y -> (forall a b, R a b -> f a = g b) -> x ≫= f = y ≫= g.
Proof. destruct x, y; cbn; try done; [auto|by intros ->]. Qed.

Definition same_record (kvs kws : props json) : Prop := parsed (JObj kvs) /\ reorders (JObj kvs) (JObj kws).
Definition same_items (l k : list json) : Prop := Forall parsed l /\ Forall2 reorders l k.

Lemma record_same v w : parsed v -> reorders v w -> related same_record (record v) (record w).
Proof. intros Hv H. destruct v; inversion H; subst; cbn; try done; split; done. Qed.

Lemma array_same (test : list json -> bool) (f : json -> DR (list json)) v w :
  (forall v, f v = match v with JArr l => _ ← require (test l) delivery_invalid; Ok l | _ => Err delivery_invalid end) ->
  (forall l k, length l = length k -> test l = test k) ->
  parsed v -> reorders v w -> related same_items (f v) (f w).
Proof.
  intros Hf Ht Hv H. rewrite !Hf. destruct v as [| | | | |l|]; inversion H as [|? k Hlk|]; subst; try done.
  - destruct (test l); cbn; [|done]. split; [by apply parsed_items|]. by apply reorders_items.
  - rewrite (Ht l k) by (by eapply Forall2_length). destruct (test k); cbn; [|done]. split; [by apply parsed_items|done].
Qed.

Lemma exact_same kvs kws names : same_record kvs kws -> exact kvs names = exact kws names.
Proof. intros [Hp Hr]. destruct (reorders_keys _ _ Hp Hr). unfold exact. by rewrite (sort_strings_unique _ (keys kws)). Qed.

Lemma member_same {A} (f : json -> DR A) kvs kws k : same f -> same_record kvs kws -> f (prop k kvs) = f (prop k kws).
Proof. intros Hf [Hp Hr]. apply Hf; [by apply parsed_members|by apply reorders_prop]. Qed.

Lemma member_scalar x kvs kws k : match x with JArr _ | JObj _ => False | _ => True end ->
  same_record kvs kws -> (prop k kvs === x) = (prop k kws === x).
Proof. intros Hx [Hp Hr]. apply scalar_same; [done|by apply reorders_prop]. Qed.

Lemma member_related {A B} (R : A -> B -> Prop) (f : json -> DR A) (g : json -> DR B) kvs kws k :
  (forall v w, parsed v -> reorders v w -> related R (f v) (g w)) -> same_record kvs kws ->
  related R (f (prop k kvs)) (g (prop k kws)).
Proof. intros Hf [Hp Hr]. apply Hf; [by apply parsed_members|by apply reorders_prop]. Qed.

(** Both runs of a check take the same steps. *)
Create HintDb same.
#[export] Hint Resolve text_same boolean_same integer_same strings_same : same.

Ltac same_steps :=
  repeat match goal with
  | H : same_record ?kvs ?kws |- context [exact ?kvs _] => rewrite (exact_same kvs kws) by exact H
  | H : same_record ?kvs ?kws |- context [prop ?k ?kvs === ?x] => rewrite (member_scalar x kvs kws k I H)
  | H : same_record ?kvs ?kws |- context [text (prop ?k ?kvs) ?p] => rewrite (member_same _ kvs kws k (text_same p) H)
  | H : same_record ?kvs ?kws |- context [integer (prop ?k ?kvs) ?m] => rewrite (member_same _ kvs kws k (integer_same m) H)
  | H : same_record ?kvs ?kws |- context [strings (prop ?k ?kvs) ?n ?p] =>
      rewrite (member_same _ kvs kws k (strings_same n p) H)
  | H : same_record ?kvs ?kws |- context [?f (prop ?k ?kvs)] =>
      rewrite (member_same f kvs kws k ltac:(auto with same) H)
  end.
Ltac same_object :=
  intros ?v ?w ?Hv ?H; cbv beta; apply (related_bind same_record); [by apply record_same|];
  intros ?kvs ?kws ?Hsame; same_steps; try reflexivity.

Section Same.
Context {C : Crypto} {D : Dates} {Lo : Locale}.

Lemma timestamp_same : same timestamp.
Proof using. intros v w Hv H. unfold timestamp. by rewrite (text_same any v w Hv H). Qed.
#[local] Hint Resolve timestamp_same : same.

Lemma lockfile_same : same lockfile.
Proof using. unfold lockfile. same_object. Qed.
Lemma toolchain_same : same toolchain.
Proof using. unfold toolchain. same_object. Qed.
Lemma testProfile_same : same testProfile.
Proof using. unfold testProfile. same_object. Qed.
Lemma certificationProfile_same : same certificationProfile.
Proof using. unfold certificationProfile. same_object. Qed.
Lemma candidateProfile_same : same candidateProfile.
Proof using. unfold candidateProfile. same_object. Qed.
Lemma acceptanceProfile_same : same acceptanceProfile.
Proof using. unfold acceptanceProfile. same_object. Qed.
Lemma rollbackPolicy_same : same rollbackPolicy.
Proof using. unfold rollbackPolicy. same_object. Qed.
Lemma resourceBounds_same : same resourceBounds.
Proof using. unfold resourceBounds. same_object. Qed.
Lemma timeBounds_same : same timeBounds.
Proof using. unfold timeBounds. same_object. Qed.
Lemma costBounds_same : same costBounds.
Proof using. unfold costBounds. same_object. Qed.
Lemma retentionPolicy_same : same retentionPolicy.
Proof using. unfold retentionPolicy. same_object. Qed.
Lemma source_same : same source.
Proof using.
  unfold source. same_object.
  destruct Hsame as [Hp Hr]. destruct (reorders_keys _ _ Hp Hr) as [_ Hk].
  rewrite (forallb_perm _ (keys kvs) (keys kws)) by done.
  assert (E : forallb (fun k => bool_decide (k ∈ keys kvs)) source_names =
              forallb (fun k => bool_decide (k ∈ keys kws)) source_names); [|by rewrite E].
  clear -Hk. induction source_names as [|k l IH]; cbn; [done|]. rewrite IH. f_equal. apply bool_decide_ext. by rewrite Hk.
Qed.

Lemma soakProfile_same : same soakProfile.
Proof using.
  unfold soakProfile. same_object. apply result_bind_ext. intros _. apply result_bind_ext. intros durationSeconds.
  apply (related_bind same_items).
  - apply member_related; [|done]. intros ? ? ? ?. apply (array_same (fun l => negb (length l =? 0)%nat)); [done| |done|done].
    by intros ? ? ->.
  - intros l k [Hp Hlk]. by rewrite (mapM_same _ l k (integer_same 1)).
Qed.

Lemma bounded_same kvs kws k :
  same_record kvs kws -> related same_items (bounded_array (prop k kvs)) (bounded_array (prop k kws)).
Proof using.
  intros H. apply member_related; [|done]. intros ? ? ? ?.
  apply (array_same (fun l => negb (length l =? 0)%nat && (length l <=? 64)%nat)); [done| |done|done]. by intros ? ? ->.
Qed.

Lemma buildProfile_same : same buildProfile.
Proof using.
  unfold buildProfile. same_object. apply result_bind_ext. intros _.
  apply (related_bind same_items); [by apply bounded_same|]. intros tools tools' [Ht Ht'].
  apply (related_bind same_items); [by apply bounded_same|]. intros locks locks' [Hl Hl'].
  by rewrite (mapM_same toolchain tools tools' toolchain_same Ht Ht'), (mapM_same lockfile locks locks' lockfile_same Hl Hl').
Qed.

#[local] Hint Resolve buildProfile_same testProfile_same certificationProfile_same candidateProfile_same
  acceptanceProfile_same soakProfile_same rollbackPolicy_same timeBounds_same resourceBounds_same costBounds_same
  retentionPolicy_same : same.

Lemma canonical_input_same : same canonical_input.
Proof using.
  unfold canonical_input. same_object. do 2 (apply result_bind_ext; intros _).
  apply (related_bind same_items).
  { apply member_related; [|done]. intros ? ? ? ?. apply (array_same (fun l => (length l =? 2)%nat)); [done| |done|done].
    by intros ? ? ->. }
  intros products products' [Hp Hp']. rewrite (mapM_same source products products' source_same Hp Hp').
  apply result_bind_ext. intros canonical. apply result_bind_ext. intros _.
  apply (related_bind same_record); [by apply member_related; [apply record_same|]|].
  intros targets targets' Htargets. same_steps. reflexivity.
Qed.
End Same.

(** ** Plans and their digests *)

Lemma plain_strs l : plain (strs l) = true.
Proof. apply plain_arr. induction l; constructor; done. Qed.

Lemma plain_map {A} (doc : A -> json) l : (forall x, plain (doc x) = true) -> plain (JArr (List.map doc l)) = true.
Proof. intros H. apply plain_arr. induction l; constructor; [apply H|done]. Qed.

Ltac plain_doc := intros; apply plain_literal; [vm_compute; reflexivity|];
  repeat (apply List.Forall_cons || apply List.Forall_nil); try apply plain_strs; try reflexivity.

Lemma source_plain s : plain (source_doc s) = true.
Proof. destruct s as [? ? ? ? ? ? []]; plain_doc. Qed.
Lemma toolchain_plain t : plain (toolchain_doc t) = true.
Proof. destruct t as [? ? []]; plain_doc. Qed.
Lemma lockfile_plain l : plain (lockfile_doc l) = true.
Proof. plain_doc. Qed.

Lemma plan_body_plain p : plain (JObj (plan_body p)) = true.
Proof.
  plain_doc; try (apply plain_map; apply source_plain); cbn [snd]; plain_doc;
    try (apply plain_map; first [apply toolchain_plain|apply lockfile_plain|reflexivity]).
Qed.

Section PlanTheorems.
Context {C : Crypto} {D : Dates} {Lo : Locale} {LL : LocaleLaws Lo}.

Lemma canonicalize_Ok v p :
  canonicalizeDeliveryPlan v = Ok p <-> canonical_input v = Ok (cd_input p) /\ cd_planDigest p = plan_digest (cd_input p).
Proof using.
  unfold canonicalizeDeliveryPlan. split.
  - intros (body & Hb & [= <-])%bind_Ok. done.
  - intros [-> Hd]. cbn. destruct p. cbn in *. by subst.
Qed.

Lemma canonical_body_again v p w :
  canonical_input v = Ok p -> reorders (JObj (plan_body p)) w -> canonical_input w = Ok p.
Proof using LL.
  intros H Hr. rewrite <- (canonical_input_same _ _ (or_intror (plan_body_plain p)) Hr). by eapply canonical_input_again.
Qed.

Lemma plan_eq p q : cd_input p = cd_input q -> cd_planDigest p = cd_planDigest q -> p = q.
Proof using. destruct p, q. cbn [cd_input cd_planDigest]. by intros -> ->. Qed.

Lemma canonical_text_binds v w a b :
  canonical_input v = Ok a -> canonical_input w = Ok b -> canonical_obj (plan_body a) = canonical_obj (plan_body b) -> a = b.
Proof using LL.
  intros Ha Hb Hc.
  pose proof (canonical_body_again _ _ _ Ha (reorders_canonical _ (plan_body_plain a))) as H1.
  pose proof (canonical_body_again _ _ _ Hb (reorders_canonical _ (plan_body_plain b))) as H2.
  apply canonical_obj_inj in Hc; [|apply plan_body_plain|apply plan_body_plain].
  assert (E : Ok a = (Ok b : DR _)); [|by injection E]. clear Ha Hb. revert H1 H2 Hc.
  generalize (plan_body a) (plan_body b). intros x y H1 H2 Hc. rewrite <- H1, <- H2. by f_equal.
Qed.

(** *** What an accepted plan guarantees *)

Definition sound_source (s : DeliverySourceIdentity) : Prop :=
  (si_product s = "baby-quirt"%string \/ si_product s = "baby-quirt-mcp"%string) /\
  si_repository s = ("StealthEyeLLC/" +:+ si_product s) /\ si_adapter s ∈ SOURCE_MATERIALIZATION_ADAPTERS /\
  (si_adapter s = "authenticated_git"%string <-> si_credentialReference s <> None) /\
  GIT_OBJECT_PATTERN (si_commit s) = true /\ GIT_OBJECT_PATTERN (si_tree s) = true /\
  DIGEST_PATTERN (si_immutableDigest s) = true.

Lemma text_matches v p s : text v p = Ok s -> p s = true.
Proof using. destruct v; try discriminate. cbn [text]. intros H. by result_inv. Qed.

Lemma integer_bounds v m z : integer v m = Ok z -> m <= z < 2 ^ 53.
Proof using.
  destruct v; try discriminate. cbn [integer]. intros H. result_inv. unfold isSafeInteger in *. bool_inv. lia.
Qed.

Lemma source_sound v s : source v = Ok s -> sound_source s.
Proof using.
  unfold source. intros H. result_inv. unfold sound_source. projections.
  repeat match goal with H : text _ _ = Ok _ |- _ => apply text_matches in H end. bool_inv.
  match goal with H : (_ === _) || (_ === _) = true |- _ => apply orb_true_iff in H end.
  split_and!; try done.
  - match goal with H : _ \/ _ |- _ => destruct H as [H|H]; bool_inv; [by left|by right] end.
  - match goal with H : ?a && ?b = false, H' : ?c && ?d = false |- _ => revert H H' end. clear.
    repeat case_bool_decide; cbn; naive_solver.
Qed.

Lemma products_sound l k :
  result_mapM source l = Ok k -> length l = 2%nat -> unique (List.map si_product (locale_sort si_product k)) = true ->
  Permutation (List.map si_product (locale_sort si_product k)) ["baby-quirt"; "baby-quirt-mcp"]%string /\
  Forall sound_source (locale_sort si_product k).
Proof using.
  intros H Hl Hu. rewrite (locale_sort_perm si_product k). rewrite (unique_perm _ _ (Permutation_map si_product
    (locale_sort_perm si_product k))) in Hu. pose proof (mapM_length _ _ _ H) as Hlen. rewrite Hl in Hlen.
  assert (Hs : Forall sound_source k) by (apply result_mapM_Ok in H; clear -H; induction H; constructor; [by eapply source_sound|done]).
  split; [|done]. unfold unique in Hu. bool_inv. destruct k as [|x [|y [|]]]; try discriminate. cbn in *.
  apply Forall_cons in Hs as [[Hx _] [[Hy _] _]%Forall_cons].
  apply NoDup_cons in Hu as [Hne _]. rewrite list_elem_of_singleton in Hne.
  destruct Hx as [Hx|Hx], Hy as [Hy|Hy]; rewrite Hx, Hy in *; first [done|reflexivity|apply perm_swap].
Qed.

Lemma soak_sound v s :
  soakProfile v = Ok s ->
  NoDup (sp_checkpointSeconds s) /\ Forall (fun c => 1 <= c <= sp_durationSeconds s) (sp_checkpointSeconds s).
Proof using.
  unfold soakProfile. intros H. result_inv. projections. rewrite sort_numbers_perm. unfold unique in *. bool_inv. split; [done|].
  match goal with H : result_mapM _ _ = Ok _ |- _ => apply result_mapM_Ok in H; rename H into Hm end.
  match goal with H : forallb _ _ = true |- _ => rewrite forallb_forall in H; rename H into Hall end.
  match goal with H : integer (prop "durationSeconds" _) 1 = Ok _ |- _ => apply integer_bounds in H; rename H into Hd end.
  clear -Hm Hall Hd. induction Hm as [|x y l k Hxy Hm IH]; constructor.
  - apply integer_bounds in Hxy. specialize (Hall y (or_introl eq_refl)). bool_inv. lia.
  - apply IH. intros z Hz. apply Hall. by right.
Qed.

Lemma time_sound v t :
  timeBounds v = Ok t ->
  exists a b c, date_value (tb_notBefore t) = Some a /\ date_value (tb_guardDeadline t) = Some b /\
    date_value (tb_expiresAt t) = Some c /\ a < b <= c.
Proof using.
  unfold timeBounds. intros H. result_inv. projections. bool_inv. unfold date_ltb, date_leb in *.
  repeat (destruct (date_value _); try discriminate). bool_inv. do 3 eexists. split_and!; done.
Qed.

Lemma cycles_sound v c : certificationProfile v = Ok c -> forall x, x ∈ required_cycles -> x ∈ cp_cycles c.
Proof using.
  unfold certificationProfile. intros H. result_inv. projections.
  match goal with H : forallb _ _ = true |- _ => rewrite forallb_forall in H; rename H into Hall end.
  intros x Hx. apply list_elem_of_In, Hall in Hx. by bool_inv.
Qed.

Lemma builds_sound v b : buildProfile v = Ok b -> 2 <= bp_reproducibleBuilds b.
Proof using.
  unfold buildProfile. intros H. result_inv. projections.
  match goal with H : integer _ 2 = Ok _ |- _ => apply integer_bounds in H; lia end.
Qed.

(** a canonical plan is a fixed point: the body of a plan that was canonicalized, with its
    members in any order at any depth, as it comes back from its stored text, is accepted again and
    gives the same plan with the same digest. *)
Theorem canonical_plan_fixed (v w : json) (p : CanonicalDeliveryPlan) :
  canonicalizeDeliveryPlan v = Ok p -> reorders (JObj (plan_body (cd_input p))) w ->
  canonicalizeDeliveryPlan w = Ok p.
Proof using LL.
  intros [H Hd]%canonicalize_Ok Hr. apply canonicalize_Ok. split; [|done]. by eapply canonical_body_again.
Qed.

(** an authorization binds one plan: if two accepted plans, however they were written, have the
    same digest, they are the same plan in every field, or their canonical texts are two different
    texts with the same SHA-256. *)
Theorem plan_digest_binds (v w : json) (p q : CanonicalDeliveryPlan) :
  canonicalizeDeliveryPlan v = Ok p -> canonicalizeDeliveryPlan w = Ok q -> cd_planDigest p = cd_planDigest q ->
  p = q \/
  (canonical_obj (plan_body (cd_input p)) <> canonical_obj (plan_body (cd_input q)) /\
   sha256Hex (canonical_obj (plan_body (cd_input p))) = sha256Hex (canonical_obj (plan_body (cd_input q)))).
Proof using LL.
  intros [Hp Hdp]%canonicalize_Ok [Hq Hdq]%canonicalize_Ok E. rewrite Hdp, Hdq in E.
  destruct (decide (canonical_obj (plan_body (cd_input p)) = canonical_obj (plan_body (cd_input q)))) as [Hc|Hc];
    [left|right; by split].
  apply plan_eq; [by eapply canonical_text_binds|congruence].
Qed.

(** an accepted plan keeps the rules of a delivery, whatever JSON it was made from: it has one
    identity of each product, from its canonical repository, with a credential exactly for
    authenticated git; its guard deadline lies after its start and not after its expiry; every soak
    checkpoint is distinct and within the soak; the three production cycles are certified and
    builds are repeated. *)
Theorem accepted_plan_sound (v : json) (p : CanonicalDeliveryPlan) :
  canonicalizeDeliveryPlan v = Ok p ->
  let i := cd_input p in
  Permutation (List.map si_product (pi_products i)) ["baby-quirt"; "baby-quirt-mcp"]%string /\
  Forall sound_source (pi_products i) /\
  (exists a b c, date_value (tb_notBefore (pi_timeBounds i)) = Some a /\
     date_value (tb_guardDeadline (pi_timeBounds i)) = Some b /\
     date_value (tb_expiresAt (pi_timeBounds i)) = Some c /\ a < b <= c) /\
  NoDup (sp_checkpointSeconds (pi_soakProfile i)) /\
  Forall (fun c => 1 <= c <= sp_durationSeconds (pi_soakProfile i)) (sp_checkpointSeconds (pi_soakProfile i)) /\
  (forall c, c ∈ required_cycles -> c ∈ cp_cycles (pi_certificationProfile i)) /\
  2 <= bp_reproducibleBuilds (pi_buildProfile i).
Proof using.
  intros [H _]%canonicalize_Ok. cbv zeta. revert H. generalize (cd_input p). intros i H.
  unfold canonical_input in H. result_inv. projections.
  match goal with H : result_mapM source ?l = Ok _, H' : two_products _ = Ok ?l, H'' : unique _ = true |- _ =>
    destruct (products_sound _ _ H (two_products_length _ _ H') H'') as [Hperm Hsound] end.
  match goal with H : soakProfile _ = Ok _ |- _ => destruct (soak_sound _ _ H) as [Hnodup Hsoak] end.
  split_and!; [done|done|by eapply time_sound|done|done|by eapply cycles_sound|by eapply builds_sound].
Qed.
End PlanTheorems.

(** ** Witnesses *)

Section Witnesses.
#[local] Existing Instance toy_crypto.
#[local] Existing Instance toy_dates.
#[local] Existing Instance toy_locale.
#[local] Existing Instance toy_locale_laws.

Definition toy_product (name adapter : string) (credential : option string) : DeliverySourceIdentity := {|
  si_product := name; si_repository := "StealthEyeLLC/" +:+ name; si_commit := toy_sha "commit";
  si_tree := toy_sha "tree"; si_adapter := adapter; si_immutableDigest := toy_sha name;
  si_credentialReference := credential
|}.

Definition toy_input : DeliveryPlanInput := {|
  pi_deliveryId := "delivery-1"; pi_ownerPrincipal := "owner"; pi_authorizationReference := "auth/1";
  pi_targetHostname := "vps"; pi_targetMachineIdentity := toy_sha "machine";
  pi_products := [toy_product "baby-quirt" "authenticated_git" (Some "vault/git"%string);
                  toy_product "baby-quirt-mcp" "connector_handoff" None];
  pi_buildProfile := {|
    bp_name := "build"; bp_version := "1"; bp_commands := ["make"%string];
    bp_toolchains := [{| tc_name := "gcc"; tc_version := "14"; tc_digest := Some (toy_sha "gcc") |};
                      {| tc_name := "node"; tc_version := "22"; tc_digest := None |}];
    bp_lockfiles := [{| lf_path := "package-lock.json"; lf_sha256 := toy_sha "lock" |}];
    bp_cleanEnvironment := true; bp_reproducibleBuilds := 2 |};
  pi_testProfile := {| tp_name := "test"; tp_version := "1"; tp_commands := ["make check"%string];
    tp_requireZeroSkips := true; tp_requireStableCounts := true |};
  pi_certificationProfile := {| cp_name := "cert"; cp_version := "1";
    cp_requiredNspawnProperties := ["Ephemeral"; "PrivateNetwork"]%string; cp_cycles := required_cycles;
    cp_requireSystemdPid1 := true; cp_requireUid0Supervisor := true; cp_requireGatewayUid997 := true;
    cp_destroyAfterCertification := true |};
  pi_targetBaby := "r2"; pi_targetGateway := "g2"; pi_protectedReleases := ["g1"; "r1"]%string;
  pi_protectedPaths := ["/etc"; "/opt/x"]%string;
  pi_candidateVerificationProfile := {| cv_name := "cv"; cv_version := "1"; cv_checks := ["hash"%string] |};
  pi_acceptanceProfile := {| ap_privateChecks := ["health"%string]; ap_publicChecks := ["mcp"%string];
    ap_requireAll := true |};
  pi_soakProfile := {| sp_durationSeconds := 600; sp_checkpointSeconds := [60; 300]; sp_checks := ["health"%string] |};
  pi_rollbackPolicy := {| rp_automaticOnAcceptanceFailure := true; rp_automaticOnSoakFailure := true;
    rp_automaticOnDeadline := true |};
  pi_timeBounds := {| tb_notBefore := "1000"; tb_expiresAt := "90000"; tb_guardDeadline := "50000" |};
  pi_allowedExternalSideEffects := [];
  pi_resourceBounds := {| rb_maxWallSeconds := 1; rb_maxCpuSeconds := 1; rb_maxMemoryBytes := 1; rb_maxDiskBytes := 1;
    rb_maxInodes := 1; rb_maxOutputBytes := 1; rb_maxArtifacts := 1 |};
  pi_costBounds := {| cb_currency := "EUR"; cb_maximumMinorUnits := 0 |};
  pi_evidenceRequirements := ["receipt"%string];
  pi_retentionPolicy := {| rt_eventDays := 1; rt_evidenceDays := 1; rt_artifactDays := 1; rt_retainTerminalRuns := 1 |}
|}.

(** The plan as it may be sent: its members and its products in another order. *)
Definition toy_plan_members : props json :=
  rev (put "products" (JArr (List.map source_doc (rev (pi_products toy_input)))) (plan_body toy_input)).

Definition toy_plan : CanonicalDeliveryPlan := {| cd_input := toy_input; cd_planDigest := plan_digest toy_input |}.

Lemma toy_plan_accepted : canonicalizeDeliveryPlan (JObj toy_plan_members) = Ok toy_plan.
Proof. vm_compute. exact eq_refl. Qed.

Lemma canonical_plan_fixed_witness :
  canonicalizeDeliveryPlan (norm (sortKeys (JObj (plan_body (cd_input toy_plan))))) = Ok toy_plan.
Proof.
  apply (canonical_plan_fixed (JObj toy_plan_members)); [exact toy_plan_accepted|].
  apply reorders_canonical, plan_body_plain.
Defined.

Lemma plan_digest_binds_witness :
  toy_plan = toy_plan \/
  (canonical_obj (plan_body (cd_input toy_plan)) <> canonical_obj (plan_body (cd_input toy_plan)) /\
   sha256Hex (canonical_obj (plan_body (cd_input toy_plan))) = sha256Hex (canonical_obj (plan_body (cd_input toy_plan)))).
Proof.
  apply (plan_digest_binds (JObj toy_plan_members) (JObj (rev toy_plan_members)));
    [exact toy_plan_accepted|vm_compute; exact eq_refl|reflexivity].
Defined.

Lemma accepted_plan_sound_witness :
  Permutation (List.map si_product (pi_products (cd_input toy_plan))) ["baby-quirt"; "baby-quirt-mcp"]%string /\
  2 <= bp_reproducibleBuilds (pi_buildProfile (cd_input toy_plan)).
Proof.
  pose proof (accepted_plan_sound (JObj toy_plan_members) toy_plan toy_plan_accepted) as H.
  cbv zeta in H. split; [exact (proj1 H)|]. do 6 apply proj2 in H. exact H.
Defined.
End Witnesses.
