(* ===== verification/DeliveryDb.v ===== *)
(** * The delivery ledger ([src/delivery/persistence.ts])

    The tables of the class [DeliveryPersistence], with their constraints and triggers, and every
    operation on them, each in a transaction: runs and their transitions, child jobs, artifacts,
    evidence, the leases of the controllers and the request intents.  Rows are typed: the columns
    are those of STRICT tables, so the mapping of a row to a record does not fail. *)

From S2P Require Import Prelude Bytes Json Platform Canonical ReplayStore StateMachine DeliveryPlan.

#[global] Open Scope Z_scope.

(** ** States and records *)

(** Source: src/delivery/types.ts:8-37 (DELIVERY_STATES) *)
Inductive DeliveryState :=
| PLANNED | SOURCE_VERIFIED | SOURCE_MATERIALIZED | BUILDING | TESTING | CERTIFYING | ARTIFACT_FINALIZED
| STAGING | CANDIDATE_VERIFIED | ROLLBACK_ARMED | ACTIVATING | ACCEPTING | SOAKING | SUCCEEDED | REJECTED
| FAILED | CANCELLED_PRE_ARM | ROLLBACK_REQUESTED | ROLLING_BACK | ROLLED_BACK | ROLLBACK_FAILED
| REPAIR_REQUIRED | MANUAL_RECOVERY_REQUIRED | PARTIAL | AMBIGUOUS | UNKNOWN.

#[global] Instance DeliveryState_eq_dec : EqDecision DeliveryState.
Proof. solve_decision. Defined.

(** Source: src/delivery/types.ts:8-37 (DELIVERY_STATES) *)
Definition delivery_state_name (s : DeliveryState) : string :=
  match s with
  | PLANNED => "PLANNED" | SOURCE_VERIFIED => "SOURCE_VERIFIED" | SOURCE_MATERIALIZED => "SOURCE_MATERIALIZED"
  | BUILDING => "BUILDING" | TESTING => "TESTING" | CERTIFYING => "CERTIFYING"
  | ARTIFACT_FINALIZED => "ARTIFACT_FINALIZED" | STAGING => "STAGING" | CANDIDATE_VERIFIED => "CANDIDATE_VERIFIED"
  | ROLLBACK_ARMED => "ROLLBACK_ARMED" | ACTIVATING => "ACTIVATING" | ACCEPTING => "ACCEPTING"
  | SOAKING => "SOAKING" | SUCCEEDED => "SUCCEEDED" | REJECTED => "REJECTED" | FAILED => "FAILED"
  | CANCELLED_PRE_ARM => "CANCELLED_PRE_ARM" | ROLLBACK_REQUESTED => "ROLLBACK_REQUESTED"
  | ROLLING_BACK => "ROLLING_BACK" | ROLLED_BACK => "ROLLED_BACK" | ROLLBACK_FAILED => "ROLLBACK_FAILED"
  | REPAIR_REQUIRED => "REPAIR_REQUIRED" | MANUAL_RECOVERY_REQUIRED => "MANUAL_RECOVERY_REQUIRED"
  | PARTIAL => "PARTIAL" | AMBIGUOUS => "AMBIGUOUS" | UNKNOWN => "UNKNOWN"
  end%string.

(** Source: src/delivery/persistence.ts:26-37 (TERMINAL_DELIVERY_STATES) *)
Definition TERMINAL_DELIVERY_STATES : list DeliveryState :=
  [SUCCEEDED; REJECTED; FAILED; CANCELLED_PRE_ARM; ROLLED_BACK; ROLLBACK_FAILED; MANUAL_RECOVERY_REQUIRED; PARTIAL;
   AMBIGUOUS; UNKNOWN].

Definition delivery_terminal (s : DeliveryState) : bool := bool_decide (s ∈ TERMINAL_DELIVERY_STATES).

(** Source: src/delivery/persistence.ts:24-24 (MAX_EVENTS_PER_RUN) *)
Definition MAX_EVENTS_PER_RUN : Z := 100000.

(** Source: src/delivery/types.ts:183-191 (DeliveryChildJobReference) *)
Record DeliveryChildJobReference := {
  cj_phase : string;
  cj_jobId : string;
  cj_resultDigest : option string;
  cj_receiptId : option string;
  cj_stdoutOffset : Z;
  cj_stderrOffset : Z;
  cj_terminal : bool
}.

(** Source: src/delivery/types.ts:193-199 (DeliveryArtifactReference) *)
Record DeliveryArtifactReference := {
  ar_phase : string;
  ar_artifactId : string;
  ar_sha256 : string;
  ar_size : Z;
  ar_immutable : bool
}.

(** Source: src/delivery/types.ts:201-220 (DeliveryRunRecord) *)
Record DeliveryRunRecord := {
  dr_deliveryId : string;
  dr_planDigest : string;
  dr_ownerPrincipal : string;
  dr_authorizationReference : string;
  dr_targetHostname : string;
  dr_targetMachineIdentity : string;
  dr_generation : Z;
  dr_state : DeliveryState;
  dr_stateSequence : Z;
  dr_deploymentId : option string;
  dr_deploymentState : option DeploymentState;
  dr_activeControllerLease : option string;
  dr_childJobs : list DeliveryChildJobReference;
  dr_artifacts : list DeliveryArtifactReference;
  dr_createdAt : string;
  dr_updatedAt : string;
  dr_expiresAt : string;
  dr_terminal : bool
}.

(** Source: src/delivery/types.ts:222-236 (DeliveryEventRecord) *)
Record DeliveryEventRecord := {
  de_deliveryId : string;
  de_offset : Z;
  de_generation : Z;
  de_planDigest : string;
  de_state : DeliveryState;
  de_phase : string;
  de_kind : string;
  de_message : string;
  de_childJobId : option string;
  de_artifactReference : option string;
  de_receiptId : option string;
  de_occurredAt : string;
  de_eventDigest : string
}.

(** Source: src/delivery/types.ts:238-249 (DeliveryEvidenceRecord) *)
Record DeliveryEvidenceRecord := {
  dv_deliveryId : string;
  dv_generation : Z;
  dv_planDigest : string;
  dv_deploymentId : option string;
  dv_kind : string;
  dv_digest : string;
  dv_artifactReference : string;
  dv_receiptId : option string;
  dv_redacted : bool;
  dv_createdAt : string
}.

(** Source: src/delivery/persistence.ts:282-299 (DeliveryTransitionInput) *)
Record DeliveryTransitionInput := {
  dt_deliveryId : string;
  dt_planDigest : string;
  dt_generation : Z;
  dt_expectedState : DeliveryState;
  dt_expectedSequence : Z;
  dt_nextState : DeliveryState;
  dt_phase : string;
  dt_kind : string;
  dt_message : string;
  dt_idempotencyKey : string;
  dt_occurredAt : string;
  dt_deploymentId : option string;
  dt_deploymentState : option DeploymentState;
  dt_childJobId : option string;
  dt_artifactReference : option string;
  dt_receiptId : option string
}.

(** Source: src/delivery/persistence.ts:301-305 (DeliveryTransitionResult) *)
Record DeliveryTransitionResult := {
  tr_run : DeliveryRunRecord;
  tr_event : DeliveryEventRecord;
  tr_replayed : bool
}.

Inductive LeaseStatus := lease_active | lease_released | lease_expired.

(** Source: src/delivery/persistence.ts:307-318 (DeliveryControllerLeaseRecord) *)
Record DeliveryControllerLeaseRecord := {
  le_deliveryId : string;
  le_leaseId : string;
  le_generation : Z;
  le_holder : string;
  le_acquiredAt : string;
  le_heartbeatAt : string;
  le_expiresAt : string;
  le_status : LeaseStatus;
  le_releasedAt : option string;
  le_recordDigest : string
}.

(** The result of a completed intent is its JSON text, which the code parses when it returns it.
    Source: src/delivery/persistence.ts:320-324 (DeliveryIntentReservation) *)
Inductive DeliveryIntentReservation :=
| di_reserved | di_pending | di_completed (resultDigest resultJson : string) | di_conflict (existing : string).

#[global] Instance DeliveryChildJobReference_eq_dec : EqDecision DeliveryChildJobReference.
Proof. solve_decision. Defined.
#[global] Instance DeliveryArtifactReference_eq_dec : EqDecision DeliveryArtifactReference.
Proof. solve_decision. Defined.
#[global] Instance DeliveryRunRecord_eq_dec : EqDecision DeliveryRunRecord.
Proof. solve_decision. Defined.
#[global] Instance DeliveryEventRecord_eq_dec : EqDecision DeliveryEventRecord.
Proof. solve_decision. Defined.
#[global] Instance LeaseStatus_eq_dec : EqDecision LeaseStatus.
Proof. solve_decision. Defined.
#[global] Instance DeliveryControllerLeaseRecord_eq_dec : EqDecision DeliveryControllerLeaseRecord.
Proof. solve_decision. Defined.

(** *** Their object literals *)

Definition state_opt (o : option DeploymentState) : option string := option_map state_name o.

Definition child_members (c : DeliveryChildJobReference) : props json :=
  ([("phase", JStr (cj_phase c)); ("jobId", JStr (cj_jobId c))]%string ++ member_opt "resultDigest" (cj_resultDigest c) ++
   member_opt "receiptId" (cj_receiptId c) ++
   [("stdoutOffset", JNum (cj_stdoutOffset c)); ("stderrOffset", JNum (cj_stderrOffset c));
    ("terminal", JBool (cj_terminal c))]%string).

Definition artifact_members (a : DeliveryArtifactReference) : props json :=
  [("phase", JStr (ar_phase a)); ("artifactId", JStr (ar_artifactId a)); ("sha256", JStr (ar_sha256 a));
   ("size", JNum (ar_size a)); ("immutable", JBool (ar_immutable a))]%string.

Definition run_members (r : DeliveryRunRecord) : props json :=
  ([("deliveryId", JStr (dr_deliveryId r)); ("planDigest", JStr (dr_planDigest r));
    ("ownerPrincipal", JStr (dr_ownerPrincipal r)); ("authorizationReference", JStr (dr_authorizationReference r));
    ("targetHostname", JStr (dr_targetHostname r)); ("targetMachineIdentity", JStr (dr_targetMachineIdentity r));
    ("generation", JNum (dr_generation r)); ("state", JStr (delivery_state_name (dr_state r)));
    ("stateSequence", JNum (dr_stateSequence r))]%string ++
   member_opt "deploymentId" (dr_deploymentId r) ++ member_opt "deploymentState" (state_opt (dr_deploymentState r)) ++
   member_opt "activeControllerLease" (dr_activeControllerLease r) ++
   [("childJobs", JArr (List.map (fun c => JObj (child_members c)) (dr_childJobs r)));
    ("artifacts", JArr (List.map (fun a => JObj (artifact_members a)) (dr_artifacts r)));
    ("createdAt", JStr (dr_createdAt r)); ("updatedAt", JStr (dr_updatedAt r)); ("expiresAt", JStr (dr_expiresAt r));
    ("terminal", JBool (dr_terminal r))]%string).

Definition event_members (e : DeliveryEventRecord) : props json :=
  ([("deliveryId", JStr (de_deliveryId e)); ("offset", JNum (de_offset e)); ("generation", JNum (de_generation e));
    ("planDigest", JStr (de_planDigest e)); ("state", JStr (delivery_state_name (de_state e)));
    ("phase", JStr (de_phase e)); ("kind", JStr (de_kind e)); ("message", JStr (de_message e))]%string ++
   member_opt "childJobId" (de_childJobId e) ++ member_opt "artifactReference" (de_artifactReference e) ++
   member_opt "receiptId" (de_receiptId e) ++
   [("occurredAt", JStr (de_occurredAt e)); ("eventDigest", JStr (de_eventDigest e))]%string).

Definition evidence_members (e : DeliveryEvidenceRecord) : props json :=
  ([("deliveryId", JStr (dv_deliveryId e)); ("generation", JNum (dv_generation e));
    ("planDigest", JStr (dv_planDigest e))]%string ++ member_opt "deploymentId" (dv_deploymentId e) ++
   [("kind", JStr (dv_kind e)); ("digest", JStr (dv_digest e));
    ("artifactReference", JStr (dv_artifactReference e))]%string ++ member_opt "receiptId" (dv_receiptId e) ++
   [("redacted", JBool (dv_redacted e)); ("createdAt", JStr (dv_createdAt e))]%string).

Definition result_members (r : DeliveryTransitionResult) : props json :=
  [("run", JObj (run_members (tr_run r))); ("event", JObj (event_members (tr_event r)));
   ("replayed", JBool (tr_replayed r))]%string.

(** ** Tables *)

(** [plan_json] is the value of the text [canonicalJson(plan)], which is what [JSON.parse] makes of it.
    Source: src/delivery/persistence.ts:40-50 (DELIVERY_LEDGER_SQL) *)
Record PlanRow := {
  pl_deliveryId : string;
  pl_planDigest : string;
  pl_planJson : json;
  pl_ownerPrincipal : string;
  pl_authorizationReference : string;
  pl_targetHostname : string;
  pl_targetMachineIdentity : string;
  pl_expiresAt : string;
  pl_createdAt : string
}.

(** Source: src/delivery/persistence.ts:52-66 (DELIVERY_LEDGER_SQL) *)
Record RunRow := {
  rn_deliveryId : string;
  rn_planDigest : string;
  rn_generation : Z;
  rn_state : DeliveryState;
  rn_stateSequence : Z;
  rn_deploymentId : option string;
  rn_deploymentState : option DeploymentState;
  rn_lease : option string;
  rn_terminal : bool;
  rn_recordDigest : string;
  rn_createdAt : string;
  rn_updatedAt : string;
  rn_expiresAt : string
}.

(** Source: src/delivery/persistence.ts:68-80 (DELIVERY_LEDGER_SQL) *)
Record ChildJobRow := {
  cr_deliveryId : string;
  cr_generation : Z;
  cr_reference : DeliveryChildJobReference;
  cr_recordDigest : string
}.

(** Source: src/delivery/persistence.ts:82-92 (DELIVERY_LEDGER_SQL) *)
Record ArtifactRow := { aw_deliveryId : string; aw_generation : Z; aw_reference : DeliveryArtifactReference }.

(** [result_json] is the text of [er_result].
    Source: src/delivery/persistence.ts:94-116 (DELIVERY_LEDGER_SQL) *)
Record EventRow := {
  er_event : DeliveryEventRecord;
  er_priorEventDigest : option string;
  er_idempotencyKey : string;
  er_semanticDigest : string;
  er_result : DeliveryTransitionResult;
  er_resultDigest : string
}.

(** Source: src/delivery/persistence.ts:118-132 (DELIVERY_LEDGER_SQL) *)
Record EvidenceRow := { ew_sequence : Z; ew_record : DeliveryEvidenceRecord }.

Inductive DeliveryIntentStatus := intent_is_pending | intent_is_completed.

(** A row of [request_intents] with the column [delivery_id].
    Source: src/delivery/persistence.ts:148-149 (DELIVERY_LEDGER_SQL) *)
Record IntentRow := {
  in_key : string;
  in_semantic : string;
  in_operation : string;
  in_delivery : option string;
  in_status : DeliveryIntentStatus;
  in_digest : option string;
  in_json : option string;
  in_createdAt : string;
  in_completedAt : option string
}.

#[global] Instance DeliveryIntentStatus_eq_dec : EqDecision DeliveryIntentStatus.
Proof. solve_decision. Defined.

(** The tables; [deployments] are the identifiers in the table of the deployment ledger.
    Source: src/delivery/persistence.ts:39-149 (DELIVERY_LEDGER_SQL) *)
Record Tables := {
  deployments : list string;
  delivery_plans : list PlanRow;
  delivery_runs : list RunRow;
  delivery_child_jobs : list ChildJobRow;
  delivery_artifacts : list ArtifactRow;
  delivery_events : list EventRow;
  delivery_evidence : list EvidenceRow;
  delivery_controller_leases : list DeliveryControllerLeaseRecord;
  request_intents : list IntentRow
}.

Definition new_tables (deps : list string) (intents : list IntentRow) : Tables := {|
  deployments := deps; delivery_plans := []; delivery_runs := []; delivery_child_jobs := []; delivery_artifacts := [];
  delivery_events := []; delivery_evidence := []; delivery_controller_leases := []; request_intents := intents
|}.

Definition with_plans (l : list PlanRow) (s : Tables) : Tables := {|
  deployments := deployments s; delivery_plans := l; delivery_runs := delivery_runs s;
  delivery_child_jobs := delivery_child_jobs s; delivery_artifacts := delivery_artifacts s;
  delivery_events := delivery_events s; delivery_evidence := delivery_evidence s;
  delivery_controller_leases := delivery_controller_leases s; request_intents := request_intents s |}.
Definition with_runs (l : list RunRow) (s : Tables) : Tables := {|
  deployments := deployments s; delivery_plans := delivery_plans s; delivery_runs := l;
  delivery_child_jobs := delivery_child_jobs s; delivery_artifacts := delivery_artifacts s;
  delivery_events := delivery_events s; delivery_evidence := delivery_evidence s;
  delivery_controller_leases := delivery_controller_leases s; request_intents := request_intents s |}.
Definition with_jobs (l : list ChildJobRow) (s : Tables) : Tables := {|
  deployments := deployments s; delivery_plans := delivery_plans s; delivery_runs := delivery_runs s;
  delivery_child_jobs := l; delivery_artifacts := delivery_artifacts s;
  delivery_events := delivery_events s; delivery_evidence := delivery_evidence s;
  delivery_controller_leases := delivery_controller_leases s; request_intents := request_intents s |}.
Definition with_artifacts (l : list ArtifactRow) (s : Tables) : Tables := {|
  deployments := deployments s; delivery_plans := delivery_plans s; delivery_runs := delivery_runs s;
  delivery_child_jobs := delivery_child_jobs s; delivery_artifacts := l;
  delivery_events := delivery_events s; delivery_evidence := delivery_evidence s;
  delivery_controller_leases := delivery_controller_leases s; request_intents := request_intents s |}.
Definition with_events (l : list EventRow) (s : Tables) : Tables := {|
  deployments := deployments s; delivery_plans := delivery_plans s; delivery_runs := delivery_runs s;
  delivery_child_jobs := delivery_child_jobs s; delivery_artifacts := delivery_artifacts s;
  delivery_events := l; delivery_evidence := delivery_evidence s;
  delivery_controller_leases := delivery_controller_leases s; request_intents := request_intents s |}.
Definition with_evidence (l : list EvidenceRow) (s : Tables) : Tables := {|
  deployments := deployments s; delivery_plans := delivery_plans s; delivery_runs := delivery_runs s;
  delivery_child_jobs := delivery_child_jobs s; delivery_artifacts := delivery_artifacts s;
  delivery_events := delivery_events s; delivery_evidence := l;
  delivery_controller_leases := delivery_controller_leases s; request_intents := request_intents s |}.
Definition with_leases (l : list DeliveryControllerLeaseRecord) (s : Tables) : Tables := {|
  deployments := deployments s; delivery_plans := delivery_plans s; delivery_runs := delivery_runs s;
  delivery_child_jobs := delivery_child_jobs s; delivery_artifacts := delivery_artifacts s;
  delivery_events := delivery_events s; delivery_evidence := delivery_evidence s;
  delivery_controller_leases := l; request_intents := request_intents s |}.
Definition with_intents (l : list IntentRow) (s : Tables) : Tables := {|
  deployments := deployments s; delivery_plans := delivery_plans s; delivery_runs := delivery_runs s;
  delivery_child_jobs := delivery_child_jobs s; delivery_artifacts := delivery_artifacts s;
  delivery_events := delivery_events s; delivery_evidence := delivery_evidence s;
  delivery_controller_leases := delivery_controller_leases s; request_intents := l |}.

Definition with_deployments (l : list string) (s : Tables) : Tables := {|
  deployments := l; delivery_plans := delivery_plans s; delivery_runs := delivery_runs s;
  delivery_child_jobs := delivery_child_jobs s; delivery_artifacts := delivery_artifacts s;
  delivery_events := delivery_events s; delivery_evidence := delivery_evidence s;
  delivery_controller_leases := delivery_controller_leases s; request_intents := request_intents s |}.

Abbreviation LM A := (M Tables DeliveryError A).

(** *** Constraints and triggers *)

(** The rows of [UPDATE ... SET f WHERE p]. *)
Definition set_where {A} (p : A -> bool) (f : A -> A) (l : list A) : list A :=
  List.map (fun x => if p x then f x else x) l.

Definition length64 (s : string) : bool := (String.length s =? 64)%nat.
Definition length64_opt (o : option string) : bool := match o with Some s => length64 s | None => true end.

Definition has_run (id : string) (s : Tables) : bool := existsb (fun r => rn_deliveryId r === id) (delivery_runs s).
Definition has_deployment (id : option string) (s : Tables) : bool :=
  match id with Some id => bool_decide (id ∈ deployments s) | None => true end.

(** Source: src/delivery/persistence.ts:40-50 (DELIVERY_LEDGER_SQL) *)
Definition insert_plan (textLength : nat) (r : PlanRow) : LM unit :=
  s ← get_state;
  guardM (negb (existsb (fun q => (pl_deliveryId q === pl_deliveryId r) || (pl_planDigest q === pl_planDigest r))
                  (delivery_plans s)) &&
          length64 (pl_planDigest r) && negb (textLength =? 0)%nat && (Z.of_nat textLength <=? 1048576) &&
          length64 (pl_targetMachineIdentity r)) sqlite_constraint;;
  modify (fun s => with_plans (delivery_plans s ++ [r]) s).

(** Source: src/delivery/persistence.ts:52-66 (DELIVERY_LEDGER_SQL) *)
Definition run_checks (r : RunRow) (s : Tables) : bool :=
  existsb (fun p => pl_deliveryId p === rn_deliveryId r) (delivery_plans s) &&
  existsb (fun p => pl_planDigest p === rn_planDigest r) (delivery_plans s) &&
  has_deployment (rn_deploymentId r) s && (0 <? rn_generation r) && (0 <=? rn_stateSequence r) &&
  length64 (rn_recordDigest r).

Definition insert_run (r : RunRow) : LM unit :=
  s ← get_state;
  guardM (negb (has_run (rn_deliveryId r) s) && run_checks r s) sqlite_constraint;;
  modify (fun s => with_runs (delivery_runs s ++ [r]) s).

(** The triggers [delivery_runs_identity_immutable], [delivery_runs_state_sequence_cas] and
    [delivery_runs_terminal_state_immutable].
    Source: src/delivery/persistence.ts:170-204 (DELIVERY_LEDGER_SQL) *)
Definition run_triggers (old new : RunRow) : bool :=
  let moved := (rn_generation old !== rn_generation new) || (rn_state old !== rn_state new) ||
               (rn_deploymentId old !== rn_deploymentId new) || (rn_deploymentState old !== rn_deploymentState new) ||
               negb (Bool.eqb (rn_terminal old) (rn_terminal new)) in
  (rn_deliveryId old === rn_deliveryId new) && (rn_planDigest old === rn_planDigest new) &&
  (rn_createdAt old === rn_createdAt new) && (rn_expiresAt old === rn_expiresAt new) &&
  negb (moved && (rn_stateSequence new !== rn_stateSequence old + 1)) &&
  negb (rn_terminal old && (moved || (rn_stateSequence old !== rn_stateSequence new))).

(** [UPDATE delivery_runs SET ... WHERE ...], with the number of changed rows. *)
Definition update_runs (where_ : RunRow -> bool) (set_ : RunRow -> RunRow) : LM nat :=
  s ← get_state;
  guardM (forallb (fun r => negb (where_ r) || (run_triggers r (set_ r) && run_checks (set_ r) s)) (delivery_runs s))
    sqlite_constraint;;
  modify (fun s => with_runs (set_where where_ set_ (delivery_runs s)) s);;
  mret (length (List.filter where_ (delivery_runs s))).

(** Source: src/delivery/persistence.ts:68-80 (DELIVERY_LEDGER_SQL) *)
Definition job_checks (r : ChildJobRow) : bool :=
  (0 <? cr_generation r) && length64_opt (cj_resultDigest (cr_reference r)) &&
  (0 <=? cj_stdoutOffset (cr_reference r)) && (0 <=? cj_stderrOffset (cr_reference r)) && length64 (cr_recordDigest r).

Definition insert_job (r : ChildJobRow) : LM unit :=
  s ← get_state;
  guardM (has_run (cr_deliveryId r) s &&
          negb (existsb (fun q => (cr_deliveryId q === cr_deliveryId r) &&
                                  (cj_jobId (cr_reference q) === cj_jobId (cr_reference r))) (delivery_child_jobs s)) &&
          job_checks r) sqlite_constraint;;
  modify (fun s => with_jobs (delivery_child_jobs s ++ [r]) s).

(** With the trigger [delivery_child_jobs_identity_immutable].
    Source: src/delivery/persistence.ts:210-218 (DELIVERY_LEDGER_SQL) *)
Definition update_jobs (where_ : ChildJobRow -> bool) (set_ : ChildJobRow -> ChildJobRow) : LM nat :=
  s ← get_state;
  guardM (forallb (fun r => negb (where_ r) ||
     ((cr_deliveryId r === cr_deliveryId (set_ r)) && (cr_generation r === cr_generation (set_ r)) &&
      (cj_phase (cr_reference r) === cj_phase (cr_reference (set_ r))) &&
      (cj_jobId (cr_reference r) === cj_jobId (cr_reference (set_ r))) && job_checks (set_ r))) (delivery_child_jobs s))
    sqlite_constraint;;
  modify (fun s => with_jobs (set_where where_ set_ (delivery_child_jobs s)) s);;
  mret (length (List.filter where_ (delivery_child_jobs s))).

(** Source: src/delivery/persistence.ts:82-92 (DELIVERY_LEDGER_SQL) *)
Definition insert_artifact (r : ArtifactRow) : LM unit :=
  s ← get_state;
  let same (p : ArtifactRow -> bool) := existsb (fun q => (aw_deliveryId q === aw_deliveryId r) && p q) (delivery_artifacts s) in
  guardM (has_run (aw_deliveryId r) s && (0 <? aw_generation r) && length64 (ar_sha256 (aw_reference r)) &&
          (0 <=? ar_size (aw_reference r)) && ar_immutable (aw_reference r) &&
          negb (same (fun q => ar_artifactId (aw_reference q) === ar_artifactId (aw_reference r))) &&
          negb (same (fun q => (ar_phase (aw_reference q) === ar_phase (aw_reference r)) &&
                               (ar_sha256 (aw_reference q) === ar_sha256 (aw_reference r))))) sqlite_constraint;;
  modify (fun s => with_artifacts (delivery_artifacts s ++ [r]) s).

(** Source: src/delivery/persistence.ts:94-116 (DELIVERY_LEDGER_SQL) *)
Definition insert_event (r : EventRow) : LM unit :=
  s ← get_state;
  let e := er_event r in
  guardM (has_run (de_deliveryId e) s && (0 <=? de_offset e) && (0 <? de_generation e) && length64 (de_planDigest e) &&
          negb (String.length (de_message e) =? 0)%nat && (String.length (de_message e) <=? 4096)%nat &&
          length64_opt (er_priorEventDigest r) && length64 (de_eventDigest e) && length64 (er_semanticDigest r) &&
          length64 (er_resultDigest r) &&
          negb (existsb (fun q => (de_deliveryId (er_event q) === de_deliveryId e) &&
                  ((de_offset (er_event q) === de_offset e) || (de_eventDigest (er_event q) === de_eventDigest e) ||
                   (er_idempotencyKey q === er_idempotencyKey r))) (delivery_events s))) sqlite_constraint;;
  modify (fun s => with_events (delivery_events s ++ [r]) s).

(** Source: src/delivery/persistence.ts:118-132 (DELIVERY_LEDGER_SQL) *)
Definition insert_evidence (r : EvidenceRow) : LM unit :=
  s ← get_state;
  let e := ew_record r in
  guardM (has_run (dv_deliveryId e) s && (0 <=? ew_sequence r) && (0 <? dv_generation e) && length64 (dv_planDigest e) &&
          has_deployment (dv_deploymentId e) s && length64 (dv_digest e) && dv_redacted e &&
          negb (existsb (fun q => (dv_deliveryId (ew_record q) === dv_deliveryId e) &&
                  ((ew_sequence q === ew_sequence r) ||
                   ((dv_kind (ew_record q) === dv_kind e) && (dv_digest (ew_record q) === dv_digest e))))
                  (delivery_evidence s))) sqlite_constraint;;
  modify (fun s => with_evidence (delivery_evidence s ++ [r]) s).

(** With the unique index [delivery_one_active_controller_idx].
    Source: src/delivery/persistence.ts:134-159 (DELIVERY_LEDGER_SQL) *)
Definition insert_lease (r : DeliveryControllerLeaseRecord) : LM unit :=
  s ← get_state;
  guardM (has_run (le_deliveryId r) s && (0 <? le_generation r) && length64 (le_recordDigest r) &&
          negb (existsb (fun q => (le_deliveryId q === le_deliveryId r) && (le_leaseId q === le_leaseId r))
                  (delivery_controller_leases s)) &&
          negb ((le_status r === lease_active) &&
                existsb (fun q => (le_deliveryId q === le_deliveryId r) && (le_status q === lease_active))
                  (delivery_controller_leases s))) sqlite_constraint;;
  modify (fun s => with_leases (delivery_controller_leases s ++ [r]) s).

(** With the trigger [delivery_controller_leases_identity_immutable]; no statement activates a lease.
    Source: src/delivery/persistence.ts:251-260 (DELIVERY_LEDGER_SQL) *)
Definition update_leases (where_ : DeliveryControllerLeaseRecord -> bool)
    (set_ : DeliveryControllerLeaseRecord -> DeliveryControllerLeaseRecord) : LM nat :=
  s ← get_state;
  guardM (forallb (fun r => negb (where_ r) ||
     ((le_deliveryId r === le_deliveryId (set_ r)) && (le_leaseId r === le_leaseId (set_ r)) &&
      (le_generation r === le_generation (set_ r)) && (le_holder r === le_holder (set_ r)) &&
      (le_acquiredAt r === le_acquiredAt (set_ r)) && length64 (le_recordDigest (set_ r))))
     (delivery_controller_leases s)) sqlite_constraint;;
  modify (fun s => with_leases (set_where where_ set_ (delivery_controller_leases s)) s);;
  mret (length (List.filter where_ (delivery_controller_leases s))).

Definition insert_intent (r : IntentRow) : LM unit :=
  s ← get_state;
  guardM (match in_delivery r with Some id => has_run id s | None => true end &&
          negb (existsb (fun q => in_key q === in_key r) (request_intents s)) && length64 (in_semantic r)) sqlite_constraint;;
  modify (fun s => with_intents (request_intents s ++ [r]) s).

Definition update_intents (where_ : IntentRow -> bool) (set_ : IntentRow -> IntentRow) : LM nat :=
  s ← get_state;
  modify (fun s => with_intents (set_where where_ set_ (request_intents s)) s);;
  mret (length (List.filter where_ (request_intents s))).

(** ** Validation *)

(** Source: src/delivery/persistence.ts:359-363 (assertIdentifier) *)
Definition assertIdentifier (value : string) : DR unit := require (IDENTIFIER_PATTERN value) delivery_invalid.

(** Source: src/delivery/persistence.ts:365-369 (assertIdempotencyKey) *)
Definition assertIdempotencyKey (value : string) : DR unit := require (IDEMPOTENCY_PATTERN value) delivery_invalid.

(** Source: src/delivery/persistence.ts:371-375 (assertDigest) *)
Definition assertDigest (value : string) : DR unit := require (DIGEST_PATTERN value) delivery_invalid.

(** Source: src/delivery/persistence.ts:377-382 (assertTimestamp) *)
Definition assertTimestamp {D : Dates} (value : string) : DR unit := require (canonical_timestamp value) delivery_invalid.

(** Source: src/delivery/persistence.ts:384-388 (assertPositiveInteger) *)
Definition assertPositiveInteger (value : Z) : DR unit :=
  require (isSafeInteger value && (0 <? value)) delivery_invalid.

(** Source: src/delivery/persistence.ts:390-394 (assertNonnegativeInteger) *)
Definition assertNonnegativeInteger (value : Z) : DR unit :=
  require (isSafeInteger value && (0 <=? value)) delivery_invalid.

(** [limit] of the three listings. *)
Definition assertLimit (value : Z) : DR unit :=
  require (isSafeInteger value && (1 <=? value) && (value <=? 200)) delivery_invalid.

(** [if (value !== undefined) check(value)] *)
Definition when_given (o : option string) (check : string -> DR unit) : DR unit :=
  match o with Some v => check v | None => Ok tt end.

(** *** [ORDER BY] *)

(** [ORDER BY f, g] *)
Definition pair_ltb {A} (f g : A -> string) (x y : A) : bool :=
  str_ltb (f x) (f y) || ((f x === f y) && str_ltb (g x) (g y)).

Section Database.
Context {C : Crypto} {D : Dates} {Lo : Locale}.

(** ** Plans and runs *)

(** [const { planDigest, ...body } = plan], on the members of the plan.
    Source: src/delivery/persistence.ts:410-420 (canonicalPlan) *)
Definition canonicalPlan (plan : props json) : DR CanonicalDeliveryPlan :=
  canonical ← canonicalizeDeliveryPlan (JObj (List.filter (fun kv => fst kv !== "planDigest"%string) plan));
  _ ← require (prop "planDigest" plan === JStr (cd_planDigest canonical)) delivery_plan_changed;
  Ok canonical.

(** Source: src/delivery/persistence.ts:536-550 (createRun) *)
Definition initial_run_digest (plan : CanonicalDeliveryPlan) (generation : Z) (createdAt : string) : string :=
  sha256Hex (canonical_obj
    [("deliveryId", JStr (pi_deliveryId (cd_input plan))); ("planDigest", JStr (cd_planDigest plan));
     ("generation", JNum generation); ("state", JStr "PLANNED"); ("stateSequence", JNum 0); ("deploymentId", JNull);
     ("deploymentState", JNull); ("activeControllerLease", JNull); ("terminal", JBool false);
     ("createdAt", JStr createdAt); ("expiresAt", JStr (tb_expiresAt (pi_timeBounds (cd_input plan))))]%string).

(** The members of [JSON.parse(plan_json)]. *)
Definition stored_members (v : json) : props json := match v with JObj kvs => kvs | _ => [] end.

(** Source: src/delivery/persistence.ts:605-617 (getPlan) *)
Definition getPlan (id : string) : LM (option CanonicalDeliveryPlan) :=
  lift (assertIdentifier id);;
  s ← get_state;
  match List.find (fun r => pl_deliveryId r === id) (delivery_plans s) with
  | None => mret None
  | Some row =>
      plan ← lift (canonicalPlan (stored_members (pl_planJson row)));
      guardM (cd_planDigest plan === pl_planDigest row) delivery_unknown;;
      mret (Some plan)
  end.

(** Source: src/delivery/persistence.ts:639-643 (getRun) *)
Definition child_jobs_of (id : string) (s : Tables) : list DeliveryChildJobReference :=
  order_by (pair_ltb cj_phase cj_jobId)
    (List.map cr_reference (List.filter (fun r => cr_deliveryId r === id) (delivery_child_jobs s))).

(** Source: src/delivery/persistence.ts:644-648 (getRun) *)
Definition artifacts_of (id : string) (s : Tables) : list DeliveryArtifactReference :=
  order_by (pair_ltb ar_phase ar_artifactId)
    (List.map aw_reference (List.filter (fun r => aw_deliveryId r === id) (delivery_artifacts s))).

(** Source: src/delivery/persistence.ts:649-672 (getRun) *)
Definition run_record (row : RunRow) (plan : DeliveryPlanInput) (s : Tables) : DeliveryRunRecord := {|
  dr_deliveryId := rn_deliveryId row; dr_planDigest := rn_planDigest row; dr_ownerPrincipal := pi_ownerPrincipal plan;
  dr_authorizationReference := pi_authorizationReference plan; dr_targetHostname := pi_targetHostname plan;
  dr_targetMachineIdentity := pi_targetMachineIdentity plan; dr_generation := rn_generation row; dr_state := rn_state row;
  dr_stateSequence := rn_stateSequence row; dr_deploymentId := rn_deploymentId row;
  dr_deploymentState := rn_deploymentState row; dr_activeControllerLease := rn_lease row;
  dr_childJobs := child_jobs_of (rn_deliveryId row) s; dr_artifacts := artifacts_of (rn_deliveryId row) s;
  dr_createdAt := rn_createdAt row; dr_updatedAt := rn_updatedAt row; dr_expiresAt := rn_expiresAt row;
  dr_terminal := rn_terminal row
|}.

Definition find_run (id : string) (s : Tables) : option RunRow :=
  List.find (fun r => rn_deliveryId r === id) (delivery_runs s).

(** Source: src/delivery/persistence.ts:619-673 (getRun) *)
Definition getRun (id : string) : LM (option DeliveryRunRecord) :=
  lift (assertIdentifier id);;
  s ← get_state;
  match find_run id s with
  | None => mret None
  | Some row =>
      plan ← getPlan id;
      match plan with
      | None => throw delivery_unknown
      | Some plan => mret (Some (run_record row (cd_input plan) s))
      end
  end.

(** Source: src/delivery/persistence.ts:675-679 (getRunRequired) *)
Definition getRunRequired (id : string) : LM DeliveryRunRecord :=
  run ← getRun id;
  match run with Some run => mret run | None => throw delivery_not_found end.

(** Source: src/delivery/persistence.ts:567-577 (createRun) *)
Definition plan_row (plan : CanonicalDeliveryPlan) (createdAt : string) : PlanRow := {|
  pl_deliveryId := pi_deliveryId (cd_input plan); pl_planDigest := cd_planDigest plan;
  pl_planJson := reparse (sortKeys (JObj (plan_doc plan))); pl_ownerPrincipal := pi_ownerPrincipal (cd_input plan);
  pl_authorizationReference := pi_authorizationReference (cd_input plan);
  pl_targetHostname := pi_targetHostname (cd_input plan);
  pl_targetMachineIdentity := pi_targetMachineIdentity (cd_input plan);
  pl_expiresAt := tb_expiresAt (pi_timeBounds (cd_input plan)); pl_createdAt := createdAt
|}.

(** Source: src/delivery/persistence.ts:578-600 (createRun) *)
Definition initial_run (plan : CanonicalDeliveryPlan) (generation : Z) (createdAt : string) : RunRow := {|
  rn_deliveryId := pi_deliveryId (cd_input plan); rn_planDigest := cd_planDigest plan; rn_generation := generation;
  rn_state := PLANNED; rn_stateSequence := 0; rn_deploymentId := None; rn_deploymentState := None; rn_lease := None;
  rn_terminal := false; rn_recordDigest := initial_run_digest plan generation createdAt; rn_createdAt := createdAt;
  rn_updatedAt := createdAt; rn_expiresAt := tb_expiresAt (pi_timeBounds (cd_input plan))
|}.

(** Source: src/delivery/persistence.ts:529-603 (createRun) *)
Definition createRun (planInput : props json) (generation : Z) (createdAt : string) : LM DeliveryRunRecord :=
  plan ← lift (canonicalPlan planInput);
  lift (assertPositiveInteger generation);;
  lift (assertTimestamp createdAt);;
  guardM (negb (date_ltb (tb_expiresAt (pi_timeBounds (cd_input plan))) createdAt)) delivery_expired;;
  transaction (
    existing ← getRun (pi_deliveryId (cd_input plan));
    match existing with
    | Some existing =>
        guardM (dr_planDigest existing === cd_planDigest plan) delivery_plan_changed;;
        guardM (dr_generation existing === generation) delivery_generation_conflict;;
        mret existing
    | None =>
        insert_plan (String.length (canonical_obj (plan_doc plan))) (plan_row plan createdAt);;
        insert_run (initial_run plan generation createdAt);;
        getRunRequired (pi_deliveryId (cd_input plan))
    end).

(** [rows.map((row) => this.getRunRequired(...))] *)
Fixpoint get_runs (ids : list string) : LM (list DeliveryRunRecord) :=
  match ids with
  | [] => mret []
  | id :: ids => run ← getRunRequired id; runs ← get_runs ids; mret (run :: runs)
  end.

(** Source: src/delivery/persistence.ts:681-699 (listRuns) *)
Definition listRuns (offset limit : option Z) (state : option DeliveryState) : LM (list DeliveryRunRecord) :=
  let offset := default 0 offset in
  let limit := default 50 limit in
  lift (assertNonnegativeInteger offset);;
  lift (assertLimit limit);;
  s ← get_state;
  let rows := List.filter (fun r => match state with Some q => rn_state r === q | None => true end) (delivery_runs s) in
  let newest x y := str_ltb (rn_createdAt y) (rn_createdAt x) ||
                    ((rn_createdAt x === rn_createdAt y) && str_ltb (rn_deliveryId x) (rn_deliveryId y)) in
  get_runs (List.map rn_deliveryId (take (Z.to_nat limit) (drop (Z.to_nat offset) (order_by newest rows)))).

(** ** Transitions *)

(** The states of the input are states by their types.
    Source: src/delivery/persistence.ts:897-920 (validateTransition) *)
Definition validateTransition (input : DeliveryTransitionInput) : DR unit :=
  _ ← assertIdentifier (dt_deliveryId input);
  _ ← assertDigest (dt_planDigest input);
  _ ← assertPositiveInteger (dt_generation input);
  _ ← assertNonnegativeInteger (dt_expectedSequence input);
  _ ← assertIdentifier (dt_phase input);
  _ ← assertIdentifier (dt_kind input);
  _ ← require ((1 <=? String.length (dt_message input))%nat && (String.length (dt_message input) <=? 4096)%nat)
        delivery_invalid;
  _ ← assertIdempotencyKey (dt_idempotencyKey input);
  _ ← assertTimestamp (dt_occurredAt input);
  _ ← when_given (dt_deploymentId input) assertIdentifier;
  _ ← when_given (dt_childJobId input) assertIdentifier;
  _ ← when_given (dt_receiptId input) assertIdentifier;
  when_given (dt_artifactReference input) (fun v => require (String.length v <=? 4096)%nat delivery_invalid).

(** Source: src/delivery/persistence.ts:703-721 (transition) *)
Definition semantic_members (input : DeliveryTransitionInput) : props json :=
  [("deliveryId", JStr (dt_deliveryId input)); ("planDigest", JStr (dt_planDigest input));
   ("generation", JNum (dt_generation input)); ("expectedState", JStr (delivery_state_name (dt_expectedState input)));
   ("expectedSequence", JNum (dt_expectedSequence input));
   ("nextState", JStr (delivery_state_name (dt_nextState input))); ("phase", JStr (dt_phase input));
   ("kind", JStr (dt_kind input)); ("message", JStr (dt_message input)); ("occurredAt", JStr (dt_occurredAt input));
   ("deploymentId", null_str (dt_deploymentId input)); ("deploymentState", null_str (state_opt (dt_deploymentState input)));
   ("childJobId", null_str (dt_childJobId input)); ("artifactReference", null_str (dt_artifactReference input));
   ("receiptId", null_str (dt_receiptId input))]%string.

Definition semantic_digest (input : DeliveryTransitionInput) : string :=
  sha256Hex (canonical_obj (semantic_members input)).

(** Source: src/delivery/persistence.ts:724-726 (transition) *)
Definition prior_event (input : DeliveryTransitionInput) (s : Tables) : option EventRow :=
  List.find (fun r => (de_deliveryId (er_event r) === dt_deliveryId input) &&
                      (er_idempotencyKey r === dt_idempotencyKey input)) (delivery_events s).

(** Source: src/delivery/persistence.ts:727-737 (transition) *)
Definition replay_event (input : DeliveryTransitionInput) (row : EventRow) : DR DeliveryTransitionResult :=
  _ ← require (er_semanticDigest row === semantic_digest input) idempotency_conflict;
  _ ← require (sha256Hex (canonical_obj (result_members (er_result row))) === er_resultDigest row) delivery_unknown;
  Ok {| tr_run := tr_run (er_result row); tr_event := tr_event (er_result row); tr_replayed := true |}.

(** The deployment after the transition; [a ∪ b] is [a ?? b].
    Source: src/delivery/persistence.ts:763-770 (transition) *)
Definition next_deployment (input : DeliveryTransitionInput) (current : DeliveryRunRecord) : option string :=
  dt_deploymentId input ∪ dr_deploymentId current.
Definition next_deploymentState (input : DeliveryTransitionInput) (current : DeliveryRunRecord) : option DeploymentState :=
  dt_deploymentState input ∪ dr_deploymentState current.

Definition given {A} (o : option A) : bool := match o with Some _ => true | None => false end.

(** Source: src/delivery/persistence.ts:740-770 (transition) *)
Definition check_transition (input : DeliveryTransitionInput) (current : DeliveryRunRecord) : DR unit :=
  _ ← require (dr_planDigest current === dt_planDigest input) delivery_plan_changed;
  _ ← require (dr_generation current === dt_generation input) delivery_generation_conflict;
  _ ← require (negb (dr_terminal current)) delivery_state_conflict;
  _ ← require ((dr_state current === dt_expectedState input) && (dr_stateSequence current === dt_expectedSequence input))
        delivery_state_conflict;
  _ ← require (negb (date_ltb (dr_expiresAt current) (dt_occurredAt input))) delivery_expired;
  _ ← require (negb (given (dr_deploymentId current) && given (dt_deploymentId input) &&
                     (dr_deploymentId current !== dt_deploymentId input))) delivery_conflict;
  require (negb (given (next_deploymentState input current) && negb (given (next_deployment input current))))
    delivery_invalid.

Definition events_of (id : string) (s : Tables) : list EventRow :=
  List.filter (fun r => de_deliveryId (er_event r) === id) (delivery_events s).

(** [ORDER BY offset DESC LIMIT 1]
    Source: src/delivery/persistence.ts:778-780 (transition) *)
Definition last_event (id : string) (s : Tables) : option EventRow :=
  head (order_by (fun x y => de_offset (er_event y) <? de_offset (er_event x)) (events_of id s)).

(** Source: src/delivery/persistence.ts:785-795 (transition) *)
Definition event_digest (prior : option string) (semantic : string) (offset generation : Z) (planDigest : string)
    (state : DeliveryState) (sequence : Z) : string :=
  sha256Hex (canonical_obj
    [("priorEventDigest", null_str prior); ("semanticDigest", JStr semantic); ("offset", JNum offset);
     ("generation", JNum generation); ("planDigest", JStr planDigest); ("state", JStr (delivery_state_name state));
     ("stateSequence", JNum sequence)]%string).

(** Source: src/delivery/persistence.ts:781-812 (transition) *)
Definition next_event (input : DeliveryTransitionInput) (current : DeliveryRunRecord) (last : option EventRow)
    : DeliveryEventRecord :=
  let offset := match last with None => 0 | Some r => de_offset (er_event r) + 1 end in
  let prior := option_map (fun r => de_eventDigest (er_event r)) last in {|
  de_deliveryId := dt_deliveryId input; de_offset := offset; de_generation := dt_generation input;
  de_planDigest := dt_planDigest input; de_state := dt_nextState input; de_phase := dt_phase input;
  de_kind := dt_kind input; de_message := dt_message input; de_childJobId := dt_childJobId input;
  de_artifactReference := dt_artifactReference input; de_receiptId := dt_receiptId input;
  de_occurredAt := dt_occurredAt input;
  de_eventDigest := event_digest prior (semantic_digest input) offset (dt_generation input) (dt_planDigest input)
                      (dt_nextState input) (dr_stateSequence current + 1)
|}.

(** Source: src/delivery/persistence.ts:813-821 (transition) *)
Definition next_run (input : DeliveryTransitionInput) (current : DeliveryRunRecord) : DeliveryRunRecord := {|
  dr_deliveryId := dr_deliveryId current; dr_planDigest := dr_planDigest current;
  dr_ownerPrincipal := dr_ownerPrincipal current; dr_authorizationReference := dr_authorizationReference current;
  dr_targetHostname := dr_targetHostname current; dr_targetMachineIdentity := dr_targetMachineIdentity current;
  dr_generation := dr_generation current; dr_state := dt_nextState input;
  dr_stateSequence := dr_stateSequence current + 1; dr_deploymentId := next_deployment input current;
  dr_deploymentState := next_deploymentState input current; dr_activeControllerLease := dr_activeControllerLease current;
  dr_childJobs := dr_childJobs current; dr_artifacts := dr_artifacts current; dr_createdAt := dr_createdAt current;
  dr_updatedAt := dt_occurredAt input; dr_expiresAt := dr_expiresAt current;
  dr_terminal := delivery_terminal (dt_nextState input)
|}.

(** Source: src/delivery/persistence.ts:822-822 (transition) *)
Definition transition_result (input : DeliveryTransitionInput) (current : DeliveryRunRecord) (last : option EventRow)
    : DeliveryTransitionResult :=
  {| tr_run := next_run input current; tr_event := next_event input current last; tr_replayed := false |}.

(** Source: src/delivery/persistence.ts:823-867 (transition) *)
Definition event_row (input : DeliveryTransitionInput) (current : DeliveryRunRecord) (last : option EventRow) : EventRow := {|
  er_event := next_event input current last;
  er_priorEventDigest := option_map (fun r => de_eventDigest (er_event r)) last;
  er_idempotencyKey := dt_idempotencyKey input; er_semanticDigest := semantic_digest input;
  er_result := transition_result input current last;
  er_resultDigest := sha256Hex (canonical_obj (result_members (transition_result input current last)))
|}.

(** Source: src/delivery/persistence.ts:828-838 (transition) *)
Definition run_digest (prior eventDigest : string) (input : DeliveryTransitionInput) (current : DeliveryRunRecord) : string :=
  sha256Hex (canonical_obj
    [("priorRecordDigest", JStr prior); ("eventDigest", JStr eventDigest);
     ("state", JStr (delivery_state_name (dt_nextState input))); ("stateSequence", JNum (dr_stateSequence current + 1));
     ("deploymentId", null_str (next_deployment input current));
     ("deploymentState", null_str (state_opt (next_deploymentState input current)));
     ("terminal", JBool (delivery_terminal (dt_nextState input)))]%string).

(** The row [UPDATE delivery_runs] writes, and its condition.
    Source: src/delivery/persistence.ts:868-889 (transition) *)
Definition advanced (input : DeliveryTransitionInput) (current : DeliveryRunRecord) (digest : string) (r : RunRow) : RunRow := {|
  rn_deliveryId := rn_deliveryId r; rn_planDigest := rn_planDigest r; rn_generation := rn_generation r;
  rn_state := dt_nextState input; rn_stateSequence := dr_stateSequence current + 1;
  rn_deploymentId := next_deployment input current; rn_deploymentState := next_deploymentState input current;
  rn_lease := rn_lease r; rn_terminal := delivery_terminal (dt_nextState input); rn_recordDigest := digest;
  rn_createdAt := rn_createdAt r; rn_updatedAt := dt_occurredAt input; rn_expiresAt := rn_expiresAt r
|}.

Definition cas_where (input : DeliveryTransitionInput) (r : RunRow) : bool :=
  (rn_deliveryId r === dt_deliveryId input) && (rn_planDigest r === dt_planDigest input) &&
  (rn_generation r === dt_generation input) && (rn_state r === dt_expectedState input) &&
  (rn_stateSequence r === dt_expectedSequence input) && negb (rn_terminal r).

(** [SELECT record_digest FROM delivery_runs WHERE delivery_id = ?]; without a row the property read throws. *)
Definition record_digest (id : string) : LM string :=
  s ← get_state;
  match find_run id s with Some row => mret (rn_recordDigest row) | None => throw delivery_type_error end.

(** Source: src/delivery/persistence.ts:701-895 (transition) *)
Definition transition (input : DeliveryTransitionInput) : LM DeliveryTransitionResult :=
  lift (validateTransition input);;
  transaction (
    s ← get_state;
    match prior_event input s with
    | Some row => lift (replay_event input row)
    | None =>
        current ← getRunRequired (dt_deliveryId input);
        lift (check_transition input current);;
        guardM (Z.of_nat (length (events_of (dt_deliveryId input) s)) <? MAX_EVENTS_PER_RUN) delivery_conflict;;
        let last := last_event (dt_deliveryId input) s in
        prior ← record_digest (dt_deliveryId input);
        insert_event (event_row input current last);;
        changes ← update_runs (cas_where input)
          (advanced input current (run_digest prior (de_eventDigest (next_event input current last)) input current));
        guardM (changes =? 1)%nat delivery_state_conflict;;
        mret (transition_result input current last)
    end).

(** The page of a listing: the items and the offset of the next page. *)
Record Page (A : Type) := { pg_offset : Z; pg_nextOffset : Z; pg_items : list A }.

(** Source: src/delivery/persistence.ts:922-946 (listEvents) *)
Definition listEvents (id : string) (offset limit : Z) : LM (Page DeliveryEventRecord) :=
  getRunRequired id;;
  lift (assertNonnegativeInteger offset);;
  lift (assertLimit limit);;
  s ← get_state;
  let rows := List.filter (fun r => offset <=? de_offset (er_event r)) (events_of id s) in
  let items := take (Z.to_nat limit)
    (List.map er_event (order_by (fun x y => de_offset (er_event x) <? de_offset (er_event y)) rows)) in
  mret {| pg_offset := offset; pg_items := items;
          pg_nextOffset := match last items with None => offset | Some e => de_offset e + 1 end |}.

(** ** Child jobs, artifacts and evidence *)

(** Source: src/delivery/persistence.ts:1504-1516 (assertRunFence) *)
Definition assertRunFence (id planDigest : string) (generation : Z) : LM DeliveryRunRecord :=
  run ← getRunRequired id;
  guardM (dr_planDigest run === planDigest) delivery_plan_changed;;
  guardM (dr_generation run === generation) delivery_generation_conflict;;
  mret run.

(** Source: src/delivery/persistence.ts:954-962 (recordChildJob) *)
Definition validate_child (id planDigest : string) (generation : Z) (reference : DeliveryChildJobReference) : DR unit :=
  _ ← assertIdentifier id;
  _ ← assertDigest planDigest;
  _ ← assertPositiveInteger generation;
  _ ← assertIdentifier (cj_phase reference);
  _ ← assertIdentifier (cj_jobId reference);
  _ ← when_given (cj_resultDigest reference) assertDigest;
  _ ← when_given (cj_receiptId reference) assertIdentifier;
  _ ← assertNonnegativeInteger (cj_stdoutOffset reference);
  assertNonnegativeInteger (cj_stderrOffset reference).

(** Source: src/delivery/persistence.ts:1000-1014 (recordChildJob) *)
Definition check_progress (existing reference : DeliveryChildJobReference) : DR unit :=
  _ ← require (negb ((cj_stdoutOffset reference <? cj_stdoutOffset existing) ||
                     (cj_stderrOffset reference <? cj_stderrOffset existing))) delivery_conflict;
  _ ← require (negb (given (cj_resultDigest existing) && (cj_resultDigest reference !== cj_resultDigest existing)))
        delivery_conflict;
  require (negb (given (cj_receiptId existing) && (cj_receiptId reference !== cj_receiptId existing)))
    delivery_receipt_invalid.

Definition job_row_of (id job : string) (r : ChildJobRow) : bool :=
  (cr_deliveryId r === id) && (cj_jobId (cr_reference r) === job).

Definition first_job_digest (generation : Z) (reference : DeliveryChildJobReference) : string :=
  sha256Hex (canonical_obj (("generation"%string, JNum generation) :: child_members reference)).
Definition next_job_digest (prior : string) (generation : Z) (reference : DeliveryChildJobReference) : string :=
  sha256Hex (canonical_obj [("priorRecordDigest", JStr prior); ("generation", JNum generation);
                            ("reference", JObj (child_members reference))]%string).

(** The columns [UPDATE delivery_child_jobs] sets: all of the reference but its phase and job.
    Source: src/delivery/persistence.ts:1022-1039 (recordChildJob) *)
Definition moved_job (reference : DeliveryChildJobReference) (digest : string) (r : ChildJobRow) : ChildJobRow := {|
  cr_deliveryId := cr_deliveryId r; cr_generation := cr_generation r;
  cr_reference := {| cj_phase := cj_phase (cr_reference r); cj_jobId := cj_jobId (cr_reference r);
    cj_resultDigest := cj_resultDigest reference; cj_receiptId := cj_receiptId reference;
    cj_stdoutOffset := cj_stdoutOffset reference; cj_stderrOffset := cj_stderrOffset reference;
    cj_terminal := cj_terminal reference |};
  cr_recordDigest := digest
|}.

(** Source: src/delivery/persistence.ts:948-1041 (recordChildJob) *)
Definition recordChildJob (id planDigest : string) (generation : Z) (reference : DeliveryChildJobReference)
    : LM DeliveryChildJobReference :=
  lift (validate_child id planDigest generation reference);;
  transaction (
    run ← assertRunFence id planDigest generation;
    s ← get_state;
    match List.find (job_row_of id (cj_jobId reference)) (delivery_child_jobs s) with
    | None =>
        insert_job {| cr_deliveryId := id; cr_generation := generation; cr_reference := reference;
                      cr_recordDigest := first_job_digest generation reference |};;
        mret reference
    | Some row =>
        let existing := cr_reference row in
        guardM (cj_phase existing === cj_phase reference) delivery_conflict;;
        if cj_terminal existing then
          guardM (canonical_obj (child_members existing) === canonical_obj (child_members reference)) delivery_conflict;;
          mret existing
        else
          lift (check_progress existing reference);;
          update_jobs (fun r => job_row_of id (cj_jobId reference) r && negb (cj_terminal (cr_reference r)))
            (moved_job reference (next_job_digest (cr_recordDigest row) (dr_generation run) reference));;
          mret reference
    end).

(** Source: src/delivery/persistence.ts:1043-1085 (recordArtifact) *)
Definition recordArtifact (id planDigest : string) (generation : Z) (reference : DeliveryArtifactReference)
    : LM DeliveryArtifactReference :=
  lift (_ ← assertIdentifier id;
        _ ← assertDigest planDigest;
        _ ← assertPositiveInteger generation;
        _ ← assertIdentifier (ar_phase reference);
        _ ← assertIdentifier (ar_artifactId reference);
        _ ← assertDigest (ar_sha256 reference);
        _ ← assertNonnegativeInteger (ar_size reference);
        require (ar_immutable reference) delivery_invalid);;
  transaction (
    assertRunFence id planDigest generation;;
    s ← get_state;
    match List.find (fun r => (aw_deliveryId r === id) && (ar_artifactId (aw_reference r) === ar_artifactId reference))
            (delivery_artifacts s) with
    | Some row =>
        guardM (canonical_obj (artifact_members (aw_reference row)) === canonical_obj (artifact_members reference))
          delivery_conflict;;
        mret (aw_reference row)
    | None =>
        insert_artifact {| aw_deliveryId := id; aw_generation := generation; aw_reference := reference |};;
        mret reference
    end).

Definition evidence_of (id : string) (s : Tables) : list EvidenceRow :=
  List.filter (fun r => dv_deliveryId (ew_record r) === id) (delivery_evidence s).

(** Source: src/delivery/persistence.ts:1087-1142 (appendEvidence) *)
Definition appendEvidence (record : DeliveryEvidenceRecord) : LM DeliveryEvidenceRecord :=
  lift (_ ← assertIdentifier (dv_deliveryId record);
        _ ← assertPositiveInteger (dv_generation record);
        _ ← assertDigest (dv_planDigest record);
        _ ← when_given (dv_deploymentId record) assertIdentifier;
        _ ← assertIdentifier (dv_kind record);
        _ ← assertDigest (dv_digest record);
        _ ← require ((1 <=? String.length (dv_artifactReference record))%nat &&
                     (String.length (dv_artifactReference record) <=? 4096)%nat) delivery_invalid;
        _ ← when_given (dv_receiptId record) assertIdentifier;
        _ ← require (dv_redacted record) delivery_invalid;
        assertTimestamp (dv_createdAt record));;
  transaction (
    run ← assertRunFence (dv_deliveryId record) (dv_planDigest record) (dv_generation record);
    guardM (negb (given (dv_deploymentId record) && (dr_deploymentId run !== dv_deploymentId record))) delivery_conflict;;
    s ← get_state;
    match List.find (fun r => (dv_kind (ew_record r) === dv_kind record) && (dv_digest (ew_record r) === dv_digest record))
            (evidence_of (dv_deliveryId record) s) with
    | Some row =>
        guardM (canonical_obj (evidence_members (ew_record row)) === canonical_obj (evidence_members record))
          delivery_conflict;;
        mret (ew_record row)
    | None =>
        let last := head (order_by (fun x y => ew_sequence y <? ew_sequence x) (evidence_of (dv_deliveryId record) s)) in
        let sequence := match last with None => 0 | Some r => ew_sequence r + 1 end in
        insert_evidence {| ew_sequence := sequence; ew_record := record |};;
        mret record
    end).

(** Source: src/delivery/persistence.ts:1144-1177 (listEvidence) *)
Definition listEvidence (id : string) (kind : option string) (offset limit : option Z) : LM (Page DeliveryEvidenceRecord) :=
  getRunRequired id;;
  let offset := default 0 offset in
  let limit := default 50 limit in
  lift (assertNonnegativeInteger offset);;
  lift (assertLimit limit);;
  lift (when_given kind assertIdentifier);;
  s ← get_state;
  let rows := List.filter (fun r => (offset <=? ew_sequence r) &&
                match kind with Some k => dv_kind (ew_record r) === k | None => true end) (evidence_of id s) in
  let page := take (Z.to_nat limit) (order_by (fun x y => ew_sequence x <? ew_sequence y) rows) in
  mret {| pg_offset := offset; pg_items := List.map ew_record page;
          pg_nextOffset := match last page with None => offset | Some r => ew_sequence r + 1 end |}.

(** ** Controller leases *)

(** Source: src/delivery/persistence.ts:1179-1187 (acquireControllerLease) *)
Record LeaseRequest := {
  lr_deliveryId : string;
  lr_planDigest : string;
  lr_generation : Z;
  lr_leaseId : string;
  lr_holder : string;
  lr_at : string;
  lr_expiresAt : string
}.

(** Source: src/delivery/persistence.ts:1518-1534 (validateLeaseIdentity) *)
Definition validateLeaseIdentity (input : LeaseRequest) : DR unit :=
  _ ← assertIdentifier (lr_deliveryId input);
  _ ← assertDigest (lr_planDigest input);
  _ ← assertPositiveInteger (lr_generation input);
  _ ← assertIdentifier (lr_leaseId input);
  _ ← assertIdentifier (lr_holder input);
  _ ← assertTimestamp (lr_at input);
  assertTimestamp (lr_expiresAt input).

Definition pointed (lease : option string) (digest at_ : string) (r : RunRow) : RunRow := {|
  rn_deliveryId := rn_deliveryId r; rn_planDigest := rn_planDigest r; rn_generation := rn_generation r;
  rn_state := rn_state r; rn_stateSequence := rn_stateSequence r; rn_deploymentId := rn_deploymentId r;
  rn_deploymentState := rn_deploymentState r; rn_lease := lease; rn_terminal := rn_terminal r;
  rn_recordDigest := digest; rn_createdAt := rn_createdAt r; rn_updatedAt := at_; rn_expiresAt := rn_expiresAt r
|}.

Definition pointer_digest (prior : string) (lease : option string) (at_ : string) : string :=
  sha256Hex (canonical_obj [("priorRecordDigest", JStr prior); ("activeControllerLease", null_str lease);
                            ("occurredAt", JStr at_)]%string).

(** Source: src/delivery/persistence.ts:1536-1567 (updateLeasePointer) *)
Definition updateLeasePointer (run : DeliveryRunRecord) (lease : option string) (at_ : string) : LM unit :=
  prior ← record_digest (dr_deliveryId run);
  changes ← update_runs (fun r => (rn_deliveryId r === dr_deliveryId run) && (rn_generation r === dr_generation run) &&
                                  (rn_planDigest r === dr_planDigest run))
              (pointed lease (pointer_digest prior lease at_) at_);
  guardM (changes =? 1)%nat delivery_generation_conflict.

Definition lease_is (id lease : string) (r : DeliveryControllerLeaseRecord) : bool :=
  (le_deliveryId r === id) && (le_leaseId r === lease).
Definition active_lease_of (id : string) (r : DeliveryControllerLeaseRecord) : bool :=
  (le_deliveryId r === id) && (le_status r === lease_active).
Definition active_is (id lease : string) (r : DeliveryControllerLeaseRecord) : bool :=
  lease_is id lease r && (le_status r === lease_active).

(** [mapLease] of the row read back; [mapLease(undefined)] throws. *)
Definition read_lease (id lease : string) : LM DeliveryControllerLeaseRecord :=
  s ← get_state;
  match List.find (lease_is id lease) (delivery_controller_leases s) with
  | Some row => mret row
  | None => throw delivery_type_error
  end.

(** A lease that ends at [at_], by expiry or by release.
    Source: src/delivery/persistence.ts:1223-1238 (acquireControllerLease) *)
Definition ended (status : LeaseStatus) (at_ digest : string) (r : DeliveryControllerLeaseRecord)
    : DeliveryControllerLeaseRecord := {|
  le_deliveryId := le_deliveryId r; le_leaseId := le_leaseId r; le_generation := le_generation r;
  le_holder := le_holder r; le_acquiredAt := le_acquiredAt r; le_heartbeatAt := at_; le_expiresAt := le_expiresAt r;
  le_status := status; le_releasedAt := Some at_; le_recordDigest := digest
|}.

Definition ended_digest (prior status at_ : string) : string :=
  sha256Hex (canonical_obj [("priorRecordDigest", JStr prior); ("status", JStr status); ("at", JStr at_)]%string).

(** Source: src/delivery/persistence.ts:1240-1267 (acquireControllerLease) *)
Definition new_lease (input : LeaseRequest) : DeliveryControllerLeaseRecord := {|
  le_deliveryId := lr_deliveryId input; le_leaseId := lr_leaseId input; le_generation := lr_generation input;
  le_holder := lr_holder input; le_acquiredAt := lr_at input; le_heartbeatAt := lr_at input;
  le_expiresAt := lr_expiresAt input; le_status := lease_active; le_releasedAt := None;
  le_recordDigest := sha256Hex (canonical_obj
    [("deliveryId", JStr (lr_deliveryId input)); ("leaseId", JStr (lr_leaseId input));
     ("generation", JNum (lr_generation input)); ("holder", JStr (lr_holder input));
     ("acquiredAt", JStr (lr_at input)); ("expiresAt", JStr (lr_expiresAt input)); ("status", JStr "active")]%string)
|}.

(** The active lease of the delivery ends when it has expired, and else it is a conflict.
    Source: src/delivery/persistence.ts:1211-1239 (acquireControllerLease) *)
Definition expire_active (input : LeaseRequest) : LM unit :=
  s ← get_state;
  match List.find (active_lease_of (lr_deliveryId input)) (delivery_controller_leases s) with
  | None => mret tt
  | Some active =>
      guardM (negb (date_ltb (lr_at input) (le_expiresAt active))) delivery_controller_conflict;;
      update_leases (active_is (lr_deliveryId input) (le_leaseId active))
        (ended lease_expired (lr_at input) (ended_digest (le_recordDigest active) "expired" (lr_at input)));;
      mret tt
  end.

(** Source: src/delivery/persistence.ts:1179-1275 (acquireControllerLease) *)
Definition acquireControllerLease (input : LeaseRequest) : LM DeliveryControllerLeaseRecord :=
  lift (_ ← validateLeaseIdentity input;
        require (negb (date_leb (lr_expiresAt input) (lr_at input))) delivery_invalid);;
  transaction (
    run ← assertRunFence (lr_deliveryId input) (lr_planDigest input) (lr_generation input);
    guardM (negb (dr_terminal run)) delivery_state_conflict;;
    s ← get_state;
    match List.find (lease_is (lr_deliveryId input) (lr_leaseId input)) (delivery_controller_leases s) with
    | Some same =>
        guardM ((le_generation same === lr_generation input) && (le_holder same === lr_holder input) &&
                (le_acquiredAt same === lr_at input) && (le_expiresAt same === lr_expiresAt input) &&
                (le_status same === lease_active)) delivery_controller_conflict;;
        mret same
    | None =>
        expire_active input;;
        insert_lease (new_lease input);;
        updateLeasePointer run (Some (lr_leaseId input)) (lr_at input);;
        read_lease (lr_deliveryId input) (lr_leaseId input)
    end).

Definition renewed (input : LeaseRequest) (digest : string) (r : DeliveryControllerLeaseRecord)
    : DeliveryControllerLeaseRecord := {|
  le_deliveryId := le_deliveryId r; le_leaseId := le_leaseId r; le_generation := le_generation r;
  le_holder := le_holder r; le_acquiredAt := le_acquiredAt r; le_heartbeatAt := lr_at input;
  le_expiresAt := lr_expiresAt input; le_status := le_status r; le_releasedAt := le_releasedAt r;
  le_recordDigest := digest
|}.

Definition renewed_digest (prior : string) (input : LeaseRequest) : string :=
  sha256Hex (canonical_obj [("priorRecordDigest", JStr prior); ("heartbeatAt", JStr (lr_at input));
                            ("expiresAt", JStr (lr_expiresAt input)); ("status", JStr "active")]%string).

(** Source: src/delivery/persistence.ts:1298-1302 (renewControllerLease) *)
Definition find_lease (id lease : string) : LM DeliveryControllerLeaseRecord :=
  s ← get_state;
  match List.find (lease_is id lease) (delivery_controller_leases s) with
  | Some row => mret row
  | None => throw delivery_controller_conflict
  end.

(** [lr_at] is the [heartbeatAt] of the request.
    Source: src/delivery/persistence.ts:1277-1339 (renewControllerLease) *)
Definition renewControllerLease (input : LeaseRequest) : LM DeliveryControllerLeaseRecord :=
  lift (_ ← validateLeaseIdentity input;
        require (negb (date_leb (lr_expiresAt input) (lr_at input))) delivery_invalid);;
  transaction (
    run ← assertRunFence (lr_deliveryId input) (lr_planDigest input) (lr_generation input);
    lease ← find_lease (lr_deliveryId input) (lr_leaseId input);
    guardM ((le_status lease === lease_active) && (le_holder lease === lr_holder input) &&
            (dr_activeControllerLease run === Some (lr_leaseId input))) delivery_controller_conflict;;
    guardM (negb (date_ltb (lr_at input) (le_heartbeatAt lease))) delivery_controller_conflict;;
    if (lr_at input === le_heartbeatAt lease) && (lr_expiresAt input === le_expiresAt lease) then mret lease
    else
      guardM (negb (date_ltb (lr_expiresAt input) (le_expiresAt lease))) delivery_controller_conflict;;
      update_leases (active_is (lr_deliveryId input) (lr_leaseId input))
        (renewed input (renewed_digest (le_recordDigest lease) input));;
      updateLeasePointer run (Some (lr_leaseId input)) (lr_at input);;
      read_lease (lr_deliveryId input) (lr_leaseId input)).

(** [releasedAt] is [at_].
    Source: src/delivery/persistence.ts:1341-1397 (releaseControllerLease) *)
Definition releaseControllerLease (id planDigest : string) (generation : Z) (leaseId holder at_ : string)
    : LM DeliveryControllerLeaseRecord :=
  lift (_ ← assertIdentifier id;
        _ ← assertDigest planDigest;
        _ ← assertPositiveInteger generation;
        _ ← assertIdentifier leaseId;
        _ ← assertIdentifier holder;
        assertTimestamp at_);;
  transaction (
    run ← assertRunFence id planDigest generation;
    lease ← find_lease id leaseId;
    guardM (le_holder lease === holder) delivery_controller_conflict;;
    match le_status lease with
    | lease_released => guardM (le_releasedAt lease === Some at_) delivery_controller_conflict;; mret lease
    | lease_expired => throw delivery_controller_conflict
    | lease_active =>
        update_leases (active_is id leaseId)
          (ended lease_released at_ (ended_digest (le_recordDigest lease) "released" at_));;
        (if dr_activeControllerLease run === Some leaseId then updateLeasePointer run None at_ else mret tt);;
        read_lease id leaseId
    end).

(** Source: src/delivery/persistence.ts:1399-1405 (getActiveControllerLease) *)
Definition getActiveControllerLease (id : string) : LM (option DeliveryControllerLeaseRecord) :=
  getRunRequired id;;
  s ← get_state;
  mret (List.find (active_lease_of id) (delivery_controller_leases s)).

(** ** Request intents *)

(** Source: src/delivery/persistence.ts:1414-1421 (reserveIntent) *)
Definition validate_intent (key semantic operation id createdAt : string) : DR unit :=
  _ ← assertIdempotencyKey key;
  _ ← assertDigest semantic;
  _ ← assertIdentifier operation;
  _ ← require (String.prefix "baby.delivery." operation) delivery_invalid;
  _ ← assertIdentifier id;
  assertTimestamp createdAt.

(** The answer for an intent whose key is taken.
    Source: src/delivery/persistence.ts:1427-1443 (reserveIntent) *)
Definition answer_intent (semantic operation id : string) (existing : IntentRow) : DR DeliveryIntentReservation :=
  if (in_semantic existing !== semantic) || (in_operation existing !== operation) || (in_delivery existing !== Some id)
  then Ok (di_conflict (in_semantic existing))
  else if in_status existing === intent_is_pending then Ok di_pending
  else match in_json existing, in_digest existing with
       | Some json, Some digest =>
           _ ← require (truthy_str json && truthy_str digest && (sha256Hex json === digest)) delivery_unknown;
           Ok (di_completed digest json)
       | _, _ => Err delivery_unknown
       end.

(** Source: src/delivery/persistence.ts:1407-1460 (reserveIntent) *)
Definition reserveIntent (key semantic operation id createdAt : string) : LM DeliveryIntentReservation :=
  lift (validate_intent key semantic operation id createdAt);;
  getRunRequired id;;
  transaction (
    s ← get_state;
    match List.find (fun r => in_key r === key) (request_intents s) with
    | Some existing => lift (answer_intent semantic operation id existing)
    | None =>
        insert_intent {| in_key := key; in_semantic := semantic; in_operation := operation; in_delivery := Some id;
          in_status := intent_is_pending; in_digest := None; in_json := None; in_createdAt := createdAt;
          in_completedAt := None |};;
        mret di_reserved
    end).

Definition intent_completed (digest json at_ : string) (r : IntentRow) : IntentRow := {|
  in_key := in_key r; in_semantic := in_semantic r; in_operation := in_operation r; in_delivery := in_delivery r;
  in_status := intent_is_completed; in_digest := Some digest; in_json := Some json; in_createdAt := in_createdAt r;
  in_completedAt := Some at_
|}.

(** [canonicalJson(undefined)] is [undefined], which [sha256Hex] rejects.
    Source: src/delivery/persistence.ts:1462-1502 (completeIntent) *)
Definition completeIntent (key semantic id : string) (result : json) (at_ : string) : LM string :=
  lift (_ ← assertIdempotencyKey key;
        _ ← assertDigest semantic;
        _ ← assertIdentifier id;
        assertTimestamp at_);;
  resultJson ← lift (match canonicalJson result with Some t => Ok t | None => Err delivery_type_error end);
  let resultDigest := sha256Hex resultJson in
  transaction (
    s ← get_state;
    match List.find (fun r => in_key r === key) (request_intents s) with
    | None => throw delivery_not_found
    | Some row =>
        guardM ((in_semantic row === semantic) && (in_delivery row === Some id)) idempotency_conflict;;
        if in_status row === intent_is_completed then
          guardM (in_digest row === Some resultDigest) idempotency_conflict;;
          mret resultDigest
        else
          changes ← update_intents (fun r => (in_key r === key) && (in_status r === intent_is_pending))
            (intent_completed resultDigest resultJson at_);
          guardM (changes =? 1)%nat delivery_conflict;;
          mret resultDigest
    end).
End Database.

Arguments pg_offset {A} _.
Arguments pg_nextOffset {A} _.
Arguments pg_items {A} _.
