(* ===== verification/DeliveryLedger.v ===== *)
(** * The delivery ledger: what its operations guarantee

    The operations of [DeliveryDb] refine an abstract ledger: a step relation on the tables, with
    one rule per kind of change.  Its invariant: every run is the projection of its log of events, a
    hash chain without gaps; the plan of a run reads back as it was created; a run points exactly to
    its active lease.  The theorems follow from it for every sequence of operations. *)

From S2P Require Import Prelude Bytes Json Platform Canonical ReplayStore StateMachine DeliveryPlan DeliveryDb.

#[global] Open Scope Z_scope.

(** ** Reading a stored plan back *)

Lemma reparse_norm v : plain v = true -> reparse v = norm v.
Proof.
  induction v as [| |b|z|s|l IH|kvs IH] using json_nested_ind; intros Hp; try done.
  - apply plain_arr in Hp. cbn [reparse norm]. f_equal.
    induction IH as [|x l Hx IH IHl]; [done|]. inversion Hp; subst. cbn [List.map]. rewrite IHl by done. f_equal.
    destruct x; auto; done.
  - apply plain_obj in Hp as (_ & _ & Hp). cbn [reparse norm]. f_equal. f_equal.
    induction IH as [|[k x] l Hx IH IHl]; [done|]. inversion Hp; subst. cbn [List.map List.filter fst snd] in *.
    rewrite IHl, Hx by done. rewrite bool_decide_eq_false_2; [done|]. destruct x; done.
Qed.

Lemma reorders_filter (p : string -> bool) kvs kws :
  reorders (JObj kvs) (JObj kws) ->
  reorders (JObj (List.filter (fun kv => p (fst kv)) kvs)) (JObj (List.filter (fun kv => p (fst kv)) kws)).
Proof.
  inversion 1 as [| |? kvs1 ? Hp H2]; subst; [constructor|].
  apply (reorders_obj _ (List.filter (fun kv => p (fst kv)) kvs1)).
  - clear H H2. induction Hp; cbn; repeat case_match; try constructor; try done. by etransitivity.
  - clear H Hp. induction H2 as [|[a x] [b y] l k [E Hxy] _ IH]; [constructor|]. cbn in E |- *. subst b.
    destruct (p a); [constructor|]; done.
Qed.

Lemma filter_keys (p : string -> bool) (kvs : props json) :
  forallb p (keys kvs) = true -> List.filter (fun kv => p (fst kv)) kvs = kvs.
Proof.
  induction kvs as [|kv l IH]; [done|]. cbn. intros [-> H]%andb_true_iff. by rewrite IH.
Qed.

Lemma plan_doc_plain p : plain (JObj (plan_doc p)) = true.
Proof.
  unfold plan_doc. pose proof (plan_body_plain (cd_input p)) as (Hn & Hpr & Hp)%plain_obj.
  assert (Hk : "planDigest"%string ∉ keys (plan_body (cd_input p))) by (decided; reflexivity).
  revert Hn Hpr Hp Hk. generalize (plan_body (cd_input p)). intros l Hn Hpr Hp Hk.
  apply plain_obj. unfold keys in *. rewrite List.map_app. cbn [List.map fst].
  split_and!; [|set_solver|apply Forall_app; split; [done|by repeat constructor]].
  apply NoDup_app. split_and!; [done|set_solver|apply NoDup_singleton].
Qed.

Section Plans.
Context {C : Crypto} {D : Dates} {Lo : Locale} {LL : LocaleLaws Lo}.

Definition is_canonical (plan : CanonicalDeliveryPlan) : Prop := exists v, canonicalizeDeliveryPlan v = Ok plan.

(** Any text of a canonical plan reads back as the plan. *)
Lemma canonicalPlan_again plan kws :
  is_canonical plan -> reorders (JObj (plan_doc plan)) (JObj kws) -> canonicalPlan kws = Ok plan.
Proof using LL.
  intros [v [Hv Hd]%canonicalize_Ok] Hr.
  pose proof (reorders_prop _ _ "planDigest" (or_intror (plan_doc_plain plan)) Hr) as Hdig.
  apply (reorders_filter (fun k => k !== "planDigest"%string)) in Hr. revert Hr Hdig. unfold plan_doc.
  assert (Hk : "planDigest"%string ∉ keys (plan_body (cd_input plan))) by (decided; reflexivity).
  assert (Hf : forallb (fun k => k !== "planDigest"%string) (keys (plan_body (cd_input plan))) = true) by reflexivity.
  rewrite List.filter_app, (filter_keys _ _ Hf), prop_app_r by done. cbn [List.filter fst].
  rewrite bool_decide_eq_true_2 by done. cbn [negb]. rewrite app_nil_r. cbn [prop fst snd].
  rewrite bool_decide_eq_true_2 by done. intros Hr Hdig.
  unfold canonicalPlan. inversion Hdig as [x E1 E2| |]; subst.
  assert (canonicalizeDeliveryPlan (JObj (List.filter (fun kv => fst kv !== "planDigest"%string) kws)) = Ok plan) as ->.
  { apply canonicalize_Ok. split; [|done]. by eapply canonical_body_again. }
  cbn [mbind result_bind]. rewrite bool_decide_eq_true_2 by done. done.
Qed.

Lemma canonicalPlan_stored plan :
  is_canonical plan -> canonicalPlan (stored_members (reparse (sortKeys (JObj (plan_doc plan))))) = Ok plan.
Proof using LL.
  intros H. pose proof (plan_doc_plain plan) as Hp. rewrite reparse_norm by (by apply plain_sortKeys).
  pose proof (reorders_canonical _ Hp) as Hr. apply canonicalPlan_again; [done|]. revert Hr.
  cbn [sortKeys norm stored_members]. done.
Qed.

Lemma canonicalPlan_canonical kvs plan : canonicalPlan kvs = Ok plan -> is_canonical plan.
Proof using. unfold canonicalPlan. intros H. result_inv. by eexists. Qed.
End Plans.

(** ** The abstract ledger *)

Definition find_job (id job : string) (s : Tables) : option ChildJobRow :=
  List.find (job_row_of id job) (delivery_child_jobs s).
Definition find_intent (key : string) (s : Tables) : option IntentRow :=
  List.find (fun r => in_key r === key) (request_intents s).
Definition lease_of (id lease : string) (s : Tables) : option DeliveryControllerLeaseRecord :=
  List.find (lease_is id lease) (delivery_controller_leases s).
Definition active_lease (id : string) (s : Tables) : option DeliveryControllerLeaseRecord :=
  List.find (active_lease_of id) (delivery_controller_leases s).

Section Steps.
Context {C : Crypto} {D : Dates} {Lo : Locale}.

Definition point_run (id : string) (lease : option string) (digest at_ : string) (s : Tables) : Tables :=
  with_runs (set_where (fun r => rn_deliveryId r === id) (pointed lease digest at_) (delivery_runs s)) s.

(** The leases after the active one, if any, has expired. *)
Definition expired_leases (id at_ : string) (s : Tables) : list DeliveryControllerLeaseRecord :=
  match active_lease id s with
  | Some active => set_where (active_is id (le_leaseId active))
                     (ended lease_expired at_ (ended_digest (le_recordDigest active) "expired" at_))
                     (delivery_controller_leases s)
  | None => delivery_controller_leases s
  end.

(** One rule per kind of change of the tables. *)
Inductive step (s : Tables) : Tables -> Prop :=
| step_none : step s s
| step_deployment id : step s (with_deployments (deployments s ++ [id]) s)
| step_create plan gen at_ :
    is_canonical plan -> assertPositiveInteger gen = Ok tt ->
    IDENTIFIER_PATTERN (pi_deliveryId (cd_input plan)) = true ->
    find_run (pi_deliveryId (cd_input plan)) s = None ->
    (forall q, q ∈ delivery_plans s -> pl_deliveryId q <> pi_deliveryId (cd_input plan)) ->
    step s (with_runs (delivery_runs s ++ [initial_run plan gen at_])
              (with_plans (delivery_plans s ++ [plan_row plan at_]) s))
| step_transition input row plan digest :
    validateTransition input = Ok tt ->
    find_run (dt_deliveryId input) s = Some row ->
    prior_event input s = None ->
    check_transition input (run_record row plan s) = Ok tt ->
    Z.of_nat (length (events_of (dt_deliveryId input) s)) < MAX_EVENTS_PER_RUN ->
    step s (with_runs (set_where (fun r => rn_deliveryId r === dt_deliveryId input)
                         (advanced input (run_record row plan s) digest) (delivery_runs s))
              (with_events (delivery_events s ++
                 [event_row input (run_record row plan s) (last_event (dt_deliveryId input) s)]) s))
| step_job row :
    find_job (cr_deliveryId row) (cj_jobId (cr_reference row)) s = None ->
    step s (with_jobs (delivery_child_jobs s ++ [row]) s)
| step_job_moved id row reference digest :
    find_job id (cj_jobId reference) s = Some row -> cj_terminal (cr_reference row) = false ->
    check_progress (cr_reference row) reference = Ok tt ->
    step s (with_jobs (set_where (job_row_of id (cj_jobId reference)) (moved_job reference digest)
                         (delivery_child_jobs s)) s)
| step_artifact row : step s (with_artifacts (delivery_artifacts s ++ [row]) s)
| step_evidence row : step s (with_evidence (delivery_evidence s ++ [row]) s)
| step_acquire input row digest :
    find_run (lr_deliveryId input) s = Some row -> rn_terminal row = false ->
    lease_of (lr_deliveryId input) (lr_leaseId input) s = None ->
    (forall active, active_lease (lr_deliveryId input) s = Some active ->
       date_ltb (lr_at input) (le_expiresAt active) = false) ->
    step s (point_run (lr_deliveryId input) (Some (lr_leaseId input)) digest (lr_at input)
              (with_leases (expired_leases (lr_deliveryId input) (lr_at input) s ++ [new_lease input]) s))
| step_renew input row lease d digest :
    find_run (lr_deliveryId input) s = Some row -> rn_lease row = Some (lr_leaseId input) ->
    lease_of (lr_deliveryId input) (lr_leaseId input) s = Some lease -> le_status lease = lease_active ->
    step s (point_run (lr_deliveryId input) (Some (lr_leaseId input)) digest (lr_at input)
              (with_leases (set_where (active_is (lr_deliveryId input) (lr_leaseId input)) (renewed input d)
                              (delivery_controller_leases s)) s))
| step_release id leaseId row lease at_ d digest :
    find_run id s = Some row -> rn_lease row = Some leaseId ->
    lease_of id leaseId s = Some lease -> le_status lease = lease_active ->
    step s (point_run id None digest at_
              (with_leases (set_where (active_is id leaseId) (ended lease_released at_ d)
                              (delivery_controller_leases s)) s))
| step_intent row :
    find_intent (in_key row) s = None -> in_status row = intent_is_pending ->
    step s (with_intents (request_intents s ++ [row]) s)
| step_intent_done key text at_ :
    text <> EmptyString ->
    step s (with_intents (set_where (fun r => (in_key r === key) && (in_status r === intent_is_pending))
                            (intent_completed (sha256Hex text) text at_) (request_intents s)) s).

Inductive steps (s : Tables) : Tables -> Prop :=
| steps_refl : steps s s
| steps_snoc s1 s2 : steps s s1 -> step s1 s2 -> steps s s2.

(** ** The invariant *)

(** Event [i] of a log [l] of the run [r]. *)
Definition linked (r : RunRow) (l : list EventRow) (i : nat) (e : EventRow) : Prop :=
  let prior := match i with O => None | S j => option_map (fun q => de_eventDigest (er_event q)) (l !! j) end in
  de_deliveryId (er_event e) = rn_deliveryId r /\ de_generation (er_event e) = rn_generation r /\
  de_planDigest (er_event e) = rn_planDigest r /\ de_offset (er_event e) = Z.of_nat i /\
  er_priorEventDigest e = prior /\
  de_eventDigest (er_event e) =
    event_digest prior (er_semanticDigest e) (Z.of_nat i) (rn_generation r) (rn_planDigest r) (de_state (er_event e))
      (Z.of_nat i + 1) /\
  tr_event (er_result e) = er_event e /\ dr_state (tr_run (er_result e)) = de_state (er_event e) /\
  dr_stateSequence (tr_run (er_result e)) = Z.of_nat i + 1 /\
  er_resultDigest e = sha256Hex (canonical_obj (result_members (er_result e))) /\
  date_ltb (rn_expiresAt r) (de_occurredAt (er_event e)) = false /\
  ((S i < length l)%nat -> delivery_terminal (de_state (er_event e)) = false).

Definition log_state (l : list EventRow) : DeliveryState :=
  match last l with Some e => de_state (er_event e) | None => PLANNED end.
Definition log_deployment (l : list EventRow) : option string :=
  match last l with Some e => dr_deploymentId (tr_run (er_result e)) | None => None end.
Definition log_deploymentState (l : list EventRow) : option DeploymentState :=
  match last l with Some e => dr_deploymentState (tr_run (er_result e)) | None => None end.

(** The run is the projection of its log. *)
Definition projects (r : RunRow) (l : list EventRow) : Prop :=
  (forall i e, l !! i = Some e -> linked r l i e) /\
  rn_stateSequence r = Z.of_nat (length l) /\ rn_state r = log_state l /\
  rn_terminal r = delivery_terminal (log_state l) /\ rn_deploymentId r = log_deployment l /\
  rn_deploymentState r = log_deploymentState l /\
  (rn_deploymentState r <> None -> rn_deploymentId r <> None) /\ Z.of_nat (length l) <= MAX_EVENTS_PER_RUN.

Definition has_plan (s : Tables) (r : RunRow) : Prop :=
  exists plan at_, is_canonical plan /\ pi_deliveryId (cd_input plan) = rn_deliveryId r /\
    cd_planDigest plan = rn_planDigest r /\
    tb_expiresAt (pi_timeBounds (cd_input plan)) = rn_expiresAt r /\
    IDENTIFIER_PATTERN (rn_deliveryId r) = true /\
    List.find (fun q => pl_deliveryId q === rn_deliveryId r) (delivery_plans s) = Some (plan_row plan at_).

Definition lease_key (r : DeliveryControllerLeaseRecord) : string * string := (le_deliveryId r, le_leaseId r).
Definition job_key (r : ChildJobRow) : string * string := (cr_deliveryId r, cj_jobId (cr_reference r)).

Record Inv (s : Tables) : Prop := {
  inv_runs : NoDup (List.map rn_deliveryId (delivery_runs s));
  inv_run : forall r, r ∈ delivery_runs s -> has_plan s r /\ projects r (events_of (rn_deliveryId r) s);
  inv_event : forall e, e ∈ delivery_events s -> exists r, r ∈ delivery_runs s /\ rn_deliveryId r = de_deliveryId (er_event e);
  inv_leases : NoDup (List.map lease_key (delivery_controller_leases s));
  inv_lease : forall l, l ∈ delivery_controller_leases s ->
                exists r, r ∈ delivery_runs s /\ rn_deliveryId r = le_deliveryId l;
  inv_pointer : forall r lease, r ∈ delivery_runs s ->
                rn_lease r = Some lease <->
                exists l, l ∈ delivery_controller_leases s /\ active_is (rn_deliveryId r) lease l = true;
  inv_active : forall k l, k ∈ delivery_controller_leases s -> l ∈ delivery_controller_leases s ->
                le_deliveryId k = le_deliveryId l -> le_status k = lease_active -> le_status l = lease_active -> k = l;
  inv_jobs : NoDup (List.map job_key (delivery_child_jobs s));
  inv_intents : NoDup (List.map in_key (request_intents s));
  inv_generation : forall r, r ∈ delivery_runs s -> assertPositiveInteger (rn_generation r) = Ok tt
}.
End Steps.

(** ** Lists of rows *)

Lemma find_key {A} (f : A -> string) k l x : List.find (fun y => f y === k) l = Some x -> x ∈ l /\ f x = k.
Proof. intros [H1 H2]%find_Some_elem. by bool_inv. Qed.

Lemma find_key_None {A} (f : A -> string) k l : List.find (fun y => f y === k) l = None <-> k ∉ List.map f l.
Proof.
  rewrite find_none_iff_all. split.
  - intros H Hin. apply list_elem_of_In, in_map_iff in Hin as (x & <- & Hx%list_elem_of_In). apply H in Hx. by bool_inv.
  - intros H x Hx. apply bool_decide_eq_false. intros <-. apply H. by apply list_elem_of_In, in_map, list_elem_of_In.
Qed.

Lemma set_where_ext {A} (p q : A -> bool) (f : A -> A) l :
  (forall x, x ∈ l -> p x = q x) -> set_where p f l = set_where q f l.
Proof.
  intros H. apply map_ext_in. intros x Hx%list_elem_of_In. by rewrite H.
Qed.

Lemma set_where_map {A B} (g : A -> B) (p : A -> bool) (f : A -> A) l :
  (forall x, g (f x) = g x) -> List.map g (set_where p f l) = List.map g l.
Proof. intros H. unfold set_where. rewrite List.map_map. apply map_ext. intros x. by destruct (p x). Qed.

Lemma elem_of_set_where {A} (p : A -> bool) (f : A -> A) l y :
  y ∈ set_where p f l <-> exists x, x ∈ l /\ y = (if p x then f x else x).
Proof.
  unfold set_where. rewrite list_elem_of_In, in_map_iff. setoid_rewrite list_elem_of_In. naive_solver.
Qed.

Lemma key_inj {A B} (g : A -> B) l x y : NoDup (List.map g l) -> x ∈ l -> y ∈ l -> g x = g y -> x = y.
Proof.
  induction l as [|z l IH]; [by intros _ ?%not_elem_of_nil|]. cbn. intros [Hz Hn]%list.NoDup_cons.
  assert (Hm : forall u, u ∈ l -> g u ∈ List.map g l) by (intros u Hu; by apply list_elem_of_In, in_map, list_elem_of_In).
  intros [->|Hx]%elem_of_cons [->|Hy]%elem_of_cons E; [done| | |by apply IH];
    exfalso; apply Hz; [rewrite E|rewrite <- E]; auto.
Qed.

Lemma find_by_key {A B} `{EqDecision B} (g : A -> B) l x k :
  NoDup (List.map g l) -> x ∈ l -> g x = k -> List.find (fun y => g y === k) l = Some x.
Proof.
  intros Hn Hx Hk. destruct (List.find _ l) as [y|] eqn:E.
  - apply find_Some_elem in E as [Hy E]. bool_inv. f_equal. eapply key_inj; [exact Hn|done|done|congruence].
  - rewrite find_none_iff_all in E. specialize (E x Hx). cbn in E. by bool_inv.
Qed.

(** A lookup by key, with the keys unchanged. *)
Lemma find_set_where {A B} `{EqDecision B} (g : A -> B) k (p : A -> bool) (f : A -> A) l :
  (forall x, g (f x) = g x) ->
  List.find (fun x => g x === k) (set_where p f l) =
  option_map (fun x => if p x then f x else x) (List.find (fun x => g x === k) l).
Proof.
  intros H. induction l as [|x l IH]; [done|]. cbn.
  destruct (p x) eqn:E; rewrite ?H; case_bool_decide; cbn; rewrite ?E; done.
Qed.

Lemma last_map {A B} (f : A -> B) (l : list A) : last (List.map f l) = option_map f (last l).
Proof. induction l as [|x [|y l] IH]; [done|done|exact IH]. Qed.

(** *** [ORDER BY] of rows that are in order *)

Lemma order_insert_last {A} (ltb : A -> A -> bool) x l :
  Forall (fun y => ltb y x = true) l -> order_insert ltb x l = l ++ [x].
Proof. induction 1 as [|y l Hy _ IH]; cbn; [done|]. by rewrite Hy, IH. Qed.

Lemma order_insert_first {A} (ltb : A -> A -> bool) x l :
  Forall (fun y => ltb y x = false) l -> order_insert ltb x l = x :: l.
Proof. destruct 1 as [|y l Hy _]; cbn; [done|]. by rewrite Hy. Qed.

(** Rows numbered from [k]. *)
Definition numbered {A} (f : A -> Z) (k : Z) (l : list A) : Prop := forall i y, l !! i = Some y -> f y = k + Z.of_nat i.

Lemma numbered_cons {A} (f : A -> Z) k x l :
  numbered f k (x :: l) -> f x = k /\ numbered f (k + 1) l /\ Forall (fun y => f x < f y) l.
Proof.
  intros H. assert (Hx : f x = k) by (specialize (H 0%nat x eq_refl); lia).
  assert (Hl : numbered f (k + 1) l) by (intros i y Hy; specialize (H (S i) y Hy); lia).
  split_and!; [done|done|]. apply Forall_lookup. intros i y Hy. apply Hl in Hy. lia.
Qed.

Lemma order_by_ascending {A} (f : A -> Z) k l : numbered f k l -> order_by (fun x y => f x <? f y) l = l.
Proof.
  revert k. induction l as [|x l IH]; intros k; [done|]. intros (Hx & Hl & Hlt)%numbered_cons. cbn.
  change (foldr _ [] l) with (order_by (fun x y => f x <? f y) l). rewrite (IH _ Hl). apply order_insert_first.
  eapply Forall_impl; [exact Hlt|]. cbv beta. intros y Hy. apply Z.ltb_ge. lia.
Qed.

Lemma order_by_descending {A} (f : A -> Z) k l : numbered f k l -> order_by (fun x y => f y <? f x) l = rev l.
Proof.
  revert k. induction l as [|x l IH]; intros k; [done|]. intros (Hx & Hl & Hlt)%numbered_cons. cbn.
  change (foldr _ [] l) with (order_by (fun x y => f y <? f x) l). rewrite (IH _ Hl). apply order_insert_last.
  apply Forall_rev. eapply Forall_impl; [exact Hlt|]. intros y Hy. by apply Z.ltb_lt.
Qed.

Lemma head_rev {A} (l : list A) : head (rev l) = last l.
Proof. destruct l as [|x l] using rev_ind; [done|]. by rewrite rev_app_distr, last_snoc. Qed.

(** ** The operations refine the abstract ledger *)

Lemma canonicalJson_nonempty v t : canonicalJson v = Some t -> t <> EmptyString.
Proof.
  unfold canonicalJson. destruct (stringify (sortKeys v)) as [l|] eqn:E; [|done]. intros [= <-].
  assert (l <> []); [|by destruct l]. destruct (sortKeys v) as [| |[]|z|x|k|k]; cbn [stringify] in E; try discriminate E; injection E as <-; try done.
  destruct (pretty_Z_head z) as (c & r & H & _). by rewrite H.
Qed.

Lemma reads_state {S E A} (m : M S E A) s r s' : respects eq m -> m s = (r, s') -> s' = s.
Proof. intros Hm H. specialize (Hm s). by rewrite H in Hm. Qed.

Section Refinement.
Context {C : Crypto} {D : Dates} {Lo : Locale}.

Lemma getPlan_reads id : respects eq (getPlan id).
Proof using. unfold getPlan. respects_steps. Qed.
#[local] Hint Resolve getPlan_reads : respects.

Lemma getRun_reads id : respects eq (getRun id).
Proof using. unfold getRun. respects_steps. Qed.
#[local] Hint Resolve getRun_reads : respects.

Lemma getRunRequired_reads id : respects eq (getRunRequired id).
Proof using. unfold getRunRequired. respects_steps. Qed.

Lemma record_digest_reads id : respects eq (record_digest id).
Proof using. unfold record_digest. respects_steps. Qed.

Lemma read_lease_reads id lease : respects eq (read_lease id lease).
Proof using. unfold read_lease. respects_steps. Qed.

Lemma find_lease_Ok id leaseId s lease s' :
  find_lease id leaseId s = (Ok lease, s') -> s' = s /\ lease_of id leaseId s = Some lease.
Proof using. unfold find_lease, lease_of. intros H. m_split. done. Qed.

Lemma getRun_Ok id s run s' :
  getRun id s = (Ok run, s') ->
  s' = s /\ IDENTIFIER_PATTERN id = true /\
  match run with
  | Some run => exists row plan, find_run id s = Some row /\ run = run_record row plan s
  | None => find_run id s = None
  end.
Proof using.
  intros H. assert (s' = s) as -> by (by eapply reads_state; [apply getRun_reads|exact H]). split; [done|].
  unfold getRun in H. m_inv. unfold assertIdentifier in *. result_inv. split; [done|]. m_split; [|done]. by eauto.
Qed.

Lemma getRunRequired_Ok id s run s' :
  getRunRequired id s = (Ok run, s') ->
  s' = s /\ IDENTIFIER_PATTERN id = true /\ exists row plan, find_run id s = Some row /\ run = run_record row plan s.
Proof using.
  unfold getRunRequired. intros H. m_split. match goal with H : getRun _ _ = _ |- _ => by apply getRun_Ok in H end.
Qed.

Lemma getRunRequired_get id s run s' : getRunRequired id s = (Ok run, s') -> getRun id s = (Ok (Some run), s').
Proof using. unfold getRunRequired. intros H. m_split. done. Qed.

Lemma fence_Ok id planDigest generation s run s' :
  assertRunFence id planDigest generation s = (Ok run, s') ->
  s' = s /\ exists row plan, find_run id s = Some row /\ run = run_record row plan s /\
    rn_planDigest row = planDigest /\ rn_generation row = generation.
Proof using.
  unfold assertRunFence. intros H. m_inv.
  match goal with H : getRunRequired _ _ = _ |- _ => apply getRunRequired_Ok in H as (-> & _ & row & plan & Hf & ->) end.
  cbn in *. bool_inv. split; [done|]. by exists row, plan.
Qed.

Lemma update_runs_Ok p f s n s' :
  update_runs p f s = (Ok n, s') -> s' = with_runs (set_where p f (delivery_runs s)) s.
Proof using. unfold update_runs. intros H. m_inv. done. Qed.

Lemma find_run_elem id s row : find_run id s = Some row -> row ∈ delivery_runs s /\ rn_deliveryId row = id.
Proof using. apply find_key. Qed.

Lemma find_run_unique id s row r :
  NoDup (List.map rn_deliveryId (delivery_runs s)) -> find_run id s = Some row -> r ∈ delivery_runs s ->
  rn_deliveryId r = id -> r = row.
Proof using. intros Hn [Hin Hid]%find_run_elem Hr E. eapply key_inj; [exact Hn|done|done|]. congruence. Qed.

(** An update that selects the row of a delivery by more than its key. *)
Lemma update_run_Ok id row (p : RunRow -> bool) f s n s' :
  NoDup (List.map rn_deliveryId (delivery_runs s)) -> find_run id s = Some row -> p row = true ->
  (forall r, p r = true -> rn_deliveryId r = id) ->
  update_runs p f s = (Ok n, s') -> s' = with_runs (set_where (fun r => rn_deliveryId r === id) f (delivery_runs s)) s.
Proof using.
  intros Hn Hf Hp Hid ->%update_runs_Ok. f_equal. apply set_where_ext. intros r Hr.
  destruct (p r) eqn:E; [by rewrite bool_decide_eq_true_2 by (by apply Hid)|].
  rewrite bool_decide_eq_false_2; [done|]. intros Er. by rewrite (find_run_unique _ _ _ _ Hn Hf Hr Er), Hp in E.
Qed.

Lemma pointer_Ok row plan lease at_ s0 s s' :
  NoDup (List.map rn_deliveryId (delivery_runs s)) -> find_run (rn_deliveryId row) s = Some row ->
  updateLeasePointer (run_record row plan s0) lease at_ s = (Ok tt, s') ->
  exists digest, s' = point_run (rn_deliveryId row) lease digest at_ s.
Proof using.
  intros Hn Hf H. unfold updateLeasePointer in H. m_inv. cbn in *.
  match goal with H : record_digest _ _ = _ |- _ => apply reads_state in H as ->; [|apply record_digest_reads] end.
  match goal with H : update_runs _ _ _ = _ |- _ => eapply update_run_Ok in H; [|exact Hn|exact Hf| |] end.
  - eexists. eassumption.
  - cbn. by rewrite !bool_decide_eq_true_2.
  - cbn. intros r Hr. by bool_inv.
Qed.

Lemma createRun_step v gen at_ s run s' : createRun v gen at_ s = (Ok run, s') -> step s s'.
Proof using.
  unfold createRun. intros H. m_split; m_inv.
  - match goal with H : getRun _ _ = _ |- _ => apply getRun_Ok in H as (-> & _) end. constructor.
  - match goal with H : getRun _ _ = _ |- _ => apply getRun_Ok in H as (-> & Hid & Hf) end.
    match goal with H : getRunRequired _ _ = _ |- _ => apply getRunRequired_Ok in H as (-> & _) end.
    unfold insert_plan, insert_run in *. m_inv.
    refine (step_create _ _ _ _ _ _ Hid Hf _); [by eapply canonicalPlan_canonical|done|].
    intros q Hq E. bool_inv.
    match goal with H : existsb _ (delivery_plans _) = false |- _ =>
      apply existsb_false with (x := q) in H; [|done]; bool_inv; done end.
Qed.

(** The run that [createRun] returns is in the table. *)
Lemma createRun_Ok v gen at_ s record s' :
  createRun v gen at_ s = (Ok record, s') ->
  exists plan row p, canonicalPlan v = Ok plan /\ find_run (pi_deliveryId (cd_input plan)) s' = Some row /\
    record = run_record row p s' /\ rn_planDigest row = cd_planDigest plan /\ rn_generation row = gen /\
    getRun (pi_deliveryId (cd_input plan)) s' = (Ok (Some record), s').
Proof using.
  unfold createRun. intros H. m_split; m_inv.
  - match goal with H : getRun _ _ = _ |- _ => pose proof H as Hg; apply getRun_Ok in H as (-> & _ & row & p & Hf & ->) end.
    cbn [dr_planDigest dr_generation run_record] in *. bool_inv. eexists _, row, p. by split_and!.
  - match goal with H : getRun _ _ = _ |- _ => apply getRun_Ok in H as (-> & _ & Hnone) end.
    match goal with H : getRunRequired _ _ = _ |- _ =>
      pose proof (getRunRequired_get _ _ _ _ H) as Hg; apply getRunRequired_Ok in H as (-> & _ & row & p & Hf & ->) end.
    eexists _, row, p. split; [done|]. split; [done|]. split; [done|]. match goal with |- ?a /\ ?b /\ _ => cut (a /\ b); [by intros [? ?]|] end.
    unfold insert_plan, insert_run in *. m_inv. unfold find_run in Hf, Hnone. cbn [delivery_runs with_runs with_plans] in Hf.
    rewrite find_app_None in Hf by done. cbn in Hf. rewrite bool_decide_eq_true_2 in Hf by done. by injection Hf as <-.
Qed.

Lemma insert_event_Ok r s u s' : insert_event r s = (Ok u, s') -> s' = with_events (delivery_events s ++ [r]) s.
Proof using. unfold insert_event. intros H. m_inv. done. Qed.

Lemma check_fence input row plan s :
  check_transition input (run_record row plan s) = Ok tt ->
  rn_planDigest row = dt_planDigest input /\ rn_generation row = dt_generation input /\ rn_terminal row = false /\
  rn_state row = dt_expectedState input /\ rn_stateSequence row = dt_expectedSequence input.
Proof using. unfold check_transition. intros H. result_inv. cbn in *. by bool_inv. Qed.

Lemma transition_step input s r s' :
  NoDup (List.map rn_deliveryId (delivery_runs s)) -> transition input s = (Ok r, s') -> step s s'.
Proof using.
  unfold transition. intros Hn H. m_split; [constructor|]. m_inv.
  match goal with H : getRunRequired _ _ = _ |- _ => apply getRunRequired_Ok in H as (-> & _ & row & plan & Hf & ->) end.
  match goal with H : record_digest _ _ = _ |- _ => apply reads_state in H as ->; [|apply record_digest_reads] end.
  match goal with H : insert_event _ _ = _ |- _ => apply insert_event_Ok in H as -> end.
  match goal with H : check_transition _ _ = _ |- _ => pose proof H as Hc; apply check_fence in H as (Hp & Hg & Ht & Hs & Hq) end.
  match goal with H : (_ <? _) = true |- _ => apply Z.ltb_lt in H end.
  match goal with H : update_runs _ _ _ = _ |- _ => eapply (update_run_Ok (dt_deliveryId input) row) in H as ->;
    [|exact Hn|exact Hf| |] end.
  - by refine (step_transition _ _ row plan _ _ Hf _ Hc _).
  - apply find_run_elem in Hf as [_ Hid]. unfold cas_where. rewrite !bool_decide_eq_true_2 by congruence.
    by rewrite Ht.
  - unfold cas_where. intros r Hr. by bool_inv.
Qed.

Lemma find_job_elem id job s row :
  find_job id job s = Some row -> row ∈ delivery_child_jobs s /\ job_key row = (id, job).
Proof using. intros [Hin H]%find_Some_elem. unfold job_row_of in H. bool_inv. split; [done|]. unfold job_key. congruence. Qed.

Lemma job_row_key id job r : job_row_of id job r = true <-> job_key r = (id, job).
Proof using.
  unfold job_row_of, job_key. rewrite andb_true_iff, !bool_decide_eq_true. split; [by intros [-> ->]|by intros [= -> ->]].
Qed.

Lemma update_jobs_Ok p f s n s' : update_jobs p f s = (Ok n, s') -> s' = with_jobs (set_where p f (delivery_child_jobs s)) s.
Proof using. unfold update_jobs. intros H. by m_inv. Qed.

Lemma open_job id job s row f :
  NoDup (List.map job_key (delivery_child_jobs s)) -> find_job id job s = Some row -> cj_terminal (cr_reference row) = false ->
  set_where (fun r => job_row_of id job r && negb (cj_terminal (cr_reference r))) f (delivery_child_jobs s) =
  set_where (job_row_of id job) f (delivery_child_jobs s).
Proof using.
  intros Hn [Hin Hk]%find_job_elem Ht. apply set_where_ext. intros q Hq.
  destruct (job_row_of id job q) eqn:E; [|done]. apply job_row_key in E.
  by rewrite (key_inj _ _ _ _ Hn Hq Hin (eq_trans E (eq_sym Hk))), Ht.
Qed.

Lemma recordChildJob_step id planDigest generation reference s r s' :
  NoDup (List.map job_key (delivery_child_jobs s)) ->
  recordChildJob id planDigest generation reference s = (Ok r, s') -> step s s'.
Proof using.
  unfold recordChildJob. intros Hn H. m_split; m_inv;
    match goal with H : assertRunFence _ _ _ _ = _ |- _ => apply fence_Ok in H as (-> & _) end; [constructor| |].
  - match goal with H : update_jobs _ _ _ = _ |- _ => apply update_jobs_Ok in H as -> end.
    match goal with H : List.find _ _ = Some _ |- _ => rename H into Hf end. erewrite open_job by eassumption.
    by eapply step_job_moved.
  - unfold insert_job in *. m_inv. by apply step_job.
Qed.

Lemma recordArtifact_step id planDigest generation reference s r s' :
  recordArtifact id planDigest generation reference s = (Ok r, s') -> step s s'.
Proof using.
  unfold recordArtifact. intros H. m_split; m_inv;
    match goal with H : assertRunFence _ _ _ _ = _ |- _ => apply fence_Ok in H as (-> & _) end; [constructor|].
  unfold insert_artifact in *. m_inv. apply step_artifact.
Qed.

Lemma appendEvidence_step record s r s' : appendEvidence record s = (Ok r, s') -> step s s'.
Proof using.
  unfold appendEvidence. intros H. m_split; m_inv;
    match goal with H : assertRunFence _ _ _ _ = _ |- _ => apply fence_Ok in H as (-> & _) end; [constructor|].
  unfold insert_evidence in *. m_inv. apply step_evidence.
Qed.

Lemma reserveIntent_step key semantic operation id at_ s r s' :
  reserveIntent key semantic operation id at_ s = (Ok r, s') -> step s s'.
Proof using.
  unfold reserveIntent. intros H. m_split; m_inv;
    match goal with H : getRunRequired _ _ = _ |- _ => apply getRunRequired_Ok in H as (-> & _) end; [constructor|].
  unfold insert_intent in *. m_inv. by apply step_intent.
Qed.

Lemma completeIntent_step key semantic id result at_ s r s' :
  completeIntent key semantic id result at_ s = (Ok r, s') -> step s s'.
Proof using.
  unfold completeIntent. intros H. m_split; m_inv; [constructor|].
  unfold update_intents in *. m_inv. apply step_intent_done.
  match goal with H : match canonicalJson ?v with _ => _ end = Ok _ |- _ =>
    destruct (canonicalJson v) eqn:E; [|discriminate]; injection H as -> end.
  by apply canonicalJson_nonempty in E.
Qed.

Lemma update_leases_Ok p f s n s' :
  update_leases p f s = (Ok n, s') -> s' = with_leases (set_where p f (delivery_controller_leases s)) s.
Proof using. unfold update_leases. intros H. by m_inv. Qed.

Lemma insert_lease_Ok r s u s' :
  insert_lease r s = (Ok u, s') ->
  s' = with_leases (delivery_controller_leases s ++ [r]) s /\
  (le_status r = lease_active -> forall q, q ∈ delivery_controller_leases s -> active_lease_of (le_deliveryId r) q = false).
Proof using.
  unfold insert_lease. intros H. m_inv. split; [done|]. intros Ha q Hq. bool_inv. apply andb_false_iff in H0 as [E|E].
  - by bool_inv.
  - by apply (proj1 (existsb_false _ _) E).
Qed.

Lemma expire_active_Ok input s u s' :
  expire_active input s = (Ok u, s') ->
  s' = with_leases (expired_leases (lr_deliveryId input) (lr_at input) s) s /\
  (forall active, active_lease (lr_deliveryId input) s = Some active -> date_ltb (lr_at input) (le_expiresAt active) = false).
Proof using.
  unfold expire_active, expired_leases, active_lease. intros H. m_split.
  - match goal with H : update_leases _ _ _ = _ |- _ => apply update_leases_Ok in H as -> end. split; [done|].
    intros active [= <-]. by bool_inv.
  - split; [by destruct s'|done].
Qed.

Lemma acquire_step input s r s' :
  NoDup (List.map rn_deliveryId (delivery_runs s)) -> acquireControllerLease input s = (Ok r, s') -> step s s'.
Proof using.
  unfold acquireControllerLease. intros Hn H. m_split; m_inv;
    match goal with H : assertRunFence _ _ _ _ = _ |- _ => apply fence_Ok in H as (-> & row & plan & Hf & -> & _) end;
    [constructor|].
  match goal with H : read_lease _ _ _ = _ |- _ => apply reads_state in H as ->; [|apply read_lease_reads] end.
  match goal with H : expire_active _ _ = _ |- _ => apply expire_active_Ok in H as (-> & He) end.
  match goal with H : insert_lease _ _ = _ |- _ => apply insert_lease_Ok in H as (-> & _) end.
  pose proof (find_run_elem _ _ _ Hf) as [_ Hid]. rewrite <- Hid in Hf at 1.
  match goal with H : updateLeasePointer _ _ _ _ = _ |- _ => apply pointer_Ok in H as (digest & ->); [|done|done] end.
  rewrite Hid in Hf |- *. bool_inv. by refine (step_acquire _ _ row digest Hf _ _ He).
Qed.

Lemma renew_step input s r s' :
  NoDup (List.map rn_deliveryId (delivery_runs s)) -> renewControllerLease input s = (Ok r, s') -> step s s'.
Proof using.
  unfold renewControllerLease. intros Hn H. m_split; m_inv;
    match goal with H : assertRunFence _ _ _ _ = _ |- _ => apply fence_Ok in H as (-> & row & plan & Hf & -> & _) end;
    match goal with H : find_lease _ _ _ = _ |- _ => apply find_lease_Ok in H as (-> & Hl) end; [constructor|].
  match goal with H : read_lease _ _ _ = _ |- _ => apply reads_state in H as ->; [|apply read_lease_reads] end.
  match goal with H : update_leases _ _ _ = _ |- _ => apply update_leases_Ok in H as -> end.
  pose proof (find_run_elem _ _ _ Hf) as [_ Hid]. rewrite <- Hid in Hf at 1.
  match goal with H : updateLeasePointer _ _ _ _ = _ |- _ => apply pointer_Ok in H as (digest & ->); [|done|done] end.
  rewrite Hid in Hf |- *. cbn in *. bool_inv. by eapply (step_renew _ _ row).
Qed.

Lemma release_step id planDigest generation leaseId holder at_ s r s' :
  Inv s -> releaseControllerLease id planDigest generation leaseId holder at_ s = (Ok r, s') -> step s s'.
Proof using.
  unfold releaseControllerLease. intros HI H. m_split; m_inv;
    match goal with H : assertRunFence _ _ _ _ = _ |- _ => apply fence_Ok in H as (-> & row & plan & Hf & -> & _) end;
    match goal with H : find_lease _ _ _ = _ |- _ => apply find_lease_Ok in H as (-> & Hl) end; try by constructor.
  all: match goal with H : read_lease _ _ _ = _ |- _ => apply reads_state in H as ->; [|apply read_lease_reads] end;
    match goal with H : update_leases _ _ _ = _ |- _ => apply update_leases_Ok in H as -> end;
    pose proof (find_run_elem _ _ _ Hf) as [Hin Hid];
    assert (Hp : rn_lease row = Some leaseId)
      by (apply (inv_pointer _ HI _ _ Hin); rewrite Hid; apply find_Some_elem in Hl as [Hl1 Hl2]; eexists;
          split; [exact Hl1|]; unfold active_is; rewrite Hl2; by apply bool_decide_eq_true_2).
  - rewrite <- Hid in Hf at 1.
    match goal with H : updateLeasePointer _ _ _ _ = _ |- _ => apply pointer_Ok in H as (digest & ->); [|apply HI|done] end.
    rewrite Hid in Hf |- *. by eapply (step_release _ _ _ row).
  - cbn in *. bool_inv. congruence.
Qed.
End Refinement.

(** ** The invariant holds in every state *)

Section Invariant.
Context {C : Crypto} {D : Dates} {Lo : Locale}.

Lemma linked_app r l e i x :
  l !! i = Some x -> linked r l i x -> delivery_terminal (log_state l) = false -> linked r (l ++ [e]) i x.
Proof using.
  intros Hx (H1 & H2 & H3 & H4 & H5 & H6 & H7 & H8 & H9 & H10 & H11 & H12) Ht. pose proof (lookup_lt_Some _ _ _ Hx) as Hi.
  assert (Hprior : match i with O => None | S j => option_map (fun q => de_eventDigest (er_event q)) ((l ++ [e]) !! j) end =
                   match i with O => None | S j => option_map (fun q => de_eventDigest (er_event q)) (l !! j) end).
  { destruct i as [|j]; [done|]. by rewrite lookup_app_l by lia. }
  unfold linked. cbv zeta. rewrite Hprior. split_and!; try done. intros _.
  destruct (decide (S i < length l)%nat) as [|Hlast]; [by apply H12|]. unfold log_state in Ht.
  assert (last l = Some x) as E by (rewrite last_lookup; by replace (Nat.pred (length l)) with i by lia). by rewrite E in Ht.
Qed.

Lemma linked_same r r' l i e :
  rn_deliveryId r = rn_deliveryId r' -> rn_generation r = rn_generation r' -> rn_planDigest r = rn_planDigest r' ->
  rn_expiresAt r = rn_expiresAt r' -> linked r l i e -> linked r' l i e.
Proof using. unfold linked. by intros -> -> -> ->. Qed.

Lemma projects_numbered r l : projects r l -> numbered (fun e => de_offset (er_event e)) 0 l.
Proof using. intros [H _] i e He. by apply H in He as (_ & _ & _ & -> & _). Qed.

Lemma last_event_log r s :
  projects r (events_of (rn_deliveryId r) s) -> last_event (rn_deliveryId r) s = last (events_of (rn_deliveryId r) s).
Proof using. intros H%projects_numbered. unfold last_event. by rewrite (order_by_descending _ _ _ H), head_rev. Qed.

Lemma log_state_snoc l e : log_state (l ++ [e]) = de_state (er_event e).
Proof using. unfold log_state. by rewrite last_snoc. Qed.

Lemma check_deployment input row plan s :
  check_transition input (run_record row plan s) = Ok tt ->
  date_ltb (rn_expiresAt row) (dt_occurredAt input) = false /\
  (dt_deploymentState input ∪ rn_deploymentState row <> None -> dt_deploymentId input ∪ rn_deploymentId row <> None) /\
  (forall d, rn_deploymentId row = Some d -> dt_deploymentId input ∪ rn_deploymentId row = Some d).
Proof using.
  unfold check_transition. intros H. result_inv. cbn in *. bool_inv.
  unfold next_deployment, next_deploymentState in *. cbn in *. split_and!; [done| |].
  - destruct (_ ∪ _) eqn:E1, (dt_deploymentId input ∪ _) eqn:E2; cbn in *; done.
  - intros d Hd. rewrite Hd in *. destruct (dt_deploymentId input) as [x|]; [|done]. cbn in *. rewrite negb_false_iff in *.
    by bool_inv.
Qed.

Lemma projects_snoc row l s input plan digest :
  projects row l -> rn_deliveryId row = dt_deliveryId input -> Z.of_nat (length l) < MAX_EVENTS_PER_RUN ->
  check_transition input (run_record row plan s) = Ok tt ->
  projects (advanced input (run_record row plan s) digest row) (l ++ [event_row input (run_record row plan s) (last l)]).
Proof using.
  intros (Hl & Hseq & Hst & Hterm & Hd & Hds & Hdd & Hmax) Hid Hlt Hc.
  pose proof (check_fence _ _ _ _ Hc) as (Hp & Hg & Ht & _). pose proof (check_deployment _ _ _ _ Hc) as (Hexp & Hdep & _).
  set (e := event_row _ _ _). split; [intros i x Hx|].
  - apply (linked_same row); [done|done|done|done|]. destruct (decide (i < length l)%nat) as [Hi|Hi].
    + rewrite lookup_app_l in Hx by done. apply linked_app; [done|by apply Hl|congruence].
    + pose proof (lookup_lt_Some _ _ _ Hx) as Hi2. rewrite length_app in Hi2. cbn in Hi2.
      assert (i = length l) as -> by lia. rewrite list_lookup_middle in Hx by done. injection Hx as <-.
      assert (Hprior : option_map (fun q => de_eventDigest (er_event q)) (last l) =
        match length l with O => None | S j => option_map (fun q => de_eventDigest (er_event q)) ((l ++ [e]) !! j) end).
      { destruct l as [|y k] using rev_ind; [done|]. rewrite last_snoc, length_app, Nat.add_1_r.
        by rewrite lookup_app_l, list_lookup_middle by (rewrite ?length_app; cbn; lia). }
      assert (Hoff : match last l with None => 0 | Some r => de_offset (er_event r) + 1 end = Z.of_nat (length l)).
      { rewrite last_lookup. destruct l as [|y k]; [done|]. cbn [length Nat.pred].
        destruct ((y :: k) !! length k) as [q|] eqn:E; [|apply lookup_ge_None in E; cbn in E; lia].
        apply Hl in E as (_ & _ & _ & -> & _). lia. }
      unfold linked. cbv zeta. rewrite <- Hprior. subst e. cbn. rewrite !Hoff, Hseq, Hp, Hg.
      split_and!; try done. rewrite length_app. cbn. lia.
  - unfold log_deployment, log_deploymentState. rewrite log_state_snoc, last_snoc, length_app. subst e. cbn.
    split_and!; try done; lia.
Qed.

Lemma events_of_snoc id e s :
  List.filter (fun r => de_deliveryId (er_event r) === id) (delivery_events s ++ [e]) =
  events_of id s ++ (if de_deliveryId (er_event e) === id then [e] else []).
Proof using. rewrite List.filter_app. cbn. done. Qed.

(** What the invariant depends on. *)
Lemma Inv_frame s s' :
  Inv s -> delivery_plans s' = delivery_plans s -> delivery_runs s' = delivery_runs s ->
  delivery_events s' = delivery_events s -> delivery_controller_leases s' = delivery_controller_leases s ->
  NoDup (List.map job_key (delivery_child_jobs s')) -> NoDup (List.map in_key (request_intents s')) -> Inv s'.
Proof using.
  intros [] Hp Hr He Hl Hj Hi.
  constructor; unfold has_plan, events_of, active_lease in *; rewrite ?Hp, ?Hr, ?He, ?Hl; done.
Qed.

Lemma find_run_None id s r : find_run id s = None -> r ∈ delivery_runs s -> rn_deliveryId r <> id.
Proof using. intros H%find_key_None Hr <-. apply H. by apply list_elem_of_In, in_map, list_elem_of_In. Qed.

Lemma Inv_create plan gen at_ s :
  Inv s -> is_canonical plan -> assertPositiveInteger gen = Ok tt -> IDENTIFIER_PATTERN (pi_deliveryId (cd_input plan)) = true ->
  find_run (pi_deliveryId (cd_input plan)) s = None ->
  (forall q, q ∈ delivery_plans s -> pl_deliveryId q <> pi_deliveryId (cd_input plan)) ->
  Inv (with_runs (delivery_runs s ++ [initial_run plan gen at_]) (with_plans (delivery_plans s ++ [plan_row plan at_]) s)).
Proof using.
  intros HI Hc Hgen Hid Hf Hfresh. set (r0 := initial_run plan gen at_).
  assert (Hne : forall r, r ∈ delivery_runs s -> rn_deliveryId r <> rn_deliveryId r0) by (intros r; by apply find_run_None).
  constructor; cbn [delivery_runs with_runs with_plans delivery_events delivery_controller_leases delivery_child_jobs request_intents].
  - apply NoDup_map_snoc; [apply HI|exact Hne].
  - intros r [Hr| ->%list_elem_of_singleton]%elem_of_app.
    + destruct (inv_run _ HI r Hr) as [(p & t & H1 & H2 & H3 & H4 & H5 & H6) Hp]. split; [|exact Hp].
      exists p, t. split_and!; try done. cbn [delivery_plans with_plans with_runs]. apply find_app_Some, H6.
    + split.
      * exists plan, at_. split_and!; try done. cbn [delivery_plans with_plans with_runs].
        rewrite find_app_None; [cbn; by rewrite bool_decide_eq_true_2|]. apply find_none_iff_all. intros q Hq.
        apply bool_decide_eq_false. by apply Hfresh.
      * assert (events_of (rn_deliveryId r0) s = []) as E.
        { unfold events_of. destruct (List.filter _ _) as [|e l] eqn:E; [done|]. exfalso.
          assert (Hin : List.In e (e :: l)) by by left. rewrite <- E in Hin. apply filter_In in Hin as [He Hd].
          apply list_elem_of_In, (inv_event _ HI) in He as (r & Hr & Hrd). bool_inv. apply (Hne _ Hr). congruence. }
        change (projects r0 (events_of (rn_deliveryId r0) s)). rewrite E. by split_and!.
  - intros e He. destruct (inv_event _ HI e He) as (r & Hr & E). exists r. split; [set_solver|done].
  - apply HI.
  - intros l Hl. destruct (inv_lease _ HI l Hl) as (r & Hr & E). exists r. split; [set_solver|done].
  - intros r lease [Hr| ->%list_elem_of_singleton]%elem_of_app; [by apply HI|]. split; [done|].
    intros (l & Hl & Ha). unfold active_is, lease_is in Ha. bool_inv. exfalso.
    destruct (inv_lease _ HI l Hl) as (r & Hr & E). apply (Hne _ Hr). congruence.
  - apply HI.
  - apply HI.
  - apply HI.
  - intros r [Hr| ->%list_elem_of_singleton]%elem_of_app; [by apply HI|done].
Qed.

Lemma Inv_transition input row plan digest s :
  Inv s -> find_run (dt_deliveryId input) s = Some row -> check_transition input (run_record row plan s) = Ok tt ->
  Z.of_nat (length (events_of (dt_deliveryId input) s)) < MAX_EVENTS_PER_RUN ->
  Inv (with_runs (set_where (fun r => rn_deliveryId r === dt_deliveryId input) (advanced input (run_record row plan s) digest)
                    (delivery_runs s))
         (with_events (delivery_events s ++ [event_row input (run_record row plan s) (last_event (dt_deliveryId input) s)]) s)).
Proof using.
  intros HI Hf Hc Hmax. pose proof (find_run_elem _ _ _ Hf) as [Hin Hid]. set (e := event_row _ _ _).
  set (f := advanced _ _ _).
  assert (Hid' : forall r, rn_deliveryId (f r) = rn_deliveryId r) by done.
  assert (Hrun : forall r, r ∈ delivery_runs s -> exists r', r' ∈ set_where (fun r => rn_deliveryId r === dt_deliveryId input) f (delivery_runs s) /\ rn_deliveryId r' = rn_deliveryId r).
  { intros r Hr. eexists. split; [apply elem_of_set_where; exists r; by split|]. by case_bool_decide. }
  constructor; cbn [delivery_runs with_runs with_events delivery_events delivery_controller_leases delivery_child_jobs request_intents].
  - rewrite set_where_map by done. apply HI.
  - intros r' (r & Hr & ->)%elem_of_set_where. destruct (inv_run _ HI r Hr) as [Hplan Hp]. case_bool_decide as Er.
    + rewrite (find_run_unique _ _ _ _ (inv_runs _ HI) Hf Hr Er) in *. split; [exact Hplan|].
      unfold events_of. cbn [delivery_events with_events with_runs]. rewrite events_of_snoc, Hid', Hid.
      rewrite bool_decide_eq_true_2 by done. rewrite Hid in Hp. subst e. rewrite <- Hid, last_event_log, Hid by (by rewrite Hid).
      by apply projects_snoc.
    + split; [exact Hplan|]. unfold events_of. cbn [delivery_events with_events with_runs]. rewrite events_of_snoc.
      rewrite (bool_decide_eq_false_2 (_ = rn_deliveryId r)) by (by apply not_eq_sym). by rewrite app_nil_r.
  - intros x [Hx| ->%list_elem_of_singleton]%elem_of_app.
    + destruct (inv_event _ HI x Hx) as (r & Hr & <-). apply Hrun, Hr.
    + destruct (Hrun _ Hin) as (r' & Hr' & E). exists r'. split; [done|]. by rewrite E.
  - apply HI.
  - intros l Hl. destruct (inv_lease _ HI l Hl) as (r & Hr & <-). apply Hrun, Hr.
  - intros r' lease (r & Hr & ->)%elem_of_set_where. case_bool_decide as Er; [|apply (inv_pointer _ HI); done].
    change (rn_lease (f r)) with (rn_lease r). change (rn_deliveryId (f r)) with (rn_deliveryId r). by apply (inv_pointer _ HI).
  - apply HI.
  - apply HI.
  - apply HI.
  - intros r' (r & Hr & ->)%elem_of_set_where. case_bool_decide; by apply (inv_generation _ HI r).
Qed.

(** The leases of one delivery change, and its pointer with them. *)
Lemma Inv_point id lease digest at_ leases s :
  Inv s -> NoDup (List.map lease_key leases) ->
  (forall l, l ∈ leases -> exists r, r ∈ delivery_runs s /\ rn_deliveryId r = le_deliveryId l) ->
  (forall l, le_deliveryId l <> id -> l ∈ leases <-> l ∈ delivery_controller_leases s) ->
  (forall x, lease = Some x <-> exists l, l ∈ leases /\ active_is id x l = true) ->
  Inv (point_run id lease digest at_ (with_leases leases s)).
Proof using.
  intros HI Hn Hex Hother Hptr.
  assert (Hrun : forall r, r ∈ delivery_runs s -> exists r', r' ∈ set_where (fun r => rn_deliveryId r === id) (pointed lease digest at_) (delivery_runs s) /\ rn_deliveryId r' = rn_deliveryId r).
  { intros r Hr. eexists. split; [apply elem_of_set_where; exists r; by split|]. by case_bool_decide. }
  constructor; unfold point_run; cbn [delivery_runs with_runs with_leases delivery_events delivery_controller_leases delivery_child_jobs request_intents].
  - rewrite set_where_map by done. apply HI.
  - intros r' (r & Hr & ->)%elem_of_set_where. destruct (inv_run _ HI r Hr) as [Hplan Hp].
    case_bool_decide; split; first [exact Hplan|exact Hp].
  - intros e He. destruct (inv_event _ HI e He) as (r & Hr & <-). apply Hrun, Hr.
  - done.
  - intros l Hl. destruct (Hex l Hl) as (r & Hr & <-). apply Hrun, Hr.
  - intros r' x (r & Hr & ->)%elem_of_set_where. case_bool_decide as E.
    + change (rn_deliveryId (pointed lease digest at_ r)) with (rn_deliveryId r). rewrite E. apply Hptr.
    + rewrite (inv_pointer _ HI) by done. split; intros (l & Hl & Ha); exists l; (split; [|done]);
        unfold active_is, lease_is in Ha; bool_inv; apply (Hother l); congruence.
  - intros k l Hk Hl E Hak Hal. destruct (decide (le_deliveryId k = id)) as [Ek|Ek].
    + assert (Hid : forall x, x ∈ leases -> le_deliveryId x = id -> le_status x = lease_active -> lease = Some (le_leaseId x)).
      { intros x Hx Ex Hax. apply Hptr. exists x. split; [done|]. unfold active_is, lease_is. by rewrite !bool_decide_eq_true_2. }
      eapply key_inj; [exact Hn|done|done|]. pose proof (Hid k Hk Ek Hak) as E1.
      rewrite (Hid l Hl (eq_trans (eq_sym E) Ek) Hal) in E1. unfold lease_key. congruence.
    + apply (inv_active _ HI); try done; apply Hother; congruence.
  - apply HI.
  - apply HI.
  - intros r' (r & Hr & ->)%elem_of_set_where. case_bool_decide; by apply (inv_generation _ HI r).
Qed.

Lemma lease_of_unique id x s l k :
  Inv s -> lease_of id x s = Some l -> k ∈ delivery_controller_leases s -> lease_is id x k = true -> k = l.
Proof using.
  intros HI [Hl E]%find_Some_elem Hk Ek. unfold lease_is in *. bool_inv.
  eapply key_inj; [apply (inv_leases _ HI)|done|done|]. unfold lease_key. congruence.
Qed.

(** The leases of other deliveries, after an update of one lease of [id]. *)
Lemma other_leases id x (f : DeliveryControllerLeaseRecord -> DeliveryControllerLeaseRecord) leases l :
  (forall k, le_deliveryId (f k) = le_deliveryId k) -> le_deliveryId l <> id ->
  l ∈ set_where (active_is id x) f leases <-> l ∈ leases.
Proof using.
  intros Hf Hne. rewrite elem_of_set_where. split.
  - intros (k & Hk & ->). unfold active_is, lease_is in *. case_bool_decide as E; cbn in *; [|done].
    destruct (_ && _); [|done]. by rewrite Hf in Hne.
  - intros Hl. exists l. split; [done|]. unfold active_is, lease_is. by rewrite bool_decide_eq_false_2.
Qed.

Lemma updated_owner id x (f : DeliveryControllerLeaseRecord -> DeliveryControllerLeaseRecord) s l :
  Inv s -> (forall k, le_deliveryId (f k) = le_deliveryId k) ->
  l ∈ set_where (active_is id x) f (delivery_controller_leases s) ->
  exists r, r ∈ delivery_runs s /\ rn_deliveryId r = le_deliveryId l.
Proof using.
  intros HI Hf (k & Hk & ->)%elem_of_set_where. destruct (inv_lease _ HI k Hk) as (r & Hr & E).
  exists r. split; [done|]. rewrite E. destruct (active_is _ _ _); by rewrite ?Hf.
Qed.

Lemma find_active id s :
  match active_lease id s with
  | Some a => a ∈ delivery_controller_leases s /\ le_deliveryId a = id /\ le_status a = lease_active
  | None => forall k, k ∈ delivery_controller_leases s -> le_deliveryId k = id -> le_status k <> lease_active
  end.
Proof using.
  unfold active_lease. destruct (List.find _ _) as [a|] eqn:E.
  - apply find_Some_elem in E as [Ha E]. unfold active_lease_of in E. bool_inv. done.
  - rewrite find_none_iff_all in E. intros k Hk Hid Hs. specialize (E k Hk). unfold active_lease_of in E.
    rewrite !bool_decide_eq_true_2 in E; done.
Qed.

Lemma Inv_acquire input row digest s :
  Inv s -> find_run (lr_deliveryId input) s = Some row -> lease_of (lr_deliveryId input) (lr_leaseId input) s = None ->
  Inv (point_run (lr_deliveryId input) (Some (lr_leaseId input)) digest (lr_at input)
         (with_leases (expired_leases (lr_deliveryId input) (lr_at input) s ++ [new_lease input]) s)).
Proof using.
  intros HI Hf Hnone. set (id := lr_deliveryId input) in *. pose proof (find_run_elem _ _ _ Hf) as [Hin Hid].
  assert (Hkeys : List.map lease_key (expired_leases id (lr_at input) s) = List.map lease_key (delivery_controller_leases s))
    by (unfold expired_leases; destruct (active_lease id s); [by apply set_where_map|done]).
  assert (Hoth : forall l, le_deliveryId l <> id -> l ∈ expired_leases id (lr_at input) s <-> l ∈ delivery_controller_leases s)
    by (intros l Hl; unfold expired_leases; destruct (active_lease id s); [by apply other_leases|done]).
  assert (Hdead : forall l, l ∈ expired_leases id (lr_at input) s -> le_deliveryId l = id -> le_status l <> lease_active).
  { unfold expired_leases. pose proof (find_active id s) as Ha. destruct (active_lease id s) as [a|]; [|exact Ha].
    destruct Ha as (Ha & Hai & Has). intros l (k & Hk & ->)%elem_of_set_where. destruct (active_is id (le_leaseId a) k) eqn:E; [done|].
    intros Hki Hks. rewrite (inv_active _ HI k a) in E by (done || congruence). unfold active_is, lease_is in E.
    by rewrite !bool_decide_eq_true_2 in E by done. }
  apply Inv_point; [done| | | |].
  - apply NoDup_map_snoc; [rewrite Hkeys; apply HI|]. intros l Hl E.
    assert (lease_key (new_lease input) ∈ List.map lease_key (delivery_controller_leases s)) as Hk
      by (rewrite <- Hkeys, <- E; by apply list_elem_of_In, in_map, list_elem_of_In).
    apply list_elem_of_In, in_map_iff in Hk as (k & Ek & Hk%list_elem_of_In). unfold lease_of in Hnone.
    rewrite find_none_iff_all in Hnone. specialize (Hnone k Hk). unfold lease_is, lease_key in *. injection Ek as E1 E2.
    by rewrite !bool_decide_eq_true_2 in Hnone by done.
  - intros l [Hl| ->%list_elem_of_singleton]%elem_of_app; [|exists row; done]. revert Hl. unfold expired_leases.
    destruct (active_lease id s); [by apply updated_owner|apply HI].
  - intros l Hl. rewrite elem_of_app, list_elem_of_singleton, (Hoth l Hl). split; [|by left]. by intros [?| ->].
  - intros x. split.
    + intros [= <-]. exists (new_lease input). split; [set_solver|]. unfold active_is, lease_is. cbn.
      by rewrite !bool_decide_eq_true_2.
    + intros (l & [Hl| ->%list_elem_of_singleton]%elem_of_app & Ha); unfold active_is, lease_is in Ha; bool_inv.
      * by destruct (Hdead l Hl).
      * by subst x.
Qed.

Lemma Inv_renew input row lease d digest s :
  Inv s -> find_run (lr_deliveryId input) s = Some row -> lease_of (lr_deliveryId input) (lr_leaseId input) s = Some lease ->
  le_status lease = lease_active ->
  Inv (point_run (lr_deliveryId input) (Some (lr_leaseId input)) digest (lr_at input)
         (with_leases (set_where (active_is (lr_deliveryId input) (lr_leaseId input)) (renewed input d)
                         (delivery_controller_leases s)) s)).
Proof using.
  intros HI Hf Hl Ha. pose proof (find_Some_elem _ _ _ Hl) as [Hin Hk].
  assert (Hal : active_is (lr_deliveryId input) (lr_leaseId input) lease = true)
    by (unfold active_is; rewrite Hk; by apply bool_decide_eq_true_2).
  apply Inv_point; [done| | | |].
  - rewrite set_where_map by done. apply HI.
  - intros l. by apply updated_owner.
  - intros l. by apply other_leases.
  - intros x. split.
    + intros [= <-]. exists (renewed input d lease). split; [|exact Hal]. apply elem_of_set_where. exists lease. by rewrite Hal.
    + intros (l & (k & Hk2 & ->)%elem_of_set_where & E). f_equal.
      assert (Ek : active_is (lr_deliveryId input) x k = true) by (by destruct (active_is _ (lr_leaseId input) k)).
      unfold active_is, lease_is in Ek, Hal. bool_inv. assert (k = lease) as -> by (apply (inv_active _ HI); done || congruence). congruence.
Qed.

Lemma Inv_release id leaseId row lease at_ d digest s :
  Inv s -> find_run id s = Some row -> lease_of id leaseId s = Some lease -> le_status lease = lease_active ->
  Inv (point_run id None digest at_
         (with_leases (set_where (active_is id leaseId) (ended lease_released at_ d) (delivery_controller_leases s)) s)).
Proof using.
  intros HI Hf Hl Ha. pose proof (find_Some_elem _ _ _ Hl) as [Hin Hk]. apply Inv_point; [done| | | |].
  - rewrite set_where_map by done. apply HI.
  - intros l. by apply updated_owner.
  - intros l. by apply other_leases.
  - intros x. split; [done|]. intros (l & (k & Hk2 & ->)%elem_of_set_where & E). exfalso.
    destruct (active_is id leaseId k) eqn:Ek; unfold active_is, lease_is in *; bool_inv; [done|].
    rewrite (inv_active _ HI k lease) in Ek by (done || congruence). by rewrite !bool_decide_eq_true_2 in Ek by congruence.
Qed.

Lemma find_job_fresh id job s r : find_job id job s = None -> r ∈ delivery_child_jobs s -> job_key r <> (id, job).
Proof using.
  unfold find_job. rewrite find_none_iff_all. intros H Hr E. apply job_row_key in E. by rewrite H in E.
Qed.

Lemma Inv_step s s' : Inv s -> step s s' -> Inv s'.
Proof using.
  intros HI []; try done.
  all: try (by apply (Inv_frame s); try done; apply HI).
  - by apply Inv_create.
  - by apply Inv_transition.
  - apply (Inv_frame s); try done; [|apply HI]. apply NoDup_map_snoc; [apply HI|]. intros r Hr. by eapply find_job_fresh.
  - apply (Inv_frame s); try done; [|apply HI]. cbn [delivery_child_jobs with_jobs]. rewrite set_where_map by done. apply HI.
  - by eapply Inv_acquire.
  - by eapply Inv_renew.
  - by eapply Inv_release.
  - apply (Inv_frame s); try done; [apply HI|]. apply NoDup_map_snoc; [apply HI|]. intros r Hr E.
    match goal with H : find_intent _ _ = None |- _ => apply find_key_None in H; apply H; rewrite <- E end.
    by apply list_elem_of_In, in_map, list_elem_of_In.
  - apply (Inv_frame s); try done; [apply HI|]. cbn [request_intents with_intents]. rewrite set_where_map by done. apply HI.
Qed.

Lemma Inv_steps s s' : Inv s -> steps s s' -> Inv s'.
Proof using. intros HI. induction 1 as [|s1 s2 _ IH H]; [done|]. by eapply Inv_step. Qed.

Lemma Inv_new deps intents : NoDup (List.map in_key intents) -> Inv (new_tables deps intents).
Proof using.
  intros H. constructor; cbn [delivery_runs delivery_events delivery_controller_leases delivery_child_jobs request_intents new_tables];
    first [apply NoDup_nil_2|done|by intros ? ?%not_elem_of_nil|by intros ? ? ?%not_elem_of_nil].
Qed.
End Invariant.

(** ** Sequences of operations *)

(** The operations that write.  The deployment ledger writes into the same database: it adds its
    deployments, and reserves and completes intents of its own. *)
Inductive op :=
| op_createRun (plan : props json) (generation : Z) (createdAt : string)
| op_transition (input : DeliveryTransitionInput)
| op_recordChildJob (id planDigest : string) (generation : Z) (reference : DeliveryChildJobReference)
| op_recordArtifact (id planDigest : string) (generation : Z) (reference : DeliveryArtifactReference)
| op_appendEvidence (record : DeliveryEvidenceRecord)
| op_acquire (input : LeaseRequest)
| op_renew (input : LeaseRequest)
| op_release (id planDigest : string) (generation : Z) (leaseId holder at_ : string)
| op_reserveIntent (key semantic operation id createdAt : string)
| op_completeIntent (key semantic id : string) (result : json) (at_ : string)
| op_deployment (id : string)
| op_deployment_intent (key semantic operation createdAt : string)
| op_deployment_complete (key : string) (result : json) (at_ : string).

(** *** Operations that fail leave the tables as they were *)

Definition atomic {A} (m : LM A) : Prop := forall s e s', m s = (Err e, s') -> s' = s.

Lemma atomic_transaction {A} (m : LM A) : atomic (transaction m).
Proof. intros s e s'. apply transaction_Err. Qed.

Lemma atomic_bind {A B} (m : LM A) (k : A -> LM B) : respects eq m -> (forall a, atomic (k a)) -> atomic (m ≫= k).
Proof.
  intros Hm Hk s e s' H. rewrite bindM_eq in H. specialize (Hm s). destruct (m s) as [[a|x] s1]; cbn in Hm; subst s1.
  - by eapply Hk.
  - by injection H.
Qed.

Ltac atomic_steps :=
  repeat (cbv beta zeta; lazymatch goal with
    | |- atomic (transaction _) => apply atomic_transaction
    | |- atomic (mbind _ _) => apply atomic_bind; [respects_steps|intros ?]
    end).

Section Traces.
Context {C : Crypto} {D : Dates} {Lo : Locale}.

Definition exec (s : Tables) (o : op) : Tables :=
  match o with
  | op_createRun p g t => snd (createRun p g t s)
  | op_transition i => snd (transition i s)
  | op_recordChildJob i p g r => snd (recordChildJob i p g r s)
  | op_recordArtifact i p g r => snd (recordArtifact i p g r s)
  | op_appendEvidence r => snd (appendEvidence r s)
  | op_acquire i => snd (acquireControllerLease i s)
  | op_renew i => snd (renewControllerLease i s)
  | op_release i p g l h t => snd (releaseControllerLease i p g l h t s)
  | op_reserveIntent k m o i t => snd (reserveIntent k m o i t s)
  | op_completeIntent k m i r t => snd (completeIntent k m i r t s)
  | op_deployment id => with_deployments (deployments s ++ [id]) s
  | op_deployment_intent k m o t =>
      match find_intent k s with
      | Some _ => s
      | None => with_intents (request_intents s ++ [{| in_key := k; in_semantic := m; in_operation := o; in_delivery := None;
                  in_status := intent_is_pending; in_digest := None; in_json := None; in_createdAt := t;
                  in_completedAt := None |}]) s
      end
  | op_deployment_complete k r t =>
      match canonicalJson r with
      | None => s
      | Some text =>
          with_intents (set_where (fun r => (in_key r === k) && (in_status r === intent_is_pending))
                          (intent_completed (sha256Hex text) text t) (request_intents s)) s
      end
  end.

Definition run (trace : list op) (s : Tables) : Tables := fold_left exec trace s.

Lemma step_of {A} (m : LM A) s : atomic m -> (forall a s', m s = (Ok a, s') -> step s s') -> step s (snd (m s)).
Proof using.
  intros Ha H. destruct (m s) as [[a|e] s'] eqn:E; cbn; [by eapply H|]. apply Ha in E as ->. constructor.
Qed.

#[local] Hint Resolve getRunRequired_reads : respects.

Lemma exec_step s o : Inv s -> step s (exec s o).
Proof using.
  intros HI. destruct o; cbn [exec]; try (apply step_of; [unfold createRun, transition, recordChildJob, recordArtifact,
    appendEvidence, acquireControllerLease, renewControllerLease, releaseControllerLease, reserveIntent, completeIntent;
    atomic_steps|intros r s']).
  - apply createRun_step.
  - apply transition_step, HI.
  - apply recordChildJob_step, HI.
  - apply recordArtifact_step.
  - apply appendEvidence_step.
  - apply acquire_step, HI.
  - apply renew_step, HI.
  - by apply release_step.
  - apply reserveIntent_step.
  - apply completeIntent_step.
  - constructor.
  - destruct (find_intent _ s) eqn:E; [constructor|]. by apply step_intent.
  - destruct (canonicalJson _) eqn:E; [|constructor]. apply step_intent_done. by apply canonicalJson_nonempty in E.
Qed.

Lemma run_steps trace s : Inv s -> steps s (run trace s).
Proof using.
  intros HI. induction trace as [|o l IH] using rev_ind; [constructor|]. unfold run in *. rewrite fold_left_app. cbn.
  eapply steps_snoc; [exact IH|]. apply exec_step. by eapply Inv_steps.
Qed.

Lemma run_Inv trace s : Inv s -> Inv (run trace s).
Proof using. intros HI. eapply Inv_steps; [exact HI|by apply run_steps]. Qed.
End Traces.

(** ** What later operations keep *)

Section Continuation.
Context {C : Crypto} {D : Dates} {Lo : Locale}.

(** The columns of a run that nothing changes. *)
Definition same_identity (r r' : RunRow) : Prop :=
  rn_deliveryId r' = rn_deliveryId r /\ rn_planDigest r' = rn_planDigest r /\ rn_generation r' = rn_generation r /\
  rn_createdAt r' = rn_createdAt r /\ rn_expiresAt r' = rn_expiresAt r.

(** The columns that only a transition changes. *)
Definition same_position (r r' : RunRow) : Prop :=
  rn_state r' = rn_state r /\ rn_stateSequence r' = rn_stateSequence r /\ rn_deploymentId r' = rn_deploymentId r /\
  rn_deploymentState r' = rn_deploymentState r /\ rn_terminal r' = rn_terminal r.

Definition kept {A} (o o' : option A) : Prop := o = None \/ o' = o.

(** A deployment binding, once made, stays; a terminal run keeps its position. *)
Definition run_continues (r r' : RunRow) : Prop :=
  same_identity r r' /\ kept (rn_deploymentId r) (rn_deploymentId r') /\ (rn_terminal r = true -> same_position r r').

Definition job_continues (c c' : DeliveryChildJobReference) : Prop :=
  cj_phase c' = cj_phase c /\ cj_jobId c' = cj_jobId c /\ cj_stdoutOffset c <= cj_stdoutOffset c' /\
  cj_stderrOffset c <= cj_stderrOffset c' /\ kept (cj_resultDigest c) (cj_resultDigest c') /\
  kept (cj_receiptId c) (cj_receiptId c') /\ (cj_terminal c = true -> c' = c).

(** A completed intent has a result, and its digest. *)
Definition intent_valid (r : IntentRow) : Prop :=
  in_status r = intent_is_completed /\
  exists text, in_json r = Some text /\ text <> EmptyString /\ in_digest r = Some (sha256Hex text).

Definition intent_continues (r r' : IntentRow) : Prop :=
  in_key r' = in_key r /\ in_semantic r' = in_semantic r /\ in_operation r' = in_operation r /\ in_delivery r' = in_delivery r /\
  (r' = r \/ (in_status r = intent_is_pending /\ intent_valid r')).

(** A lease that has ended stays as it is. *)
Definition lease_continues (l l' : DeliveryControllerLeaseRecord) : Prop :=
  lease_key l' = lease_key l /\ le_generation l' = le_generation l /\ le_holder l' = le_holder l /\
  le_acquiredAt l' = le_acquiredAt l /\ (le_status l <> lease_active -> l' = l).

Record continues (s s' : Tables) : Prop := {
  co_plan : forall id q, List.find (fun p => pl_deliveryId p === id) (delivery_plans s) = Some q ->
              List.find (fun p => pl_deliveryId p === id) (delivery_plans s') = Some q;
  co_run : forall id r, find_run id s = Some r -> exists r', find_run id s' = Some r' /\ run_continues r r';
  co_events : exists l, delivery_events s' = delivery_events s ++ l;
  co_terminal : forall id r, find_run id s = Some r -> rn_terminal r = true -> events_of id s' = events_of id s;
  co_job : forall id job r, find_job id job s = Some r ->
              exists r', find_job id job s' = Some r' /\ job_continues (cr_reference r) (cr_reference r');
  co_lease : forall id x l, lease_of id x s = Some l -> exists l', lease_of id x s' = Some l' /\ lease_continues l l';
  co_intent : forall key r, find_intent key s = Some r -> exists r', find_intent key s' = Some r' /\ intent_continues r r'
}.

Lemma run_continues_same r r' : same_identity r r' -> same_position r r' -> run_continues r r'.
Proof using. intros H1 H2. split; [done|]. split; [|done]. right. apply H2. Qed.

Lemma job_continues_refl c : job_continues c c.
Proof using. split_and!; try done; by right. Qed.

Lemma continues_refl s : continues s s.
Proof using.
  constructor; eauto.
  - intros id r H. exists r. split; [done|]. by apply run_continues_same.
  - exists []. by rewrite app_nil_r.
  - intros id job r H. exists r. split; [done|apply job_continues_refl].
  - intros id x l H. exists l. by split_and!.
  - intros key r H. exists r. split; [done|]. split_and!; try done. by left.
Qed.

Lemma kept_trans {A} (a b c : option A) : kept a b -> kept b c -> kept a c.
Proof using. unfold kept. intros [->| ->] [->| ->]; auto. Qed.

Lemma run_continues_trans a b c : run_continues a b -> run_continues b c -> run_continues a c.
Proof using.
  intros (H1 & H2 & H3) (H4 & H5 & H6). split; [|split].
  - unfold same_identity in *. intuition congruence.
  - by eapply kept_trans.
  - intros Ht. specialize (H3 Ht). unfold same_position in *. destruct H3 as (? & ? & ? & ? & Ht').
    rewrite Ht in Ht'. specialize (H6 Ht'). intuition congruence.
Qed.

Lemma continues_trans a b c : continues a b -> continues b c -> continues a c.
Proof using.
  intros Hab Hbc. constructor.
  - intros id q H. by apply (co_plan _ _ Hbc), (co_plan _ _ Hab).
  - intros id r (r1 & H1 & Hc1)%(co_run _ _ Hab). apply (co_run _ _ Hbc) in H1 as (r2 & H2 & Hc2).
    exists r2. split; [done|]. by eapply run_continues_trans.
  - destruct (co_events _ _ Hab) as [l1 E1], (co_events _ _ Hbc) as [l2 E2]. exists (l1 ++ l2). by rewrite E2, E1, app_assoc.
  - intros id r H Ht. destruct (co_run _ _ Hab _ _ H) as (r1 & H1 & _ & _ & Hp). specialize (Hp Ht) as (_ & _ & _ & _ & Ht1).
    rewrite (co_terminal _ _ Hbc _ _ H1) by congruence. by eapply co_terminal.
  - intros id job r (r1 & H1 & Hc1)%(co_job _ _ Hab). apply (co_job _ _ Hbc) in H1 as (r2 & H2 & Hc2).
    exists r2. split; [done|]. destruct Hc1 as (? & ? & ? & ? & ? & ? & Ht1), Hc2 as (? & ? & ? & ? & ? & ? & Ht2).
    split_and!; try congruence; try lia; try by eapply kept_trans.
    intros Ht. specialize (Ht1 Ht). rewrite Ht1 in Ht2. auto.
  - intros id x l (l1 & H1 & Hc1)%(co_lease _ _ Hab). apply (co_lease _ _ Hbc) in H1 as (l2 & H2 & Hc2).
    exists l2. split; [done|]. destruct Hc1 as (? & ? & ? & ? & Ht1), Hc2 as (? & ? & ? & ? & Ht2).
    split_and!; try congruence. intros Ht. specialize (Ht1 Ht). subst l1. auto.
  - intros key r (r1 & H1 & Hc1)%(co_intent _ _ Hab). apply (co_intent _ _ Hbc) in H1 as (r2 & H2 & Hc2).
    exists r2. split; [done|]. destruct Hc1 as (? & ? & ? & ? & Ht1), Hc2 as (? & ? & ? & ? & Ht2).
    split_and!; try congruence. destruct Ht1 as [->|[Hp [Hs Hv]]], Ht2 as [->|[Hp2 Hv2]]; auto.
    right. by repeat split.
Qed.

Lemma find_job_key id job l : List.find (job_row_of id job) l = List.find (fun r => job_key r === (id, job)) l.
Proof using.
  induction l as [|x l IH]; [done|]. cbn. rewrite IH.
  destruct (job_row_of id job x) eqn:E; [apply job_row_key in E; by rewrite bool_decide_eq_true_2|].
  rewrite bool_decide_eq_false_2; [done|]. intros H%job_row_key. congruence.
Qed.

(** The cases of the tables a step leaves alone. *)
Ltac unchanged s :=
  first [exact (co_plan _ _ (continues_refl s))|exact (co_run _ _ (continues_refl s))|exact (co_events _ _ (continues_refl s))
        |exact (co_terminal _ _ (continues_refl s))|exact (co_lease _ _ (continues_refl s))|exact (co_job _ _ (continues_refl s))|exact (co_intent _ _ (continues_refl s))].

Lemma find_lease_key id x l : List.find (lease_is id x) l = List.find (fun r => lease_key r === (id, x)) l.
Proof using.
  induction l as [|y l IH]; [done|]. cbn. rewrite IH. unfold lease_is, lease_key.
  repeat case_bool_decide; cbn; done || congruence.
Qed.

Definition leases_continue (l l' : list DeliveryControllerLeaseRecord) : Prop :=
  forall id x k, List.find (lease_is id x) l = Some k -> exists k', List.find (lease_is id x) l' = Some k' /\ lease_continues k k'.

Lemma set_leases_continue id x f l :
  (forall k, lease_key (f k) = lease_key k /\ le_generation (f k) = le_generation k /\ le_holder (f k) = le_holder k /\
             le_acquiredAt (f k) = le_acquiredAt k) ->
  leases_continue l (set_where (active_is id x) f l).
Proof using.
  intros Hf id' x' k Hk. rewrite find_lease_key, find_set_where, <- find_lease_key, Hk by (intros y; apply Hf). cbn.
  eexists. split; [reflexivity|]. destruct (active_is id x k) eqn:E; [|by split_and!].
  destruct (Hf k) as (? & ? & ? & ?). split_and!; try done. unfold active_is in E. bool_inv. congruence.
Qed.

Lemma point_continues id lease digest at_ leases s :
  leases_continue (delivery_controller_leases s) leases -> continues s (point_run id lease digest at_ (with_leases leases s)).
Proof using.
  intros Hl. constructor; try unchanged s; [|exact Hl]. intros id' r Hf. unfold find_run, point_run in *. cbn [delivery_runs with_runs with_leases].
  rewrite find_set_where, Hf by done. cbn. eexists. split; [reflexivity|]. case_bool_decide; by apply run_continues_same.
Qed.

Lemma transition_continues input row plan digest s :
  find_run (dt_deliveryId input) s = Some row -> check_transition input (run_record row plan s) = Ok tt ->
  continues s (with_runs (set_where (fun r => rn_deliveryId r === dt_deliveryId input)
                           (advanced input (run_record row plan s) digest) (delivery_runs s))
                (with_events (delivery_events s ++
                   [event_row input (run_record row plan s) (last_event (dt_deliveryId input) s)]) s)).
Proof using.
  intros Hf Hc. pose proof (check_fence _ _ _ _ Hc) as (_ & _ & Ht & _).
  constructor; try unchanged s.
  - intros id r Hr. unfold find_run in *. cbn [delivery_runs with_runs]. rewrite find_set_where, Hr by done. cbn.
    eexists. split; [reflexivity|]. case_bool_decide as E; [|by apply run_continues_same].
    apply find_run_elem in Hr as Hr2. destruct Hr2 as [_ Hid].
    assert (r = row) as -> by (rewrite <- Hid, E, Hf in Hr; by injection Hr).
    split; [done|]. split; [|by rewrite Ht]. cbn. unfold next_deployment. cbn.
    destruct (check_deployment _ _ _ _ Hc) as (_ & _ & Hd). destruct (rn_deploymentId row); [|by left]. right. by apply Hd.
  - by eexists.
  - intros id r Hr Htr. unfold events_of at 1. cbn [delivery_events with_events with_runs]. rewrite events_of_snoc.
    rewrite bool_decide_eq_false_2; [by rewrite app_nil_r|]. cbn. intros <-. rewrite Hf in Hr. injection Hr as <-. congruence.
Qed.

Lemma moved_continues id reference digest row s :
  find_job id (cj_jobId reference) s = Some row -> cj_terminal (cr_reference row) = false ->
  check_progress (cr_reference row) reference = Ok tt ->
  continues s (with_jobs (set_where (job_row_of id (cj_jobId reference)) (moved_job reference digest) (delivery_child_jobs s)) s).
Proof using.
  intros Hf Ht Hc. constructor; try unchanged s. intros id' job r Hr. unfold find_job in *.
  cbn [delivery_child_jobs with_jobs]. rewrite find_job_key, find_set_where, <- find_job_key, Hr by done. cbn.
  eexists. split; [reflexivity|]. destruct (job_row_of id (cj_jobId reference) r) eqn:E; [|apply job_continues_refl].
  apply find_job_elem in Hr as Hr2. destruct Hr2 as [_ Hk]. apply job_row_key in E. rewrite Hk in E. injection E as -> ->.
  rewrite Hf in Hr. injection Hr as <-. unfold check_progress in Hc. result_inv. bool_inv.
  split_and!; try done; cbn; try lia; [| |congruence].
  - destruct (cj_resultDigest (cr_reference row)); [|by left]. right. cbn in *. rewrite negb_false_iff in *. by bool_inv.
  - destruct (cj_receiptId (cr_reference row)); [|by left]. right. cbn in *. rewrite negb_false_iff in *. by bool_inv.
Qed.

Lemma step_continues s s' : step s s' -> continues s s'.
Proof using.
  intros []; try (by apply continues_refl).
  - constructor; try unchanged s.
  - constructor; try unchanged s.
    + intros i q Hq. cbn [delivery_plans with_plans with_runs]. by apply find_app_Some.
    + intros i r Hr. exists r. split; [unfold find_run; cbn [delivery_runs with_runs]; by apply find_app_Some|by apply run_continues_same].
  - by apply transition_continues.
  - constructor; try unchanged s. intros i job r Hr. exists r. split; [|apply job_continues_refl].
    unfold find_job. cbn [delivery_child_jobs with_jobs]. by apply find_app_Some.
  - by eapply moved_continues.
  - constructor; try unchanged s.
  - constructor; try unchanged s.
  - apply point_continues. intros i x k Hk. assert (Hx : exists k', List.find (lease_is i x)
      (expired_leases (lr_deliveryId input) (lr_at input) s) = Some k' /\ lease_continues k k').
    { unfold expired_leases. destruct (active_lease _ s); [by apply set_leases_continue|by exists k]. }
    destruct Hx as (k' & Hk' & Hc). exists k'. split; [by apply find_app_Some|done].
  - apply point_continues. by apply set_leases_continue.
  - apply point_continues. by apply set_leases_continue.
  - constructor; try unchanged s. intros key r Hr. exists r. split; [|split_and!; try done; by left].
    unfold find_intent. cbn [request_intents with_intents]. by apply find_app_Some.
  - constructor; try unchanged s. intros k r Hr. unfold find_intent in *. cbn [request_intents with_intents].
    rewrite find_set_where, Hr by done. cbn. eexists. split; [reflexivity|].
    destruct (_ && _) eqn:E; [|split_and!; try done; by left]. bool_inv. split_and!; try done. right. split; [done|].
    split; [done|]. by eexists.
Qed.

Lemma steps_continues s s' : steps s s' -> continues s s'.
Proof using. induction 1; [apply continues_refl|]. eapply continues_trans; [done|by apply step_continues]. Qed.

Lemma run_trace_continues trace s : Inv s -> continues s (run trace s).
Proof using. intros HI. by apply steps_continues, run_steps. Qed.
End Continuation.

(** ** The theorems *)

Section Theorems.
Context {C : Crypto} {D : Dates} {Lo : Locale} {LL : LocaleLaws Lo}.

Lemma getPlan_row s id plan at_ :
  IDENTIFIER_PATTERN id = true -> is_canonical plan ->
  List.find (fun q => pl_deliveryId q === id) (delivery_plans s) = Some (plan_row plan at_) ->
  getPlan id s = (Ok (Some plan), s).
Proof using LL.
  intros Hid Hc Hf. unfold getPlan, assertIdentifier. rewrite bindM_eq. unfold lift at 1. rewrite Hid. cbn [require].
  rewrite bindM_eq. unfold get_state at 1. rewrite Hf. rewrite bindM_eq. unfold lift.
  change (pl_planJson (plan_row plan at_)) with (reparse (sortKeys (JObj (plan_doc plan)))).
  rewrite canonicalPlan_stored by done. rewrite bindM_eq. unfold guardM, lift. cbn [pl_planDigest plan_row].
  by rewrite bool_decide_eq_true_2.
Qed.

(** A run that is in the table can be read, with its plan. *)
Lemma getRun_row s r :
  Inv s -> r ∈ delivery_runs s ->
  exists plan, is_canonical plan /\ cd_planDigest plan = rn_planDigest r /\ getPlan (rn_deliveryId r) s = (Ok (Some plan), s) /\
    getRun (rn_deliveryId r) s = (Ok (Some (run_record r (cd_input plan) s)), s).
Proof using LL.
  intros HI Hr. destruct (inv_run _ HI _ Hr) as [(plan & t & H1 & H2 & H3 & H4 & H5 & H6) _].
  exists plan. split; [done|]. split; [done|]. pose proof (getPlan_row _ _ _ _ H5 H1 H6) as Hp. split; [done|].
  unfold getRun, assertIdentifier. rewrite bindM_eq. unfold lift at 1. rewrite H5. cbn [require].
  rewrite bindM_eq. unfold get_state at 1.
  assert (find_run (rn_deliveryId r) s = Some r) as ->.
  { apply find_id_unique; [apply HI|done]. }
  by rewrite bindM_eq, Hp.
Qed.

Lemma getRunRequired_row s r :
  Inv s -> r ∈ delivery_runs s ->
  exists plan, is_canonical plan /\ cd_planDigest plan = rn_planDigest r /\
    getRunRequired (rn_deliveryId r) s = (Ok (run_record r (cd_input plan) s), s).
Proof using LL.
  intros HI Hr. destruct (getRun_row s r HI Hr) as (plan & Hc & Hd & _ & H). exists plan. split; [done|]. split; [done|].
  unfold getRunRequired. by rewrite bindM_eq, H.
Qed.

#[local] Hint Resolve getRunRequired_reads : respects.

(** *** Transitions *)

Definition replayed (r : DeliveryTransitionResult) : DeliveryTransitionResult :=
  {| tr_run := tr_run r; tr_event := tr_event r; tr_replayed := true |}.

(** A transition whose key is recorded only reads. *)
Lemma transition_prior input s row :
  validateTransition input = Ok tt -> prior_event input s = Some row -> transition input s = (replay_event input row, s).
Proof using.
  intros Hv Hp. unfold transition. rewrite bindM_eq. unfold lift at 1. rewrite Hv. unfold transaction.
  rewrite bindM_eq. unfold get_state. rewrite Hp. unfold lift. by destruct (replay_event input row).
Qed.

Lemma transition_recorded input s r s' :
  transition input s = (Ok r, s') ->
  validateTransition input = Ok tt /\
  exists row, prior_event input s' = Some row /\ er_semanticDigest row = semantic_digest input /\
    replay_event input row = Ok (replayed r).
Proof using.
  unfold transition. intros H. m_split; split; try done.
  - match goal with H : prior_event _ _ = Some ?row |- _ => exists row end. split; [done|].
    match goal with H : replay_event _ _ = _ |- _ => rename H into Hr end. rewrite Hr.
    unfold replay_event in Hr. result_inv. bool_inv. done.
  - match goal with H : getRunRequired _ _ = _ |- _ => apply getRunRequired_Ok in H as (-> & _ & row & plan & Hf & ->) end.
    match goal with H : record_digest _ _ = _ |- _ => apply reads_state in H as ->; [|apply record_digest_reads] end.
    match goal with H : insert_event _ _ = _ |- _ => apply insert_event_Ok in H as -> end.
    match goal with H : update_runs _ _ _ = _ |- _ => apply update_runs_Ok in H as -> end.
    eexists. split; [|split].
    + unfold prior_event. cbn [delivery_events with_events with_runs]. rewrite find_app_None by done.
      cbn [List.find]. unfold event_row at 1 2. cbn [er_event er_idempotencyKey next_event de_deliveryId].
      by rewrite !bool_decide_eq_true_2.
    + reflexivity.
    + unfold replay_event, event_row. cbn [er_semanticDigest er_result er_resultDigest].
      rewrite !bool_decide_eq_true_2 by done. done.
Qed.

Lemma prior_event_later input s s' row : continues s s' -> prior_event input s = Some row -> prior_event input s' = Some row.
Proof using. intros [l E]%co_events H. unfold prior_event. rewrite E. by apply find_app_Some. Qed.

(** *** Pages *)

Lemma filter_numbered {A} (f : A -> Z) k l n :
  numbered f k l -> List.filter (fun y => (k + Z.of_nat n) <=? f y) l = drop n l.
Proof using.
  revert k n. induction l as [|x l IH]; intros k n; [by rewrite drop_nil|]. intros (Hx & Hl & Hlt)%numbered_cons.
  cbn [List.filter]. destruct n as [|n].
  - replace (k + Z.of_nat 0 <=? f x) with true by (symmetry; apply Z.leb_le; lia). cbn [drop]. f_equal.
    rewrite <- (drop_0 l) at 2. rewrite <- (IH _ 0%nat Hl). apply filter_ext_in. intros y Hy%list_elem_of_In.
    rewrite Forall_forall in Hlt. specialize (Hlt y Hy). apply eq_true_iff_eq. rewrite !Z.leb_le. lia.
  - replace (k + Z.of_nat (S n) <=? f x) with false by (symmetry; apply Z.leb_gt; lia). cbn [drop].
    rewrite <- (IH _ n Hl). apply filter_ext. intros y. apply eq_true_iff_eq. rewrite !Z.leb_le. lia.
Qed.

Lemma numbered_drop {A} (f : A -> Z) k l n : numbered f k l -> numbered f (k + Z.of_nat n) (drop n l).
Proof using. intros H i y Hy. rewrite lookup_drop in Hy. apply H in Hy. lia. Qed.

Lemma last_numbered {A} (f : A -> Z) k l :
  numbered f k l -> match last l with Some y => f y + 1 = k + Z.of_nat (length l) | None => length l = O end.
Proof using.
  intros H. rewrite last_lookup. destruct l as [|x l]; [done|]. cbn [length Nat.pred].
  destruct ((x :: l) !! length l) as [y|] eqn:E; [|apply lookup_ge_None in E; cbn in E; lia]. apply H in E. lia.
Qed.

Lemma numbered_take {A} (f : A -> Z) k l n : numbered f k l -> numbered f k (take n l).
Proof using. intros H i y Hy. apply H. by eapply lookup_take_Some. Qed.

(** *** The writes of a transition *)

Lemma sha_length `{!CryptoLaws C} t : length64 (sha256Hex t) = true.
Proof using. pose proof (sha256Hex_digest t) as H. unfold DIGEST_PATTERN in H. by apply andb_true_iff in H as [H _]. Qed.

Lemma digest_length t : assertDigest t = Ok tt -> length64 t = true.
Proof using. unfold assertDigest, DIGEST_PATTERN. intros H%require_Ok. by apply andb_true_iff in H as [H _]. Qed.

Lemma insert_event_eq r s (b : bool) :
  (let e := er_event r in
   has_run (de_deliveryId e) s && (0 <=? de_offset e) && (0 <? de_generation e) && length64 (de_planDigest e) &&
   negb (String.length (de_message e) =? 0)%nat && (String.length (de_message e) <=? 4096)%nat &&
   length64_opt (er_priorEventDigest r) && length64 (de_eventDigest e) && length64 (er_semanticDigest r) &&
   length64 (er_resultDigest r) &&
   negb (existsb (fun q => (de_deliveryId (er_event q) === de_deliveryId e) &&
           ((de_offset (er_event q) === de_offset e) || (de_eventDigest (er_event q) === de_eventDigest e) ||
            (er_idempotencyKey q === er_idempotencyKey r))) (delivery_events s))) = b ->
  insert_event r s = if b then (Ok tt, with_events (delivery_events s ++ [r]) s) else (Err sqlite_constraint, s).
Proof using. intros H. unfold insert_event. rewrite bindM_eq. unfold get_state. rewrite bindM_eq. cbv zeta in *. rewrite H. by destruct b. Qed.

(** An event whose digest is new for its delivery can be recorded. *)
Definition digest_is_new (input : DeliveryTransitionInput) (e : DeliveryEventRecord) (s : Tables) : bool :=
  forallb (fun q => de_eventDigest (er_event q) !== de_eventDigest e) (events_of (dt_deliveryId input) s).

Lemma event_conflicts input current s :
  projects current (events_of (dt_deliveryId input) s) -> prior_event input s = None ->
  forall plan, rn_deliveryId current = dt_deliveryId input ->
  let row := event_row input (run_record current plan s) (last_event (dt_deliveryId input) s) in
  existsb (fun q => (de_deliveryId (er_event q) === dt_deliveryId input) &&
            ((de_offset (er_event q) === de_offset (er_event row)) ||
             (de_eventDigest (er_event q) === de_eventDigest (er_event row)) ||
             (er_idempotencyKey q === dt_idempotencyKey input))) (delivery_events s) =
  negb (digest_is_new input (er_event row) s).
Proof using.
  intros Hp Hprior plan Hid row. unfold digest_is_new.
  assert (Hoff : de_offset (er_event row) = Z.of_nat (length (events_of (dt_deliveryId input) s))).
  { subst row. cbn [er_event event_row de_offset next_event]. rewrite <- Hid, last_event_log, Hid by by rewrite Hid.
    pose proof (last_numbered _ _ _ (projects_numbered _ _ Hp)) as Hl. destruct (last _); cbn in *; lia. }
  apply eq_true_iff_eq. rewrite negb_true_iff, <- not_true_iff_false, existsb_exists, forallb_forall.
  setoid_rewrite filter_In. split.
  - intros (q & Hq & H) Hall. bool_inv. unfold prior_event in Hprior. rewrite find_none_iff_all in Hprior.
    specialize (Hprior q (proj2 (list_elem_of_In _ _) Hq)). rewrite H, (bool_decide_eq_true_2 (dt_deliveryId input = _)) in Hprior by done.
    cbn [andb] in Hprior. bool_inv.
    apply orb_true_iff in H0 as [H0|H0]; [|bool_inv; congruence]. apply orb_true_iff in H0 as [H0|H0]; bool_inv.
    + assert (Hin : q ∈ events_of (dt_deliveryId input) s)
        by (apply list_elem_of_In, filter_In; split; [done|by apply bool_decide_eq_true_2]).
      apply list_elem_of_lookup in Hin as [i Hi]. pose proof (lookup_lt_Some _ _ _ Hi).
      apply (proj1 Hp) in Hi as (_ & _ & _ & Ho & _). lia.
    + specialize (Hall q (conj Hq (bool_decide_eq_true_2 _ H))). by bool_inv.
  - intros Hnot. destruct (existsb (fun q => de_eventDigest (er_event q) === de_eventDigest (er_event row))
      (events_of (dt_deliveryId input) s)) eqn:E.
    + apply existsb_exists in E as (q & [Hq Hd]%filter_In & E). exists q. split; [done|]. by rewrite Hd, E, orb_true_r.
    + exfalso. apply Hnot. intros q Hq. rewrite existsb_false in E. apply negb_true_iff, E, list_elem_of_In, filter_In, Hq.
Qed.

Lemma count_key {A B} `{EqDecision B} (g : A -> B) l x :
  NoDup (List.map g l) -> x ∈ l -> length (List.filter (fun y => g y === g x) l) = 1%nat.
Proof using.
  induction l as [|y l IH]; [by intros _ ?%not_elem_of_nil|]. cbn. intros [Hy Hn]%list.NoDup_cons Hx.
  assert (Hm : forall u, u ∈ l -> g u ∈ List.map g l) by (intros u Hu; by apply list_elem_of_In, in_map, list_elem_of_In).
  case_bool_decide as E; cbn.
  - f_equal. apply length_zero_iff_nil. destruct (List.filter _ l) as [|z k] eqn:Ef; [done|]. exfalso.
    assert (Hz : List.In z (z :: k)) by by left. rewrite <- Ef in Hz. apply filter_In in Hz as [Hz%list_elem_of_In Ez].
    bool_inv. apply Hy. rewrite E, <- Ez. by apply Hm.
  - apply elem_of_cons in Hx as [->|Hx]; [done|]. by apply IH.
Qed.

(** The tables after a transition of the run [row]. *)
Definition transitioned (input : DeliveryTransitionInput) (row : RunRow) (plan : DeliveryPlanInput) (s : Tables) : Tables :=
  let current := run_record row plan s in
  let event := event_row input current (last_event (dt_deliveryId input) s) in
  with_runs (set_where (fun r => rn_deliveryId r === dt_deliveryId input)
               (advanced input current (run_digest (rn_recordDigest row) (de_eventDigest (er_event event)) input current))
               (delivery_runs s))
    (with_events (delivery_events s ++ [event]) s).

Lemma insert_transition_event `{!CryptoLaws C} input row plan s :
  Inv s -> find_run (dt_deliveryId input) s = Some row -> validateTransition input = Ok tt -> prior_event input s = None ->
  let event := event_row input (run_record row plan s) (last_event (dt_deliveryId input) s) in
  insert_event event s =
  if digest_is_new input (er_event event) s then (Ok tt, with_events (delivery_events s ++ [event]) s)
  else (Err sqlite_constraint, s).
Proof using.
  intros HI Hf Hv Hprior event. pose proof (find_run_elem _ _ _ Hf) as [Hin Hid].
  destruct (inv_run _ HI _ Hin) as [_ Hp]. rewrite Hid in Hp. apply insert_event_eq. cbv zeta.
  change (de_deliveryId (er_event event)) with (dt_deliveryId input).
  change (er_idempotencyKey event) with (dt_idempotencyKey input).
  pose proof (event_conflicts input row s Hp Hprior plan Hid) as Hconf. cbv zeta in Hconf. fold event in Hconf.
  rewrite Hconf, negb_involutive.
  match goal with |- ?a && ?b = _ => assert (a = true) as -> end; [|done].
  unfold validateTransition in Hv. result_inv. unfold assertPositiveInteger in *. result_inv. bool_inv.
  match goal with H : assertDigest _ = _ |- _ => apply digest_length in H; rename H into Hpd end.
  assert (Hh : has_run (dt_deliveryId input) s = true).
  { apply existsb_exists. exists row. split; [by apply list_elem_of_In|by apply bool_decide_eq_true_2]. }
  assert (Ho : 0 <= de_offset (er_event event)).
  { subst event. cbn [er_event event_row de_offset next_event]. rewrite <- Hid, last_event_log, Hid by by rewrite Hid.
    pose proof (last_numbered _ _ _ (projects_numbered _ _ Hp)) as Hl. destruct (last _); cbn in *; lia. }
  assert (Hprev : length64_opt (er_priorEventDigest event) = true).
  { subst event. cbn [er_priorEventDigest event_row]. rewrite <- Hid, last_event_log, Hid by by rewrite Hid.
    rewrite last_lookup. destruct (_ !! _) as [e|] eqn:E; [|done]. apply (proj1 Hp) in E as (_ & _ & _ & _ & _ & E & _).
    cbn [option_map length64_opt]. rewrite E. apply sha_length. }
  rewrite !andb_true_iff, Z.leb_le, Z.ltb_lt. repeat split; try done; try apply sha_length.
  - apply negb_true_iff, Nat.eqb_neq. match goal with H : (1 <=? _)%nat = true |- _ => apply Nat.leb_le in H end.
    cbn [de_message er_event event event_row next_event]. lia.
Qed.

Lemma update_transition_run `{!CryptoLaws C} input row plan s events digest :
  Inv s -> find_run (dt_deliveryId input) s = Some row -> check_transition input (run_record row plan s) = Ok tt ->
  validateTransition input = Ok tt -> length64 digest = true ->
  update_runs (cas_where input) (advanced input (run_record row plan s) digest) (with_events events s) =
  if has_deployment (next_deployment input (run_record row plan s)) s then
    (Ok 1%nat, with_runs (set_where (fun r => rn_deliveryId r === dt_deliveryId input)
                            (advanced input (run_record row plan s) digest) (delivery_runs s)) (with_events events s))
  else (Err sqlite_constraint, with_events events s).
Proof using.
  intros HI Hf Hc Hv Hd. pose proof (find_run_elem _ _ _ Hf) as [Hin Hid].
  pose proof (check_fence _ _ _ _ Hc) as (Hp & Hg & Ht & Hs & Hq).
  assert (Hcas : forall r, r ∈ delivery_runs s -> cas_where input r = (rn_deliveryId r === dt_deliveryId input)).
  { intros r Hr. unfold cas_where. case_bool_decide as E; [|done].
    rewrite (find_run_unique _ _ _ _ (inv_runs _ HI) Hf Hr E), Ht, Hp, Hg, Hs, Hq. by rewrite !bool_decide_eq_true_2. }
  unfold update_runs. rewrite bindM_eq. unfold get_state at 1. rewrite bindM_eq.
  assert (forallb (fun r => negb (cas_where input r) || (run_triggers r (advanced input (run_record row plan s) digest r) &&
            run_checks (advanced input (run_record row plan s) digest r) (with_events events s)))
            (delivery_runs (with_events events s)) =
          has_deployment (next_deployment input (run_record row plan s)) s) as ->.
  { apply eq_true_iff_eq. rewrite forallb_forall. cbn [delivery_runs with_events]. split.
    - intros H. specialize (H row (proj1 (list_elem_of_In _ _) Hin)). rewrite (Hcas row Hin), bool_decide_eq_true_2 in H by done.
      cbn [negb orb] in H. unfold run_checks in H. by bool_inv.
    - intros Hdep r Hr%list_elem_of_In. rewrite (Hcas r Hr). case_bool_decide as E; [|done]. cbn [negb orb].
      rewrite (find_run_unique _ _ _ _ (inv_runs _ HI) Hf Hr E).
      destruct (inv_run _ HI _ Hin) as [(p & t & H1 & H2 & H3 & _ & _ & H6) Hproj].
      apply find_Some_elem in H6 as [H6 H7]. unfold validateTransition, assertPositiveInteger in Hv. result_inv. bool_inv.
      apply andb_true_iff. split.
      + unfold run_triggers. cbn [advanced rn_deliveryId rn_planDigest rn_createdAt rn_expiresAt rn_stateSequence].
        rewrite Ht, !bool_decide_eq_true_2 by done. cbn.
        by rewrite (bool_decide_eq_true_2 (rn_stateSequence row + 1 = _)), andb_false_r by done.
      + unfold run_checks. cbn [advanced rn_deliveryId rn_planDigest rn_deploymentId rn_generation rn_stateSequence rn_recordDigest].
        rewrite Hd, !andb_true_iff, !existsb_exists, Z.ltb_lt, Z.leb_le. destruct Hproj as (_ & Hseq & _).
        split_and!; try done; try (cbn; lia).
        * exists (plan_row p t). split; [by apply list_elem_of_In|]. by apply bool_decide_eq_true_2.
        * exists (plan_row p t). split; [by apply list_elem_of_In|]. by apply bool_decide_eq_true_2. }
  unfold guardM, lift. destruct (has_deployment _ _); [|done]. cbn [require]. rewrite bindM_eq. unfold modify, mret, M_ret.
  cbn [delivery_runs with_events]. f_equal.
  - f_equal. rewrite <- (count_key rn_deliveryId _ row (inv_runs _ HI) Hin), Hid. f_equal. apply filter_ext_in.
    intros r Hr%list_elem_of_In. by apply Hcas.
  - f_equal. by apply set_where_ext.
Qed.

(** A new transition of a run in the table. *)
Lemma transition_new `{!CryptoLaws C} input row plan s :
  Inv s -> find_run (dt_deliveryId input) s = Some row -> validateTransition input = Ok tt -> prior_event input s = None ->
  getRunRequired (dt_deliveryId input) s = (Ok (run_record row plan s), s) ->
  let event := next_event input (run_record row plan s) (last_event (dt_deliveryId input) s) in
  transition input s =
  match check_transition input (run_record row plan s) with
  | Err e => (Err e, s)
  | Ok _ =>
      if Z.of_nat (length (events_of (dt_deliveryId input) s)) <? MAX_EVENTS_PER_RUN then
        if digest_is_new input event s && has_deployment (next_deployment input (run_record row plan s)) s
        then (Ok (transition_result input (run_record row plan s) (last_event (dt_deliveryId input) s)),
              transitioned input row plan s)
        else (Err sqlite_constraint, s)
      else (Err delivery_conflict, s)
  end.
Proof using.
  intros HI Hf Hv Hprior Hreq event. unfold transition. rewrite bindM_eq. unfold lift at 1. rewrite Hv. unfold transaction.
  rewrite bindM_eq. unfold get_state at 1. rewrite Hprior, bindM_eq, Hreq, bindM_eq. unfold lift at 1.
  destruct (check_transition input (run_record row plan s)) as [[]|e] eqn:Hc; [|done].
  rewrite bindM_eq. unfold guardM at 1, lift at 1. destruct (_ <? _); [|done]. cbn [require]. cbv zeta.
  rewrite bindM_eq. unfold record_digest at 1. rewrite bindM_eq. unfold get_state at 1. rewrite Hf.
  unfold mret at 1, M_ret at 1. rewrite bindM_eq, insert_transition_event by done.
  change (er_event (event_row input (run_record row plan s) (last_event (dt_deliveryId input) s))) with event.
  destruct (digest_is_new input event s); [|done]. cbn [andb].
  rewrite bindM_eq, update_transition_run by (done || apply sha_length).
  destruct (has_deployment _ _); done.
Qed.

(** *** Intents *)

Lemma find_intent_key key s row : find_intent key s = Some row -> in_key row = key.
Proof using. by intros [_ ?]%find_key. Qed.

Lemma reservation_Ok key semantic operation id createdAt s s' :
  reserveIntent key semantic operation id createdAt s = (Ok di_reserved, s') ->
  validate_intent key semantic operation id createdAt = Ok tt /\ (exists r, find_run id s = Some r) /\
  s' = with_intents (request_intents s') s /\
  exists row, find_intent key s' = Some row /\ in_semantic row = semantic /\ in_operation row = operation /\
    in_delivery row = Some id /\ in_status row = intent_is_pending.
Proof using.
  unfold reserveIntent. intros H. m_split; m_inv;
    match goal with H : getRunRequired _ _ = _ |- _ => apply getRunRequired_Ok in H as (-> & _ & r & _ & Hr & _) end.
  - exfalso. match goal with H : answer_intent _ _ _ _ = _ |- _ => unfold answer_intent in H; repeat case_match; result_inv; done end.
  - split; [done|]. split; [by exists r|]. unfold insert_intent in *. m_inv. split; [done|].
    eexists. split; [unfold find_intent; cbn [request_intents with_intents]; rewrite find_app_None by done; cbn;
      by rewrite bool_decide_eq_true_2|done].
Qed.

Lemma completeIntent_Ok key semantic id result at_ s digest s' row :
  completeIntent key semantic id result at_ s = (Ok digest, s') -> find_intent key s = Some row ->
  s' = with_intents (request_intents s') s /\
  exists row', find_intent key s' = Some row' /\ in_semantic row' = in_semantic row /\ in_operation row' = in_operation row /\
    in_delivery row' = in_delivery row /\ in_status row' = intent_is_completed /\ in_digest row' = Some digest /\
    (row' = row \/ intent_valid row').
Proof using.
  unfold completeIntent. intros H Hf. m_split; m_inv.
  - match goal with H : List.find _ _ = Some ?r |- _ => assert (r = row) as -> by (unfold find_intent in Hf; congruence) end.
    split; [by destruct s'|]. exists row. bool_inv. split_and!; try done. by left.
  - match goal with H : List.find _ _ = Some ?r |- _ => assert (r = row) as -> by (unfold find_intent in Hf; congruence) end.
    match goal with H : update_intents _ _ _ = _ |- _ => unfold update_intents in H; m_inv end. split; [done|].
    match goal with H : match canonicalJson ?v with _ => _ end = Ok _ |- _ =>
      destruct (canonicalJson v) eqn:E; [|discriminate]; injection H as -> end.
    pose proof (find_intent_key _ _ _ Hf) as Hk. unfold find_intent in *. cbn [request_intents with_intents].
    rewrite (find_set_where in_key), Hf by done. cbn [option_map].
    rewrite Hk, bool_decide_eq_true_2 by done. destruct (in_status row); [|done]. cbn [andb].
    rewrite bool_decide_eq_true_2 by done. eexists. split; [reflexivity|]. split_and!; try done. right.
    split; [done|]. eexists. split_and!; try done. by apply canonicalJson_nonempty in E.
Qed.

Lemma answer_completed `{!CryptoLaws C} semantic operation id row text digest :
  in_semantic row = semantic -> in_operation row = operation -> in_delivery row = Some id ->
  in_status row = intent_is_completed -> in_json row = Some text -> text <> EmptyString -> in_digest row = Some digest ->
  sha256Hex text = digest -> answer_intent semantic operation id row = Ok (di_completed digest text).
Proof using.
  intros <- <- Hd Hs Hj Ht Hg Hsha. unfold answer_intent. rewrite Hd, Hs, Hj, Hg.
  rewrite !(bool_decide_eq_true_2 (_ = _)) by done. cbn [negb orb]. rewrite bool_decide_eq_false_2 by done.
  pose proof (sha_length text) as Hl. rewrite Hsha in Hl. unfold truthy_str.
  rewrite (bool_decide_eq_true_2 (sha256Hex text = _)) by done.
  rewrite (bool_decide_eq_false_2 (text = _)), (bool_decide_eq_false_2 (digest = _)); [done|by intros ->|done].
Qed.

Lemma answer_conflict semantic operation id row :
  (semantic, operation, id) <> (in_semantic row, in_operation row, default ""%string (in_delivery row)) ->
  in_delivery row <> None -> answer_intent semantic operation id row = Ok (di_conflict (in_semantic row)).
Proof using.
  intros Hne Hd. unfold answer_intent. destruct (in_delivery row) as [i|]; [|done]. cbn in Hne.
  repeat case_bool_decide; try done; exfalso; apply Hne; congruence.
Qed.

(** An intent that is taken is answered from its row. *)
Lemma reserveIntent_taken key semantic operation id createdAt s row :
  validate_intent key semantic operation id createdAt = Ok tt ->
  (exists run, getRunRequired id s = (Ok run, s)) -> find_intent key s = Some row ->
  reserveIntent key semantic operation id createdAt s = (answer_intent semantic operation id row, s).
Proof using.
  intros Hv [run Hr] Hf. unfold reserveIntent. rewrite bindM_eq. unfold lift at 1. rewrite Hv, bindM_eq, Hr.
  unfold transaction. rewrite bindM_eq. unfold get_state. fold (find_intent key s). rewrite Hf. unfold lift.
  by destruct (answer_intent _ _ _ _).
Qed.

(** *** Leases *)

Lemma acquire_takes_over input s old new s1 :
  Inv s -> active_lease (lr_deliveryId input) s = Some old -> le_leaseId old <> lr_leaseId input ->
  acquireControllerLease input s = (Ok new, s1) ->
  date_ltb (lr_at input) (le_expiresAt old) = false /\
  exists k, lease_of (lr_deliveryId input) (le_leaseId old) s1 = Some k /\ le_status k = lease_expired.
Proof using.
  intros HI Hact Hne H. pose proof (find_active (lr_deliveryId input) s) as Ha. rewrite Hact in Ha. destruct Ha as (Ho & Hoi & Hos).
  unfold acquireControllerLease in H. m_split; m_inv;
    match goal with H : assertRunFence _ _ _ _ = _ |- _ => apply fence_Ok in H as (-> & row & plan & Hf & -> & _) end.
  - exfalso. bool_inv. match goal with H : List.find _ _ = Some ?k |- _ =>
      apply find_Some_elem in H as [Hk Hki]; unfold lease_is in Hki; bool_inv; apply Hne;
      rewrite (inv_active _ HI old k); done || congruence end.
  - match goal with H : read_lease _ _ _ = _ |- _ => apply reads_state in H as ->; [|apply read_lease_reads] end.
    match goal with H : expire_active _ _ = _ |- _ => apply expire_active_Ok in H as (-> & He) end.
    match goal with H : insert_lease _ _ = _ |- _ => apply insert_lease_Ok in H as (-> & _) end.
    pose proof (find_run_elem _ _ _ Hf) as [_ Hid]. rewrite <- Hid in Hf at 1.
    match goal with H : updateLeasePointer _ _ _ _ = _ |- _ => apply pointer_Ok in H as (digest & ->); [|apply HI|done] end.
    split; [by apply He|]. unfold lease_of, point_run. cbn [delivery_controller_leases with_runs with_leases].
    assert (Hl : List.find (lease_is (lr_deliveryId input) (le_leaseId old)) (delivery_controller_leases s0) = Some old).
    { rewrite find_lease_key. apply find_by_key; [apply HI|done|]. unfold lease_key. congruence. }
    unfold expired_leases. rewrite Hact.
    eexists. split; [apply find_app_Some; rewrite find_lease_key, find_set_where, <- find_lease_key, Hl by done; reflexivity|].
    unfold active_is, lease_is. by rewrite Hoi, Hos, !bool_decide_eq_true_2.
Qed.

Lemma atomic_fails {A} (m : LM A) s : atomic m -> (forall r s', m s = (Ok r, s') -> False) -> exists e, m s = (Err e, s).
Proof using.
  intros Ha Hno. destruct (m s) as [[r|e] s'] eqn:E; [by destruct (Hno r s')|]. apply Ha in E as Es. subst s'. by exists e.
Qed.

(** *** Plans *)

Lemma same_plan p q :
  is_canonical p -> is_canonical q -> cd_planDigest p = cd_planDigest q ->
  p = q \/ (canonical_obj (plan_body (cd_input p)) <> canonical_obj (plan_body (cd_input q)) /\
           sha256Hex (canonical_obj (plan_body (cd_input p))) = sha256Hex (canonical_obj (plan_body (cd_input q)))).
Proof using LL.
  intros [v [Hp Hdp]%canonicalize_Ok] [w [Hq Hdq]%canonicalize_Ok] E. rewrite Hdp, Hdq in E.
  destruct (decide (canonical_obj (plan_body (cd_input p)) = canonical_obj (plan_body (cd_input q)))) as [Hc|Hc];
    [left|right; by split].
  apply plan_eq; [by eapply canonical_text_binds|congruence].
Qed.

(** C27: the ledger is event-sourced.  After any operations on a new database, every run can be read
    with its plan, and it is the projection of its log: the offsets of its events are 0, 1, 2, ...
    without a gap, each event has the digest of the one before it and its own digest covers that
    one, no event follows a terminal one or occurs after the expiry of the plan, and the state, the
    sequence, the deployment and the terminal flag of the run are those its last event recorded. *)
Theorem run_is_projection (deps : list string) (intents : list IntentRow) (trace : list op) (r : RunRow) :
  NoDup (List.map in_key intents) ->
  let s := run trace (new_tables deps intents) in
  r ∈ delivery_runs s ->
  (exists plan, is_canonical plan /\ cd_planDigest plan = rn_planDigest r /\
     getRun (rn_deliveryId r) s = (Ok (Some (run_record r (cd_input plan) s)), s)) /\
  projects r (events_of (rn_deliveryId r) s).
Proof using LL.
  intros Hn s Hr. assert (HI : Inv s) by by apply run_Inv, Inv_new. split; [|by apply (inv_run _ HI)].
  destruct (getRun_row s r HI Hr) as (plan & Hc & Hd & _ & H). by exists plan.
Qed.

(** a run points exactly to its active lease.  After any operations on a new database, a
    delivery has at most one active controller lease, and the pointer of its run is the identifier
    of that lease, or empty when there is none. *)
Theorem lease_pointer_exact (deps : list string) (intents : list IntentRow) (trace : list op) (r : RunRow) :
  NoDup (List.map in_key intents) ->
  let s := run trace (new_tables deps intents) in
  r ∈ delivery_runs s ->
  exists active, getActiveControllerLease (rn_deliveryId r) s = (Ok active, s) /\
    rn_lease r = option_map le_leaseId active /\
    forall l, l ∈ delivery_controller_leases s -> le_deliveryId l = rn_deliveryId r ->
      le_status l = lease_active <-> active = Some l.
Proof using LL.
  intros Hn s Hr. assert (HI : Inv s) by by apply run_Inv, Inv_new.
  exists (active_lease (rn_deliveryId r) s). split_and!.
  - unfold getActiveControllerLease. destruct (getRunRequired_row s r HI Hr) as (plan & _ & _ & H).
    by rewrite bindM_eq, H.
  - pose proof (find_active (rn_deliveryId r) s) as Ha. destruct (active_lease _ s) as [a|]; cbn.
    + apply (inv_pointer _ HI _ _ Hr). exists a. split; [apply Ha|]. unfold active_is, lease_is.
      rewrite !bool_decide_eq_true_2; done || apply Ha.
    + destruct (rn_lease r) as [x|] eqn:E; [|done]. apply (inv_pointer _ HI _ _ Hr) in E as (l & Hl & E).
      unfold active_is, lease_is in E. bool_inv. by destruct (Ha l Hl).
  - intros l Hl Hid. pose proof (find_active (rn_deliveryId r) s) as Ha. destruct (active_lease _ s) as [a|]; split.
    + intros Hs. f_equal. apply (inv_active _ HI); try done; try apply Ha. destruct Ha as (_ & -> & _). done.
    + intros [= ->]. apply Ha.
    + intros Hs. by destruct (Ha l Hl).
    + done.
Qed.

(** a transition is recorded once.  When a transition has succeeded, the same call, at any later
    time and after any other operations, writes nothing and returns the recorded result, marked as
    replayed; a call with its idempotency key and another meaning is refused, and writes nothing. *)
Theorem delivery_transition_once (deps : list string) (intents : list IntentRow) (before after : list op)
    (input : DeliveryTransitionInput) (r : DeliveryTransitionResult) (s1 : Tables) :
  NoDup (List.map in_key intents) ->
  transition input (run before (new_tables deps intents)) = (Ok r, s1) ->
  let s2 := run after s1 in
  transition input s2 = (Ok (replayed r), s2) /\
  forall other, dt_deliveryId other = dt_deliveryId input -> dt_idempotencyKey other = dt_idempotencyKey input ->
    validateTransition other = Ok tt -> semantic_digest other <> semantic_digest input ->
    transition other s2 = (Err idempotency_conflict, s2).
Proof using.
  intros Hn H s2. assert (HI : Inv s1).
  { eapply Inv_step; [by apply run_Inv, Inv_new|]. eapply transition_step; [|exact H]. by apply run_Inv, Inv_new. }
  apply transition_recorded in H as (Hv & row & Hp & Hs & Hr).
  apply (prior_event_later _ _ s2) in Hp; [|by apply run_trace_continues].
  split; [by rewrite (transition_prior _ _ row), Hr|].
  intros other Hid Hk Hvo Hne. rewrite (transition_prior _ _ row); [|done|unfold prior_event; by rewrite Hid, Hk].
  unfold replay_event. rewrite Hs, (bool_decide_eq_false_2 (semantic_digest input = _)); [done|congruence].
Qed.

(** a terminal delivery stays as it is.  Whatever operations follow, the state, the sequence, the
    deployment and the terminal flag of its run and its log do not change, and every new transition
    of it is refused. *)
Theorem terminal_delivery_final (deps : list string) (intents : list IntentRow) (before after : list op) (r : RunRow) :
  NoDup (List.map in_key intents) ->
  let s := run before (new_tables deps intents) in
  r ∈ delivery_runs s -> rn_terminal r = true ->
  let s2 := run after s in
  (exists r', find_run (rn_deliveryId r) s2 = Some r' /\ same_identity r r' /\ same_position r r') /\
  events_of (rn_deliveryId r) s2 = events_of (rn_deliveryId r) s /\
  forall input, dt_deliveryId input = rn_deliveryId r -> prior_event input s2 = None ->
    exists e, transition input s2 = (Err e, s2).
Proof using.
  intros Hn s Hr Ht s2. assert (HI : Inv s) by by apply run_Inv, Inv_new.
  assert (HI2 : Inv s2) by by apply run_Inv. pose proof (run_trace_continues after s HI) as Hc. fold s2 in Hc.
  assert (Hf : find_run (rn_deliveryId r) s = Some r) by (apply find_id_unique; [apply HI|done]).
  destruct (co_run _ _ Hc _ _ Hf) as (r' & Hf' & Hid & _ & Hpos). specialize (Hpos Ht).
  split; [by exists r'|]. split; [by apply (co_terminal _ _ Hc _ _ Hf)|].
  intros input Ei Hp. destruct (transition input s2) as [[x|e] s3] eqn:E.
  - exfalso. unfold transition in E. m_split; try congruence.
    match goal with H : getRunRequired _ _ = _ |- _ => apply getRunRequired_Ok in H as (-> & _ & row & plan & Hfr & ->) end.
    match goal with H : check_transition _ _ = _ |- _ => apply check_fence in H as (_ & _ & Htr & _) end.
    rewrite Ei, Hf' in Hfr. injection Hfr as <-. destruct Hpos as (_ & _ & _ & _ & Hpt). congruence.
  - exists e. f_equal. revert E. unfold transition. rewrite bindM_eq. unfold lift at 1.
    destruct (validateTransition input); [apply transaction_Err|]. by intros [= _ <-].
Qed.

(** a plan that was accepted reads back.  After [createRun], and after any further operations,
    the stored plan is the canonical form of the plan given, or another plan with the same SHA-256
    that had been stored under its identifier before; and the run keeps the digest, the generation,
    the creation time and the expiry it was created with. *)
Theorem created_plan_reads_back (deps : list string) (intents : list IntentRow) (before after : list op)
    (planInput : props json) (generation : Z) (createdAt : string) (record : DeliveryRunRecord) (s1 : Tables) :
  NoDup (List.map in_key intents) ->
  createRun planInput generation createdAt (run before (new_tables deps intents)) = (Ok record, s1) ->
  let s2 := run after s1 in
  exists plan stored now,
    canonicalPlan planInput = Ok plan /\
    getPlan (pi_deliveryId (cd_input plan)) s2 = (Ok (Some stored), s2) /\
    (stored = plan \/
     (canonical_obj (plan_body (cd_input stored)) <> canonical_obj (plan_body (cd_input plan)) /\
      sha256Hex (canonical_obj (plan_body (cd_input stored))) = sha256Hex (canonical_obj (plan_body (cd_input plan))))) /\
    getRun (pi_deliveryId (cd_input plan)) s2 = (Ok (Some now), s2) /\
    dr_planDigest now = cd_planDigest plan /\ dr_generation now = generation /\
    dr_createdAt now = dr_createdAt record /\ dr_expiresAt now = dr_expiresAt record.
Proof using LL.
  intros Hn H s2. assert (HI0 : Inv (run before (new_tables deps intents))) by by apply run_Inv, Inv_new.
  assert (HI : Inv s1) by (eapply Inv_step; [exact HI0|by eapply createRun_step]).
  assert (HI2 : Inv s2) by by apply run_Inv. pose proof (run_trace_continues after s1 HI) as Hc. fold s2 in Hc.
  destruct (createRun_Ok _ _ _ _ _ _ H) as (plan & row & p0 & Hplan & Hf & Hrec & Hd & Hg & _).
  destruct (co_run _ _ Hc _ _ Hf) as (row2 & Hf2 & (Hid & Hpd & Hgen & Hca & Hex) & _).
  pose proof (find_run_elem _ _ _ Hf2) as [Hin Hid2].
  destruct (getRun_row s2 row2 HI2 Hin) as (stored & Hcan & Hsd & Hgp & Hgr). rewrite Hid2 in Hgp, Hgr.
  exists plan, stored, (run_record row2 (cd_input stored) s2). split; [done|]. split; [done|].
  split; [apply same_plan; [done|by eapply canonicalPlan_canonical|congruence]|].
  split; [done|]. rewrite Hrec. cbn. split_and!; congruence.
Qed.

(** the log is read in pages without a gap or a repetition: a page holds the events from its
    offset on, in order and up to the limit, and the next page starts where it ends. *)
Theorem event_pages (deps : list string) (intents : list IntentRow) (trace : list op) (r : RunRow) (n limit : nat) :
  NoDup (List.map in_key intents) ->
  let s := run trace (new_tables deps intents) in
  r ∈ delivery_runs s -> isSafeInteger (Z.of_nat n) = true -> (1 <= limit <= 200)%nat ->
  let items := take limit (drop n (List.map er_event (events_of (rn_deliveryId r) s))) in
  listEvents (rn_deliveryId r) (Z.of_nat n) (Z.of_nat limit) s =
    (Ok {| pg_offset := Z.of_nat n; pg_items := items; pg_nextOffset := Z.of_nat n + Z.of_nat (length items) |}, s).
Proof using LL.
  intros Hn s Hr Hsafe Hlim items. assert (HI : Inv s) by by apply run_Inv, Inv_new.
  destruct (inv_run _ HI _ Hr) as [_ Hnum%projects_numbered].
  destruct (getRunRequired_row s r HI Hr) as (plan & _ & _ & Hreq).
  unfold listEvents. rewrite bindM_eq, Hreq, bindM_eq. unfold lift at 1, assertNonnegativeInteger. rewrite Hsafe.
  replace (0 <=? Z.of_nat n) with true by (symmetry; apply Z.leb_le; lia). cbn [andb require].
  rewrite bindM_eq. unfold lift at 1, assertLimit.
  replace (isSafeInteger (Z.of_nat limit) && (1 <=? Z.of_nat limit) && (Z.of_nat limit <=? 200)) with true
    by (symmetry; unfold isSafeInteger; rewrite !andb_true_iff, !Z.leb_le, !Z.ltb_lt; lia).
  cbn [require]. rewrite bindM_eq. unfold get_state.
  pose proof (filter_numbered _ 0 _ n Hnum) as Hfil. cbn beta in Hfil. rewrite Z.add_0_l in Hfil. rewrite Hfil.
  pose proof (numbered_drop _ 0 _ n Hnum) as Hdrop. rewrite Z.add_0_l in Hdrop.
  rewrite (order_by_ascending _ _ _ Hdrop), Nat2Z.id. unfold mret, M_ret. subst items.
  rewrite !skipn_map, !firstn_map. do 3 f_equal.
  apply (numbered_take _ _ _ limit) in Hdrop. apply last_numbered in Hdrop.
  rewrite last_map, length_map. destruct (last _) as [e|] eqn:E; cbn in *; lia.
Qed.

(** C28: what a transition does.  For a run in the ledger and a new idempotency key, a well-formed
    transition does exactly this: it fails with the error of the first check that does not hold, or
    with a conflict when the log is full, and changes nothing; and otherwise it appends one event and
    moves the run, unless the database does not know the deployment or has an event with the same
    digest.  The update never loses its compare-and-swap after the checks. *)
Theorem transition_outcome `{!CryptoLaws C} (deps : list string) (intents : list IntentRow) (trace : list op)
    (input : DeliveryTransitionInput) (row : RunRow) :
  NoDup (List.map in_key intents) ->
  let s := run trace (new_tables deps intents) in
  find_run (dt_deliveryId input) s = Some row -> validateTransition input = Ok tt -> prior_event input s = None ->
  exists plan, is_canonical plan /\ cd_planDigest plan = rn_planDigest row /\
  let current := run_record row (cd_input plan) s in
  let previous := last (events_of (dt_deliveryId input) s) in
  transition input s =
  match check_transition input current with
  | Err e => (Err e, s)
  | Ok _ =>
      if Z.of_nat (length (events_of (dt_deliveryId input) s)) <? MAX_EVENTS_PER_RUN then
        if digest_is_new input (next_event input current previous) s && has_deployment (next_deployment input current) s
        then (Ok (transition_result input current previous), transitioned input row (cd_input plan) s)
        else (Err sqlite_constraint, s)
      else (Err delivery_conflict, s)
  end.
Proof using LL.
  intros Hn s Hf Hv Hprior. assert (HI : Inv s) by by apply run_Inv, Inv_new.
  pose proof (find_run_elem _ _ _ Hf) as [Hin Hid]. destruct (inv_run _ HI _ Hin) as [_ Hp].
  destruct (getRunRequired_row s row HI Hin) as (plan & Hc & Hd & Hreq). exists plan. split; [done|]. split; [done|].
  cbv zeta. rewrite Hid in Hreq. rewrite (transition_new _ _ _ _ HI Hf Hv Hprior Hreq).
  rewrite <- Hid, last_event_log by done. done.
Qed.

(** an intent is answered once.  After its reservation and its completion, with any operations in
    between and after, a repeated reservation writes nothing and returns the digest and the text of
    the result; a reservation of its key for another request is a conflict. *)
Theorem delivery_intent_answered `{!CryptoLaws C} (deps : list string) (intents : list IntentRow)
    (before between after : list op) (key semantic operation id createdAt at_ digest : string) (result : json)
    (s1 s2 : Tables) :
  NoDup (List.map in_key intents) ->
  reserveIntent key semantic operation id createdAt (run before (new_tables deps intents)) = (Ok di_reserved, s1) ->
  completeIntent key semantic id result at_ (run between s1) = (Ok digest, s2) ->
  let s3 := run after s2 in
  (exists text, sha256Hex text = digest /\
     reserveIntent key semantic operation id createdAt s3 = (Ok (di_completed digest text), s3)) /\
  forall semantic' operation' id' createdAt' answer s4, (semantic', operation', id') <> (semantic, operation, id) ->
    reserveIntent key semantic' operation' id' createdAt' s3 = (Ok answer, s4) ->
    answer = di_conflict semantic /\ s4 = s3.
Proof using LL.
  intros Hn H1 H2 s3. assert (HI0 : Inv (run before (new_tables deps intents))) by by apply run_Inv, Inv_new.
  assert (HI1 : Inv s1) by (eapply Inv_step; [exact HI0|by eapply reserveIntent_step]).
  assert (HIb : Inv (run between s1)) by by apply run_Inv.
  assert (HI2 : Inv s2) by (eapply Inv_step; [exact HIb|by eapply completeIntent_step]).
  apply reservation_Ok in H1 as (Hv & (r & Hr) & Es1 & row & Hf1 & E1 & E2 & E3 & E4).
  pose proof (run_trace_continues between s1 HI1) as C1. pose proof (run_trace_continues after s2 HI2) as C3. fold s3 in C3.
  destruct (co_intent _ _ C1 _ _ Hf1) as (row2 & Hf2 & _ & F1 & F2 & F3 & F4).
  destruct (completeIntent_Ok _ _ _ _ _ _ _ _ _ H2 Hf2) as (Es2 & row3 & Hf3 & G1 & G2 & G3 & G4 & G5 & G6).
  destruct (co_intent _ _ C3 _ _ Hf3) as (row4 & Hf4 & _ & _ & _ & _ & [-> | [G7 _]]); [|congruence].
  assert (Hval : intent_valid row3).
  { destruct G6 as [->|]; [|done]. destruct F4 as [->|[_ F4]]; [congruence|done]. }
  destruct Hval as (_ & text & V1 & V2 & V3). split.
  - exists text. split; [congruence|]. rewrite (reserveIntent_taken _ _ _ _ _ _ row3 Hv); [| |done].
    + by rewrite (answer_completed _ _ _ _ text digest) by congruence.
    + assert (Hr1 : find_run id s1 = Some r) by (rewrite Es1; exact Hr).
      destruct (co_run _ _ C1 _ _ Hr1) as (r2 & Hr2 & _).
      assert (Hr3 : find_run id s2 = Some r2) by (rewrite Es2; exact Hr2).
      destruct (co_run _ _ C3 _ _ Hr3) as (r4 & Hr4 & _). apply find_run_elem in Hr4 as [Hin <-].
      destruct (getRunRequired_row s3 r4) as (plan & _ & _ & Hreq); [by apply run_Inv|done|]. by eexists.
  - intros m' o' i' t' answer s4 Hne H.
    assert (Hans : answer_intent m' o' i' row3 = Ok (di_conflict semantic)).
    { rewrite answer_conflict; [|by rewrite G1, F1, E1, G2, F2, E2, G3, F3, E3|by rewrite G3, F3, E3].
      by rewrite G1, F1, E1. }
    unfold reserveIntent in H. m_inv.
    match goal with H : getRunRequired _ _ = _ |- _ => apply getRunRequired_Ok in H as (-> & _) end.
    unfold find_intent in Hf4. rewrite Hf4 in *. unfold lift in *. rewrite Hans in *. m_inv. done.
Qed.

(** C29: a lease that was taken over is fenced.  When a controller acquires a lease while another one is
    active, the other had expired at that time; it is not active any more, and its holder can never
    renew or release it again, whatever operations follow. *)
Theorem lease_takeover_fences (deps : list string) (intents : list IntentRow) (before after : list op)
    (input : LeaseRequest) (old new : DeliveryControllerLeaseRecord) (s1 : Tables) :
  NoDup (List.map in_key intents) ->
  let s := run before (new_tables deps intents) in
  active_lease (lr_deliveryId input) s = Some old -> le_leaseId old <> lr_leaseId input ->
  acquireControllerLease input s = (Ok new, s1) ->
  date_ltb (lr_at input) (le_expiresAt old) = false /\
  let s2 := run after s1 in
  (exists now, lease_of (lr_deliveryId input) (le_leaseId old) s2 = Some now /\ le_status now = lease_expired) /\
  (forall request, lr_deliveryId request = lr_deliveryId input -> lr_leaseId request = le_leaseId old ->
     exists e, renewControllerLease request s2 = (Err e, s2)) /\
  (forall planDigest generation holder at_,
     exists e, releaseControllerLease (lr_deliveryId input) planDigest generation (le_leaseId old) holder at_ s2 = (Err e, s2)).
Proof using.
  intros Hn s Hact Hne H. assert (HI : Inv s) by by apply run_Inv, Inv_new.
  assert (HI1 : Inv s1) by (eapply Inv_step; [exact HI|eapply acquire_step; [apply HI|exact H]]).
  destruct (acquire_takes_over _ _ _ _ _ HI Hact Hne H) as (Hdate & k & Hk & Hks). split; [done|]. intros s2.
  destruct (co_lease _ _ (run_trace_continues after s1 HI1) _ _ _ Hk) as (now & Hnow & _ & _ & _ & _ & Hkeep).
  rewrite Hkeep in Hnow by congruence. fold s2 in Hnow. clear Hkeep now. split; [by exists k|]. split.
  - intros request Hid Hx. apply atomic_fails; [unfold renewControllerLease; atomic_steps|].
    intros r s' E. unfold renewControllerLease in E. m_split; m_inv;
      match goal with H : assertRunFence _ _ _ _ = _ |- _ => apply fence_Ok in H as (-> & _) end;
      match goal with H : find_lease _ _ _ = _ |- _ => apply find_lease_Ok in H as (-> & Hl) end;
      rewrite Hid, Hx, Hnow in Hl; injection Hl as <-; bool_inv; congruence.
  - intros p g h t. apply atomic_fails; [unfold releaseControllerLease; atomic_steps|].
    intros r s' E. unfold releaseControllerLease in E. m_split; m_inv;
      match goal with H : assertRunFence _ _ _ _ = _ |- _ => apply fence_Ok in H as (-> & _) end;
      match goal with H : find_lease _ _ _ = _ |- _ => apply find_lease_Ok in H as (-> & Hl) end; congruence.
Qed.

(** a child job only moves forward.  Whatever operations follow, a recorded child job keeps its
    phase, its stream offsets do not decrease, its result digest and its receipt do not change once
    they are known, and after it is terminal it does not change at all. *)
Theorem child_job_progress (deps : list string) (intents : list IntentRow) (before after : list op) (r : ChildJobRow) :
  NoDup (List.map in_key intents) ->
  let s := run before (new_tables deps intents) in
  r ∈ delivery_child_jobs s ->
  exists r', find_job (cr_deliveryId r) (cj_jobId (cr_reference r)) (run after s) = Some r' /\
    job_continues (cr_reference r) (cr_reference r').
Proof using.
  intros Hn s Hr. assert (HI : Inv s) by by apply run_Inv, Inv_new.
  apply (co_job _ _ (run_trace_continues after s HI)). unfold find_job. rewrite find_job_key.
  apply find_by_key; [apply HI|done|done].
Qed.
End Theorems.

(** ** Witnesses *)

Lemma ok_result {S E A} (m : M S E A) s : is_ok (fst (m s)) = true -> exists r s', m s = (Ok r, s').
Proof. destruct (m s) as [[r|e] s']; [eauto|done]. Qed.

Section Witnesses.
#[local] Existing Instance toy_crypto.
#[local] Existing Instance toy_laws.
#[local] Existing Instance toy_dates.
#[local] Existing Instance toy_locale.
#[local] Existing Instance toy_locale_laws.

Definition toy_digest : string := cd_planDigest toy_plan.

Definition toy_move (from : DeliveryState) (sequence : Z) (to : DeliveryState) (key at_ : string) : DeliveryTransitionInput := {|
  dt_deliveryId := "delivery-1"; dt_planDigest := toy_digest; dt_generation := 1; dt_expectedState := from;
  dt_expectedSequence := sequence; dt_nextState := to; dt_phase := "phase"; dt_kind := "kind"; dt_message := "moved";
  dt_idempotencyKey := key; dt_occurredAt := at_; dt_deploymentId := Some "deployment-1"%string;
  dt_deploymentState := None; dt_childJobId := None; dt_artifactReference := None; dt_receiptId := None
|}.

Definition toy_lease (lease at_ expires : string) : LeaseRequest := {|
  lr_deliveryId := "delivery-1"; lr_planDigest := toy_digest; lr_generation := 1; lr_leaseId := lease;
  lr_holder := "controller"; lr_at := at_; lr_expiresAt := expires
|}.

Definition toy_job (offset : Z) (terminal : bool) : DeliveryChildJobReference := {|
  cj_phase := "build"; cj_jobId := "job-1"; cj_resultDigest := None; cj_receiptId := None; cj_stdoutOffset := offset;
  cj_stderrOffset := 0; cj_terminal := terminal
|}.

Definition toy_first : DeliveryTransitionInput := toy_move PLANNED 0 SOURCE_VERIFIED "key-00001" "3000".
Definition toy_last : DeliveryTransitionInput := toy_move SOURCE_VERIFIED 1 FAILED "key-00002" "4000".

(** A delivery with a controller, a child job and two transitions, the last one terminal. *)
Definition toy_begin : list op := [op_deployment "deployment-1"; op_createRun (plan_doc toy_plan) 1 "2000"].
Definition toy_middle : list op :=
  toy_begin ++ [op_acquire (toy_lease "lease-1" "2500" "2600"); op_recordChildJob "delivery-1" toy_digest 1 (toy_job 5 false);
                op_transition toy_first].
Definition toy_trace : list op := toy_middle ++ [op_transition toy_last].
Abbreviation toy_tables trace := (run trace (new_tables [] [])).

Definition no_run : RunRow := {|
  rn_deliveryId := ""; rn_planDigest := ""; rn_generation := 0; rn_state := UNKNOWN; rn_stateSequence := 0;
  rn_deploymentId := None; rn_deploymentState := None; rn_lease := None; rn_terminal := false; rn_recordDigest := "";
  rn_createdAt := ""; rn_updatedAt := ""; rn_expiresAt := ""
|}.
Definition toy_run (trace : list op) : RunRow := default no_run (find_run "delivery-1" (toy_tables trace)).

Lemma toy_run_in trace : bool_decide (find_run "delivery-1" (toy_tables trace) <> None) = true ->
  toy_run trace ∈ delivery_runs (toy_tables trace).
Proof.
  intros H%bool_decide_eq_true. unfold toy_run. destruct (find_run _ _) as [r|] eqn:E; [|done].
  exact (proj1 (find_run_elem _ _ _ E)).
Qed.

Lemma toy_intents : NoDup (List.map in_key []).
Proof. apply NoDup_nil_2. Qed.

Lemma toy_trace_in : toy_run toy_trace ∈ delivery_runs (toy_tables toy_trace).
Proof. apply toy_run_in. vm_compute. exact eq_refl. Qed.

Lemma run_is_projection_witness :
  projects (toy_run toy_trace) (events_of (rn_deliveryId (toy_run toy_trace)) (toy_tables toy_trace)) /\
  List.map (fun e => de_state (er_event e)) (events_of "delivery-1" (toy_tables toy_trace)) = [SOURCE_VERIFIED; FAILED].
Proof.
  split; [|vm_compute; exact eq_refl].
  exact (proj2 (run_is_projection [] [] toy_trace (toy_run toy_trace) toy_intents toy_trace_in)).
Defined.

Lemma toy_middle_in : toy_run toy_middle ∈ delivery_runs (toy_tables toy_middle).
Proof. apply toy_run_in. vm_compute. exact eq_refl. Qed.

Lemma lease_pointer_exact_witness :
  exists active, getActiveControllerLease (rn_deliveryId (toy_run toy_middle)) (toy_tables toy_middle) =
                   (Ok active, toy_tables toy_middle) /\
    rn_lease (toy_run toy_middle) = option_map le_leaseId active.
Proof.
  destruct (lease_pointer_exact [] [] toy_middle (toy_run toy_middle) toy_intents toy_middle_in) as (a & H1 & H2 & _).
  exists a. exact (conj H1 H2).
Defined.

Lemma toy_first_done : is_ok (fst (transition toy_first (toy_tables toy_begin))) = true.
Proof. vm_compute. exact eq_refl. Qed.

Lemma delivery_transition_once_witness :
  exists r s1, transition toy_first (toy_tables toy_begin) = (Ok r, s1) /\
    transition toy_first (run [op_transition toy_last] s1) = (Ok (replayed r), run [op_transition toy_last] s1).
Proof.
  destruct (ok_result _ _ toy_first_done) as (r & s1 & H). exists r, s1.
  exact (conj H (proj1 (delivery_transition_once [] [] toy_begin [op_transition toy_last] toy_first r s1 toy_intents H))).
Defined.

Lemma toy_trace_terminal : rn_terminal (toy_run toy_trace) = true.
Proof. vm_compute. exact eq_refl. Qed.

Lemma terminal_delivery_final_witness :
  let s2 := run [op_transition (toy_move FAILED 2 BUILDING "key-00003" "5000")] (toy_tables toy_trace) in
  events_of (rn_deliveryId (toy_run toy_trace)) s2 = events_of (rn_deliveryId (toy_run toy_trace)) (toy_tables toy_trace).
Proof.
  exact (proj1 (proj2 (terminal_delivery_final [] [] toy_trace [op_transition (toy_move FAILED 2 BUILDING "key-00003" "5000")]
    (toy_run toy_trace) toy_intents toy_trace_in toy_trace_terminal))).
Defined.

Lemma toy_created : is_ok (fst (createRun (plan_doc toy_plan) 1 "2000" (toy_tables []))) = true.
Proof. vm_compute. exact eq_refl. Qed.

Lemma created_plan_reads_back_witness :
  exists record s1 plan stored, createRun (plan_doc toy_plan) 1 "2000" (toy_tables []) = (Ok record, s1) /\
    canonicalPlan (plan_doc toy_plan) = Ok plan /\ getPlan (pi_deliveryId (cd_input plan)) s1 = (Ok (Some stored), s1).
Proof.
  destruct (ok_result _ _ toy_created) as (record & s1 & H). exists record, s1.
  destruct (created_plan_reads_back [] [] [] [] _ _ _ _ _ toy_intents H) as (plan & stored & now & H1 & H2 & _).
  exists plan, stored. exact (conj H (conj H1 H2)).
Defined.

Lemma event_pages_witness :
  listEvents (rn_deliveryId (toy_run toy_trace)) 1 1 (toy_tables toy_trace) =
    (Ok {| pg_offset := 1;
           pg_items := take 1 (drop 1 (List.map er_event (events_of (rn_deliveryId (toy_run toy_trace)) (toy_tables toy_trace))));
           pg_nextOffset := 1 + Z.of_nat (length (take 1 (drop 1 (List.map er_event
             (events_of (rn_deliveryId (toy_run toy_trace)) (toy_tables toy_trace)))))) |}, toy_tables toy_trace).
Proof.
  assert (Hl : (1 <= 1 <= 200)%nat) by lia.
  exact (event_pages [] [] toy_trace (toy_run toy_trace) 1 1 toy_intents toy_trace_in eq_refl Hl).
Defined.

Lemma toy_found trace : bool_decide (find_run "delivery-1" (toy_tables trace) <> None) = true ->
  find_run "delivery-1" (toy_tables trace) = Some (toy_run trace).
Proof. intros H%bool_decide_eq_true. unfold toy_run. by destruct (find_run _ _). Qed.

Lemma toy_begin_found : find_run (dt_deliveryId toy_first) (toy_tables toy_begin) = Some (toy_run toy_begin).
Proof. apply toy_found. vm_compute. exact eq_refl. Qed.

Lemma toy_first_valid : validateTransition toy_first = Ok tt.
Proof. vm_compute. exact eq_refl. Qed.

Lemma toy_first_new : prior_event toy_first (toy_tables toy_begin) = None.
Proof. vm_compute. exact eq_refl. Qed.

Lemma transition_outcome_witness :
  exists plan, is_canonical plan /\ cd_planDigest plan = rn_planDigest (toy_run toy_begin) /\
    check_transition toy_first (run_record (toy_run toy_begin) (cd_input plan) (toy_tables toy_begin)) = Ok tt.
Proof.
  destruct (transition_outcome [] [] toy_begin toy_first (toy_run toy_begin) toy_intents toy_begin_found toy_first_valid
              toy_first_new) as (plan & H1 & H2 & H). exists plan. split; [exact H1|]. split; [exact H2|].
  destruct (ok_result _ _ toy_first_done) as (r & s1 & E). cbv zeta in H. rewrite H in E.
  destruct (check_transition _ _) as [[]|e]; [reflexivity|discriminate E].
Defined.

Abbreviation toy_reserve s := (reserveIntent "intent-0001" (toy_sha "request") "baby.delivery.plan" "delivery-1" "2000" s).
Abbreviation toy_complete s := (completeIntent "intent-0001" (toy_sha "request") "delivery-1" (JStr "done") "2001" s).

Lemma toy_reserved :
  match fst (toy_reserve (toy_tables toy_begin)) with Ok di_reserved => true | _ => false end = true.
Proof. vm_compute. exact eq_refl. Qed.

Lemma toy_completed : is_ok (fst (toy_complete (run [] (snd (toy_reserve (toy_tables toy_begin)))))) = true.
Proof. vm_compute. exact eq_refl. Qed.

Lemma delivery_intent_answered_witness :
  exists s2 digest text, snd (toy_complete (run [] (snd (toy_reserve (toy_tables toy_begin))))) = s2 /\
    toy_reserve s2 = (Ok (di_completed digest text), s2).
Proof.
  pose proof toy_reserved as H1. pose proof toy_completed as H2.
  destruct (toy_reserve (toy_tables toy_begin)) as [[[]|] s1] eqn:E1; try discriminate H1. cbn [snd] in H2 |- *.
  destruct (ok_result _ _ H2) as (digest & s2 & E2). exists s2, digest.
  destruct (proj1 (delivery_intent_answered [] [] toy_begin [] [] "intent-0001" (toy_sha "request") "baby.delivery.plan"
    "delivery-1" "2000" "2001" digest (JStr "done") s1 s2 toy_intents E1 E2)) as (text & _ & H).
  exists text. split; [by rewrite E2|exact H].
Defined.

Lemma toy_takeover :
  match active_lease "delivery-1" (toy_tables toy_middle) with
  | Some old => (le_leaseId old !== "lease-2"%string) &&
      is_ok (fst (acquireControllerLease (toy_lease "lease-2" "2700" "2800") (toy_tables toy_middle)))
  | None => false
  end = true.
Proof. vm_compute. exact eq_refl. Qed.

Lemma lease_takeover_fences_witness :
  exists old s1 now, active_lease "delivery-1" (toy_tables toy_middle) = Some old /\
    lease_of "delivery-1" (le_leaseId old) s1 = Some now /\ le_status now = lease_expired.
Proof.
  pose proof toy_takeover as H. destruct (active_lease "delivery-1" (toy_tables toy_middle)) as [old|] eqn:Ha; [|discriminate H].
  apply andb_true_iff in H as [Hne H]. apply negb_true_iff, bool_decide_eq_false in Hne.
  destruct (ok_result _ _ H) as (new & s1 & E).
  destruct (lease_takeover_fences [] [] toy_middle [] (toy_lease "lease-2" "2700" "2800") old new s1 toy_intents Ha Hne E)
    as (_ & (now & Hnow) & _). exists old, s1, now. exact (conj eq_refl Hnow).
Defined.

Definition toy_row : ChildJobRow := default {| cr_deliveryId := ""; cr_generation := 0; cr_reference := toy_job 0 false;
  cr_recordDigest := "" |} (head (delivery_child_jobs (toy_tables toy_middle))).

Lemma toy_row_in : toy_row ∈ delivery_child_jobs (toy_tables toy_middle).
Proof.
  assert (H : bool_decide (delivery_child_jobs (toy_tables toy_middle) <> []) = true) by (vm_compute; exact eq_refl).
  apply bool_decide_eq_true in H. unfold toy_row. destruct (delivery_child_jobs _); [done|left].
Qed.

Lemma child_job_progress_witness :
  exists r', find_job (cr_deliveryId toy_row) (cj_jobId (cr_reference toy_row))
      (run [op_recordChildJob "delivery-1" toy_digest 1 (toy_job 9 true)] (toy_tables toy_middle)) = Some r' /\
    job_continues (cr_reference toy_row) (cr_reference r').
Proof.
  exact (child_job_progress [] [] toy_middle [op_recordChildJob "delivery-1" toy_digest 1 (toy_job 9 true)] toy_row
    toy_intents toy_row_in).
Defined.
End Witnesses.
