(* ===== verification/DeliveryService.v ===== *)
(** * The delivery operations ([src/delivery/service.ts])

    The class [AutomatedDeliveryService] over the delivery ledger: every operation from the JSON body
    of an authenticated request to its JSON result.  The theorems: an operation makes one step of the
    abstract ledger or changes nothing; a plan is accepted only for this host and with the digest its
    owner authorized; a production process refuses to advance a delivery.  Two more show what the
    code does where its contract says otherwise: a retried operation is refused and not replayed, and
    the cancellation of a delivery that has moved, with a body of the contract, always fails. *)

From S2P Require Import Prelude Bytes Json Platform Config Canonical StateMachine DeliveryPlan DeliveryDb DeliveryLedger.

#[global] Open Scope Z_scope.

(** The code of the [OperationError] the service throws.
    Source: src/delivery/service.ts:45-49 (mapped) *)
Inductive ServiceError :=
| invalid_request | resource_unavailable | unknown_operation | operation_failed | delivery_failed (e : DeliveryError).

#[global] Instance ServiceError_eq_dec : EqDecision ServiceError.
Proof. solve_decision. Defined.

(** What is not a [DeliveryError] is reported as a failed operation.
    Source: src/delivery/service.ts:45-49 (mapped) *)
Definition mapped (e : DeliveryError) : ServiceError :=
  match e with
  | sqlite_constraint | delivery_type_error => operation_failed
  | _ => delivery_failed e
  end.

Abbreviation SR A := (result ServiceError A).
Abbreviation SM A := (M Tables ServiceError A).

(** A call of the ledger, or of the plan functions, under the [try] of [execute]. *)
Definition deliveries {A} (m : LM A) : SM A := fun s =>
  match m s with (Ok a, s') => (Ok a, s') | (Err e, s') => (Err (mapped e), s') end.

(** ** Members of the body *)

(** Source: src/delivery/service.ts:23-28 (object) *)
Definition object (value : json) : SR (props json) :=
  match value with JObj kvs => Ok kvs | _ => Err invalid_request end.

(** Source: src/delivery/service.ts:30-35 (text) *)
Definition required_text (value : json) : SR string :=
  match value with JStr s => _ ← require (truthy_str s) invalid_request; Ok s | _ => Err invalid_request end.

(** Source: src/delivery/service.ts:37-43 (integer) *)
Definition integer_or (value : json) (fallback : Z) : SR Z :=
  match value with
  | JUndefined => Ok fallback
  | JNum z => _ ← require (isSafeInteger z && (0 <=? z)) invalid_request; Ok z
  | _ => Err invalid_request
  end.

(** [typeof value === 'string' ? value : undefined], and the test of the result for truth. *)
Definition optional_text (value : json) : option string :=
  match value with JStr s => if truthy_str s then Some s else None | _ => None end.

Definition clamp_limit (z : Z) : Z := Z.min (Z.max z 1) 200.

(** Source: src/delivery/types.ts:8-37 (DELIVERY_STATES) *)
Definition DELIVERY_STATES : list DeliveryState :=
  [PLANNED; SOURCE_VERIFIED; SOURCE_MATERIALIZED; BUILDING; TESTING; CERTIFYING; ARTIFACT_FINALIZED; STAGING;
   CANDIDATE_VERIFIED; ROLLBACK_ARMED; ACTIVATING; ACCEPTING; SOAKING; SUCCEEDED; REJECTED; FAILED; CANCELLED_PRE_ARM;
   ROLLBACK_REQUESTED; ROLLING_BACK; ROLLED_BACK; ROLLBACK_FAILED; REPAIR_REQUIRED; MANUAL_RECOVERY_REQUIRED; PARTIAL;
   AMBIGUOUS; UNKNOWN].

(** Source: src/delivery/persistence.ts:396-400 (assertDeliveryState) *)
Definition assertDeliveryState (value : string) : DR DeliveryState :=
  match List.find (fun q => delivery_state_name q === value) DELIVERY_STATES with
  | Some q => Ok q
  | None => Err delivery_unknown
  end.

Section Service.
Context {C : Crypto} {D : Dates} {Lo : Locale}.

(** [host] is the machine, [fixtureMode] the mode of the process, [now] the reading of the clock. *)
Context (host : Host) (fixtureMode : bool) (now : string).

(** ** Results *)

(** Source: src/delivery/service.ts:172-175 (result) *)
Definition service_result (run : DeliveryRunRecord) (requestId : option string) : props json :=
  let body := [("run", JObj (run_members run)); ("resultDigest", JStr (sha256Hex (canonical_obj (run_members run))));
               ("receiptBinding", JObj [("receiptVersion", JStr "2.0.0"); ("required", JBool true)])]%string in
  match requestId with
  | Some id => if truthy_str id then body ++ [("requestId"%string, JStr id)] else body
  | None => body
  end.

Definition page_members {A} (id : string) (members : A -> props json) (page : Page A) : props json :=
  [("deliveryId", JStr id); ("offset", JNum (pg_offset page)); ("nextOffset", JNum (pg_nextOffset page));
   ("items", JArr (List.map (fun x => JObj (members x)) (pg_items page)))]%string.

(** Source: src/delivery/service.ts:166-170 (required) *)
Definition required (id : string) : SM DeliveryRunRecord := deliveries (getRunRequired id).

(** ** The operations *)

(** Source: src/delivery/service.ts:82-99 (plan) *)
Definition plan_operation (requestId : string) (body : props json) : SM (props json) :=
  kvs ← lift (object (prop "plan" body));
  plan ← deliveries (lift (canonicalizeDeliveryPlan (JObj kvs)));
  authorized ← lift (required_text (prop "authorizedPlanDigest" body));
  deliveries (lift (assertAuthorizedPlan plan authorized));;
  let id := getMachineIdSha256 (machine_id host) in
  let machineId := if truthy_str id then id else "unknown"%string in
  deliveries (guardM (pi_targetHostname (cd_input plan) === hostname host) delivery_wrong_host);;
  deliveries (guardM (pi_targetMachineIdentity (cd_input plan) === machineId) delivery_wrong_machine);;
  existing ← deliveries (getRun (pi_deliveryId (cd_input plan)));
  match existing with
  | Some run =>
      deliveries (guardM (dr_planDigest run === cd_planDigest plan) delivery_plan_changed);;
      mret (service_result run (Some requestId))
  | None =>
      run ← deliveries (createRun (plan_doc plan) 1 now);
      mret (service_result run (Some requestId))
  end.

(** Source: src/delivery/service.ts:177-186 (assertFixtureExecution) *)
Definition assertFixtureExecution : SM unit := guardM fixtureMode resource_unavailable.

(** The transition [advance] asks for.
    Source: src/delivery/service.ts:113-125 (advance) *)
Definition advance_input (requestId : string) (body : props json) (deliveryId planDigest : string) (sequence : Z)
    (current : DeliveryRunRecord) (next : DeliveryState) (phase kind : string) : DeliveryTransitionInput := {|
  dt_deliveryId := deliveryId; dt_planDigest := planDigest; dt_generation := dr_generation current;
  dt_expectedState := dr_state current; dt_expectedSequence := sequence; dt_nextState := next; dt_phase := phase;
  dt_kind := kind; dt_message := match prop "reason" body with JStr s => s | _ => kind +:+ " accepted" end;
  dt_idempotencyKey := requestId; dt_occurredAt := now; dt_deploymentId := None; dt_deploymentState := None;
  dt_childJobId := None; dt_artifactReference := None; dt_receiptId := None
|}.

(** Source: src/delivery/service.ts:101-127 (advance) *)
Definition advance (requestId : string) (body : props json) (next : DeliveryState) (phase kind : string)
    : SM (props json) :=
  assertFixtureExecution;;
  deliveryId ← lift (required_text (prop "deliveryId" body));
  planDigest ← lift (required_text (prop "planDigest" body));
  sequence ← lift (integer_or (prop "expectedSequence" body) 0);
  current ← required deliveryId;
  result ← deliveries (transition (advance_input requestId body deliveryId planDigest sequence current next phase kind));
  mret (service_result (tr_run result) (Some requestId)).

(** Source: src/delivery/service.ts:129-135 (list) *)
Definition list_operation (body : props json) : SM (props json) :=
  offset ← lift (integer_or (prop "offset" body) 0);
  limit ← lift (integer_or (prop "limit" body) 50);
  state ← match optional_text (prop "state" body) with
          | None => mret None
          | Some name => state ← deliveries (lift (assertDeliveryState name)); mret (Some state)
          end;
  items ← deliveries (listRuns (Some offset) (Some (clamp_limit limit)) state);
  mret [("offset", JNum offset); ("nextOffset", JNum (offset + Z.of_nat (length items)));
        ("items", JArr (List.map (fun r => JObj (run_members r)) items))]%string.

(** Source: src/delivery/service.ts:137-143 (events) *)
Definition events_operation (body : props json) : SM (props json) :=
  deliveryId ← lift (required_text (prop "deliveryId" body));
  offset ← lift (integer_or (prop "offset" body) 0);
  limit ← lift (integer_or (prop "limit" body) 50);
  page ← deliveries (listEvents deliveryId offset (clamp_limit limit));
  mret (page_members deliveryId event_members page).

(** Source: src/delivery/service.ts:145-152 (evidence) *)
Definition evidence_operation (body : props json) : SM (props json) :=
  deliveryId ← lift (required_text (prop "deliveryId" body));
  offset ← lift (integer_or (prop "offset" body) 0);
  limit ← lift (integer_or (prop "limit" body) 50);
  page ← deliveries (listEvidence deliveryId (optional_text (prop "kind" body)) (Some offset) (Some (clamp_limit limit)));
  mret (page_members deliveryId evidence_members page).

(** Source: src/delivery/service.ts:154-164 (verify) *)
Definition verify_operation (body : props json) : SM (props json) :=
  deliveryId ← lift (required_text (prop "deliveryId" body));
  run ← required deliveryId;
  stored ← deliveries (getPlan (dr_deliveryId run));
  plan ← match stored with
         | Some plan => if cd_planDigest plan === dr_planDigest run then mret plan
                        else throw (delivery_failed delivery_plan_changed)
         | None => throw (delivery_failed delivery_plan_changed)
         end;
  events ← deliveries (listEvents (dr_deliveryId run) 0 200);
  evidence ← deliveries (listEvidence (dr_deliveryId run) None (Some 0) (Some 200));
  let digest := sha256Hex (canonical_obj
    [("run", JObj (run_members run)); ("plan", JObj (plan_doc plan));
     ("events", JArr (List.map (fun e => JObj (event_members e)) (pg_items events)));
     ("evidence", JArr (List.map (fun e => JObj (evidence_members e)) (pg_items evidence)))]%string) in
  mret (service_result run None ++
        [("verification", JObj [("status", JStr "verified"); ("verificationDigest", JStr digest)])]%string).

(** Source: src/delivery/service.ts:67-67 (execute) *)
Definition get_operation (body : props json) : SM (props json) :=
  deliveryId ← lift (required_text (prop "deliveryId" body));
  run ← required deliveryId;
  mret (service_result run None).

(** Source: src/delivery/service.ts:62-80 (execute) *)
Definition execute (operation requestId : string) (raw : props json) : SM (props json) :=
  if operation === "baby.delivery.plan"%string then plan_operation requestId raw
  else if operation === "baby.delivery.execute"%string then
    advance requestId raw SOURCE_VERIFIED "source" "source_verified"
  else if operation === "baby.delivery.get"%string then get_operation raw
  else if operation === "baby.delivery.list"%string then list_operation raw
  else if operation === "baby.delivery.events"%string then events_operation raw
  else if operation === "baby.delivery.verify"%string then verify_operation raw
  else if operation === "baby.delivery.cancel"%string then
    advance requestId raw CANCELLED_PRE_ARM "cancel" "cancelled_pre_arm"
  else if operation === "baby.delivery.rollback"%string then
    advance requestId raw ROLLBACK_REQUESTED "rollback" "rollback_requested"
  else if operation === "baby.delivery.repair"%string then
    advance requestId raw REPAIR_REQUIRED "repair" "repair_required"
  else if operation === "baby.delivery.evidence.get"%string then evidence_operation raw
  else throw unknown_operation.
End Service.

(** ** Calls of the ledger *)

Lemma deliveries_Ok {A} (m : LM A) s a s' : deliveries m s = (Ok a, s') -> m s = (Ok a, s').
Proof. unfold deliveries. destruct (m s) as [[?|?] ?]; [by intros [= -> ->]|done]. Qed.

Lemma deliveries_reads {A} (m : LM A) : respects eq m -> respects eq (deliveries m).
Proof. intros Hm s. unfold deliveries. rewrite (Hm s) at 1. by destruct (m s) as [[?|?] ?]. Qed.

(** [one_op m]: [m] does at most one operation of the ledger, and none when it fails. *)
Section Calls.
Context {C : Crypto} {D : Dates} {Lo : Locale}.

Definition one_op {A} (m : SM A) : Prop := forall s, Inv s ->
  match m s with
  | (Ok _, s') => exists l, (length l <= 1)%nat /\ s' = run l s
  | (Err _, s') => s' = s
  end.

Lemma one_op_reads {A} (m : SM A) : respects eq m -> one_op m.
Proof using. intros Hm s _. specialize (Hm s). destruct (m s) as [[a|e] s']; cbn in Hm; subst; [by exists []; cbn; eauto|done]. Qed.

Lemma one_op_bind {A B} (m : SM A) (k : A -> SM B) : respects eq m -> (forall a, one_op (k a)) -> one_op (m ≫= k).
Proof using.
  intros Hm Hk s HI. rewrite bindM_eq. specialize (Hm s). destruct (m s) as [[a|e] s1]; cbn in Hm; subst; [by apply Hk|done].
Qed.

(** An operation of the ledger, and the rest of the code that only reads. *)
Lemma one_op_call {A B} (m : LM A) (k : A -> SM B) (o : op) :
  (forall s, exec s o = snd (m s)) -> atomic m -> (forall a s, exists b, k a s = (Ok b, s)) ->
  one_op (deliveries m ≫= k).
Proof using.
  intros Ho Hm Hk s HI. rewrite bindM_eq. unfold deliveries. specialize (Ho s).
  destruct (m s) as [[a|e] s1] eqn:E; cbn in Ho.
  - destruct (Hk a s1) as [b ->]. exists [o]. split; [cbn; lia|]. by cbn.
  - by apply Hm in E.
Qed.
End Calls.

#[export] Hint Resolve deliveries_reads : respects.

Section Theorems.
Context {C : Crypto} {D : Dates} {Lo : Locale} {LL : LocaleLaws Lo}.

#[local] Hint Resolve getRun_reads getPlan_reads getRunRequired_reads : respects.

Lemma lift_reads {A} (r : DR A) : respects eq (lift r : LM A).
Proof using. by intros s. Qed.
Lemma guardM_reads (b : bool) (e : DeliveryError) : respects eq (guardM b e : LM unit).
Proof using. by intros s. Qed.
#[local] Hint Resolve lift_reads guardM_reads : respects.

Lemma required_reads id : respects eq (required id).
Proof using. unfold required. auto with respects. Qed.
#[local] Hint Resolve required_reads : respects.

Lemma get_runs_reads ids : respects eq (get_runs ids).
Proof using. induction ids as [|id l IH]; cbn [get_runs]; respects_steps. Qed.
#[local] Hint Resolve get_runs_reads : respects.

Lemma listRuns_reads o l q : respects eq (listRuns o l q).
Proof using. unfold listRuns. respects_steps. Qed.
Lemma listEvents_reads id o l : respects eq (listEvents id o l).
Proof using. unfold listEvents. respects_steps. Qed.
Lemma listEvidence_reads id k o l : respects eq (listEvidence id k o l).
Proof using. unfold listEvidence. respects_steps. Qed.
#[local] Hint Resolve listRuns_reads listEvents_reads listEvidence_reads : respects.

Lemma transition_atomic input : atomic (transition input).
Proof using. unfold transition. atomic_steps. Qed.
Lemma createRun_atomic v g t : atomic (createRun v g t).
Proof using. unfold createRun. atomic_steps. Qed.

Lemma advance_one_op fixtureMode now rid raw next phase kind : one_op (advance fixtureMode now rid raw next phase kind).
Proof using.
  unfold advance, assertFixtureExecution. repeat (apply one_op_bind; [solve [respects_steps]|intros ?]).
  eapply (one_op_call _ _ (op_transition _)); [done|apply transition_atomic|]. intros r s. by eexists.
Qed.

Lemma plan_one_op host now rid raw : one_op (plan_operation host now rid raw).
Proof using.
  unfold plan_operation. repeat (apply one_op_bind; [solve [respects_steps]|intros ?]).
  destruct a5 as [run|]; [apply one_op_reads; respects_steps|].
  eapply (one_op_call _ _ (op_createRun _ _ _)); [done|apply createRun_atomic|]. intros r s. by eexists.
Qed.

(** The operations that only read. *)
Definition read_operations : list string :=
  ["baby.delivery.get"; "baby.delivery.list"; "baby.delivery.events"; "baby.delivery.verify";
   "baby.delivery.evidence.get"]%string.

(** The operations that move a delivery, with the state, the phase and the kind of their transition. *)
Definition moves : list (string * (DeliveryState * string * string)) :=
  [("baby.delivery.execute", (SOURCE_VERIFIED, "source", "source_verified"));
   ("baby.delivery.cancel", (CANCELLED_PRE_ARM, "cancel", "cancelled_pre_arm"));
   ("baby.delivery.rollback", (ROLLBACK_REQUESTED, "rollback", "rollback_requested"));
   ("baby.delivery.repair", (REPAIR_REQUIRED, "repair", "repair_required"))]%string.

Lemma execute_move host fixtureMode now operation next phase kind rid raw :
  (operation, (next, phase, kind)) ∈ moves ->
  execute host fixtureMode now operation rid raw = advance fixtureMode now rid raw next phase kind.
Proof using.
  unfold moves. rewrite !elem_of_cons, elem_of_nil. intros H. destruct_or! H; try done; injection H as -> -> -> ->; reflexivity.
Qed.

Lemma list_operation_reads raw : respects eq (list_operation raw).
Proof using. unfold list_operation. respects_steps. Qed.

Lemma read_operation_reads host fixtureMode now operation rid raw :
  operation ∈ read_operations -> respects eq (execute host fixtureMode now operation rid raw).
Proof using.
  unfold read_operations. rewrite !elem_of_cons, elem_of_nil. intros H. destruct_or! H; subst; try done;
    unfold execute; repeat (rewrite bool_decide_eq_false_2 by done); rewrite bool_decide_eq_true_2 by done.
  - unfold get_operation. respects_steps.
  - apply list_operation_reads.
  - unfold events_operation. respects_steps.
  - unfold verify_operation. respects_steps.
  - unfold evidence_operation. respects_steps.
Qed.

Lemma execute_one_op host fixtureMode now operation rid raw : one_op (execute host fixtureMode now operation rid raw).
Proof using.
  unfold execute. repeat (case_bool_decide; [first [apply advance_one_op|apply plan_one_op|apply one_op_reads]|]).
  - unfold get_operation. respects_steps.
  - apply list_operation_reads.
  - unfold events_operation. respects_steps.
  - unfold verify_operation. respects_steps.
  - unfold evidence_operation. respects_steps.
  - apply one_op_reads. by intros s.
Qed.

(** C31: the service is a client of the ledger.  After any operations on a new database, an operation
    of the service does at most one operation of the ledger; one that fails, and one that only reads,
    leave the tables as they were. *)
Theorem service_refines_ledger (deps : list string) (intents : list IntentRow) (trace : list op) (host : Host)
    (fixtureMode : bool) (now operation requestId : string) (raw : props json) :
  NoDup (List.map in_key intents) ->
  let s := run trace (new_tables deps intents) in
  let (r, s') := execute host fixtureMode now operation requestId raw s in
  (exists l, (length l <= 1)%nat /\ s' = run (trace ++ l) (new_tables deps intents)) /\
  (is_ok r = false \/ operation ∈ read_operations -> s' = s).
Proof using.
  intros Hn s. assert (HI : Inv s) by by apply run_Inv, Inv_new.
  pose proof (execute_one_op host fixtureMode now operation requestId raw s HI) as H.
  destruct (execute host fixtureMode now operation requestId raw s) as [[a|e] s'] eqn:E.
  - destruct H as (l & Hl & ->). split; [exists l; split; [done|]; unfold run; by rewrite fold_left_app|].
    intros [?|Hr]; [done|]. pose proof (read_operation_reads host fixtureMode now _ requestId raw Hr s) as Hs. by rewrite E in Hs.
  - subst s'. split; [|done]. exists []. rewrite app_nil_r. split; [cbn; lia|done].
Qed.

(** a production process does not move a delivery: without the fixture mode the four operations
    that move one are refused as unavailable, and change nothing. *)
Theorem production_refuses (host : Host) (now operation requestId : string) (next : DeliveryState) (phase kind : string)
    (raw : props json) (s : Tables) :
  (operation, (next, phase, kind)) ∈ moves ->
  execute host false now operation requestId raw s = (Err resource_unavailable, s).
Proof using. intros H. by rewrite (execute_move _ _ _ _ _ _ _ _ _ H). Qed.

(** C30: a plan is accepted as it was authorized.  When [baby.delivery.plan] succeeds, the plan in the
    body is canonical with the digest that its owner authorized, it targets this host and this
    machine, and the run that is answered is in the ledger under the identifier of the plan and has
    that digest. *)
Theorem planned_is_authorized (deps : list string) (intents : list IntentRow) (trace : list op) (host : Host)
    (fixtureMode : bool) (now requestId : string) (raw out : props json) (s1 : Tables) :
  NoDup (List.map in_key intents) ->
  execute host fixtureMode now "baby.delivery.plan" requestId raw (run trace (new_tables deps intents)) = (Ok out, s1) ->
  exists plan record,
    canonicalizeDeliveryPlan (prop "plan" raw) = Ok plan /\
    prop "authorizedPlanDigest" raw = JStr (cd_planDigest plan) /\
    pi_targetHostname (cd_input plan) = hostname host /\
    (let id := getMachineIdSha256 (machine_id host) in
     pi_targetMachineIdentity (cd_input plan) = if truthy_str id then id else "unknown"%string) /\
    getRun (pi_deliveryId (cd_input plan)) s1 = (Ok (Some record), s1) /\
    dr_planDigest record = cd_planDigest plan /\ prop "run" out = JObj (run_members record).
Proof using LL.
  intros Hn H. change (execute host fixtureMode now "baby.delivery.plan" requestId raw) with
    (plan_operation host now requestId raw) in H.
  assert (HI : Inv (run trace (new_tables deps intents))) by by apply run_Inv, Inv_new.
  revert H HI. generalize (run trace (new_tables deps intents)). intros s H HI. unfold plan_operation in H. m_inv.
  repeat match goal with H : deliveries _ _ = (Ok _, _) |- _ => apply deliveries_Ok in H end. m_inv.
  destruct (prop "plan" raw) as [| | | | | |kvs] eqn:Hplan; try discriminate. cbn [object] in *. result_inv.
  unfold required_text in *. destruct (prop "authorizedPlanDigest" raw) eqn:Hauth; try discriminate. result_inv.
  unfold assertAuthorizedPlan in *. result_inv. bool_inv.
  match goal with H : canonicalizeDeliveryPlan _ = Ok ?p |- _ => exists p; assert (Hcan : is_canonical p) by by eexists end.
  assert (Hout : forall run, prop "run" (service_result run (Some requestId)) = JObj (run_members run))
    by (intros run; unfold service_result; by destruct (truthy_str requestId)).
  match goal with H : (match ?x with _ => _ end) _ = _ |- _ => destruct x as [record|] end; m_inv;
    repeat match goal with H : deliveries _ _ = (Ok _, _) |- _ => apply deliveries_Ok in H end; m_inv.
  - match goal with H : getRun _ _ = _ |- _ => pose proof (reads_state _ _ _ _ (getRun_reads _) H) as ->; rename H into Hrun end.
    bool_inv. exists record. split_and!; try done; try congruence; apply Hout.
  - match goal with H : createRun _ _ _ _ = (Ok ?x, _) |- _ => exists x; apply createRun_Ok in H as (p & row & q & Hp & _ & -> & Hd & _ & Hg) end.
    rewrite (canonicalPlan_again _ (plan_doc _) Hcan (reorders_refl _)) in Hp. injection Hp as <-.
    split_and!; try done; try congruence; apply Hout.
Qed.

(** *** The meaning of a transition covers its time *)

Lemma plain_null_str o : plain (null_str o) = true.
Proof using. by destruct o. Qed.

Lemma semantic_plain input : plain (JObj (semantic_members input)) = true.
Proof using.
  apply plain_literal; [reflexivity|]. unfold semantic_members.
  repeat (apply List.Forall_cons || apply List.Forall_nil); try reflexivity; apply plain_null_str.
Qed.

Lemma semantic_time a b :
  canonical_obj (semantic_members a) = canonical_obj (semantic_members b) -> dt_occurredAt a = dt_occurredAt b.
Proof using.
  intros H%canonical_obj_inj; try apply semantic_plain.
  apply norm_sortKeys_members in H; [|apply semantic_plain|apply semantic_plain|reflexivity].
  pose proof (Forall2_lookup_lr _ _ _ 9 _ _ H eq_refl eq_refl) as E. cbn in E. by injection E.
Qed.

Lemma advance_Ok now rid raw next phase kind s out s1 :
  advance true now rid raw next phase kind s = (Ok out, s1) ->
  exists id planDigest sequence c r,
    required_text (prop "deliveryId" raw) = Ok id /\ required_text (prop "planDigest" raw) = Ok planDigest /\
    integer_or (prop "expectedSequence" raw) 0 = Ok sequence /\ getRunRequired id s = (Ok c, s) /\
    transition (advance_input now rid raw id planDigest sequence c next phase kind) s = (Ok r, s1).
Proof using.
  unfold advance, required. intros H. m_inv. unfold assertFixtureExecution in *. m_inv.
  repeat match goal with H : deliveries _ _ = (Ok _, _) |- _ => apply deliveries_Ok in H end.
  match goal with H : getRunRequired _ _ = (Ok ?c, _) |- _ =>
    pose proof (reads_state _ _ _ _ (getRunRequired_reads _) H) as ->; do 3 eexists; exists c end.
  eexists. by split_and!.
Qed.

Lemma advance_eq now rid raw next phase kind s id planDigest sequence c :
  required_text (prop "deliveryId" raw) = Ok id -> required_text (prop "planDigest" raw) = Ok planDigest ->
  integer_or (prop "expectedSequence" raw) 0 = Ok sequence -> getRunRequired id s = (Ok c, s) ->
  advance true now rid raw next phase kind s =
  match transition (advance_input now rid raw id planDigest sequence c next phase kind) s with
  | (Ok r, s') => (Ok (service_result (tr_run r) (Some rid)), s')
  | (Err e, s') => (Err (mapped e), s')
  end.
Proof using.
  intros H1 H2 H3 H4. unfold advance, assertFixtureExecution, required. rewrite bindM_eq. unfold guardM at 1, lift at 1.
  cbn [require]. rewrite bindM_eq. unfold lift at 1. rewrite H1, bindM_eq. unfold lift at 1. rewrite H2, bindM_eq.
  unfold lift at 1. rewrite H3, bindM_eq. unfold deliveries at 1. rewrite H4, bindM_eq. unfold deliveries at 1.
  by destruct (transition _ _) as [[r|e] s'].
Qed.

Lemma valid_later now now' rid raw id planDigest sequence c c' next phase kind :
  validateTransition (advance_input now rid raw id planDigest sequence c next phase kind) = Ok tt ->
  dr_generation c' = dr_generation c -> canonical_timestamp now' = true ->
  validateTransition (advance_input now' rid raw id planDigest sequence c' next phase kind) = Ok tt.
Proof using.
  unfold validateTransition, advance_input. cbn [dt_deliveryId dt_planDigest dt_generation dt_expectedSequence dt_phase
    dt_kind dt_message dt_idempotencyKey dt_occurredAt dt_deploymentId dt_childJobId dt_receiptId dt_artifactReference].
  intros H -> Ht. result_inv. unfold assertTimestamp. rewrite Ht.
  repeat match goal with
  | H : assertIdentifier _ = Ok _ |- _ => rewrite H; clear H
  | H : assertDigest _ = Ok _ |- _ => rewrite H; clear H
  | H : assertPositiveInteger _ = Ok _ |- _ => rewrite H; clear H
  | H : assertNonnegativeInteger _ = Ok _ |- _ => rewrite H; clear H
  | H : assertIdempotencyKey _ = Ok _ |- _ => rewrite H; clear H
  end.
  match goal with H : _ && _ = true |- _ => rewrite H end. reflexivity.
Qed.

(** a retry is refused.  The contract of the four operations that move a delivery promises a
    replay for the same request; but the service reads the clock and the current state anew and the
    ledger counts both as part of the meaning.  So when such an operation has succeeded, the same
    request with the same body at another time, after any operations in between, is an idempotency
    conflict (or its text and the first one are a collision of SHA-256). *)
Theorem retry_is_refused (deps : list string) (intents : list IntentRow) (before after : list op) (host : Host)
    (now now' operation requestId : string) (next : DeliveryState) (phase kind : string) (raw out : props json) (s1 : Tables) :
  NoDup (List.map in_key intents) -> (operation, (next, phase, kind)) ∈ moves ->
  let s := run before (new_tables deps intents) in
  execute host true now operation requestId raw s = (Ok out, s1) ->
  canonical_timestamp now' = true -> now' <> now ->
  let s2 := run after s1 in
  exists id planDigest sequence c c', getRunRequired id s = (Ok c, s) /\ getRunRequired id s2 = (Ok c', s2) /\
    let first := advance_input now requestId raw id planDigest sequence c next phase kind in
    let second := advance_input now' requestId raw id planDigest sequence c' next phase kind in
    execute host true now' operation requestId raw s2 = (Err (delivery_failed idempotency_conflict), s2) \/
    (canonical_obj (semantic_members first) <> canonical_obj (semantic_members second) /\
     sha256Hex (canonical_obj (semantic_members first)) = sha256Hex (canonical_obj (semantic_members second))).
Proof using LL.
  intros Hn Hmove s H Ht Hne s2. rewrite (execute_move _ _ _ _ _ _ _ _ _ Hmove) in H. rewrite (execute_move _ _ _ _ _ _ _ _ _ Hmove).
  assert (HI : Inv s) by by apply run_Inv, Inv_new.
  destruct (advance_Ok _ _ _ _ _ _ _ _ _ H) as (id & pd & seq & c & r & H1 & H2 & H3 & Hc & Htr).
  assert (Hst : step s s1) by (eapply transition_step; [apply HI|exact Htr]).
  assert (HI1 : Inv s1) by by eapply Inv_step. assert (HI2 : Inv s2) by by apply run_Inv.
  assert (Hcont : continues s s2) by (eapply continues_trans; [by apply step_continues|by apply run_trace_continues]).
  destruct (getRunRequired_Ok _ _ _ _ Hc) as (_ & _ & row & plan & Hf & Ec).
  destruct (co_run _ _ Hcont _ _ Hf) as (row' & Hf' & (_ & _ & Hgen & _) & _).
  destruct (find_run_elem _ _ _ Hf') as [Hin' Hid'].
  destruct (getRunRequired_row s2 row' HI2 Hin') as (plan' & _ & _ & Hc'). rewrite Hid' in Hc'.
  exists id, pd, seq, c, (run_record row' (cd_input plan') s2). split; [done|]. split; [done|]. cbv zeta.
  rewrite (advance_eq _ _ _ _ _ _ _ _ _ _ _ H1 H2 H3 Hc'). set (second := advance_input now' _ _ _ _ _ _ _ _ _).
  apply transition_recorded in Htr as (Hv & ev & Hp & Hs & _).
  apply (prior_event_later _ _ s2) in Hp; [|by apply run_trace_continues].
  rewrite (transition_prior second s2 ev); [|eapply valid_later; [exact Hv|by rewrite Ec|exact Ht]|exact Hp].
  unfold replay_event. rewrite Hs.
  destruct (decide (semantic_digest (advance_input now requestId raw id pd seq c next phase kind) = semantic_digest second)) as [E|E].
  - right. split; [intros Etext%semantic_time; by apply Hne|exact E].
  - left. by rewrite (bool_decide_eq_false_2 (semantic_digest _ = _) E).
Qed.

Lemma truthy_required t : truthy_str t = true -> required_text (JStr t) = Ok t.
Proof using. intros H. unfold required_text. by rewrite H. Qed.

Lemma truthy_identifier t : IDENTIFIER_PATTERN t = true -> truthy_str t = true.
Proof using. by destruct t. Qed.

Lemma truthy_digest t : DIGEST_PATTERN t = true -> truthy_str t = true.
Proof using. by destruct t. Qed.

(** the cancellation of the contract fails.  The input schemas of [baby.delivery.cancel] and
    [baby.delivery.rollback] have no [expectedSequence], for which the service then takes 0: a body of
    the contract, with the right plan, a good reason and a new request identifier, is refused with a
    state conflict for every delivery that has moved at all. *)
Theorem contract_cancel_conflicts `{!CryptoLaws C} (deps : list string) (intents : list IntentRow) (trace : list op)
    (host : Host) (now operation requestId reason : string) (r : RunRow) :
  NoDup (List.map in_key intents) -> operation ∈ ["baby.delivery.cancel"; "baby.delivery.rollback"]%string ->
  let s := run trace (new_tables deps intents) in
  r ∈ delivery_runs s -> rn_stateSequence r <> 0 ->
  IDEMPOTENCY_PATTERN requestId = true -> canonical_timestamp now = true ->
  (1 <= String.length reason <= 4096)%nat ->
  (forall e, e ∈ events_of (rn_deliveryId r) s -> er_idempotencyKey e <> requestId) ->
  execute host true now operation requestId
    [("deliveryId", JStr (rn_deliveryId r)); ("planDigest", JStr (rn_planDigest r)); ("reason", JStr reason)]%string s =
  (Err (delivery_failed delivery_state_conflict), s).
Proof using LL.
  intros Hn Hop s Hr Hseq Hrid Hnow Hreason Hkey. assert (HI : Inv s) by by apply run_Inv, Inv_new.
  assert (Hmove : exists next phase kind, (operation, (next, phase, kind)) ∈ moves /\ IDENTIFIER_PATTERN phase = true /\
                    IDENTIFIER_PATTERN kind = true).
  { rewrite !elem_of_cons, elem_of_nil in Hop. destruct_or! Hop; subst; try done;
      [exists CANCELLED_PRE_ARM, "cancel"%string, "cancelled_pre_arm"%string
      |exists ROLLBACK_REQUESTED, "rollback"%string, "rollback_requested"%string];
      (split; [apply list_elem_of_In; cbn; tauto|done]). }
  destruct Hmove as (next & phase & kind & Hmove & Hphase & Hkind).
  rewrite (execute_move _ _ _ _ _ _ _ _ _ Hmove). destruct (getRunRequired_row s r HI Hr) as (plan & Hcan & Hd & Hreq).
  destruct (inv_run _ HI _ Hr) as [(p & t & Hp1 & Hp2 & Hp3 & Hp4 & Hident & Hp6) Hproj].
  assert (Hdig : DIGEST_PATTERN (rn_planDigest r) = true).
  { destruct Hp1 as [v [_ Hpd]%canonicalize_Ok]. rewrite <- Hp3, Hpd. apply sha256Hex_digest. }
  match goal with |- advance _ _ _ ?l _ _ _ _ = _ => set (raw := l) end.
  assert (H1 : required_text (prop "deliveryId" raw) = Ok (rn_deliveryId r))
    by exact (truthy_required _ (truthy_identifier _ Hident)).
  assert (H2 : required_text (prop "planDigest" raw) = Ok (rn_planDigest r)) by exact (truthy_required _ (truthy_digest _ Hdig)).
  rewrite (advance_eq _ _ _ _ _ _ _ _ _ 0 _ H1 H2 eq_refl Hreq).
  set (input := advance_input _ _ _ _ _ _ _ _ _ _).
  assert (Hv : validateTransition input = Ok tt).
  { unfold validateTransition, assertIdentifier, assertDigest, assertIdempotencyKey, assertTimestamp, input, advance_input.
    cbn [dt_deliveryId dt_planDigest dt_generation dt_expectedSequence dt_phase dt_kind dt_message dt_idempotencyKey
      dt_occurredAt dt_deploymentId dt_childJobId dt_receiptId dt_artifactReference dr_generation run_record].
    change (match prop "reason" _ with JStr t => t | _ => _ end) with reason.
    assert (Hlen : (1 <=? String.length reason)%nat && (String.length reason <=? 4096)%nat = true)
      by (apply andb_true_iff; rewrite !Nat.leb_le; exact Hreason).
    by rewrite Hident, Hdig, (inv_generation _ HI _ Hr), Hphase, Hkind, Hrid, Hnow, Hlen. }
  assert (Hprior : prior_event input s = None).
  { unfold prior_event. apply find_none_iff_all. intros e He. apply andb_false_iff.
    destruct (decide (de_deliveryId (er_event e) = rn_deliveryId r)) as [E|E]; [right|left; by apply bool_decide_eq_false].
    apply bool_decide_eq_false, Hkey, list_elem_of_In, filter_In. split; [by apply list_elem_of_In|by apply bool_decide_eq_true_2]. }
  assert (Hf : find_run (rn_deliveryId r) s = Some r) by (apply find_id_unique; [apply HI|done]).
  rewrite (transition_new input r (cd_input plan) s HI Hf Hv Hprior Hreq).
  assert (check_transition input (run_record r (cd_input plan) s) = Err delivery_state_conflict) as ->; [|done].
  unfold check_transition, input, advance_input, run_record. cbn.
  rewrite (bool_decide_eq_true_2 (rn_planDigest r = _)), (bool_decide_eq_true_2 (rn_generation r = _)) by done.
  destruct (rn_terminal r); [done|]. by rewrite (bool_decide_eq_false_2 (rn_stateSequence r = 0)), (bool_decide_eq_true_2 (rn_state r = _)).
Qed.
End Theorems.

(** ** Witnesses *)

Section Witnesses.
#[local] Existing Instance toy_crypto.
#[local] Existing Instance toy_laws.
#[local] Existing Instance toy_dates.
#[local] Existing Instance toy_locale.
#[local] Existing Instance toy_locale_laws.

Abbreviation toy_tables trace := (run trace (new_tables [] [])).

Definition toy_machine : Host := {| hostname := "vps"; machine_id := Some "machine"%string |}.

Definition toy_body : props json :=
  [("deliveryId", JStr "delivery-1"); ("planDigest", JStr toy_digest); ("expectedSequence", JNum 0)]%string.

Lemma service_refines_ledger_witness :
  let (r, s') := execute toy_machine true "3000" "baby.delivery.execute" "request-1" toy_body (toy_tables toy_begin) in
  exists l, (length l <= 1)%nat /\ s' = run (toy_begin ++ l) (new_tables [] []).
Proof.
  pose proof (service_refines_ledger [] [] toy_begin toy_machine true "3000" "baby.delivery.execute" "request-1" toy_body
    toy_intents) as H. cbv zeta in H. revert H.
  destruct (execute _ _ _ _ _ _ _) as [r s']. intros [H _]. exact H.
Defined.

Lemma production_refuses_witness :
  execute toy_machine false "3000" "baby.delivery.cancel" "request-1" toy_body (new_tables [] []) =
    (Err resource_unavailable, new_tables [] []).
Proof.
  apply (production_refuses toy_machine "3000" "baby.delivery.cancel" "request-1" CANCELLED_PRE_ARM "cancel"
    "cancelled_pre_arm"). right; left.
Defined.

Definition toy_plan_body : props json :=
  [("plan", JObj (plan_body toy_input)); ("authorizedPlanDigest", JStr toy_digest)]%string.

Lemma toy_planned :
  is_ok (fst (execute toy_machine true "2000" "baby.delivery.plan" "request-0" toy_plan_body (toy_tables []))) = true.
Proof. vm_compute. exact eq_refl. Qed.

Lemma planned_is_authorized_witness :
  exists plan record s1, snd (execute toy_machine true "2000" "baby.delivery.plan" "request-0" toy_plan_body (toy_tables [])) = s1 /\
    canonicalizeDeliveryPlan (JObj (plan_body toy_input)) = Ok plan /\
    getRun (pi_deliveryId (cd_input plan)) s1 = (Ok (Some record), s1) /\ dr_planDigest record = cd_planDigest plan.
Proof.
  destruct (ok_result _ _ toy_planned) as (out & s1 & E).
  destruct (planned_is_authorized [] [] [] toy_machine true "2000" "request-0" toy_plan_body out s1 toy_intents E)
    as (plan & record & H1 & _ & _ & _ & H2 & H3 & _).
  exists plan, record, s1. rewrite E. exact (conj eq_refl (conj H1 (conj H2 H3))).
Defined.

Lemma toy_executed :
  is_ok (fst (execute toy_machine true "3000" "baby.delivery.execute" "request-1" toy_body (toy_tables toy_begin))) = true.
Proof. vm_compute. exact eq_refl. Qed.

Lemma toy_later : canonical_timestamp "3001" = true.
Proof. vm_compute. exact eq_refl. Qed.

Lemma retry_is_refused_witness :
  exists s1 id planDigest sequence c c', getRunRequired id (toy_tables toy_begin) = (Ok c, toy_tables toy_begin) /\
    getRunRequired id (run [] s1) = (Ok c', run [] s1) /\
    let first := advance_input "3000" "request-1" toy_body id planDigest sequence c SOURCE_VERIFIED "source" "source_verified" in
    let second := advance_input "3001" "request-1" toy_body id planDigest sequence c' SOURCE_VERIFIED "source" "source_verified" in
    execute toy_machine true "3001" "baby.delivery.execute" "request-1" toy_body (run [] s1) =
      (Err (delivery_failed idempotency_conflict), run [] s1) \/
    (canonical_obj (semantic_members first) <> canonical_obj (semantic_members second) /\
     sha256Hex (canonical_obj (semantic_members first)) = sha256Hex (canonical_obj (semantic_members second))).
Proof.
  destruct (ok_result _ _ toy_executed) as (out & s1 & E). exists s1.
  assert (Hmove : ("baby.delivery.execute", (SOURCE_VERIFIED, "source", "source_verified"))%string ∈ moves) by left.
  assert (Hne : "3001"%string <> "3000"%string) by discriminate.
  exact (retry_is_refused [] [] toy_begin [] toy_machine "3000" "3001" "baby.delivery.execute" "request-1" SOURCE_VERIFIED
    "source" "source_verified" toy_body out s1 toy_intents Hmove E toy_later Hne).
Defined.

Lemma toy_moved : rn_stateSequence (toy_run toy_middle) <> 0.
Proof. assert (H : (rn_stateSequence (toy_run toy_middle) =? 0) = false) by (vm_compute; exact eq_refl). by apply Z.eqb_neq. Qed.

Lemma toy_fresh e :
  e ∈ events_of (rn_deliveryId (toy_run toy_middle)) (toy_tables toy_middle) -> er_idempotencyKey e <> "request-2"%string.
Proof.
  assert (H : forallb (fun e => er_idempotencyKey e !== "request-2"%string)
    (events_of (rn_deliveryId (toy_run toy_middle)) (toy_tables toy_middle)) = true) by (vm_compute; exact eq_refl).
  rewrite forallb_forall in H. intros He%list_elem_of_In%H. by bool_inv.
Qed.

Lemma contract_cancel_conflicts_witness :
  execute toy_machine true "5000" "baby.delivery.cancel" "request-2"
    [("deliveryId", JStr (rn_deliveryId (toy_run toy_middle))); ("planDigest", JStr (rn_planDigest (toy_run toy_middle)));
     ("reason", JStr "stop")]%string (toy_tables toy_middle) =
  (Err (delivery_failed delivery_state_conflict), toy_tables toy_middle).
Proof.
  assert (Hop : "baby.delivery.cancel"%string ∈ ["baby.delivery.cancel"; "baby.delivery.rollback"]%string) by left.
  assert (Hlen : (1 <= String.length "stop" <= 4096)%nat) by (cbn; lia).
  assert (Hnow : canonical_timestamp "5000" = true) by (vm_compute; exact eq_refl).
  exact (contract_cancel_conflicts [] [] toy_middle toy_machine "5000" "baby.delivery.cancel" "request-2" "stop"
    (toy_run toy_middle) toy_intents Hop toy_middle_in toy_moved eq_refl Hnow Hlen toy_fresh).
Defined.
End Witnesses.
