(* ===== verification/DeploymentService.v ===== *)
(** * The deployment operations ([src/deployment/service.ts])

    The class [StandaloneDeploymentService] over the deployment ledger.  [execute] reserves the
    request in the ledger, runs the operation and, after an [await], records its result: two steps,
    between which other requests may come, or the process may end.  The theorems: the service only
    performs operations of the ledger, and moves a deployment along the path of the operation, with
    the evidence, the guard and the signatures of each state; a request identifier runs once, and a
    request that failed stays pending; without the fixture mode nothing but the requests is recorded. *)

From S2P Require Import Prelude Bytes Json Platform Config Canonical Operations StateMachine DeploymentDb.

#[global] Open Scope Z_scope.

(** ** Exceptions and state *)

(** An [OperationError] by its code; [op_deployment] is one with the code of a [DeploymentError], and
    [raw_deployment] a [DeploymentError], or another error of the ledger, that is not converted. *)
Inductive service_error :=
| op_invalid_request | op_unknown_operation | op_resource_unavailable | op_idempotency_conflict | op_ambiguous
| op_operation_failed | op_deployment (e : DeploymentError) | raw_deployment (e : DeploymentError).

#[global] Instance service_error_eq_dec : EqDecision service_error.
Proof. solve_decision. Defined.

(** The database, and how often the clock was read. *)
Record World := { ledger : Ledger; ticks : nat }.

Abbreviation SM A := (M World service_error A).

(** An operation of the ledger. *)
Definition database {A} (m : DM A) : SM A := fun w =>
  match m (ledger w) with
  | (Ok a, s) => (Ok a, {| ledger := s; ticks := ticks w |})
  | (Err e, s) => (Err (raw_deployment e), {| ledger := s; ticks := ticks w |})
  end.

Definition query {A} (f : Ledger -> A) : SM A := gets (fun w => f (ledger w)).

(** Source: src/deployment/service.ts:82-92 (mappedError) *)
Definition mappedError (e : service_error) : service_error :=
  match e with
  | raw_deployment sqlite_constraint | raw_deployment type_error => op_operation_failed
  | raw_deployment e => op_deployment e
  | _ => e
  end.

(** [try { m } catch (error) { throw mappedError(error); }]
    Source: src/deployment/service.ts:138-149 (execute) *)
Definition mapping_errors {A} (m : SM A) : SM A := fun w =>
  match m w with (Ok a, w') => (Ok a, w') | (Err e, w') => (Err (mappedError e), w') end.

(** ** Members of a body *)

(** Source: src/deployment/service.ts:61-66 (object) *)
Definition object (value : json) : SM (props json) :=
  match value with JObj kvs => mret kvs | _ => throw op_invalid_request end.

(** Source: src/deployment/service.ts:68-73 (text) *)
Definition text (value : json) : SM string :=
  match value with
  | JStr s => guardM (truthy_str s) op_invalid_request;; mret s
  | _ => throw op_invalid_request
  end.

(** Source: src/deployment/service.ts:75-80 (integer) *)
Definition integer (value : json) : SM Z :=
  match value with
  | JNum z => guardM (isSafeInteger z && (0 <=? z)) op_invalid_request;; mret z
  | _ => throw op_invalid_request
  end.

(** [value === undefined ? fallback : integer(value)] *)
Definition integer_or (fallback : Z) (value : json) : SM Z :=
  match value with JUndefined => mret fallback | _ => integer value end.

(** ** The paths *)

(** Source: src/deployment/service.ts:37-40 (BUILD_PATH) *)
Definition BUILD_PATH : list DeploymentState :=
  [source_resolving; source_verified; building; testing; packaging; reproducibility_verifying; artifact_verified].

(** Source: src/deployment/service.ts:41-44 (STAGE_PATH) *)
Definition STAGE_PATH : list DeploymentState :=
  [compatibility_verifying; preflight; staging; candidate_verifying; ready_to_activate].

(** Source: src/deployment/service.ts:45-50 (ACTIVATE_PATH) *)
Definition ACTIVATE_PATH : list DeploymentState :=
  [snapshotting; guard_arming; guard_armed; gateway_installing; gateway_activating; gateway_accepting_legacy;
   baby_installing; baby_activating; baby_accepting; restart_accepting; chatgpt_accepting; success_marking;
   guard_disarming; succeeded].

(** ** Records as JSON *)

(** Source: src/deployment/database.ts:325-350 (mapDeployment) *)
Definition deployment_members (d : DeploymentRecord) : props json :=
  request_doc (request d) ++
  [("sourceSetDigest", JStr (sourceSetDigest d)); ("state", JStr (state_name (state d)));
   ("stateSequence", JNum (stateSequence d)); ("guardArmed", JBool (guardArmed d));
   ("successMarkerDigest", opt_str (successMarkerDigest d)); ("terminal", JBool (terminal d));
   ("recordDigest", JStr (recordDigest d)); ("createdAt", JStr (createdAt d)); ("updatedAt", JStr (updatedAt d))]%string.

(** Source: src/deployment/database.ts:424-458 (mapTransition) *)
Definition transition_members (t : DeploymentTransitionRecord) : props json :=
  let i := t_input t in
  [("deploymentId", JStr (ti_deploymentId i)); ("generation", JNum (ti_generation i));
   ("expectedState", JStr (state_name (expectedState i))); ("expectedSequence", JNum (sequence t - 1));
   ("nextState", JStr (state_name (nextState i))); ("idempotencyKey", JStr (ti_idempotencyKey i));
   ("evidence", JArr (List.map reference_json (evidence i))); ("actor", JStr (actor i));
   ("occurredAt", JStr (occurredAt i)); ("reason", opt_str (reason i));
   ("guardStatus", match guard_json (guardStatus i) with JNull => JUndefined | v => v end);
   ("successMarkerDigest", opt_str (ti_successMarkerDigest i)); ("signatureAlgorithm", opt_str (signatureAlgorithm i));
   ("signingKeyId", opt_str (signingKeyId i)); ("signature", opt_str (signature i));
   ("sequence", JNum (sequence t)); ("priorState", JStr (state_name (expectedState i)));
   ("intentDigest", JStr (intentDigest t)); ("transitionDigest", JStr (transitionDigest t));
   ("terminal", JBool (t_terminal t))]%string.

(** ** The listings of the ledger *)

(** Source: src/deployment/database.ts:748-760 (listDeployments) *)
Definition listDeployments (offset limit : Z) : DM (list DeploymentRecord) :=
  guardM (isSafeInteger offset && (0 <=? offset)) deployment_invalid;;
  guardM (isSafeInteger limit && (1 <=? limit) && (limit <=? 200)) deployment_invalid;;
  s ← get_state;
  let newest x y := (generation (request y) <? generation (request x)) ||
    ((generation (request x) =? generation (request y)) && str_ltb (id_of x) (id_of y)) in
  mret (take (Z.to_nat limit) (drop (Z.to_nat offset) (order_by newest (deployments s)))).

(** Source: src/deployment/database.ts:770-776 (listSources) *)
Definition listSources (id : string) (s : Ledger) : list DeploymentSourceRecord :=
  order_by (fun x y => str_ltb (product_name (s_product x)) (product_name (s_product y)))
    (List.filter (fun r => s_deploymentId r === id) (deployment_sources s)).

(** Source: src/deployment/database.ts:851-857 (listProducts) *)
Definition listed_products (id : string) (s : Ledger) : list DeploymentProductRecord :=
  order_by (fun x y => str_ltb (product_name (p_product x)) (product_name (p_product y))) (listProducts id s).

(** A kind that is empty is no kind.
    Source: src/deployment/database.ts:919-929 (listEvidence) *)
Definition listEvidence (id : string) (kind_ : option string) (s : Ledger) : list DeploymentEvidenceRecord :=
  order_by (fun x y => str_ltb (e_createdAt x) (e_createdAt y) ||
      ((e_createdAt x === e_createdAt y) && str_ltb (e_digest x) (e_digest y)))
    (List.filter (fun r => (e_deploymentId r === id) &&
        match kind_ with Some k => if truthy_str k then e_kind r === k else true | None => true end)
      (deployment_evidence s)).

(** Source: src/deployment/database.ts:1165-1171 (listTransitions) *)
Definition listTransitions (id : string) (s : Ledger) : list DeploymentTransitionRecord :=
  order_by (fun x y => sequence x <? sequence y)
    (List.filter (fun t => ti_deploymentId (t_input t) === id) (deployment_transitions s)).

(** The foreign keys; the file itself is sound.
    Source: src/deployment/database.ts:576-590 (assertIntegrity) *)
Definition assertIntegrity : DM unit :=
  s ← get_state;
  guardM (forallb (fun r => has_deployment (s_deploymentId r) s) (deployment_sources s) &&
          forallb (fun r => has_deployment (p_deploymentId r) s) (deployment_products s) &&
          forallb (fun r => has_deployment (e_deploymentId r) s) (deployment_evidence s) &&
          forallb (fun t => has_deployment (ti_deploymentId (t_input t)) s) (deployment_transitions s) &&
          forallb (fun r => match i_deploymentId r with Some id => has_deployment id s | None => true end)
            (request_intents s)) deployment_integrity_failed.

(** [String(n).padStart(3, '0')] *)
Definition padStart3 (n : Z) : string :=
  let s := js_String (JNum n) in
  of_chars (replicate (3 - String.length s) "0"%char ++ chars s).

(** ** The service *)

(** Source: src/deployment/service.ts:52-59 (ServiceOptions) *)
Record ServiceOptions {C : Crypto} := {
  signingKey : option PrivateKey;
  o_signingKeyId : string;
  fixtureMode : bool;
  stopAfterState : option DeploymentState
}.

Section Service.
Context {C : Crypto} {D : Dates} {Lo : Locale}.

(** [clock] gives the successive readings of the clock, and [machine] is what [/etc/machine-id] holds. *)
Context (config : RuntimeConfig) (options : ServiceOptions) (clock : nat -> string) (machine : option string).

(** [this.now().toISOString()] *)
Definition now : SM string := fun w => (Ok (clock (ticks w)), {| ledger := ledger w; ticks := S (ticks w) |}).

(** Source: src/deployment/service.ts:433-442 (assertFixtureExecution) *)
Definition assertFixtureExecution : SM unit := guardM (fixtureMode options) op_resource_unavailable.

(** Source: src/deployment/service.ts:406-410 (required) *)
Definition required (id : string) : SM DeploymentRecord :=
  record ← query (getDeployment id);
  match record with Some d => mret d | None => throw (raw_deployment deployment_not_found) end.

(** The signed text of a value is given.
    Source: src/deployment/service.ts:387-397 (sign) *)
Definition sign (document : string) : SM string :=
  match signingKey options with
  | Some k => mret (signEd25519 document k)
  | None => throw op_resource_unavailable
  end.

(** Source: src/deployment/service.ts:399-404 (assertSequence) *)
Definition assertSequence (id : string) (expected : json) : SM unit :=
  actual ← required id;
  e ← integer expected;
  guardM (e =? stateSequence actual) (raw_deployment deployment_state_conflict).

(** Source: src/deployment/service.ts:369-385 (appendEvidence) *)
Definition appendEvidence_ (id kind_ : string) (details : json) : SM DeploymentEvidenceRecord :=
  created ← now;
  let bytes := canonical_obj [("deploymentId", JStr id); ("kind", JStr kind_); ("details", details);
                              ("createdAt", JStr created)]%string in
  let digest_ := sha256Hex bytes in
  signature ← sign bytes;
  database (appendEvidence {|
    e_deploymentId := id; e_digest := digest_; e_kind := kind_;
    contentLength := Z.of_nat (length (utf8_bytes bytes)); artifactReference := "artifact:sha256:" +:+ digest_;
    redacted := true; e_signatureAlgorithm := "ed25519"; e_signingKeyId := o_signingKeyId options;
    e_signature := signature; e_createdAt := created |}).

(** The members of the document a terminal transition signs.
    Source: src/deployment/service.ts:346-350 (advance) *)
Definition transition_body (id : string) (current : DeploymentRecord) (next : DeploymentState)
    (refs : list EvidenceReference) (occurred : string) : props json :=
  [("deploymentId", JStr id); ("generation", JNum (generation (request current)));
   ("expectedState", JStr (state_name (state current))); ("expectedSequence", JNum (stateSequence current));
   ("nextState", JStr (state_name next)); ("evidence", JArr (List.map reference_json refs));
   ("actor", JStr (expectedSubject config)); ("occurredAt", JStr occurred)]%string.

(** A text that is given and not empty. *)
Definition truthy_text (o : option string) : option string :=
  match o with Some s => if truthy_str s then Some s else None | None => None end.

(** [rule.requiredEvidence.map(...)]; the second component is [successMarkerDigest].
    Source: src/deployment/service.ts:328-337 (advance) *)
Fixpoint gather (id : string) (current : DeploymentRecord) (next : DeploymentState) (marker : option string)
    (kinds : list string) : SM (list EvidenceReference * option string) :=
  match kinds with
  | [] => mret ([], marker)
  | k :: kinds =>
      '(d, marker) ←
        match (if k === "success.marker"%string then truthy_text (successMarkerDigest current) else None) with
        | Some d => mret (d, marker)
        | None =>
            item ← appendEvidence_ id k (JObj [("from", JStr (state_name (state current))); ("to", JStr (state_name next));
              ("generation", JNum (generation (request current))); ("fixture", JBool true)]%string);
            mret (e_digest item, if k === "success.marker"%string then Some (e_digest item) else marker)
        end;
      '(refs, marker) ← gather id current next marker kinds;
      mret ({| kind := k; digest := d |} :: refs, marker)
  end.

(** The transition to the next state of a path.
    Source: src/deployment/service.ts:322-364 (advance) *)
Definition step_to (id key : string) (next : DeploymentState) (marker : option string) (current : DeploymentRecord)
    : SM (option string) :=
  rule ← match getTransitionRule (state current) next with
         | Some rule => mret rule
         | None => throw (raw_deployment deployment_transition_forbidden)
         end;
  '(refs, marker) ← gather id current next marker (requiredEvidence rule);
  refs ← (if (next === succeeded) && bool_decide (is_Some (truthy_text marker)) then
            l ← query (listEvidence id (Some "success.marker"%string));
            match last l with
            | Some m => mret (if existsb (fun item => kind item === "success.marker"%string) refs then refs
                              else refs ++ [{| kind := "success.marker"; digest := e_digest m |}])
            | None => mret refs
            end
          else mret refs);
  occurred ← now;
  let terminal_ := has TERMINAL_STATES next in
  signature_ ← (if terminal_ then s ← sign (canonical_obj (transition_body id current next refs occurred)); mret (Some s)
                else mret None);
  database (transition {|
    ti_deploymentId := id; ti_generation := generation (request current); expectedState := state current;
    expectedSequence := stateSequence current; nextState := next;
    ti_idempotencyKey := key +:+ ":" +:+ padStart3 (stateSequence current);
    evidence := refs; actor := expectedSubject config; occurredAt := occurred; reason := None;
    guardStatus := if next === guard_armed then Some armed
                   else if has [succeeded; rolled_back] next then Some disarmed else None;
    ti_successMarkerDigest := if has [guard_disarming; succeeded] next
                              then truthy_text (or_else marker (successMarkerDigest current)) else None;
    signatureAlgorithm := if terminal_ then Some "ed25519"%string else None;
    signingKeyId := if terminal_ then Some (o_signingKeyId options) else None;
    signature := signature_ |});;
  mret marker.

(** Source: src/deployment/service.ts:319-367 (advance) *)
Fixpoint advance (id key : string) (marker : option string) (path : list DeploymentState) : SM unit :=
  match path with
  | [] => mret ()
  | next :: path =>
      current ← required id;
      if state current === next then advance id key marker path
      else
        marker ← step_to id key next marker current;
        if stopAfterState options === Some next then mret () else advance id key marker path
  end.

(** Source: src/deployment/service.ts:412-421 (snapshot) *)
Definition snapshot (id : string) : SM (props json) :=
  deployment ← required id;
  sources ← query (listSources id);
  products ← query (listed_products id);
  transitions ← query (listTransitions id);
  evidence ← query (listEvidence id None);
  mret [("deployment", JObj (deployment_members deployment)); ("sources", JArr (List.map source_json sources));
        ("products", JArr (List.map (fun r => JObj (product_doc r)) products));
        ("transitions", JArr (List.map (fun r => JObj (transition_members r)) transitions));
        ("evidence", JArr (List.map (fun r => JObj (evidence_doc r)) evidence))]%string.

(** Source: src/deployment/service.ts:423-431 (result) *)
Definition result_ (operation id : string) : SM (props json) :=
  record ← required id;
  evidence ← query (listEvidence id None);
  let body := [("operation", JStr operation); ("deploymentId", JStr id); ("generation", JNum (generation (request record)));
    ("state", JStr (state_name (state record))); ("stateSequence", JNum (stateSequence record));
    ("terminal", JBool (terminal record));
    ("evidence", JArr (List.map (fun e => JObj [("kind", JStr (e_kind e)); ("digest", JStr (e_digest e))]) evidence))]%string in
  mret (body ++ [("resultDigest"%string, JStr (sha256Hex (canonical_obj body)))]).

(** ** The operations *)

(** Source: src/deployment/service.ts:169-177 (status) *)
Definition status (body : props json) : SM (props json) :=
  limit ← integer_or 50 (prop "limit" body);
  offset ← integer_or 0 (prop "offset" body);
  match prop "deploymentId" body with
  | JStr id => snapshot id
  | _ =>
      deployments ← database (listDeployments offset (Z.min (Z.max limit 1) 200));
      mret [("deployments", JArr (List.map (fun d => JObj (deployment_members d)) deployments)); ("offset", JNum offset);
            ("nextOffset", JNum (offset + Z.of_nat (length deployments)))]%string
  end.

(** Source: src/deployment/service.ts:186-197 (build) *)
Definition source_records (id : string) (baby gateway : props json) : SM (list DeploymentSourceRecord) :=
  babyCommit ← text (prop "commit" baby);
  babyTree ← text (prop "tree" baby);
  gatewayCommit ← text (prop "commit" gateway);
  gatewayTree ← text (prop "tree" gateway);
  mret [{| s_deploymentId := id; s_product := baby_quirt; s_repository := "StealthEyeLLC/baby-quirt";
           s_commit := babyCommit; s_tree := babyTree |};
        {| s_deploymentId := id; s_product := baby_quirt_mcp; s_repository := "StealthEyeLLC/baby-quirt-mcp";
           s_commit := gatewayCommit; s_tree := gatewayTree |}].

Definition with_kind (r : DeploymentSourceRecord) (k : string) : props json :=
  match source_json r with JObj kvs => kvs | _ => [] end ++ [("kind"%string, JStr k)].

(** Source: src/deployment/service.ts:213-220 (build) *)
Definition add_product (compatibility : string) (r : DeploymentSourceRecord) : SM unit :=
  database (addProduct {|
    p_deploymentId := s_deploymentId r; p_product := s_product r; p_repository := s_repository r;
    p_commit := s_commit r; p_tree := s_tree r;
    manifestDigest := sha256Hex (canonical_obj (with_kind r "manifest"));
    artifactDigest := sha256Hex (canonical_obj (with_kind r "artifact"));
    compatibilityDigest := compatibility |});;
  mret ().

Fixpoint for_each {A} (f : A -> SM unit) (l : list A) : SM unit :=
  match l with [] => mret () | x :: l => f x;; for_each f l end.

(** Source: src/deployment/service.ts:179-222 (build) *)
Definition build (requestId : string) (body : props json) : SM (props json) :=
  assertFixtureExecution;;
  id ← text (prop "deploymentId" body);
  generation_ ← integer (prop "generation" body);
  guardM (1 <=? generation_) op_invalid_request;;
  sources ← object (prop "sources" body);
  baby ← object (prop "baby" sources);
  gateway ← object (prop "gateway" sources);
  requestedAt_ ← now;
  sourceRecords ← source_records id baby gateway;
  plan ← text (prop "planDigest" body);
  deadline_ ← text (prop "deadline" body);
  let m := getMachineIdSha256 machine in
  database (createDeployment {|
    deploymentId := id; generation := generation_;
    machineId := if truthy_str m then m else "fixture-machine";
    planDigest := plan; requestDigest := sha256Hex (canonical_obj body); deadline := deadline_;
    requestedAt := requestedAt_; requestedBy := expectedSubject config; idempotencyKey := requestId |} sourceRecords);;
  advance id (requestId +:+ ":build") None BUILD_PATH;;
  let compatibility := sha256Hex (canonical_obj
    [("protocol", JStr "QRT1/1.0.0"); ("receipts", JArr [JStr "1.0.0"; JStr "2.0.0"]);
     ("catalog", JArr [JStr "legacy-26"; JStr "runtime-native-v2"])]%string) in
  for_each (add_product compatibility) sourceRecords;;
  result_ "baby.release.build" id.

(** Source: src/deployment/service.ts:224-230 (stage) *)
Definition stage (requestId : string) (body : props json) : SM (props json) :=
  assertFixtureExecution;;
  id ← text (prop "deploymentId" body);
  assertSequence id (prop "expectedSequence" body);;
  advance id (requestId +:+ ":stage") None STAGE_PATH;;
  result_ "baby.release.stage" id.

(** Source: src/deployment/service.ts:232-238 (verify) *)
Definition verify (body : props json) : SM (props json) :=
  id ← text (prop "deploymentId" body);
  database assertIntegrity;;
  snapshot ← snapshot id;
  mret (snapshot ++ [("verification"%string, JObj [("status", JStr "verified");
    ("verificationDigest", JStr (sha256Hex (canonical_obj snapshot)))]%string)]).

(** Source: src/deployment/service.ts:240-247 (activate) *)
Definition activate (requestId : string) (body : props json) : SM (props json) :=
  assertFixtureExecution;;
  id ← text (prop "deploymentId" body);
  assertSequence id (prop "expectedSequence" body);;
  text (prop "confirmationDigest" body);;
  advance id (requestId +:+ ":activate") None ACTIVATE_PATH;;
  result_ "baby.release.activate" id.

(** Source: src/deployment/service.ts:255-259 (rollback) *)
Definition rollback_path (s : DeploymentState) : list DeploymentState :=
  if s === rollback_requested then [rolling_back; rolled_back]
  else if s === rolling_back then [rolled_back]
  else [rollback_requested; rolling_back; rolled_back].

(** Source: src/deployment/service.ts:249-262 (rollback) *)
Definition rollback_ (requestId : string) (body : props json) : SM (props json) :=
  assertFixtureExecution;;
  id ← text (prop "deploymentId" body);
  text (prop "reason" body);;
  deployment ← required id;
  guardM (negb (terminal deployment)) (raw_deployment deployment_terminal);;
  advance id (requestId +:+ ":rollback") None (rollback_path (state deployment));;
  result_ "baby.release.rollback" id.

(** Source: src/deployment/service.ts:272-274 (repair) *)
Definition repair_path (s : DeploymentState) : list DeploymentState :=
  if s === rollback_failed then [rolling_back; rolled_back]
  else [reconciling; rollback_requested; rolling_back; rolled_back].

(** Source: src/deployment/service.ts:264-277 (repair) *)
Definition repair (requestId : string) (body : props json) : SM (props json) :=
  assertFixtureExecution;;
  id ← text (prop "deploymentId" body);
  assertSequence id (prop "expectedSequence" body);;
  deployment ← required id;
  guardM (has [partial; ambiguous; unknown; rollback_failed] (state deployment))
    (raw_deployment deployment_state_conflict);;
  advance id (requestId +:+ ":repair") None (repair_path (state deployment));;
  result_ "baby.release.repair" id.

(** Source: src/deployment/service.ts:279-284 (prune) *)
Definition prune (body : props json) : SM (props json) :=
  assertFixtureExecution;;
  protected ← database (listDeployments 0 200);
  mret [("dryRun", JBool (negb (prop "dryRun" body === JBool false))); ("retain", nullish (prop "retain" body) (JNum 2));
        ("protected", JArr (List.map (fun d => JStr (id_of d)) protected)); ("candidates", JArr []); ("removed", JArr [])]%string.

(** Source: src/deployment/service.ts:286-296 (sourceGet) *)
Definition sourceGet (body : props json) : SM (props json) :=
  id ← text (prop "deploymentId" body);
  product ← text (prop "product" body);
  sources ← query (listSources id);
  match List.find (fun r => product_name (s_product r) === product) sources with
  | None => throw (raw_deployment deployment_not_found)
  | Some r =>
      mret (match source_json r with JObj kvs => kvs | _ => [] end ++
        [("workspaceReference", JStr ("deployment-source:" +:+ id +:+ ":" +:+ product +:+ ":" +:+ s_commit r));
         ("clean", JBool true)]%string)
  end.

(** Source: src/deployment/service.ts:298-307 (acceptance) *)
Definition acceptance (requestId : string) (body : props json) : SM (props json) :=
  assertFixtureExecution;;
  id ← text (prop "deploymentId" body);
  profile ← text (prop "profile" body);
  evidence ← appendEvidence_ id ("acceptance." +:+ profile)
    (JObj [("profile", JStr profile); ("result", JStr "passed"); ("fixture", JBool true)]%string);
  result ← result_ "baby.selfhost.acceptance.run" id;
  mret (result ++ [("acceptanceEvidence", JObj [("kind", JStr (e_kind evidence)); ("digest", JStr (e_digest evidence))]);
                   ("requestId", JStr requestId)]%string).

(** Source: src/deployment/service.ts:309-317 (evidencePage) *)
Definition evidencePage (body : props json) : SM (props json) :=
  id ← text (prop "deploymentId" body);
  offset ← integer_or 0 (prop "offset" body);
  limit ← match prop "limit" body with JUndefined => mret 50 | v => n ← integer v; mret (Z.min (Z.max n 1) 200) end;
  let kind_ := match prop "kind" body with JStr k => Some k | _ => None end in
  all ← query (listEvidence id kind_);
  let items := take (Z.to_nat limit) (drop (Z.to_nat offset) all) in
  mret [("deploymentId", JStr id); ("offset", JNum offset); ("nextOffset", JNum (offset + Z.of_nat (length items)));
        ("total", JNum (Z.of_nat (length all))); ("items", JArr (List.map (fun e => JObj (evidence_doc e)) items))]%string.

(** Source: src/deployment/service.ts:152-167 (run) *)
Definition run_operation (operation requestId : string) (body : props json) : SM (props json) :=
  if operation === "baby.release.status"%string then status body
  else if operation === "baby.release.build"%string then build requestId body
  else if operation === "baby.release.stage"%string then stage requestId body
  else if operation === "baby.release.verify"%string then verify body
  else if operation === "baby.release.activate"%string then activate requestId body
  else if operation === "baby.release.rollback"%string then rollback_ requestId body
  else if operation === "baby.release.repair"%string then repair requestId body
  else if operation === "baby.release.prune"%string then prune body
  else if operation === "baby.selfhost.source.get"%string then sourceGet body
  else if operation === "baby.selfhost.acceptance.run"%string then acceptance requestId body
  else if operation === "baby.selfhost.evidence.get"%string then evidencePage body
  else throw op_unknown_operation.

(** Source: src/deployment/service.ts:108-110 (handles) *)
Definition handles (operation : string) : bool := bool_decide (operation ∈ RELEASE_OPERATIONS ++ DELIVERY_OPERATIONS).

Definition semantic (operation : string) (raw : props json) : string :=
  sha256Hex (canonical_obj [("operation", JStr operation); ("payload", JObj raw)]%string).

(** What [execute] has come to at its [await]: the operation belongs to the deliveries; the text of the
    result of an earlier execution; or the result of this one, which is still to be recorded. *)
Inductive Started := delegated | replayed (text : string) | ran (result : props json).

(** Up to the [await] of [run].
    Source: src/deployment/service.ts:116-138 (execute) *)
Definition start (operation requestId : string) (raw : props json) : SM Started :=
  guardM (handles operation) op_unknown_operation;;
  if bool_decide (operation ∈ DELIVERY_OPERATIONS) then mret delegated else
  let deploymentId_ := match prop "deploymentId" raw with JStr id => Some id | _ => None end in
  created ← now;
  reservation ← database (reserveIntent requestId (semantic operation raw) operation
    (if operation === "baby.release.build"%string then None else truthy_text deploymentId_) created);
  match reservation with
  | ir_conflict _ => throw op_idempotency_conflict
  | ir_pending => throw op_ambiguous
  | ir_completed _ text => mret (replayed text)
  | ir_reserved => mapping_errors (result ← run_operation operation requestId raw; mret (ran result))
  end.

(** After the [await]: the result is recorded, and returned.
    Source: src/deployment/service.ts:139-150 (execute) *)
Definition finish (operation requestId : string) (raw result : props json) : SM (props json) :=
  mapping_errors (
    completed ← now;
    database (completeIntent requestId (semantic operation raw) (JObj result) completed);;
    mret result).
End Service.

(** ** Running it on an example *)

Module Demo.
#[local] Existing Instance toy_crypto.
#[local] Instance dates : Dates := toy_dates.
#[local] Instance locale : Locale := {| localeCompare := fun a b => if str_ltb a b then -1 else if str_ltb b a then 1 else 0 |}.

Definition options (fixture : bool) : ServiceOptions := {|
  signingKey := Some ("k"%string : @PrivateKey toy_crypto); o_signingKeyId := "evidence-key"; fixtureMode := fixture; stopAfterState := None |}.
Definition clock (n : nat) : string := pretty.pretty (1000 + Z.of_nat n).
Definition commit : string := sha256Hex "commit".

Definition build_body : props json :=
  [("deploymentId", JStr "d1"); ("generation", JNum 1); ("planDigest", JStr (sha256Hex "plan")); ("deadline", JStr "9000");
   ("sources", JObj [("baby", JObj [("commit", JStr commit); ("tree", JStr commit)]);
                     ("gateway", JObj [("commit", JStr commit); ("tree", JStr commit)])])]%string.

Definition request (fixture : bool) (operation requestId : string) (raw : props json) : SM (props json) :=
  r ← start default_config (options fixture) clock None operation requestId raw;
  match r with
  | ran result => finish clock operation requestId raw result
  | _ => mret []
  end.

Definition scenario : SM (list json) :=
  a ← request true "baby.release.build" "request-1" build_body;
  b ← request true "baby.release.stage" "request-2" [("deploymentId", JStr "d1"); ("expectedSequence", prop "stateSequence" a)]%string;
  c ← request true "baby.release.activate" "request-3"
    [("deploymentId", JStr "d1"); ("expectedSequence", prop "stateSequence" b); ("confirmationDigest", JStr "ok")]%string;
  mret (List.map (prop "state") [a; b; c]).
End Demo.

(** ** What the service does to the ledger *)

Section Calls.
Context {C : Crypto} {D : Dates} {Lo : Locale}.

(** The states the transitions of some calls lead to. *)
Definition moves_of (calls : list db_op) : list DeploymentState :=
  omap (fun o => match o with op_transition i => Some (nextState i) | _ => None end) calls.

(** The ledger changes by calls that satisfy [ok], whose transitions lead along [path]. *)
Definition does (ok : db_op -> Prop) (path : list DeploymentState) (w w' : World) : Prop :=
  exists calls, ledger w' = run calls (ledger w) /\ Forall ok calls /\ sublist (moves_of calls) path.

Lemma does_refl ok path w w' : ledger w' = ledger w -> does ok path w w'.
Proof using. intros H. exists []. split; [done|]. split; [constructor|apply sublist_nil_l]. Qed.

Lemma does_trans ok p1 p2 w1 w2 w3 : does ok p1 w1 w2 -> does ok p2 w2 w3 -> does ok (p1 ++ p2) w1 w3.
Proof using.
  intros (c1 & H1 & F1 & S1) (c2 & H2 & F2 & S2). exists (c1 ++ c2). split_and!.
  - unfold run in *. by rewrite fold_left_app, <- H1.
  - by apply Forall_app_2.
  - unfold moves_of. rewrite omap_app. by apply sublist_app.
Qed.

Lemma does_weaken ok p1 p2 w w' : sublist p1 p2 -> does ok p1 w w' -> does ok p2 w w'.
Proof using. intros H (c & H1 & F & S). exists c. split_and!; [done|done|]. by etransitivity. Qed.

#[export] Instance does_preorder ok : PreOrder (does ok []).
Proof using. split; [intros w; by apply does_refl|]. intros w1 w2 w3. apply (does_trans ok [] []). Qed.

Lemma does_bind {A B} ok p1 p2 (m : SM A) (f : A -> SM B) :
  respects (does ok p1) m -> (forall a, respects (does ok p2) (f a)) -> respects (does ok (p1 ++ p2)) (m ≫= f).
Proof using.
  intros Hm Hf w. rewrite bindM_eq. specialize (Hm w). destruct (m w) as [[a|e] w1]; cbn in Hm.
  - eapply does_trans; [exact Hm|apply Hf].
  - eapply does_weaken; [|exact Hm]. by apply sublist_inserts_r.
Qed.

(** Code that makes no transition, before and after code that makes some. *)
Lemma does_before {A B} ok p (m : SM A) (f : A -> SM B) :
  respects (does ok []) m -> (forall a, respects (does ok p) (f a)) -> respects (does ok p) (m ≫= f).
Proof using. intros Hm Hf. by apply (does_bind ok [] p). Qed.

Lemma does_after {A B} ok p (m : SM A) (f : A -> SM B) :
  respects (does ok p) m -> (forall a, respects (does ok []) (f a)) -> respects (does ok p) (m ≫= f).
Proof using. intros Hm Hf. rewrite <- (app_nil_r p). by apply does_bind. Qed.

Lemma does_call {A} ok p (m : DM A) o :
  (forall s, snd (m s) = exec s o) -> ok o -> sublist (moves_of [o]) p -> respects (does ok p) (database m).
Proof using.
  intros Hm Ho Hp w. exists [o]. split; [|split; [by constructor|done]].
  unfold database. specialize (Hm (ledger w)). cbn. by destruct (m (ledger w)) as [[a|e] s].
Qed.

Lemma does_reads {A} ok p (m : SM A) : (forall w, ledger (snd (m w)) = ledger w) -> respects (does ok p) m.
Proof using. intros H w. by apply does_refl. Qed.

Lemma database_reads {A} (m : DM A) w : respects eq m -> ledger (snd (database m w)) = ledger w.
Proof using. intros H. unfold database. specialize (H (ledger w)). by destruct (m (ledger w)) as [[a|e] s]. Qed.
End Calls.

Section Paths.
Context {C : Crypto} {L : CryptoLaws C} {D : Dates} {Lo : Locale}.
Context (config : RuntimeConfig) (options : ServiceOptions) (clock : nat -> string) (machine : option string).

(** The document whose signature a terminal transition carries. *)
Definition signed_members (i : DeploymentTransitionInput) : props json :=
  [("deploymentId", JStr (ti_deploymentId i)); ("generation", JNum (ti_generation i));
   ("expectedState", JStr (state_name (expectedState i))); ("expectedSequence", JNum (expectedSequence i));
   ("nextState", JStr (state_name (nextState i))); ("evidence", JArr (List.map reference_json (evidence i)));
   ("actor", JStr (actor i)); ("occurredAt", JStr (occurredAt i))]%string.

(** A text signed with the key of the service. *)
Definition signed_by_service (document sig : string) : Prop :=
  exists k, signingKey options = Some k /\ verifyEd25519 document sig (public_half k) = true.

(** The calls the service makes for a request: what they carry. *)
Definition authorized (requestId : string) (o : db_op) : Prop :=
  match o with
  | op_create r _ => requestedBy r = expectedSubject config /\ idempotencyKey r = requestId
  | op_product _ => True
  | op_evidence e => exists bytes, e_digest e = sha256Hex bytes /\ signed_by_service bytes (e_signature e)
  | op_transition i =>
      actor i = expectedSubject config /\ (exists q, ti_idempotencyKey i = requestId +:+ q) /\
      List.map kind (evidence i) = REQUIRED_EVIDENCE (nextState i) /\
      guardStatus i = (if nextState i === guard_armed then Some armed
                       else if has [succeeded; rolled_back] (nextState i) then Some disarmed else None) /\
      (nextState i ∈ TERMINAL_STATES ->
       exists sig, signature i = Some sig /\ signed_by_service (canonical_obj (signed_members i)) sig)
  | op_reserve k _ _ _ _ => k = requestId
  | op_complete _ _ _ _ => False
  end.

Abbreviation ok := (authorized _).

Lemma sign_wp document Q w :
  (forall sig, signed_by_service document sig -> Q (Ok sig) w) -> (forall e, Q (Err e) w) ->
  wp (sign options document) Q w.
Proof using L.
  intros Hok He. unfold sign. destruct (signingKey options) as [k|] eqn:Hk; [|by apply wp_throw].
  apply wp_ret, Hok. exists k. split; [done|]. apply verify_sign.
Qed.

Lemma appendEvidence_does rid id k details : respects (does (authorized rid) []) (appendEvidence_ options clock id k details).
Proof using L.
  intros w. change (wp (appendEvidence_ options clock id k details) (fun _ w' => does (authorized rid) [] w w') w).
  unfold appendEvidence_. apply wp_bind. unfold wp at 1, now. cbn [fst snd].
  apply wp_bind, sign_wp; [intros sig Hsig|intros e; by apply does_refl].
  set (e := {| e_deploymentId := id |}).
  eapply (does_trans _ [] [] w {| ledger := ledger w; ticks := S (ticks w) |}); [by apply does_refl|].
  apply (does_call (authorized rid) [] (appendEvidence e) (op_evidence e)); [done| |apply sublist_nil_l]. by eexists.
Qed.

Lemma required_does rid p id : respects (does (authorized rid) p) (required id).
Proof using. apply does_reads. intros w. unfold required. rewrite bindM_eq. cbn. by destruct (getDeployment id (ledger w)). Qed.

Lemma lift_does {A} rid p (r : result service_error A) : respects (does (authorized rid) p) (lift r : SM A).
Proof using. by apply does_reads. Qed.
Lemma query_does {A} rid p (f : Ledger -> A) : respects (does (authorized rid) p) (query f).
Proof using. by apply does_reads. Qed.
Lemma now_does rid p : respects (does (authorized rid) p) (now clock).
Proof using. by apply does_reads. Qed.
Lemma ret_does {A} rid p (a : A) : respects (does (authorized rid) p) (mret a : SM A).
Proof using. by apply does_reads. Qed.
Lemma throw_does {A} rid p e : respects (does (authorized rid) p) (throw e : SM A).
Proof using. by apply does_reads. Qed.
Lemma guardM_does rid p b e : respects (does (authorized rid) p) (guardM b e : SM unit).
Proof using. by apply does_reads. Qed.

(** The evidence that is gathered has the kinds that are required. *)
Lemma gather_spec rid id current next kinds : forall marker w,
  wp (gather options clock id current next marker kinds)
    (fun r w' => does (authorized rid) [] w w' /\ forall refs m, r = Ok (refs, m) -> List.map kind refs = kinds) w.
Proof using L.
  induction kinds as [|k kinds IH]; intros marker w; cbn [gather].
  { apply wp_ret. split; [by apply does_refl|]. by intros refs m [= <- _]. }
  apply wp_bind. eapply wp_mono with (R := fun _ w' => does (authorized rid) [] w w').
  - destruct (if k === "success.marker"%string then _ else _) as [d|]; [by apply wp_ret, does_refl|].
    apply wp_bind. eapply (wp_mono _ _ (fun _ w' => does (authorized rid) [] w w')); [apply appendEvidence_does|].
    intros [item|e] w1 H; [by apply wp_ret|done].
  - intros [[d marker1]|e] w1 H1; [|by split]. apply wp_bind. eapply wp_mono; [apply IH|].
    intros [[refs m]|e] w2 [H2 Hk]; [apply wp_ret|]; (split; [by etransitivity|]); [|done].
    intros refs' m' [= <- <-]. cbn. f_equal. by eapply Hk.
Qed.

Lemma transition_does rid p i :
  authorized rid (op_transition i) -> sublist [nextState i] p ->
  respects (does (authorized rid) p) (database (transition i)).
Proof using. intros Hi Hp. by apply (does_call _ _ _ (op_transition i)). Qed.

Lemma step_to_does rid id key next marker current :
  (exists q, key = rid +:+ q) ->
  respects (does (authorized rid) [next]) (step_to config options clock id key next marker current).
Proof using L.
  intros [q Hkey] w. set (R := fun (_ : result service_error (option string)) w' => does (authorized rid) [next] w w').
  change (wp (step_to config options clock id key next marker current) R w). unfold step_to.
  rewrite getTransitionRule_eq. destruct (allowed (state current) next); cycle 1.
  { apply wp_bind, wp_throw. by apply does_refl. }
  apply wp_bind, wp_ret. cbn [requiredEvidence createRule].
  apply wp_bind. eapply wp_mono; [apply gather_spec|]. intros [[refs m]|e] w1 [H1 Hk]; cycle 1.
  { eapply does_weaken; [|exact H1]. apply sublist_nil_l. }
  specialize (Hk refs m eq_refl).
  assert (forall w2, ledger w2 = ledger w1 -> R (Err op_resource_unavailable) w2) as Hfail.
  { intros w2 H2. eapply does_weaken; [|eapply does_trans; [exact H1|by apply (does_refl _ [])]]. apply sublist_nil_l. }
  apply wp_bind. eapply wp_mono with (R := fun r w' => w' = w1 /\ exists refs', r = Ok refs' /\ List.map kind refs' = List.map kind refs).
  { destruct (_ && _) eqn:E; [|apply wp_ret; by eauto]. apply wp_bind, wp_gets.
    destruct (last _) as [item|]; [|apply wp_ret; by eauto]. apply wp_ret. split; [done|].
    destruct (existsb _ refs) eqn:Ex; [by eauto|]. exfalso. bool_inv. subst next.
    assert ("success.marker"%string ∈ List.map kind refs) as (x & Hx & Hin)%list_elem_of_In%in_map_iff
      by (rewrite Hk; cbn; left).
    rewrite existsb_false in Ex. apply list_elem_of_In in Hin. apply Ex in Hin. by bool_inv. }
  intros r w' (-> & refs' & -> & Hk'). rewrite Hk in Hk'.
  apply wp_bind. unfold wp at 1, now. cbn [fst snd]. set (w2 := {| ledger := ledger w1; ticks := _ |}).
  set (body := transition_body _ _ _ _ _ _).
  apply wp_bind. eapply wp_mono with (R := fun r w' => w' = w2 /\ forall o, r = Ok o -> next ∈ TERMINAL_STATES ->
    exists sig, o = Some sig /\ signed_by_service (canonical_obj body) sig).
  { destruct (has TERMINAL_STATES next) eqn:Ht; bool_inv; [|apply wp_ret; by split].
    apply wp_bind, sign_wp; [|by split]. intros sig Hsig. apply wp_ret. split; [done|]. intros o [= <-] _. by eauto. }
  intros [o|e] w' (-> & Ho); [|by apply Hfail]. specialize (Ho o eq_refl).
  set (i := {| ti_deploymentId := id |}).
  assert (authorized rid (op_transition i)) as Hi.
  { cbn. split_and!; [done| |done|done|done]. exists (q +:+ (":" +:+ padStart3 (stateSequence current))).
    subst key. apply chars_inj. by rewrite !chars_app, !app_assoc. }
  enough (does (authorized rid) [next] w (snd ((database (transition i);; mret m) w2))) as H by exact H.
  eapply (does_trans _ [] [next]); [etransitivity; [exact H1|by apply (does_refl _ [] w1 w2)]|].
  apply (does_after _ [next]); [by apply transition_does|intros; apply ret_does].
Qed.

Lemma advance_does rid id key path : (exists q, key = rid +:+ q) -> forall marker,
  respects (does (authorized rid) path) (advance config options clock id key marker path).
Proof using L.
  intros Hkey. induction path as [|next path IH]; intros marker; cbn [advance]; [apply ret_does|].
  apply does_before; [apply required_does|]. intros current. destruct (state current === next).
  - intros w. eapply does_weaken; [|apply IH]. by apply sublist_cons.
  - apply (does_bind _ [next] path); [by apply step_to_does|]. intros marker'.
    destruct (stopAfterState options === Some next); [apply ret_does|apply IH].
Qed.

(** *** The operations *)

Lemma text_does rid p v : respects (does (authorized rid) p) (text v).
Proof using. destruct v; cbn [text]; try apply throw_does. apply does_reads. intros w. unfold guardM, lift. by destruct (truthy_str s). Qed.

Lemma integer_does rid p v : respects (does (authorized rid) p) (integer v).
Proof using. destruct v; cbn [integer]; try apply throw_does. apply does_reads. intros w. unfold guardM, lift. by destruct (_ && _). Qed.

Lemma integer_or_does rid p n v : respects (does (authorized rid) p) (integer_or n v).
Proof using. destruct v; cbn [integer_or]; try apply ret_does; apply integer_does. Qed.

Lemma object_does rid p v : respects (does (authorized rid) p) (object v).
Proof using. destruct v; cbn [object]; try apply throw_does. apply ret_does. Qed.

Create HintDb does.
#[local] Hint Resolve text_does integer_does integer_or_does object_does required_does lift_does query_does now_does
  ret_does throw_does guardM_does appendEvidence_does : does.

(** Follows code that makes no transition. *)
Ltac does_steps :=
  repeat (cbv beta zeta;
    lazymatch goal with
    | |- respects (does _ _) (mbind _ _) => apply does_before; [|intros ?]
    | |- respects (does _ _) (match ?x with _ => _ end) => destruct x eqn:?
    | |- _ => solve [auto with does]
    end).

Lemma snapshot_does rid p id : respects (does (authorized rid) p) (snapshot id).
Proof using. unfold snapshot. does_steps. Qed.
Lemma result_does rid p operation id : respects (does (authorized rid) p) (result_ operation id).
Proof using. unfold result_. does_steps. Qed.
Lemma assertFixture_does rid p : respects (does (authorized rid) p) (assertFixtureExecution options).
Proof using. apply guardM_does. Qed.
Lemma assertSequence_does rid p id v : respects (does (authorized rid) p) (assertSequence id v).
Proof using. unfold assertSequence. does_steps. Qed.
Lemma source_records_does rid p id baby gateway : respects (does (authorized rid) p) (source_records id baby gateway).
Proof using. unfold source_records. does_steps. Qed.

Lemma listDeployments_does rid p offset limit : respects (does (authorized rid) p) (database (listDeployments offset limit)).
Proof using. apply does_reads. intros w. apply database_reads. unfold listDeployments. respects_steps. Qed.
Lemma assertIntegrity_does rid p : respects (does (authorized rid) p) (database assertIntegrity).
Proof using. apply does_reads. intros w. apply database_reads. unfold assertIntegrity. respects_steps. Qed.

Lemma createDeployment_does rid r l :
  requestedBy r = expectedSubject config -> idempotencyKey r = rid ->
  respects (does (authorized rid) []) (database (createDeployment r l)).
Proof using. intros. by apply (does_call _ _ _ (op_create r l)). Qed.

Lemma add_product_does rid compatibility r : respects (does (authorized rid) []) (add_product compatibility r).
Proof using.
  unfold add_product. apply does_before; [|intros; apply ret_does].
  eapply (does_call _ _ _ (op_product _)); [done|done|apply sublist_nil_l].
Qed.

Lemma for_each_does {A} rid (f : A -> SM unit) l :
  (forall x, respects (does (authorized rid) []) (f x)) -> respects (does (authorized rid) []) (for_each f l).
Proof using. intros Hf. induction l as [|x l IH]; cbn [for_each]; [apply ret_does|]. by apply does_before. Qed.

#[local] Hint Resolve snapshot_does result_does assertFixture_does assertSequence_does source_records_does
  listDeployments_does assertIntegrity_does add_product_does for_each_does : does.

(** An operation that moves a deployment, from its [advance] on. *)
Lemma advance_then_does {A} rid id q path (f : unit -> SM A) :
  (forall u, respects (does (authorized rid) []) (f u)) ->
  respects (does (authorized rid) path) (advance config options clock id (rid +:+ q) None path ≫= f).
Proof using L. intros Hf. apply does_after; [apply advance_does; by exists q|done]. Qed.

(** The states an operation may move a deployment to, in order. *)
Definition path_of (operation : string) : list DeploymentState :=
  if operation === "baby.release.build"%string then BUILD_PATH
  else if operation === "baby.release.stage"%string then STAGE_PATH
  else if operation === "baby.release.activate"%string then ACTIVATE_PATH
  else if operation === "baby.release.rollback"%string then [rollback_requested; rolling_back; rolled_back]
  else if operation === "baby.release.repair"%string then [reconciling; rollback_requested; rolling_back; rolled_back]
  else [].

Lemma build_does rid body : respects (does (authorized rid) BUILD_PATH) (build config options clock machine rid body).
Proof using L.
  unfold build. repeat (apply does_before; [solve [auto with does]|intros ?]). cbv zeta.
  apply does_before; [by apply createDeployment_does|intros _]. apply advance_then_does. intros _.
  apply does_before; [apply for_each_does; auto with does|auto with does].
Qed.

Lemma rollback_path_sub s : sublist (rollback_path s) [rollback_requested; rolling_back; rolled_back].
Proof using. unfold rollback_path. repeat case_bool_decide; repeat constructor. Qed.
Lemma repair_path_sub s : sublist (repair_path s) [reconciling; rollback_requested; rolling_back; rolled_back].
Proof using. unfold repair_path. repeat case_bool_decide; repeat constructor. Qed.

Lemma weaken_does {A} rid p1 p2 (m : SM A) :
  sublist p1 p2 -> respects (does (authorized rid) p1) m -> respects (does (authorized rid) p2) m.
Proof using. intros Hs Hm w. by eapply does_weaken. Qed.

Lemma run_operation_does rid operation body :
  respects (does (authorized rid) (path_of operation)) (run_operation config options clock machine operation rid body).
Proof using L.
  unfold run_operation, path_of. repeat (case_bool_decide; [subst|]); cbn [bool_decide]; try done.
  all: repeat (rewrite bool_decide_eq_false_2 by done); repeat (rewrite bool_decide_eq_true_2 by done).
  - apply build_does.
  - unfold stage. repeat (apply does_before; [solve [auto with does]|intros ?]). apply advance_then_does. auto with does.
  - unfold activate. repeat (apply does_before; [solve [auto with does]|intros ?]). apply advance_then_does. auto with does.
  - unfold rollback_. repeat (apply does_before; [solve [auto with does]|intros ?]).
    eapply weaken_does; [apply rollback_path_sub|]. apply advance_then_does. auto with does.
  - unfold repair. repeat (apply does_before; [solve [auto with does]|intros ?]).
    eapply weaken_does; [apply repair_path_sub|]. apply advance_then_does. auto with does.
  - unfold status. does_steps.
  - unfold verify. does_steps.
  - unfold prune. does_steps.
  - unfold sourceGet. does_steps.
  - unfold acceptance. does_steps.
  - unfold evidencePage. does_steps.
  - apply throw_does.
Qed.

Lemma mapping_does {A} rid p (m : SM A) : respects (does (authorized rid) p) m -> respects (does (authorized rid) p) (mapping_errors m).
Proof using. intros Hm w. unfold mapping_errors. specialize (Hm w). by destruct (m w) as [[a|e] w']. Qed.

Lemma start_does rid operation raw :
  respects (does (authorized rid) (path_of operation)) (start config options clock machine operation rid raw).
Proof using L.
  unfold start. apply does_before; [auto with does|intros _]. destruct (bool_decide _); [apply ret_does|].
  apply does_before; [auto with does|intros created]. apply does_before; cycle 1.
  { intros []; try apply throw_does; try apply ret_does. apply mapping_does, does_after; [apply run_operation_does|].
    intros; apply ret_does. }
  by eapply (does_call _ _ _ (op_reserve rid _ operation _ created)); [|done|apply sublist_nil_l].
Qed.

(** C7: What the service does to the ledger.  A request of any operation, whatever its outcome, changes the
    ledger only by operations of the ledger: under its own identifier and for the configured owner;
    with evidence that is named by the digest of what the service signed; and with transitions along the
    path of the operation and no other, each with exactly the evidence its state requires, the guard armed
    in [guard_armed] and disarmed only with success or a completed rollback, and terminal ones signed. *)
Theorem service_follows_path (operation requestId : string) (raw : props json) (w : World) :
  let w' := snd (start config options clock machine operation requestId raw w) in
  exists calls, ledger w' = run calls (ledger w) /\ Forall (authorized requestId) calls /\
    sublist (moves_of calls) (path_of operation).
Proof using L. exact (start_does requestId operation raw w). Qed.
End Paths.

(** ** A request runs once *)

Section Requests.
Context {C : Crypto} {D : Dates} {Lo : Locale}.

Definition intent_of (key : string) (s : Ledger) : option RequestIntent :=
  List.find (fun r => i_idempotencyKey r === key) (request_intents s).

Lemma intents_unchanged o s :
  match o with op_reserve _ _ _ _ _ | op_complete _ _ _ _ => False | _ => True end ->
  request_intents (exec s o) = request_intents s.
Proof using.
  destruct o as [r l|p|e|i|k m o i c|k m r c]; intros Ho; try by destruct Ho.
  - cbn [exec]. destruct (createDeployment r l s) as [[d|x] s'] eqn:E; cbn [snd]; [|by apply createDeployment_Err in E as ->].
    unfold createDeployment, insert_deployment, getDeploymentRequired in E. m_split; try done.
    match goal with H : forM_ _ _ _ = _ |- _ => by apply insert_source_run in H as (_ & _ & -> & _) end.
  - by apply addProduct_frame.
  - by apply appendEvidence_frame.
  - cbn [exec]. destruct (transition i s) as [[t|x] s'] eqn:E; cbn [snd]; [|by apply transition_Err in E as ->].
    apply transition_Ok in E as [_ [(-> & _)|(d & _ & _ & _ & _ & -> & _)]]; done.
Qed.

(** A request on record: it keeps its meaning, and once it is completed it stays as it is. *)
Definition settles (x x' : RequestIntent) : Prop :=
  semanticDigest x' = semanticDigest x /\ (i_status x = intent_completed -> x' = x).

Lemma settles_trans x y z : settles x y -> settles y z -> settles x z.
Proof using. intros [E1 H1] [E2 H2]. split; [congruence|]. intros Hx. rewrite <- (H1 Hx). apply H2. by rewrite (H1 Hx). Qed.

Lemma find_map_intent (g : RequestIntent -> RequestIntent) key l :
  (forall r, i_idempotencyKey (g r) = i_idempotencyKey r) ->
  List.find (fun r => i_idempotencyKey r === key) (List.map g l) =
  option_map g (List.find (fun r => i_idempotencyKey r === key) l).
Proof using. intros Hg. induction l as [|r l IH]; [done|]. cbn. rewrite Hg. by destruct (_ === _). Qed.

Lemma intent_kept key x o s : intent_of key s = Some x ->
  exists x', intent_of key (exec s o) = Some x' /\ settles x x' /\
    (match o with op_complete k _ _ _ => k <> key | _ => True end -> x' = x).
Proof using.
  intros Hx. assert (forall s', request_intents s' = request_intents s -> exists x', intent_of key s' = Some x' /\
    settles x x' /\ (match o with op_complete k _ _ _ => k <> key | _ => True end -> x' = x)) as Hsame.
  { intros s' Hs. exists x. unfold intent_of. by rewrite Hs. }
  destruct o as [| | | |k m o i c|k m r c]; try by apply Hsame, intents_unchanged.
  - cbn [exec]. unfold reserveIntent. rewrite lift_bind_cases. destruct (_ ≫= _) as [[]|e]; [|by apply Hsame].
    rewrite bindM_eq. destruct (check_deployment_cases i s) as [->| ->]; [|by apply Hsame].
    destruct (transaction _ s) as [y s'] eqn:E. cbn [snd]. apply transaction_cases in E as [(a & -> & E)|[_ ->]]; [|by apply Hsame].
    unfold insert_intent in E. m_split; try by apply Hsame. exists x. split; [|by split]. unfold intent_of in *. cbn.
    by apply find_app_Some.
  - cbn [exec]. unfold completeIntent. rewrite lift_bind_cases. destruct (_ ≫= _) as [[]|e]; [|by apply Hsame].
    rewrite bindM_eq. destruct (canonicalJson r) as [text|]; [|by apply Hsame]. cbn [mret M_ret].
    destruct (transaction _ s) as [y s'] eqn:E. cbn [snd]. apply transaction_cases in E as [(a & -> & E)|[_ ->]]; [|by apply Hsame].
    unfold update_intents in E. m_split; try by apply Hsame.
    set (g z := if _ && _ then _ else z) in *. exists (g x). split_and!.
    + unfold intent_of in *. cbn. rewrite find_map_intent; [by rewrite Hx|]. intros z. unfold g. by destruct (_ && _).
    + unfold settles, g. destruct (_ && _) eqn:Hb; [|done]. bool_inv. split; [done|]. congruence.
    + intros Hne. unfold g. apply find_Some_elem in Hx as [_ Hk]. bool_inv. rewrite bool_decide_eq_false_2 by congruence. done.
Qed.

(** *** Steps of the service *)

Context (config : RuntimeConfig) (options : ServiceOptions) (clock : nat -> string) (machine : option string).

(** What can happen: a request begins, or the result of one that ran is recorded. *)
Inductive event :=
| Start (operation requestId : string) (raw : props json)
| Finish (operation requestId : string) (raw result : props json).

Definition event_step (w : World) (e : event) : World :=
  match e with
  | Start operation requestId raw => snd (start config options clock machine operation requestId raw w)
  | Finish operation requestId raw result => snd (finish clock operation requestId raw result w)
  end.

Definition after (h : list event) (w : World) : World := fold_left event_step h w.

(** The request is not finished in a history. *)
Definition unfinished (requestId : string) (h : list event) : Prop :=
  Forall (fun e => match e with Finish _ k _ _ => k <> requestId | _ => True end) h.

Lemma reserve_known k m o i c s x r s' :
  intent_of k s = Some x -> reserveIntent k m o i c s = (r, s') ->
  s' = s /\ r <> Ok ir_reserved /\
  (forall d t, r = Ok (ir_completed d t) -> i_status x = intent_completed /\ resultJson x = Some t /\ semanticDigest x = m).
Proof using.
  intros Hx. unfold reserveIntent. rewrite lift_bind_cases. destruct (_ ≫= _) as [[]|e]; [|by intros [= <- <-]].
  rewrite bindM_eq. destruct (check_deployment_cases i s) as [->| ->]; [|by intros [= <- <-]].
  unfold transaction. rewrite bindM_eq. cbn [get_state]. unfold intent_of in Hx. rewrite Hx.
  destruct (semanticDigest x !== m) eqn:Hm; [by intros [= <- <-]|]. bool_inv.
  destruct (i_status x === intent_pending) eqn:Hp; bool_inv; [by intros [= <- <-]|].
  destruct (resultJson x) as [j|], (resultDigest x) as [dg|]; try by intros [= <- <-].
  destruct (_ && _); intros [= <- <-]; [|done]. split_and!; [done|done|]. intros d t [= <- <-].
  split_and!; [by destruct (i_status x)|done|done].
Qed.

Lemma reserve_new k m o i c s :
  intent_of k s = None -> (exists s', reserveIntent k m o i c s = (Ok ir_reserved, s')) \/ 
  (exists e, reserveIntent k m o i c s = (Err e, s)).
Proof using.
  intros Hx. unfold reserveIntent. rewrite lift_bind_cases. destruct (_ ≫= _) as [[]|e]; [|by right; eexists].
  rewrite bindM_eq. destruct (check_deployment_cases i s) as [->| ->]; [|by right; eexists].
  unfold transaction. rewrite bindM_eq. cbn [get_state]. unfold intent_of in Hx. rewrite Hx, bindM_eq.
  unfold insert_intent. rewrite bindM_eq. cbn [get_state]. rewrite bindM_eq.
  unfold guardM, lift. destruct (_ && _); cbn; [left|right]; by eexists.
Qed.

Lemma calls_keep `{!CryptoLaws C} key rid x calls : forall s,
  Forall (authorized config options rid) calls -> intent_of key s = Some x -> intent_of key (run calls s) = Some x.
Proof using.
  induction calls as [|o calls IH]; intros s Hc Hx; [done|]. apply list.Forall_cons in Hc as [Ho Hc]. cbn.
  apply IH; [done|]. destruct (intent_kept key x o s Hx) as (x' & Hx' & _ & Hsame).
  rewrite Hx'. f_equal. apply Hsame. by destruct o.
Qed.

Lemma does_keep `{!CryptoLaws C} key rid x p w w' :
  does (authorized config options rid) p w w' -> intent_of key (ledger w) = Some x -> intent_of key (ledger w') = Some x.
Proof using. intros (calls & -> & Hc & _). by apply (calls_keep key rid). Qed.

Lemma event_keeps `{!CryptoLaws C} key x w e : intent_of key (ledger w) = Some x ->
  exists x', intent_of key (ledger (event_step w e)) = Some x' /\ settles x x' /\
    (match e with Finish _ k _ _ => k <> key | _ => True end -> x' = x).
Proof using.
  intros Hx. destruct e as [operation rid raw|operation rid raw result]; cbn [event_step].
  - exists x. split; [|done]. exact (does_keep key rid x (path_of operation) w _ (start_does config options clock machine rid operation raw w) Hx).
  - destruct (intent_kept key x (op_complete rid (semantic operation raw) (JObj result) (clock (ticks w))) (ledger w) Hx)
      as (x' & Hx' & Hs & Hsame). exists x'. split; [|done]. rewrite <- Hx'. f_equal.
    unfold finish, mapping_errors. rewrite bindM_eq. cbn [now]. rewrite bindM_eq. unfold database. cbn [ledger].
    cbn [exec]. by destruct (completeIntent _ _ _ _ (ledger w)) as [[d|e] s].
Qed.

Lemma after_keeps `{!CryptoLaws C} key x h : forall w, intent_of key (ledger w) = Some x ->
  exists x', intent_of key (ledger (after h w)) = Some x' /\ settles x x' /\ (unfinished key h -> x' = x).
Proof using.
  revert x. induction h as [|e h IH]; intros x w Hx; cbn; [by exists x|].
  destruct (event_keeps key x w e Hx) as (y & Hy & Hxy & Hsame). destruct (IH _ _ Hy) as (z & Hz & Hyz & Hsame').
  exists z. split; [done|]. split; [by eapply settles_trans|]. intros [H1 H2]%list.Forall_cons.
  by rewrite (Hsame' H2), (Hsame H1).
Qed.

(** A request whose identifier is on record changes nothing, and is not run. *)
Lemma start_known operation rid raw w x :
  intent_of rid (ledger w) = Some x ->
  let (r, w') := start config options clock machine operation rid raw w in
  ledger w' = ledger w /\ (forall result, r <> Ok (ran result)) /\
  (forall text, r = Ok (replayed text) -> i_status x = intent_completed /\ resultJson x = Some text /\
     semanticDigest x = semantic operation raw).
Proof using.
  intros Hx. unfold start. rewrite bindM_eq. unfold guardM, lift. destruct (handles operation); cbn [require]; [|done].
  destruct (bool_decide _); [done|]. rewrite bindM_eq. cbn [now]. rewrite bindM_eq. unfold database. cbn [ledger ticks].
  destruct (reserveIntent _ _ _ _ _ (ledger w)) as [r s'] eqn:Hr.
  destruct (reserve_known _ _ _ _ _ _ x _ _ Hx Hr) as (-> & Hnew & Hdone).
  destruct r as [[]|e]; try done. split_and!; [done|done|]. intros t [= <-]. by eapply Hdone.
Qed.

(** A request that changes the ledger reserves its identifier, and runs. *)
Lemma start_reserves `{!CryptoLaws C} operation rid raw w :
  let w' := snd (start config options clock machine operation rid raw w) in
  ledger w' <> ledger w ->
  handles operation = true /\ (operation ∉ DELIVERY_OPERATIONS) /\ intent_of rid (ledger w) = None /\
  exists i s1 x, reserveIntent rid (semantic operation raw) operation i (clock (ticks w)) (ledger w) = (Ok ir_reserved, s1) /\
    i = (if operation === "baby.release.build"%string then None
         else truthy_text (match prop "deploymentId" raw with JStr id => Some id | _ => None end)) /\
    intent_of rid s1 = Some x /\ intent_of rid (ledger w') = Some x /\
    i_status x = intent_pending /\ semanticDigest x = semantic operation raw.
Proof using.
  cbn zeta. intros Hne. destruct (intent_of rid (ledger w)) as [x|] eqn:Hx.
  { pose proof (start_known operation rid raw w x Hx) as H. destruct (start _ _ _ _ _ _ _ w) as [r w']. by destruct H. }
  unfold start in *. rewrite bindM_eq in *. unfold guardM, lift in *. destruct (handles operation); cbn [require] in *; [|done].
  destruct (bool_decide _) eqn:Hd; [done|]. bool_inv. rewrite bindM_eq in *. cbn [now] in *. rewrite bindM_eq in *.
  unfold database in *. cbn [ledger ticks] in *. set (i := if _ === _ then None else _) in *.
  destruct (reserve_new rid (semantic operation raw) operation i (clock (ticks w)) (ledger w) Hx) as [[s1 Hr]|[e Hr]];
    rewrite Hr in *; [|done].
  apply reserveIntent_reserved in Hr as Hr'. destruct Hr' as (_ & _ & _ & Hs1).
  set (x := {| i_idempotencyKey := rid |}) in Hs1.
  assert (intent_of rid s1 = Some x) as Hx1 by (rewrite Hs1; by apply find_snoc_intent).
  split_and!; [done|done|done|]. exists i, s1, x. split_and!; [done|done|done| |done|done].
  refine (does_keep rid rid x (path_of operation) {| ledger := s1; ticks := S (ticks w) |} _ _ Hx1).
  apply (mapping_does config options rid (path_of operation)
    (result ← run_operation config options clock machine operation rid raw; mret (ran result))
    ltac:(apply does_after; [apply run_operation_does|intros; apply ret_does])
    {| ledger := s1; ticks := S (ticks w) |}).
Qed.


Lemma after_run `{!CryptoLaws C} h : forall w, exists calls, ledger (after h w) = run calls (ledger w).
Proof using.
  induction h as [|e h IH]; intros w; [by exists []|].
  change (after (e :: h) w) with (after h (event_step w e)). destruct (IH (event_step w e)) as [c2 H2].
  assert (exists c1, ledger (event_step w e) = run c1 (ledger w)) as [c1 H1].
  { destruct e as [operation rid raw|operation rid raw result]; cbn [event_step].
    - destruct (start_does config options clock machine rid operation raw w) as (calls & H & _). by exists calls.
    - exists [op_complete rid (semantic operation raw) (JObj result) (clock (ticks w))].
      unfold finish, mapping_errors. rewrite bindM_eq. cbn [now]. rewrite bindM_eq. unfold database. cbn [ledger run exec fold_left].
      by destruct (completeIntent _ _ _ _ (ledger w)) as [[d|x] s]. }
  exists (c1 ++ c2). rewrite H2, H1. unfold run. by rewrite fold_left_app.
Qed.

(** A deployment that a request names stays on record. *)
Lemma check_deployment_persists i trace calls :
  let s := run trace empty_ledger in
  check_deployment i s = (Ok tt, s) -> check_deployment i (run calls s) = (Ok tt, run calls s).
Proof using.
  intros s. unfold check_deployment. destruct i as [id|]; [|done]. destruct (truthy_str id); [|done].
  unfold getDeploymentRequired. rewrite !bindM_eq. cbn [get_state]. destruct (getDeployment id s) as [d|] eqn:Hd; [|done].
  intros _. destruct (find_Some_elem _ _ _ Hd) as [Hin Hid]. bool_inv.
  destruct (ext_deployments _ _ (run_extends calls s (wf_run trace)) d Hin) as (d' & Hin' & Hreq & _).
  destruct (getDeployment id (run calls s)) as [x|] eqn:Hx; [done|]. exfalso.
  unfold getDeployment in Hx. rewrite find_none_iff_all in Hx. specialize (Hx d' Hin'). bool_inv. apply Hx.
  unfold id_of in *. by rewrite Hreq.
Qed.

(** C11: A request that failed after it was reserved is never settled: as long as no result is recorded for
    it, which only a request that ran does, the same request is answered as ambiguous, for ever. *)
Theorem failed_request_stays_pending `{!CryptoLaws C} (trace : list db_op) (operation requestId : string)
    (raw : props json) (e : service_error) (h : list event) (w w1 : World) :
  ledger w = run trace empty_ledger -> (forall n, canonical_timestamp (clock n) = true) ->
  start config options clock machine operation requestId raw w = (Err e, w1) -> ledger w1 <> ledger w ->
  unfinished requestId h ->
  exists w2, start config options clock machine operation requestId raw (after h w1) = (Err op_ambiguous, w2) /\
    ledger w2 = ledger (after h w1).
Proof using.
  intros Hw Hclock E Hne Hun. pose proof (start_reserves operation requestId raw w) as H. rewrite E in H. cbn [snd] in H.
  destruct (H Hne) as (Hh & Hd & _ & i & s1 & x & Hr & Hi & Hx1 & Hx & Hp & Hm). clear H.
  destruct (after_keeps requestId x h w1 Hx) as (y & Hy & _ & Hsame). rewrite (Hsame Hun) in Hy. clear y Hsame.
  apply reserveIntent_reserved in Hr as (Hv & Hc & _ & _).
  assert (check_deployment i (ledger (after h w1)) = (Ok tt, ledger (after h w1))) as Hc'.
  { destruct (start_does config options clock machine requestId operation raw w) as (c1 & H1 & _). rewrite E in H1. cbn [snd] in H1.
    destruct (after_run h w1) as [c2 H2]. rewrite H2, H1. rewrite Hw in Hc |- *.
    pose proof (check_deployment_persists i trace (c1 ++ c2) Hc) as H. unfold run in *. by rewrite fold_left_app in H. }
  unfold start. rewrite bindM_eq. unfold guardM, lift. rewrite Hh. cbn [require].
  rewrite bool_decide_eq_false_2 by done. rewrite bindM_eq. cbn [now]. rewrite bindM_eq. unfold database. cbn [ledger ticks].
  rewrite <- Hi. rewrite (reserveIntent_known requestId _ operation i _ _ x); [|clear -Hv Hclock|done|done].
  - rewrite Hm, Hp, !bool_decide_eq_true_2 by done. cbn. by eexists.
  - unfold assertTimestamp in *. rewrite Hclock in *. exact Hv.
Qed.
End Requests.

(** ** A production process *)

Lemma reserve_tables {C : Crypto} {D : Dates} k m o i c s : let s' := snd (reserveIntent k m o i c s) in
  deployments s' = deployments s /\ deployment_sources s' = deployment_sources s /\
  deployment_products s' = deployment_products s /\ deployment_evidence s' = deployment_evidence s /\
  deployment_transitions s' = deployment_transitions s.
Proof.
  cbn zeta. unfold reserveIntent. rewrite lift_bind_cases. destruct (_ ≫= _) as [[]|x]; [|done].
  rewrite bindM_eq. destruct (check_deployment_cases i s) as [-> | ->]; [|done].
  destruct (transaction _ s) as [r s'] eqn:E. cbn [snd].
  apply transaction_cases in E as [(a & -> & E)|[_ ->]]; [|done].
  unfold insert_intent in *. by m_split.
Qed.

Section Production.
Context {C : Crypto} {D : Dates} {Lo : Locale}.
Context (config : RuntimeConfig) (options : ServiceOptions) (clock : nat -> string) (machine : option string).

Definition same_ledger (w w' : World) : Prop := ledger w' = ledger w.

#[local] Instance same_ledger_preorder : PreOrder same_ledger.
Proof using. split; [done|]. intros w1 w2 w3 H1 H2. unfold same_ledger in *. congruence. Qed.

Lemma query_same {A} (f : Ledger -> A) : respects same_ledger (query f).
Proof using. done. Qed.
Lemma database_same {A} (m : DM A) : respects eq m -> respects same_ledger (database m).
Proof using. intros Hm w. by apply database_reads. Qed.
#[local] Hint Resolve query_same : respects.

Lemma text_same_ledger v : respects same_ledger (text v).
Proof using. unfold text. respects_steps. Qed.
Lemma integer_same_ledger v : respects same_ledger (integer v).
Proof using. unfold integer. respects_steps. Qed.
#[local] Hint Resolve text_same_ledger integer_same_ledger : respects.
Lemma integer_or_same n v : respects same_ledger (integer_or n v).
Proof using. unfold integer_or. respects_steps. Qed.
Lemma required_same id : respects same_ledger (required id).
Proof using. unfold required. respects_steps. Qed.
#[local] Hint Resolve integer_or_same required_same : respects.
Lemma snapshot_same id : respects same_ledger (snapshot id).
Proof using. unfold snapshot. respects_steps. Qed.
Lemma listDeployments_same offset limit : respects same_ledger (database (listDeployments offset limit)).
Proof using. apply database_same. unfold listDeployments. respects_steps. Qed.
Lemma assertIntegrity_same : respects same_ledger (database assertIntegrity).
Proof using. apply database_same. unfold assertIntegrity. respects_steps. Qed.
Lemma now_same : respects same_ledger (now clock).
Proof using. done. Qed.
#[local] Hint Resolve snapshot_same listDeployments_same assertIntegrity_same now_same : respects.

(** The operations that need the fixture mode. *)
Definition fixture_operations : list string :=
  ["baby.release.build"; "baby.release.stage"; "baby.release.activate"; "baby.release.rollback"; "baby.release.repair";
   "baby.release.prune"; "baby.selfhost.acceptance.run"]%string.

Lemma production_run operation rid body w : fixtureMode options = false ->
  let (r, w') := run_operation config options clock machine operation rid body w in
  ledger w' = ledger w /\ (operation ∈ fixture_operations -> r = Err op_resource_unavailable).
Proof using.
  intros Hf. assert (forall A (f : unit -> SM A), (assertFixtureExecution options ≫= f) w = (Err op_resource_unavailable, w)) as Hfix.
  { intros A f. unfold assertFixtureExecution. rewrite Hf. done. }
  assert (forall m : SM (props json), respects same_ledger m -> operation ∉ fixture_operations ->
    let (r, w') := m w in ledger w' = ledger w /\ (operation ∈ fixture_operations -> r = Err op_resource_unavailable)) as Hread.
  { intros m Hm Hop. specialize (Hm w). by destruct (m w) as [r w']. }
  unfold run_operation. repeat case_bool_decide; subst.
  - apply Hread; [unfold status; respects_steps|by decided].
  - unfold build. by rewrite Hfix.
  - unfold stage. by rewrite Hfix.
  - apply Hread; [unfold verify; respects_steps|by decided].
  - unfold activate. by rewrite Hfix.
  - unfold rollback_. by rewrite Hfix.
  - unfold repair. by rewrite Hfix.
  - unfold prune. by rewrite Hfix.
  - apply Hread; [unfold sourceGet; respects_steps|by decided].
  - unfold acceptance. by rewrite Hfix.
  - apply Hread; [unfold evidencePage; respects_steps|by decided].
  - split; [done|]. unfold fixture_operations. rewrite !elem_of_cons, elem_of_nil. naive_solver.
Qed.

(** Without the fixture mode nothing is deployed: a request of any operation leaves the deployments,
    their sources, products, evidence and transitions as they were, and the operations that would change
    them never run. *)
Theorem production_deploys_nothing (operation requestId : string) (raw : props json) (w : World) :
  fixtureMode options = false ->
  let (r, w') := start config options clock machine operation requestId raw w in
  deployments (ledger w') = deployments (ledger w) /\ deployment_sources (ledger w') = deployment_sources (ledger w) /\
  deployment_products (ledger w') = deployment_products (ledger w) /\
  deployment_evidence (ledger w') = deployment_evidence (ledger w) /\
  deployment_transitions (ledger w') = deployment_transitions (ledger w) /\
  (operation ∈ fixture_operations -> forall result, r <> Ok (ran result)).
Proof using.
  intros Hf. unfold start. rewrite bindM_eq. unfold guardM, lift. destruct (handles operation); cbn [require]; [|done].
  destruct (bool_decide _); [done|]. rewrite bindM_eq. cbn [now]. rewrite bindM_eq. unfold database. cbn [ledger ticks].
  pose proof (reserve_tables requestId (semantic operation raw) operation
    (if operation === "baby.release.build"%string then None
     else truthy_text (match prop "deploymentId" raw with JStr id => Some id | _ => None end)) (clock (ticks w)) (ledger w)) as Ht.
  destruct (reserveIntent _ _ _ _ _ (ledger w)) as [[[| |d t|x]|e] s1]; cbn [snd] in Ht; cbn [ledger];
    destruct Ht as (H1 & H2 & H3 & H4 & H5); try by (split_and!).
  unfold mapping_errors. rewrite bindM_eq.
  pose proof (production_run operation requestId raw {| ledger := s1; ticks := S (ticks w) |} Hf) as H.
  destruct (run_operation _ _ _ _ _ _ _ _) as [[result|e] w']; cbn -[fixture_operations] in *; destruct H as [-> Hop].
  - split_and!; try done. intros Ho. by specialize (Hop Ho).
  - by split_and!.
Qed.
End Production.

(** ** Witnesses *)

Section Witnesses.
#[local] Existing Instance toy_crypto.
#[local] Existing Instance toy_laws.
#[local] Existing Instance Demo.locale.
#[local] Instance one_moment : Dates := {| date_value := fun _ => Some 0; to_iso := fun _ => "1"%string |}.

Definition initial : World := {| ledger := empty_ledger; ticks := 0 |}.
Definition moment (n : nat) : string := "1".
Abbreviation refused := (start default_config (Demo.options false) moment None "baby.release.build" "request-1" Demo.build_body).

Lemma refused_reserves : ledger (snd (refused initial)) <> ledger initial.
Proof. intros E. apply (f_equal (fun s => length (request_intents s))) in E. vm_compute in E. discriminate. Qed.

Lemma service_follows_path_witness :
  let w' := snd (start default_config (Demo.options true) moment None "baby.release.build" "request-1" Demo.build_body initial) in
  exists calls, ledger w' = run calls (ledger initial) /\
    Forall (authorized default_config (Demo.options true) "request-1") calls /\
    sublist (moves_of calls) BUILD_PATH.
Proof.
  exact (service_follows_path default_config (Demo.options true) moment None "baby.release.build" "request-1" Demo.build_body initial).
Defined.

Lemma production_deploys_nothing_witness :
  let (r, w') := refused initial in
  deployments (ledger w') = deployments (ledger initial) /\
  deployment_sources (ledger w') = deployment_sources (ledger initial) /\
  deployment_products (ledger w') = deployment_products (ledger initial) /\
  deployment_evidence (ledger w') = deployment_evidence (ledger initial) /\
  deployment_transitions (ledger w') = deployment_transitions (ledger initial) /\
  ("baby.release.build"%string ∈ fixture_operations -> forall result, r <> Ok (ran result)).
Proof. apply production_deploys_nothing. reflexivity. Defined.


Lemma failed_request_stays_pending_witness :
  exists w1 w2, refused initial = (Err op_resource_unavailable, w1) /\
    refused w1 = (Err op_ambiguous, w2) /\ ledger w2 = ledger w1.
Proof.
  destruct (refused initial) as [r w1] eqn:E.
  assert (r = Err op_resource_unavailable) as -> by (apply (f_equal fst) in E; vm_compute in E; symmetry; exact E).
  assert (ledger w1 <> ledger initial) as Hne by (pose proof refused_reserves as H; rewrite E in H; exact H).
  assert (forall n, canonical_timestamp (moment n) = true) as Hclock by reflexivity.
  destruct (failed_request_stays_pending default_config (Demo.options false) moment None [] "baby.release.build" "request-1"
    Demo.build_body op_resource_unavailable [] initial w1 eq_refl Hclock E Hne) as (w2 & H1 & H2).
  - constructor.
  - exists w1, w2. split_and!; [done|exact H1|exact H2].
Defined.
End Witnesses.
